(* ===== verification/_CoqProject ===== *)
-Q . S2P
Prelude.v
Coroutines.v
Migrations.v
MigrationsProps.v
Database.v
DatabaseProps.v
Redis.v
Schema.v
JsonText.v
World.v
Concrete.v
Tokens.v
Users.v
Cache.v
AppConfig.v
Roles.v
Totp.v
TwoFactorRows.v
Auth.v
Pagination.v
DeadLetter.v
PeriodicTasks.v
BeatScheduler.v
ApiKeys.v
EventBus.v
WebhookUtils.v
Webhooks.v
Notifications.v
Http.v
Admin.v
AdminViews.v
AdminQueries.v
WebSockets.v
Exports.v
Storage.v
Jobs.v
Startup.v
Concurrent.v
Routes.v
Invariants.v
SideInvariants.v
System.v
Service.v
Idempotency.v
Scenario.v
AuthLemmas.v
AuthProps.v
IdentityProps.v
TwoFactorProps.v
PaginationProps.v
DataProps.v
IdempotencyProps.v
EventBusProps.v
DeadLetterProps.v
PeriodicProps.v
ApiKeyProps.v
WebhookProps.v
NotificationProps.v
HttpProps.v
AdminProps.v
AdminQueryProps.v
WebSocketProps.v
ExportProps.v
StorageProps.v
JobProps.v
StartupProps.v
ConcurrentProps.v
