(* ===== verification/Prelude.v ===== *)
(** * Verification of the FastAPI / asyncpg service template

    The repository is a web service: FastAPI routes over PostgreSQL (asyncpg),
    Redis, Celery and an event bus on Redis streams.  This library models its
    core in Rocq, translated from the Python of src/api, and proves what makes it
    correct, or shows where it is not.

    ** How the program is modelled

    A coroutine is a function of a monad of state and exceptions ([M] below): an
    exception does not undo the writes before it.  The state of the service is
    [World] ([World.v]): the tables of the primary database and of a read-only
    replica, Redis, the clock, the draws of random values made so far, the event
    stream, the audit inserts that were scheduled, the Celery messages sent, the context
    variables, and the failures that Redis and the broker will show.  A SQL statement is a
    function on [Tables] ([Schema.v]) that checks the keys, unique constraints and
    foreign keys of the migrations.  Where requests interleave, a coroutine is a value
    of [Coroutines.Co], a tree of the steps between its awaits, which runs alone as the
    monad does and in a pool one step at a time.  Third-party code is a parameter with laws
    where the code relies on them: [Ext] (PyJWT, bcrypt, Fernet, pyotp, sha256,
    uuid), [Redis] (the commands used), [Google], [Celery], [WebhookExt] (HMAC,
    name resolution), [HttpClient], [NotifyExt] (templates, UUID texts), [MailClient],
    [PushClient], [DateExt], [S3Ext], [Starlette] (the headers of a response),
    [Http.Libraries] (the middlewares of libraries).  [Concrete.v] gives an instance of
    each main one, on which the witnesses compute.

    ** The parts, and the files that hold them

    - Migration runner, src/api/migrate.py: [Migrations], [MigrationsProps].
    - Database layer, core/database.py (pools, regions, retry, health checks):
      [Database], [DatabaseProps].  It is a model of its own, with the settings that each
      connection of a pool carries; the services below see the database as tables, and
      know only whether a read goes to a replica.
    - Redis as a class with laws, and as a map: [Redis].  JSON texts
      ([json.dumps], [json.loads], UTF-8) and Python values: [JsonText].
    - Tokens and passwords, core/auth.py: [Tokens].  Users, dao/user.py and
      service/user.py: [Users].  Cache decorators, core/cache.py: [Cache].
      Versions and configuration, */version.py and */system_config.py: [AppConfig].
      Roles, */role.py: [Roles].  One-time codes, utils/totp.py: [Totp]; backup codes as
      the dicts and the column that hold them: [TwoFactorRows].
      Authentication, service/auth.py and core/dependencies.py: [Auth].
      Cursors, utils/pagination.py: [Pagination].  Routes: [Routes].
    - Idempotent routes, core/idempotency.py: [Idempotency].  Event bus,
      core/events: [EventBus].
    - Dead letters (dead_letter_task.py, the failure signal of celery_app.py):
      [DeadLetter].  Schedules (periodic_task.py): [PeriodicTasks].  The scheduler
      of beat, core/celery_scheduler.py: [BeatScheduler].  API keys (api_key.py,
      [get_api_key]): [ApiKeys].  Webhooks (webhook.py, webhook_log.py, adapters,
      tasks.py, utils.py): [WebhookUtils], [Webhooks].
    - Notifications (apps/notification): the registry of devices, the channels, the
      stream of server-sent events, tasks, workers and listeners: [Notifications].
      The WebSocket connections of a worker, channels/websocket.py: [WebSockets].
    - Requests around the routes: [Http] has the middlewares of region, client and
      locale, the request log and the profiler of main.py, core/i18n.py,
      core/exception_handlers.py, the key of the rate limits and the health check; the
      middlewares of libraries stand around them, in the order of main.py, as
      parameters that answer a request or pass it on.
    - The admin portal (core/admin.py, utils/admin_view.py, admin_views/*.py): [Admin]
      has its sessions, [AdminViews] the views of users, roles, versions,
      configuration, schedules, keys, dead letters and webhooks, [AdminQueries] the
      filters and the views of the two logs, whose query text is built as the code
      builds it.
    - The export of dead letters: [Exports].  Object storage, service/s3.py and
      utils/pydantic_utils.py: [Storage].  The script of the default admin, the
      removal of old logs, the discovery of tasks and the resources of a Celery
      worker: [Jobs].
    - The life of a process, [lifespan] of main.py, over the pools of [Database], the
      clients of Redis, the event bus, [Migrations] and [WebSockets], with the feature
      flags and the monitor of the event loop: [Startup].
    - The handlers whose interleaving matters, as trees of steps: [Concurrent] (the
      answer to a two-factor challenge, cached reads, the configuration).
    - [Invariants] and [SideInvariants]: the well-formedness of the tables, and the
      interfaces [TableInv] and [SideInv] of the predicates that statements keep.
      [System] and [Service]: the service as a transition system whose steps are
      the handlers, tasks and scheduler turns, and the proof that every step keeps
      every such predicate.  [Scenario]: the states the witnesses run on.

    ** What the theorems show

    - Authentication ([AuthProps], [TwoFactorProps], [IdentityProps]): what a token
      grants and when it is accepted; revocation by session and by version, over
      all sequences of steps; two-factor challenges, codes and backup codes;
      impersonation; Google login; sudo tokens.
    - Data ([DataProps], [PaginationProps]): reachable tables are well formed,
      versions never fall, cached reads see changes, pages cover listings.
    - Concurrency ([IdempotencyProps], [EventBusProps], [ConcurrentProps]):
      interleavings of requests with one idempotency key, of answers to one
      challenge, of reads with an update; order and multiplicity of event handling.
    - Operations ([DeadLetterProps], [PeriodicProps], [ApiKeyProps],
      [WebhookProps]): a failed task is kept and can be sent again, and when it is lost; a
      schedule change reaches beat; the routes of API keys accept none, and a change of a
      key is committed and then raises, since the client they are given lacks the
      command; webhook signatures and targets; what is never delivered.
    - Notifications ([NotificationProps], [WebSocketProps]): the device statements
      are a registry of tokens; an open stream and an open socket get what is
      published for the user; a channel that fails does not stop the others.
    - The edge ([HttpProps], [StorageProps], [ExportProps]): the context a handler
      runs in, and that it is restored; what an upload URL allows; the CSV export
      is read back.
    - The portal ([AdminProps], [AdminQueryProps]): who signs in, what a revocation
      and the form of a role do, that the count of a log matches its list.  Its views
      are steps of [Service], so the invariants of the tables hold with it too.
    - Jobs ([JobProps]): the default admin, old logs, worker processes.
    - The process ([StartupProps]): what a start leaves running, that it stops where
      migrations are pending, and what a stop closes.
    - Infrastructure ([MigrationsProps], [DatabaseProps]): upgrades run a prefix of what
      they select, and can be undone where the scripts can; writes go to the primary with
      the settings of their own request, reads to a healthy region.

    Several theorems state what the code does where it means something else: the
    manifest lists them as findings.

    ** Bounds

    Recursion is structural but for: the 100 attempts at a user name, the three
    attempts of the database retry and the batch of ten stream entries, all numbers
    of the code; and the parser [loads], whose fuel is twice the length of its
    text, which [loads_dumps] shows to be enough for any text [dumps] writes.
    Integers are [Z]; the widths that matter are stated (INCR to 2^63, INTEGER
    columns, [timedelta]).  Times are whole seconds, so that the rounding of the rest of a
    session's life to an integer (dao/user.py) is the identity.

    ** Not modelled

    Column length limits but where a statement cuts a text; the arithmetic of floats (a
    float in JSON is its text; NaN and the infinities are as [json.dumps] writes and
    [json.loads] reads them), and strings with lone surrogates, in JSON; audit triggers (the rows of the audit log are a
    parameter of its view); the counting of rate limits; response serialisation;
    [execution_time_ms]; the library code of Celery beat after
    [DatabaseBeatScheduler.tick], of starlette-admin (forms, cookies, pages; that it runs
    a view only after [authenticate] gave a user is taken from its documentation, in
    [Admin.admin_request]) and of the clients of mail, push and storage.  Interleaving inside a handler is modelled
    for idempotent routes, the opening of WebSockets and the handlers of [Concurrent].
    Left out as calls of libraries without a state of their own: the tracing of
    telemetry.py, the counters of metrics.py, the handlers and colours of
    logging_config.py, the mounting of routers in main.py, the bindings of container.py,
    and the tests. *)

From Stdlib Require Import ZArith Lia Ascii String List Bool.
From stdpp Require Import base gmap strings sorting list.


Declare Scope py_scope.
Delimit Scope py_scope with py.

(** ** Results and the state monad with exceptions

    A Python coroutine that reads and writes a shared state and may raise is a
    function from the state to an outcome and the state it leaves.  An
    exception does not undo the writes made before it: the state comes back
    next to the outcome. *)

Inductive outcome (E A : Type) : Type :=
| Ok (a : A)
| Err (e : E).
Arguments Ok {E A} a.
Arguments Err {E A} e.

Definition is_ok {E A} (o : outcome E A) : bool :=
  match o with Ok _ => true | Err _ => false end.

Definition is_err {E A} (o : outcome E A) : bool := negb (is_ok o).

Definition M (W E A : Type) : Type := W -> outcome E A * W.

Section monad.
Context {W E : Type}.

Definition ret {A} (a : A) : M W E A := fun w => (Ok a, w).

Definition raise {A} (e : E) : M W E A := fun w => (Err e, w).

Definition bind {A B} (m : M W E A) (k : A -> M W E B) : M W E B :=
  fun w => match m w with
           | (Ok a, w') => k a w'
           | (Err e, w') => (Err e, w')
           end.

Definition get : M W E W := fun w => (Ok w, w).

Definition gets {A} (f : W -> A) : M W E A := fun w => (Ok (f w), w).

Definition put (w : W) : M W E unit := fun _ => (Ok tt, w).

Definition modify (f : W -> W) : M W E unit := fun w => (Ok tt, f w).

(** A pure computation that may raise. *)
Definition lift {A} (o : outcome E A) : M W E A := fun w => (o, w).

(** [raise_if b e]: the guard clause [if b: raise e]. *)
Definition raise_if (b : bool) (e : E) : M W E unit :=
  if b then raise e else ret tt.

(** [when b m]: [if b: m]. *)
Definition when (b : bool) (m : M W E unit) : M W E unit :=
  if b then m else ret tt.

(** [try: m except e: h e]. *)
Definition try_catch {A} (m : M W E A) (h : E -> M W E A) : M W E A :=
  fun w => match m w with
           | (Ok a, w') => (Ok a, w')
           | (Err e, w') => h e w'
           end.

(** [try: m finally: f]; an exception of [f] replaces the outcome. *)
Definition finally {A} (m : M W E A) (f : M W E unit) : M W E A :=
  fun w => match m w with
           | (o, w') => match f w' with
                        | (Ok _, w'') => (o, w'')
                        | (Err e, w'') => (Err e, w'')
                        end
           end.

(** A database transaction: on an exception the part of the state that
    [restore old new] takes from [old] is rolled back. *)
Definition transaction {A} (restore : W -> W -> W) (m : M W E A) : M W E A :=
  fun w => match m w with
           | (Ok a, w') => (Ok a, w')
           | (Err e, w') => (Err e, restore w w')
           end.

(** [for x in l: f x]. *)
Fixpoint for_each {A} (l : list A) (f : A -> M W E unit) : M W E unit :=
  match l with
  | [] => ret tt
  | x :: l' => bind (f x) (fun _ => for_each l' f)
  end.

(** [[f x for x in l]] for an effectful [f]. *)
Fixpoint map_m {A B} (f : A -> M W E B) (l : list A) : M W E (list B) :=
  match l with
  | [] => ret []
  | x :: l' => bind (f x) (fun y => bind (map_m f l') (fun ys => ret (y :: ys)))
  end.

(** The state left by a computation, and the value it produced. *)
Definition state_of {A} (m : M W E A) (w : W) : W := snd (m w).
Definition outcome_of {A} (m : M W E A) (w : W) : outcome E A := fst (m w).
End monad.

(** Sequencing of pure results. *)
Definition obind {E A B} (o : outcome E A) (k : A -> outcome E B) : outcome E B :=
  match o with Ok a => k a | Err e => Err e end.

Arguments raise {W E A} e _ /.
Arguments ret {W E A} a _ /.

Notation "'let!' x ':=' m 'in' k" := (bind m (fun x => k))
  (at level 10, x as pattern, m at level 100, k at level 200,
   format "'[v' 'let!'  x  ':='  m  'in' '/' k ']'") : py_scope.
Notation "m ';;!' k" := (bind m (fun _ => k))
  (at level 199, right associativity, format "'[v' m  ';;!' '/' k ']'") : py_scope.
Open Scope py_scope.

(** ** Reasoning about runs *)

Create HintDb py discriminated.

Section monad_lemmas.
Context {W E : Type}.
Implicit Types w : W.

Lemma bind_ok_inv {A B} (m : M W E A) (k : A -> M W E B) w b w' :
  bind m k w = (Ok b, w') ->
  exists a w1, m w = (Ok a, w1) /\ k a w1 = (Ok b, w').
Proof. unfold bind. destruct (m w) as [[a|e] w1]; [eauto|congruence]. Qed.

Lemma bind_err_inv {A B} (m : M W E A) (k : A -> M W E B) w e w' :
  bind m k w = (Err e, w') ->
  m w = (Err e, w') \/
  exists a w1, m w = (Ok a, w1) /\ k a w1 = (Err e, w').
Proof.
  unfold bind. destruct (m w) as [[a|e'] w1]; [eauto|].
  intros [= -> ->]. by left.
Qed.

Lemma bind_ok {A B} (m : M W E A) (k : A -> M W E B) w a w1 :
  m w = (Ok a, w1) -> bind m k w = k a w1.
Proof. unfold bind. by intros ->. Qed.

Lemma bind_err {A B} (m : M W E A) (k : A -> M W E B) w e w1 :
  m w = (Err e, w1) -> bind m k w = (Err e, w1).
Proof. unfold bind. by intros ->. Qed.

Lemma bind_ret {A B} (a : A) (k : A -> M W E B) w : bind (ret a) k w = k a w.
Proof. done. Qed.

Lemma bind_assoc {A B C} (m : M W E A) (k : A -> M W E B) (h : B -> M W E C) w :
  bind (bind m k) h w = bind m (fun a => bind (k a) h) w.
Proof. unfold bind. by destruct (m w) as [[a|e] w1]. Qed.

Lemma raise_if_ok_inv b (e : E) w u w' :
  raise_if b e w = (Ok u, w') -> b = false /\ w' = w.
Proof. by destruct b; intros [= <- <-]. Qed.

Lemma raise_if_err_inv b (e e' : E) w w' :
  raise_if b e w = (Err e', w') -> b = true /\ e' = e /\ w' = w.
Proof. by destruct b; intros [= <- <-]. Qed.

Lemma transaction_ok_inv {A} (r : W -> W -> W) (m : M W E A) w a w' :
  transaction r m w = (Ok a, w') -> m w = (Ok a, w').
Proof. unfold transaction. by destruct (m w) as [[]]. Qed.

Lemma transaction_err_inv {A} (r : W -> W -> W) (m : M W E A) w e w' :
  transaction r m w = (Err e, w') -> exists w1, m w = (Err e, w1) /\ w' = r w w1.
Proof. unfold transaction. destruct (m w) as [[]]; [done|]. intros [= -> <-]. eauto. Qed.

Lemma when_ok_inv b (m : M W E unit) w u w' :
  when b m w = (Ok u, w') ->
  b = true /\ m w = (Ok u, w') \/ b = false /\ w' = w.
Proof. destruct b; [eauto|]. intros [= <-]. eauto. Qed.

Lemma obind_ok_inv {A B} (o : outcome E A) (k : A -> outcome E B) b :
  obind o k = Ok b -> exists a, o = Ok a /\ k a = Ok b.
Proof. destruct o; [|done]. eauto. Qed.

(** A computation that keeps a property of the state on every outcome. *)
Definition preserves {A} (P : W -> Prop) (m : M W E A) : Prop :=
  forall w, P w -> P (snd (m w)).

Lemma preserves_ret {A} P (a : A) : preserves P (ret a).
Proof. by intros w. Qed.
Lemma preserves_raise {A} P (e : E) : preserves P (@raise W E A e).
Proof. by intros w. Qed.
Lemma preserves_gets {A} P (f : W -> A) : preserves P (gets f).
Proof. by intros w. Qed.
Lemma preserves_raise_if P b (e : E) : preserves P (raise_if b e).
Proof. by intros w; destruct b. Qed.
Lemma preserves_modify P (f : W -> W) :
  (forall w, P w -> P (f w)) -> preserves P (@modify W E f).
Proof. intros Hf w. apply Hf. Qed.
Lemma preserves_bind {A B} P (m : M W E A) (k : A -> M W E B) :
  preserves P m -> (forall a, preserves P (k a)) -> preserves P (bind m k).
Proof.
  intros Hm Hk w Hw. unfold bind. specialize (Hm w Hw).
  destruct (m w) as [[a|e] w1]; simpl in *; [by apply Hk|done].
Qed.
Lemma preserves_try {A} P (m : M W E A) h :
  preserves P m -> (forall e, preserves P (h e)) -> preserves P (try_catch m h).
Proof.
  intros Hm Hk w Hw. unfold try_catch. specialize (Hm w Hw).
  destruct (m w) as [[a|e] w1]; simpl in *; [done|by apply Hk].
Qed.
Lemma preserves_finally {A} P (m : M W E A) f :
  preserves P m -> preserves P f -> preserves P (finally m f).
Proof.
  intros Hm Hf w Hw. unfold finally. specialize (Hm w Hw).
  destruct (m w) as [o w1]; simpl in *. specialize (Hf w1 Hm).
  by destruct (f w1) as [[]].
Qed.
Lemma preserves_when P b m : preserves P m -> preserves P (@when W E b m).
Proof. intros Hm. destruct b; [exact Hm|apply preserves_ret]. Qed.
Lemma preserves_for_each {A} P (l : list A) f :
  (forall x, preserves P (f x)) -> preserves P (@for_each W E A l f).
Proof.
  intros Hf. induction l as [|x l IH]; simpl; [apply preserves_ret|].
  by apply preserves_bind.
Qed.
End monad_lemmas.

Section returns.
Context {W E : Type}.

(** Every value a computation can return satisfies [Q]. *)
Definition returns {A} (Q : A -> Prop) (m : M W E A) : Prop :=
  forall w a w', m w = (Ok a, w') -> Q a.

Lemma returns_ret {A} (Q : A -> Prop) a : Q a -> returns Q (ret a).
Proof. intros HQ w a' w' [= <- _]. done. Qed.
Lemma returns_raise {A} (Q : A -> Prop) e : returns Q (raise e).
Proof. by intros w a w'. Qed.
Lemma returns_bind {A B} (Q1 : A -> Prop) (Q : B -> Prop) (m : M W E A) k :
  returns Q1 m -> (forall a, Q1 a -> returns Q (k a)) -> returns Q (bind m k).
Proof. intros Hm Hk w b w' (a & w1 & Ha & Hb)%bind_ok_inv. by eapply Hk; [eapply Hm|]. Qed.
Lemma returns_any {A} (m : M W E A) : returns (fun _ => True) m.
Proof. done. Qed.
Lemma returns_try {A} (Q : A -> Prop) (m : M W E A) h :
  returns Q m -> (forall e, returns Q (h e)) -> returns Q (try_catch m h).
Proof.
  intros Hm Hh w a w'. unfold try_catch. destruct (m w) as [[b|e] w1] eqn:Em.
  - intros [= <- _]. by eapply Hm.
  - apply Hh.
Qed.
End returns.

#[export] Hint Resolve preserves_ret preserves_raise preserves_gets
  preserves_raise_if preserves_bind preserves_try preserves_finally
  preserves_when preserves_for_each : py.

(** Inverts the equation of a run, one bind or guard at a time. *)
Ltac run_inv1 :=
  match goal with
  | H : (_, _) = (_, _) |- _ => injection H as H; subst
  | H : Ok _ = Err _ |- _ => discriminate H
  | H : Err _ = Ok _ |- _ => discriminate H
  | H : Ok _ = Ok _ |- _ => injection H as H; subst
  | H : Err _ = Err _ |- _ => injection H as H; subst
  | H : ret _ _ = (_, _) |- _ => unfold ret in H
  | H : raise _ _ = (_, _) |- _ => unfold raise in H
  | H : gets _ _ = (_, _) |- _ => unfold gets in H
  | H : get _ = (_, _) |- _ => unfold get in H
  | H : lift _ _ = (_, _) |- _ => unfold lift in H
  | H : put _ _ = (_, _) |- _ => unfold put in H
  | H : modify _ _ = (_, _) |- _ => unfold modify in H
  | H : raise_if _ _ _ = (Ok _, _) |- _ => apply raise_if_ok_inv in H as [? ->]
  | H : raise_if _ _ _ = (Err _, _) |- _ => apply raise_if_err_inv in H as (? & -> & ->)
  | H : transaction _ _ _ = (Ok _, _) |- _ => apply transaction_ok_inv in H
  | H : bind _ _ _ = (Ok _, _) |- _ => apply bind_ok_inv in H as (? & ? & ? & ?)
  end.
Ltac run_inv := repeat run_inv1.

(** The same for a run that raised: one goal per place it may have raised. *)
Ltac run_err_inv :=
  run_inv;
  repeat match goal with
  | H : bind _ _ _ = (Err _, _) |- _ =>
      apply bind_err_inv in H as [H|(? & ? & ? & H)]; run_inv
  end.

(** Case analysis on the innermost match of the goal or of a hypothesis. *)
Ltac case_goal := match goal with |- context [match ?x with _ => _ end] => destruct x eqn:? end.
Ltac case_in H := match type of H with context [match ?x with _ => _ end] => destruct x eqn:? end.

(** ** Python strings, restricted to ASCII *)

(** [str.isdecimal] on one character ([\d] of [re]). *)
Definition is_digit (c : ascii) : bool :=
  (48 <=? nat_of_ascii c)%nat && (nat_of_ascii c <=? 57)%nat.

Definition digit_val (c : ascii) : Z := Z.of_nat (nat_of_ascii c) - 48.

(** The characters [str.strip] removes. *)
Definition is_space (c : ascii) : bool :=
  let n := nat_of_ascii c in
  ((9 <=? n) && (n <=? 13) || (28 <=? n) && (n <=? 32))%nat.

(** The line boundaries of [str.splitlines] other than carriage return. *)
Definition is_line_break (c : ascii) : bool :=
  let n := nat_of_ascii c in
  ((10 <=? n) && (n <=? 12) || (28 <=? n) && (n <=? 30))%nat.

Definition LF : ascii := "010"%char.
Definition CR : ascii := "013"%char.

Definition lower_ascii (c : ascii) : ascii :=
  let n := nat_of_ascii c in
  if ((65 <=? n) && (n <=? 90))%nat then ascii_of_nat (n + 32) else c.

Fixpoint lower (s : string) : string :=
  match s with
  | EmptyString => EmptyString
  | String c s' => String (lower_ascii c) (lower s')
  end.

Fixpoint lstrip (s : string) : string :=
  match s with
  | EmptyString => EmptyString
  | String c s' => if is_space c then lstrip s' else s
  end.

Fixpoint rstrip (s : string) : string :=
  match s with
  | EmptyString => EmptyString
  | String c s' =>
      match rstrip s' with
      | EmptyString => if is_space c then EmptyString else String c EmptyString
      | t => String c t
      end
  end.

Definition strip (s : string) : string := lstrip (rstrip s).

Definition startswith (s pre : string) : bool := String.prefix pre s.

Fixpoint endswith (s suf : string) : bool :=
  if String.eqb s suf then true
  else match s with
       | EmptyString => false
       | String _ s' => endswith s' suf
       end.

(** [sub in s]. *)
Fixpoint contains (s sub : string) : bool :=
  if String.prefix sub s then true
  else match s with
       | EmptyString => false
       | String _ s' => contains s' sub
       end.

(** [s.splitlines()]: a final line break does not open an empty last line. *)
Fixpoint splitlines_aux (s cur : string) : list string :=
  match s with
  | EmptyString => if String.eqb cur EmptyString then [] else [cur]
  | String c s' =>
      if Ascii.eqb c CR then
        match s' with
        | String d s'' =>
            if Ascii.eqb d LF then cur :: splitlines_aux s'' EmptyString
            else cur :: splitlines_aux s' EmptyString
        | EmptyString => [cur]
        end
      else if is_line_break c then cur :: splitlines_aux s' EmptyString
      else splitlines_aux s' (String.append cur (String c EmptyString))
  end.
Definition splitlines (s : string) : list string := splitlines_aux s EmptyString.

(** [sep.join(l)]. *)
Definition join (sep : string) (l : list string) : string := String.concat sep l.

(** Text mode [open(..., "r").read()]: CR and CR LF become LF. *)
Fixpoint universal_newlines (s : string) : string :=
  match s with
  | EmptyString => EmptyString
  | String c s' =>
      if Ascii.eqb c CR then
        match s' with
        | String d s'' =>
            if Ascii.eqb d LF then String LF (universal_newlines s'')
            else String LF (universal_newlines s')
        | EmptyString => String LF EmptyString
        end
      else String c (universal_newlines s')
  end.

(** [s.split(sep)] for a one-character separator. *)
Fixpoint split_on_aux (sep : ascii) (s cur : string) : list string :=
  match s with
  | EmptyString => [cur]
  | String c s' =>
      if Ascii.eqb c sep then cur :: split_on_aux sep s' EmptyString
      else split_on_aux sep s' (String.append cur (String c EmptyString))
  end.
Definition split_on (sep : ascii) (s : string) : list string :=
  split_on_aux sep s EmptyString.

(** Every character satisfies [P]. *)
Fixpoint all_chars (P : ascii -> bool) (s : string) : bool :=
  match s with EmptyString => true | String c s' => P c && all_chars P s' end.

(** ** Python lists *)

(** [l[:n]] with Python's reading of a negative [n]. *)
Definition py_take {A} (n : Z) (l : list A) : list A :=
  if (n <? 0)%Z then take (Z.to_nat (Z.of_nat (length l) + n)) l
  else take (Z.to_nat n) l.

(** [l.index(x)]. *)
Fixpoint index_of {A} `{EqDecision A} (x : A) (l : list A) : option nat :=
  match l with
  | [] => None
  | y :: l' => if decide (y = x) then Some 0%nat else S <$> index_of x l'
  end.

(** [x in l]. *)
Definition mem {A} `{EqDecision A} (x : A) (l : list A) : bool :=
  bool_decide (x ∈ l).

(** The truth value of a Python string or list. *)
Definition truthy (s : string) : bool := negb (String.eqb s EmptyString).

(** [max] of a list of integers, [None] when [max] would raise. *)
Definition list_max (l : list Z) : option Z :=
  match l with [] => None | x :: l' => Some (fold_left Z.max l' x) end.
Definition list_min (l : list Z) : option Z :=
  match l with [] => None | x :: l' => Some (fold_left Z.min l' x) end.

(** ** Lemmas on lists and strings *)

Lemma mem_true {A} `{EqDecision A} (x : A) l : mem x l = true <-> x ∈ l.
Proof. apply bool_decide_eq_true. Qed.

Lemma mem_false {A} `{EqDecision A} (x : A) l : mem x l = false <-> x ∉ l.
Proof. apply bool_decide_eq_false. Qed.

Lemma index_of_Some {A} `{EqDecision A} (x : A) l i :
  index_of x l = Some i -> l !! i = Some x.
Proof.
  revert i; induction l as [|y l IH]; intros i; simpl; [done|].
  destruct (decide (y = x)) as [->|]; [by intros [= <-]|].
  destruct (index_of x l) as [j|]; simpl; [|done]. intros [= <-]. by apply IH.
Qed.

Lemma index_of_elem {A} `{EqDecision A} (x : A) l :
  x ∈ l -> exists i, index_of x l = Some i.
Proof.
  induction 1 as [x l|x y l Hx [i IH]]; simpl.
  - rewrite decide_True by done. eauto.
  - destruct (decide (y = x)); [eauto|]. rewrite IH. simpl. eauto.
Qed.

Lemma fold_left_max_spec l x :
  (x <= fold_left Z.max l x)%Z /\
  (forall y, y ∈ l -> (y <= fold_left Z.max l x)%Z) /\
  (fold_left Z.max l x = x \/ fold_left Z.max l x ∈ l).
Proof.
  revert x; induction l as [|a l IH]; intros x; simpl.
  - split; [lia|]. split; [|by left]. intros y Hy. by apply elem_of_nil in Hy.
  - destruct (IH (Z.max x a)) as (H1 & H2 & H3). split; [lia|]. split.
    + intros y [->|Hy]%elem_of_cons; [lia|auto].
    + destruct H3 as [H3|H3]; [|right; by right]. rewrite H3.
      destruct (Z.max_spec x a) as [[_ ->]|[_ ->]]; [right; left|by left].
Qed.

Lemma list_max_spec l m :
  list_max l = Some m -> m ∈ l /\ forall y, y ∈ l -> (y <= m)%Z.
Proof.
  destruct l as [|x l]; simpl; [done|]. intros [= <-].
  destruct (fold_left_max_spec l x) as (H1 & H2 & H3). split.
  - destruct H3 as [->|H3]; [left|by right].
  - intros y [->|Hy]%elem_of_cons; auto.
Qed.

Lemma fold_left_min_spec l x :
  (fold_left Z.min l x <= x)%Z /\
  (forall y, y ∈ l -> (fold_left Z.min l x <= y)%Z) /\
  (fold_left Z.min l x = x \/ fold_left Z.min l x ∈ l).
Proof.
  revert x; induction l as [|a l IH]; intros x; simpl.
  - split; [lia|]. split; [|by left]. intros y Hy. by apply elem_of_nil in Hy.
  - destruct (IH (Z.min x a)) as (H1 & H2 & H3). split; [lia|]. split.
    + intros y [->|Hy]%elem_of_cons; [lia|auto].
    + destruct H3 as [H3|H3]; [|right; by right]. rewrite H3.
      destruct (Z.min_spec x a) as [[_ ->]|[_ ->]]; [by left|right; left].
Qed.

Lemma list_min_spec l m :
  list_min l = Some m -> m ∈ l /\ forall y, y ∈ l -> (m <= y)%Z.
Proof.
  destruct l as [|x l]; simpl; [done|]. intros [= <-].
  destruct (fold_left_min_spec l x) as (H1 & H2 & H3). split.
  - destruct H3 as [->|H3]; [left|by right].
  - intros y [->|Hy]%elem_of_cons; auto.
Qed.

Lemma py_take_sublist {A} n (l : list A) : py_take n l `prefix_of` l.
Proof. unfold py_take. case_match; apply prefix_take. Qed.

Lemma elem_of_py_take {A} (x : A) n l : x ∈ py_take n l -> x ∈ l.
Proof. intros Hx. eapply elem_of_prefix; [done|apply py_take_sublist]. Qed.

Lemma string_app_cons c s t : String.append (String c s) t = String c (String.append s t).
Proof. done. Qed.

Lemma string_app_nil s : String.append s EmptyString = s.
Proof. induction s as [|c s IH]; [done|]. by rewrite string_app_cons, IH. Qed.

Lemma string_app_assoc s t u :
  String.append s (String.append t u) = String.append (String.append s t) u.
Proof. induction s as [|c s IH]; [done|]. by rewrite !string_app_cons, IH. Qed.

Lemma length_omap_le {A B} (f : A -> option B) l : (length (omap f l) <= length l)%nat.
Proof. induction l as [|x l IH]; csimpl; [lia|]. destruct (f x); csimpl; lia. Qed.

Lemma length_omap_eq {A B} (f : A -> option B) l :
  length (omap f l) = length l <-> forall x, x ∈ l -> is_Some (f x).
Proof.
  induction l as [|x l IH]; csimpl; [set_solver|].
  pose proof (length_omap_le f l) as Hle. destruct (f x) as [y|] eqn:E; csimpl.
  - split.
    + intros [= Hlen] z [->|Hz]%elem_of_cons; [eauto|]. by apply IH.
    + intros H. f_equal. apply IH. intros z Hz. apply H. by right.
  - split; [lia|]. intros H. destruct (H x) as [y Hy]; [left|congruence].
Qed.

Lemma StronglySorted_filter {A} (R : relation A) (P : A -> Prop) `{!forall x, Decision (P x)} l :
  StronglySorted R l -> StronglySorted R (filter P l).
Proof.
  induction 1 as [|x l Hl IH Hx]; [constructor|]. rewrite filter_cons.
  case_decide; [|done]. constructor; [done|]. rewrite Forall_forall in *.
  intros y [_ Hy]%list_elem_of_filter. by apply Hx.
Qed.

Lemma filter_none {A} (P : A -> Prop) `{!forall x, Decision (P x)} (l : list A) :
  (forall x, x ∈ l -> ~ P x) -> filter P l = [].
Proof.
  induction l as [|x l IH]; intros Hl; [done|]. rewrite filter_cons, decide_False by (apply Hl; left).
  apply IH. intros y Hy. apply Hl. by right.
Qed.

Lemma filter_every {A} (P : A -> Prop) `{!forall x, Decision (P x)} (l : list A) :
  (forall x, x ∈ l -> P x) -> filter P l = l.
Proof.
  induction l as [|x l IH]; intros Hl; [done|]. rewrite filter_cons, decide_True by (apply Hl; left).
  f_equal. apply IH. intros y Hy. apply Hl. by right.
Qed.

Lemma forallb_Forall {A} (f : A -> bool) l : forallb f l = true -> Forall (fun x => f x = true) l.
Proof. rewrite forallb_forall, Forall_forall. intros Hf x Hx. apply Hf. by apply list_elem_of_In. Qed.

Lemma all_chars_impl (P Q : ascii -> bool) s :
  (forall c, P c = true -> Q c = true) -> all_chars P s = true -> all_chars Q s = true.
Proof.
  intros H. induction s as [|c s IH]; [done|]. simpl. intros [Hc Hs]%andb_prop. by rewrite H, IH.
Qed.

Lemma split_on_clean sep s t cur :
  all_chars (fun c => negb (Ascii.eqb c sep)) s = true ->
  split_on_aux sep (s +:+ String sep t) cur = (cur +:+ s) :: split_on_aux sep t EmptyString.
Proof.
  revert cur. induction s as [|c s IH]; intros cur; simpl.
  - intros _. rewrite Ascii.eqb_refl. by rewrite string_app_nil.
  - intros [Hc Hs]%andb_prop. apply negb_true_iff in Hc as ->. rewrite IH by done.
    f_equal. by rewrite <- string_app_assoc.
Qed.

Lemma split_on_last sep s cur :
  all_chars (fun c => negb (Ascii.eqb c sep)) s = true -> split_on_aux sep s cur = [cur +:+ s].
Proof.
  revert cur. induction s as [|c s IH]; intros cur; simpl.
  - intros _. by rewrite string_app_nil.
  - intros [Hc Hs]%andb_prop. apply negb_true_iff in Hc as ->. rewrite IH by done.
    by rewrite <- string_app_assoc.
Qed.

Lemma str_prefix_nil s : String.prefix EmptyString s = true.
Proof. by destruct s. Qed.

Lemma substring_all s : String.substring 0 (String.length s) s = s.
Proof. induction s as [|c s IH]; simpl; [done|]. by rewrite IH. Qed.

Lemma string_length_app s t : String.length (s +:+ t) = (String.length s + String.length t)%nat.
Proof. induction s as [|c s IH]; [done|]. rewrite string_app_cons. simpl. by rewrite IH. Qed.

(** What follows the first part of a text. *)
Lemma substring_after s t : String.substring (String.length s) (String.length (s +:+ t) - String.length s) (s +:+ t) = t.
Proof.
  rewrite string_length_app. replace (_ + _ - _)%nat with (String.length t) by lia.
  induction s as [|c s IH]; [apply substring_all|exact IH].
Qed.

Lemma str_prefix_app mark rest : String.prefix mark (mark +:+ rest) = true.
Proof.
  induction mark as [|c mark IH]; [apply str_prefix_nil|].
  change (String c mark +:+ rest) with (String c (mark +:+ rest)). cbn [String.prefix]. by destruct (ascii_dec c c).
Qed.

Lemma rstrip_clean s : all_chars (fun c => negb (is_space c)) s = true -> rstrip s = s.
Proof.
  induction s as [|c s IH]; [done|]. simpl. intros [Hc Hs]%andb_prop. rewrite (IH Hs).
  destruct s; [|done]. by apply negb_true_iff in Hc as ->.
Qed.

Lemma strip_clean s : all_chars (fun c => negb (is_space c)) s = true -> strip s = s.
Proof.
  intros Hs. unfold strip. rewrite (rstrip_clean s Hs). destruct s as [|c s]; [done|]. simpl in *.
  apply andb_prop in Hs as [Hc _]. by apply negb_true_iff in Hc as ->.
Qed.
