(* ===== verification/Coroutines.v ===== *)
(** * Coroutines

    A request runs until it awaits the answer of a server; then others may run.  [Co]
    is a computation cut at its awaits: what it does up to the next one, and the rest.
    [atomic] is one piece; [run_co] runs the pieces one after the other, without anything
    in between; a [Pool] is several coroutines on one shared state, and [pool_step]
    lets any of them do its next piece. *)

From Stdlib Require Import List.
From stdpp Require Import base list relations.
From S2P Require Import Prelude.
Local Open Scope list_scope.

Section co.
Context {W E : Type}.

Inductive Co (A : Type) : Type :=
| Fin (o : outcome E A)
| Await (m : W -> Co A * W).
Arguments Fin {A} o.
Arguments Await {A} m.

Definition atomic {A} (m : M W E A) : Co A := Await (fun w => let '(o, w') := m w in (Fin o, w')).

Fixpoint co_bind {A B} (c : Co A) (k : A -> Co B) : Co B :=
  match c with
  | Fin (Ok a) => k a
  | Fin (Err e) => Fin (Err e)
  | Await m => Await (fun w => let '(c', w') := m w in (co_bind c' k, w'))
  end.

Fixpoint run_co {A} (c : Co A) : M W E A := fun w =>
  match c with
  | Fin o => (o, w)
  | Await m => let '(c', w') := m w in run_co c' w'
  end.

Definition resume {A} (c : Co A) (w : W) : Co A * W :=
  match c with Fin o => (Fin o, w) | Await m => m w end.

Record Pool (A : Type) := { members : list (Co A); common : W }.
Arguments members {A}.
Arguments common {A}.

(** One piece of one coroutine, or a change from outside. *)
Inductive pool_step {A} (outside : W -> W -> Prop) : Pool A -> Pool A -> Prop :=
| pool_resume i c s : members s !! i = Some c ->
    pool_step outside s {| members := <[i := fst (resume c (common s))]> (members s); common := snd (resume c (common s)) |}
| pool_outside w s : outside (common s) w -> pool_step outside s {| members := members s; common := w |}.

(** The pieces in the order of a schedule. *)
Fixpoint run_turns {A} (sched : list nat) (s : Pool A) : Pool A :=
  match sched with
  | [] => s
  | i :: sched' =>
      match members s !! i with
      | None => run_turns sched' s
      | Some c => run_turns sched'
          {| members := <[i := fst (resume c (common s))]> (members s); common := snd (resume c (common s)) |}
      end
  end.

(** ** Without anything in between *)

Lemma run_atomic {A} (m : M W E A) w : run_co (atomic m) w = m w.
Proof. unfold atomic. cbn. by destruct (m w). Qed.

Lemma run_bind {A B} (c : Co A) (k : A -> Co B) w : run_co (co_bind c k) w = bind (run_co c) (fun a => run_co (k a)) w.
Proof.
  revert c w. fix IH 1. intros c w. destruct c as [[a|e]|m]; [done|done|]. unfold bind in *. cbn.
  destruct (m w) as [c' w']. apply IH.
Qed.

(** ** Facts that stay *)

Section facts.
Context (K : W -> Prop).

(** Every piece keeps [K]. *)
Fixpoint pres {A} (c : Co A) : Prop :=
  match c with
  | Fin _ => True
  | Await m => forall w, let '(c', w') := m w in (K w -> K w') /\ pres c'
  end.

(** It ends with a result only after a piece that gives [K]. *)
Fixpoint late {A} (c : Co A) : Prop :=
  match c with
  | Fin (Ok _) => False
  | Fin (Err _) => True
  | Await m => forall w, let '(c', w') := m w in K w' \/ late c'
  end.

(** Where [K] holds it ends with no result. *)
Fixpoint doomed {A} (c : Co A) : Prop :=
  match c with
  | Fin (Ok _) => False
  | Fin (Err _) => True
  | Await m => forall w, K w -> let '(c', _) := m w in doomed c'
  end.

Lemma pres_atomic {A} (m : M W E A) : preserves K m -> pres (atomic m).
Proof. intros Hm w. specialize (Hm w). destruct (m w) as [o w']. by split. Qed.

Lemma pres_bind {A B} (c : Co A) (k : A -> Co B) : pres c -> (forall a, pres (k a)) -> pres (co_bind c k).
Proof.
  intros Hc Hk. revert c Hc. fix IH 1. intros c. destruct c as [[a|e]|m]; [intros _; apply Hk|done|]. cbn. intros Hc w.
  specialize (Hc w). destruct (m w) as [c' w']. destruct Hc as [Hw Hc]. split; [exact Hw|]. apply IH, Hc.
Qed.

Lemma late_atomic {A} (m : M W E A) : (forall w a w', m w = (Ok a, w') -> K w') -> late (atomic m).
Proof. intros Hm w. specialize (Hm w). destruct (m w) as [[a|e] w']; [left; by eapply Hm|by right]. Qed.

Lemma late_bind_l {A B} (c : Co A) (k : A -> Co B) : late c -> late (co_bind c k).
Proof.
  revert c. fix IH 1. intros c. destruct c as [[a|e]|m]; [done|done|]. cbn. intros Hc w.
  specialize (Hc w). destruct (m w) as [c' w']. destruct Hc as [Hw|Hc]; [by left|right]. apply IH, Hc.
Qed.

Lemma late_bind_r {A B} (c : Co A) (k : A -> Co B) : (forall a, late (k a)) -> late (co_bind c k).
Proof.
  intros Hk. revert c. fix IH 1. intros c. destruct c as [[a|e]|m]; [apply Hk|done|]. cbn. intros w.
  destruct (m w) as [c' w']. right. apply IH.
Qed.

Lemma doomed_atomic_bind {A B} (m : M W E A) (k : A -> Co B) :
  (forall w a w', K w -> m w = (Ok a, w') -> doomed (k a)) -> doomed (co_bind (atomic m) k).
Proof.
  intros Hm w Hw. specialize (Hm w). destruct (m w) as [[a|e] w']; [|done]. by eapply Hm.
Qed.

(** Every piece keeps [K], and where [K] holds a result is as [Q] says. *)
Fixpoint good {A} (Q : A -> Prop) (c : Co A) : Prop :=
  match c with
  | Fin (Ok a) => Q a
  | Fin (Err _) => True
  | Await m => forall w, K w -> let '(c', w') := m w in K w' /\ good Q c'
  end.

Lemma good_atomic {A} (Q : A -> Prop) (m : M W E A) :
  (forall w, K w -> K (snd (m w)) /\ match fst (m w) with Ok a => Q a | Err _ => True end) -> good Q (atomic m).
Proof. intros Hm w Hw. specialize (Hm w Hw). destruct (m w) as [[a|e] w']; exact Hm. Qed.

Lemma good_bind {A B} (P : A -> Prop) (Q : B -> Prop) (c : Co A) (k : A -> Co B) :
  good P c -> (forall a, P a -> good Q (k a)) -> good Q (co_bind c k).
Proof.
  intros Hc Hk. revert c Hc. fix IH 1. intros c. destruct c as [[a|e]|m]; [apply Hk|done|]. cbn. intros Hc w Hw.
  specialize (Hc w Hw). destruct (m w) as [c' w']. destruct Hc as [Hw' Hc]. split; [exact Hw'|]. apply IH, Hc.
Qed.

(** *** Pools *)

Context {A : Type} (outside : W -> W -> Prop) (Hout : forall w w', outside w w' -> K w -> K w').
Implicit Types s : Pool A.

Definition pool_ok s : Prop := Forall pres (members s) /\ (K (common s) \/ Forall late (members s)).

Lemma resume_pres (c : Co A) w : pres c -> (K w -> K (snd (resume c w))) /\ pres (fst (resume c w)).
Proof.
  destruct c as [o|m]; [done|]. intros Hc. specialize (Hc w). cbn. destruct (m w) as [c' w']. exact Hc.
Qed.

Lemma pool_ok_step s s' : pool_ok s -> pool_step outside s s' -> pool_ok s' /\ (K (common s) -> K (common s')).
Proof.
  intros [Hp Hl] Hs. destruct Hs as [i c s Hi|w s Ho]; cbn.
  - assert (pres c) as Hc by (rewrite Forall_lookup in Hp; by eapply Hp).
    apply (resume_pres c (common s)) in Hc as [Hk Hc]. split; [|exact Hk]. split.
    + by apply Forall_insert.
    + cbn. destruct Hl as [Hl|Hl]; [left; by apply Hk|].
      assert (late c) as Hlc by (rewrite Forall_lookup in Hl; by eapply Hl).
      destruct c as [o|m]; [right; by apply Forall_insert|]. specialize (Hlc (common s)). cbn.
      destruct (m (common s)) as [c' w']. destruct Hlc as [Hlc|Hlc]; [by left|right; by apply Forall_insert].
  - split; [|by apply Hout]. split; [done|]. destruct Hl as [Hl|Hl]; [left; by eapply Hout|by right].
Qed.

Lemma pool_ok_steps s s' : pool_ok s -> rtc (pool_step outside) s s' -> pool_ok s' /\ (K (common s) -> K (common s')).
Proof.
  intros Hs Hr. induction Hr as [s|s s1 s' Hstep _ IH]; [done|].
  destruct (pool_ok_step s s1 Hs Hstep) as [H1 H2]. destruct (IH H1) as [H3 H4]. auto.
Qed.

(** Results of coroutines that only rely on what all of them keep. *)
Lemma good_results (Q : A -> Prop) s s' i a :
  K (common s) -> Forall (good Q) (members s) -> rtc (pool_step outside) s s' ->
  members s' !! i = Some (Fin (Ok a)) -> Q a /\ K (common s').
Proof.
  intros Hk Hs Hr. induction Hr as [s|s s1 s' Hstep _ IH].
  - intros Hi. rewrite Forall_lookup in Hs. split; [exact (Hs _ _ Hi)|done].
  - destruct Hstep as [j c s Hj|w s Ho]; [|apply IH; [by eapply Hout|done]].
    assert (good Q c) as Hc by (rewrite Forall_lookup in Hs; by eapply Hs).
    assert (K (snd (resume c (common s))) /\ good Q (fst (resume c (common s)))) as [Hk' Hc'].
    { destruct c as [o|m]; [done|]. specialize (Hc (common s) Hk). cbn. by destruct (m (common s)). }
    apply IH; [exact Hk'|by apply Forall_insert].
Qed.

(** Once one has a result, [K] holds. *)
Lemma result_gives_fact s i a : pool_ok s -> members s !! i = Some (Fin (Ok a)) -> K (common s).
Proof. intros [_ [Hk|Hl]] Hi; [done|]. rewrite Forall_lookup in Hl. by destruct (Hl _ _ Hi). Qed.

(** And one that is doomed then has no result, ever. *)
Lemma doomed_stays s s' i c : pool_ok s -> K (common s) -> members s !! i = Some c -> doomed c ->
  rtc (pool_step outside) s s' -> exists c', members s' !! i = Some c' /\ doomed c'.
Proof.
  intros Hs Hk Hi Hc Hr. revert c Hs Hk Hi Hc. induction Hr as [s|s s1 s' Hstep _ IH]; intros c Hs Hk Hi Hc; [eauto|].
  destruct (pool_ok_step s s1 Hs Hstep) as [H1 H2]. specialize (H2 Hk).
  destruct Hstep as [j d s Hj|w s Ho]; [|by eapply (IH c)].
  destruct (decide (i = j)) as [<-|Hne].
  - assert (d = c) as -> by congruence. eapply (IH (fst (resume c (common s)))); [done|done| |].
    + cbn. apply list_lookup_insert_eq. by eapply lookup_lt_Some.
    + destruct c as [o|m]; [done|]. specialize (Hc (common s) Hk). cbn. by destruct (m (common s)).
  - eapply (IH c); [done|done| |done]. cbn. by rewrite list_lookup_insert_ne.
Qed.
End facts.
End co.
Arguments Co W E A : clear implicits.
Arguments Fin {W E A} o.
Arguments Await {W E A} m.
Arguments Pool W E A : clear implicits.
Arguments Build_Pool {W E A} members common.
Arguments members {W E A}.
Arguments common {W E A}.

Notation "'let*' x ':=' c 'in' k" := (co_bind c (fun x => k))
  (at level 10, x as pattern, c at level 100, k at level 200,
   format "'[v' 'let*'  x  ':='  c  'in' '/' k ']'") : py_scope.
Notation "c ;;* k" := (co_bind c (fun _ => k))
  (at level 199, right associativity, format "'[v' c  ';;*' '/' k ']'") : py_scope.
