(* ===== verification/Migrations.v ===== *)
(** * The migration runner (src/migrate.py)

    The file system is a finite map, PostgreSQL's [schema_migrations] table a
    finite map from versions to rows, and the user tables an abstract schema on
    which a script runs ([exec_sql], a parameter: PostgreSQL is not under src/).
    What the runner prints is not modelled. *)

From Stdlib Require Import ZArith Lia Ascii String List Bool.
From stdpp Require Import base gmap strings sorting list.
From S2P Require Import Prelude.
Local Open Scope string_scope.
Local Open Scope list_scope.
Local Open Scope Z_scope.

(** ** File names *)

(** The longest prefix of digits, read as a number. *)
Fixpoint digits_prefix (s : string) (acc : Z) : Z :=
  match s with
  | EmptyString => acc
  | String c s' => if is_digit c then digits_prefix s' (10 * acc + digit_val c) else acc
  end.

Definition extract_sequence_number (filename : string) : option Z :=
  match filename with
  | String c _ => if is_digit c then Some (digits_prefix filename 0) else None
  | EmptyString => None
  end.

Definition maxsize : Z := 2 ^ 63 - 1.

(** [os.path.join] of two components. *)
Definition path_join (a b : string) : string :=
  if startswith b "/" then b
  else if negb (truthy a) || endswith a "/" then a +:+ b
  else a +:+ "/" +:+ b.

(** [os.path.basename]. *)
Fixpoint basename_aux (s cur : string) : string :=
  match s with
  | EmptyString => cur
  | String c s' =>
      if Ascii.eqb c "/" then basename_aux s' EmptyString
      else basename_aux s' (cur +:+ String c EmptyString)
  end.
Definition basename (p : string) : string := basename_aux p EmptyString.

Record FileSystem := {
  fs_files : gmap string string;         (* path -> bytes *)
  fs_dirs : gmap string (list string);   (* path -> os.listdir *)
}.

Definition path_exists (fs : FileSystem) (p : string) : bool :=
  bool_decide (is_Some (fs_files fs !! p)) || bool_decide (is_Some (fs_dirs fs !! p)).

(** The sort key [(seq or sys.maxsize, filename)], compared as tuples. *)
Definition sort_key (f : string) : Z * string :=
  (default maxsize (extract_sequence_number f), f).

Definition key_le (f g : string) : Prop :=
  fst (sort_key f) < fst (sort_key g) \/
  (fst (sort_key f) = fst (sort_key g) /\ String.le f g).

#[export] Instance key_le_dec : RelDecision key_le.
Proof. intros f g. unfold key_le. apply _. Defined.

Definition get_sorted_migration_files (fs : FileSystem) (migrations_dir : string) : list string :=
  if negb (path_exists fs migrations_dir) then []
  else merge_sort key_le
         (filter (fun f => endswith f ".sql" = true) (default [] (fs_dirs fs !! migrations_dir))).

(** ** Section parsing *)

Definition is_down_marker (line : string) : bool :=
  let stripped := lower (strip line) in
  startswith stripped "--" && contains stripped "down".

Definition is_up_comment (line : string) : bool :=
  let stripped := lower (strip line) in
  startswith stripped "--" && contains stripped "up".

(** The loop of [parse_migration_sql]; [down] is [current_section == "down"]. *)
Fixpoint split_sections (lines : list string) (down : bool) (up_lines down_lines : list string)
  : list string * list string :=
  match lines with
  | [] => (up_lines, down_lines)
  | line :: rest =>
      if is_down_marker line then split_sections rest true up_lines down_lines
      else if is_up_comment line && negb down then split_sections rest down up_lines down_lines
      else if negb down then split_sections rest down (up_lines ++ [line]) down_lines
      else split_sections rest down up_lines (down_lines ++ [line])
  end.

(** ** Errors *)

Inductive MigrationError :=
| InvalidDirection
| DuplicateSequences (dups : list (Z * list string))
| SequenceGap (missing : list Z)
| OutOfOrder (f : string) (seq max_applied : Z)
| ChecksumMismatch (version expected actual : string)
| FileNotFound (path : string)
| IsADirectory (path : string)
| NoRollbackSection (version : string)
| TargetNotFound (target : string)
| TargetNotApplied (target : string)
| UndefinedTable
| SqlError
| DataError
| PoolError.       (* asyncpg could not open or close the pool *)

Definition parse_migration_sql (sql direction : string) : outcome MigrationError string :=
  let direction := lower direction in
  if negb (String.eqb direction "up" || String.eqb direction "down") then Err InvalidDirection
  else
    let '(up_lines, down_lines) := split_sections (splitlines sql) false [] [] in
    if String.eqb direction "up" then Ok (strip (join (String LF EmptyString) up_lines))
    else Ok (strip (join (String LF EmptyString) down_lines)).

(** ** Validation of the sequence *)

(** [seq_map.setdefault(seq, []).append(f)] on an insertion-ordered dict. *)
Fixpoint setdefault_append (m : list (Z * list string)) (seq : Z) (f : string)
  : list (Z * list string) :=
  match m with
  | [] => [(seq, [f])]
  | (k, fl) :: m' =>
      if k =? seq then (k, fl ++ [f]) :: m' else (k, fl) :: setdefault_append m' seq f
  end.

Fixpoint build_seq_map (files : list string) (m : list (Z * list string))
  : list (Z * list string) :=
  match files with
  | [] => m
  | f :: files' =>
      match extract_sequence_number f with
      | Some seq => build_seq_map files' (setdefault_append m seq f)
      | None => build_seq_map files' m
      end
  end.

Definition _check_duplicate_sequence_numbers (files : list string) : outcome MigrationError unit :=
  let seq_map := build_seq_map files [] in
  match filter (fun '(_, fl) => (1 < length fl)%nat) seq_map with
  | [] => Ok tt
  | duplicates => Err (DuplicateSequences duplicates)
  end.

Definition _check_sequence_gaps (files : list string) : outcome MigrationError unit :=
  match files with
  | [] => Ok tt
  | _ =>
      let valid_seqs := omap extract_sequence_number files in
      match list_min valid_seqs, list_max valid_seqs with
      | Some min_seq, Some max_seq =>
          if (length valid_seqs =? length files)%nat then
            let missing := filter (fun n => n ∉ valid_seqs) (seqZ min_seq (max_seq + 1 - min_seq)) in
            match missing with [] => Ok tt | _ => Err (SequenceGap missing) end
          else Ok tt
      | _, _ => Ok tt
      end
  end.

Fixpoint out_of_order_loop (files applied : list string) (max_applied_seq : Z)
  : outcome MigrationError unit :=
  match files with
  | [] => Ok tt
  | f :: files' =>
      if mem f applied then out_of_order_loop files' applied max_applied_seq
      else match extract_sequence_number f with
           | Some seq =>
               if seq <? max_applied_seq then Err (OutOfOrder f seq max_applied_seq)
               else out_of_order_loop files' applied max_applied_seq
           | None => out_of_order_loop files' applied max_applied_seq
           end
  end.

Definition _check_out_of_order_execution (files applied_migrations : list string)
  : outcome MigrationError unit :=
  match applied_migrations with
  | [] => Ok tt
  | _ => match list_max (omap extract_sequence_number applied_migrations) with
         | None => Ok tt
         | Some max_applied_seq => out_of_order_loop files applied_migrations max_applied_seq
         end
  end.

(** ** Database rows and the runner *)

Record MigrationRow := {
  applied_at : Z;
  checksum : option string;
  execution_time_ms : option Z;
}.

Record MigrationDB (Schema : Type) := {
  db_schema : Schema;                                      (* the user tables *)
  schema_migrations : option (gmap string MigrationRow);   (* [None]: no such table *)
  clock : Z;                                               (* milliseconds *)
}.
Arguments Build_MigrationDB {Schema}.
Arguments db_schema {Schema}.
Arguments schema_migrations {Schema}.
Arguments clock {Schema}.

(** What PostgreSQL and [hashlib] contribute: running a script on the user
    tables ([None]: it raises), the time it takes, and SHA-256. *)
Class MigrationEnv (Schema : Type) := {
  exec_sql : string -> Schema -> option Schema;
  exec_ms : string -> Schema -> Z;
  sha256_hex : string -> string;
}.

Section runner.
Context {Schema : Type} `{!MigrationEnv Schema}.
Variable fs : FileSystem.
(** [os.path.dirname(__file__)]. *)
Variable script_dir : string.

Definition MM := M (MigrationDB Schema) MigrationError.

Definition chunk_size : nat := Z.to_nat 8192.

(** The read loop of [compute_checksum], chunks of 8192 bytes; the hasher
    holds the bytes fed to [update], in order. *)
Fixpoint feed_chunks (fuel : nat) (f hasher : string) : string :=
  match fuel with
  | O => hasher
  | S fuel' =>
      let chunk := String.substring 0 chunk_size f in
      if String.eqb chunk EmptyString then hasher
      else feed_chunks fuel'
             (String.substring chunk_size (String.length f - chunk_size) f) (hasher +:+ chunk)
  end.

(** [open(path)] of an existing path: a directory raises. *)
Definition read_file (filepath : string) : outcome MigrationError string :=
  match fs_files fs !! filepath with
  | Some content => Ok content
  | None => if path_exists fs filepath then Err (IsADirectory filepath)
            else Err (FileNotFound filepath)
  end.

Definition compute_checksum (filepath : string) : outcome MigrationError string :=
  obind (read_file filepath) (fun content =>
  Ok (sha256_hex (feed_chunks (S (String.length content)) content EmptyString))).

Fixpoint checksum_loop (records : list (string * MigrationRow)) (migrations_dir : string)
  : outcome MigrationError unit :=
  match records with
  | [] => Ok tt
  | (version, record) :: rest =>
      let filepath := path_join migrations_dir version in
      if path_exists fs filepath then
        match checksum record with
        | Some expected_checksum =>
            if truthy expected_checksum then
              obind (compute_checksum filepath) (fun actual_checksum =>
              if String.eqb actual_checksum expected_checksum
              then checksum_loop rest migrations_dir
              else Err (ChecksumMismatch version expected_checksum actual_checksum))
            else checksum_loop rest migrations_dir
        | None => checksum_loop rest migrations_dir
        end
      else checksum_loop rest migrations_dir
  end.

Definition _check_checksum_integrity (applied_records : list (string * MigrationRow))
  (migrations_dir : string) : outcome MigrationError unit :=
  checksum_loop applied_records migrations_dir.

Definition validate_migration_sequence (files applied_migrations : list string)
  (applied_records : list (string * MigrationRow)) (migrations_dir : string)
  : outcome MigrationError unit :=
  obind (_check_duplicate_sequence_numbers files) (fun _ =>
  obind (_check_sequence_gaps files) (fun _ =>
  obind (_check_out_of_order_execution files applied_migrations) (fun _ =>
  match applied_records with
  | [] => Ok tt
  | _ => if truthy migrations_dir
         then _check_checksum_integrity applied_records migrations_dir else Ok tt
  end))).

(** [ORDER BY version]. *)
Definition sorted_versions (t : gmap string MigrationRow) : list string :=
  merge_sort String.le (fst <$> map_to_list t).

Definition create_migrations_table : MM unit :=
  modify (fun d => {| db_schema := db_schema d;
                      schema_migrations := Some (default ∅ (schema_migrations d));
                      clock := clock d |}).

Definition the_table : MM (gmap string MigrationRow) :=
  fun d => match schema_migrations d with
           | Some t => (Ok t, d)
           | None => (Err UndefinedTable, d)
           end.

Definition get_applied_migrations : MM (list string) :=
  let! t := the_table in ret (sorted_versions t).

Definition get_applied_migration_records : MM (list (string * MigrationRow)) :=
  let! t := the_table in
  ret (omap (fun v => (fun r => (v, r)) <$> t !! v) (sorted_versions t)).

Definition set_table (f : gmap string MigrationRow -> gmap string MigrationRow)
  (d : MigrationDB Schema) : MigrationDB Schema :=
  {| db_schema := db_schema d; schema_migrations := f <$> schema_migrations d;
     clock := clock d |}.

(** VARCHAR(255), VARCHAR(64) and INTEGER accept the values. *)
Definition row_fits (version : string) (cs : option string) (ms : option Z) : bool :=
  (String.length version <=? 255)%nat &&
  match cs with Some c => (String.length c <=? 64)%nat | None => true end &&
  match ms with Some n => (- 2 ^ 31 <=? n) && (n <? 2 ^ 31) | None => true end.

(** INSERT ... ON CONFLICT (version) DO UPDATE: both branches write the row. *)
Definition upsert_migration (version : string) (cs : option string) (ms : option Z)
  (now : Z) : MM unit :=
  let! _ := the_table in
  raise_if (negb (row_fits version cs ms)) DataError ;;!
  modify (set_table (<[version := {| applied_at := now; checksum := cs;
                                     execution_time_ms := ms |}]>)).

Definition record_migration (version : string) (cs : option string) (ms : option Z) : MM unit :=
  let! now := gets clock in
  upsert_migration version cs ms now.

Definition remove_migration_record (version : string) : MM unit :=
  let! _ := the_table in
  modify (set_table (delete version)).

(** [connection.execute(sql)]: time passes whether or not it succeeds. *)
Definition execute_script (sql : string) : MM unit :=
  fun d =>
    let d' := {| db_schema := db_schema d; schema_migrations := schema_migrations d;
                 clock := clock d + exec_ms sql (db_schema d) |} in
    match exec_sql sql (db_schema d) with
    | Some s => (Ok tt, {| db_schema := s; schema_migrations := schema_migrations d;
                           clock := clock d' |})
    | None => (Err SqlError, d')
    end.

(** Rollback keeps the clock. *)
Definition rollback (old new : MigrationDB Schema) : MigrationDB Schema :=
  {| db_schema := db_schema old; schema_migrations := schema_migrations old;
     clock := clock new |}.

Definition run_migration (filename direction : string) (record_state : bool) : MM unit :=
  raise_if (negb (path_exists fs filename)) (FileNotFound filename) ;;!
  (let! content := lift (read_file filename) in
  let sql := universal_newlines content in
  let! sql_to_execute := lift (parse_migration_sql sql direction) in
  let version := basename filename in
  let! cs := lift (compute_checksum filename) in
  raise_if (String.eqb direction "down" && negb (truthy sql_to_execute))
    (NoRollbackSection version) ;;!
  let! start_time := gets clock in
  transaction rollback (
    when (truthy sql_to_execute) (execute_script sql_to_execute) ;;!
    when record_state (
      let! now := gets clock in
      let elapsed_ms := now - start_time in
      if String.eqb direction "up" then
        upsert_migration version (Some cs) (Some elapsed_ms) start_time
      else when (String.eqb direction "down")
             (let! _ := the_table in modify (set_table (delete version)))))).

(** ** Selection *)

(** [Ok None]: the target is already applied. *)
Definition _select_up_migrations (files applied_migrations : list string)
  (target : option string) (steps : option Z) : outcome MigrationError (option (list string)) :=
  let pending := filter (fun f => f ∉ applied_migrations) files in
  let take_steps (l : list string) :=
    match steps with Some n => py_take n l | None => l end in
  match target with
  | Some t =>
      if truthy t then
        match index_of t pending with
        | Some target_idx => Ok (Some (take_steps (take (target_idx + 1) pending)))
        | None => if mem t applied_migrations then Ok None else Err (TargetNotFound t)
        end
      else Ok (Some (take_steps pending))
  | None => Ok (Some (take_steps pending))
  end.

Definition _select_down_migrations (files applied_migrations : list string)
  (target : option string) (steps : option Z) : outcome MigrationError (list string) :=
  let steps := match steps, target with None, None => Some 1 | _, _ => steps end in
  let take_steps (l : list string) :=
    match steps with Some n => py_take n l | None => l end in
  let applied_in_order := filter (fun f => f ∈ applied_migrations) (reverse files) in
  match target with
  | Some t =>
      if truthy t then
        match index_of t applied_in_order with
        | Some target_idx => Ok (take_steps (take (target_idx + 1) applied_in_order))
        | None => Err (TargetNotApplied t)
        end
      else Ok (take_steps applied_in_order)
  | None => Ok (take_steps applied_in_order)
  end.

(** ** The entry points *)

Definition migrations_dir : string :=
  let d := path_join "api/" "migrations" in
  if path_exists fs d then d else path_join (path_join script_dir "api") "migrations".

(** One iteration of the loop of [apply_migrations] when not a dry run. *)
Definition process_migration (direction filename : string) : MM unit :=
  let filepath := path_join migrations_dir filename in
  run_migration filepath direction true ;;!
  (if String.eqb direction "up" then
    let! cs := lift (compute_checksum filepath) in
    record_migration filename (Some cs) None
  else when (String.eqb direction "down") (remove_migration_record filename)).

Definition apply_migrations (direction : string) (steps : option Z) (dry_run : bool)
  (target : option string) : MM (list string) :=
  let files := get_sorted_migration_files fs migrations_dir in
  let! applied_migrations := get_applied_migrations in
  let! applied_records := get_applied_migration_records in
  lift (validate_migration_sequence files applied_migrations applied_records migrations_dir) ;;!
  let! selected := lift (
    if String.eqb direction "up" then
      _select_up_migrations files applied_migrations target steps
    else if String.eqb direction "down" then
      obind (_select_down_migrations files applied_migrations target steps)
        (fun l => Ok (Some l))
    else Err InvalidDirection) in
  match selected with
  | None => ret []
  | Some migrations_to_process =>
      when (negb dry_run) (for_each migrations_to_process (process_migration direction)) ;;!
      ret migrations_to_process
  end.

Definition run_specific_migration (migration_name direction : string) (dry_run : bool)
  : MM unit :=
  let migration_path := path_join migrations_dir migration_name in
  raise_if (negb (path_exists fs migration_path)) (FileNotFound migration_name) ;;!
  let! applied_migrations := get_applied_migrations in
  if String.eqb direction "up" then
    when (negb (mem migration_name applied_migrations) && negb dry_run) (
      run_migration migration_path "up" true ;;!
      let! cs := lift (compute_checksum migration_path) in
      record_migration migration_name (Some cs) None)
  else if String.eqb direction "down" then
    when (mem migration_name applied_migrations && negb dry_run) (
      run_migration migration_path "down" true ;;!
      remove_migration_record migration_name)
  else ret tt.

(** What opening and closing the pool of this check does. *)
Record CheckPool := {
  create_db_pool : outcome MigrationError unit;
  close_db_pool : outcome MigrationError unit;
}.

(** [create_db_pool] sits outside the [try], and [pool.close] in the [finally]: what they
    raise leaves the function. *)
Definition check_all_migrations_applied (pool : CheckPool) : MM bool :=
  let files := get_sorted_migration_files fs migrations_dir in
  match files with
  | [] => ret true
  | _ =>
      lift (create_db_pool pool) ;;!
      finally (
        try_catch (
          let! applied_migrations := get_applied_migrations in
          let! applied_records := get_applied_migration_records in
          lift (validate_migration_sequence files applied_migrations applied_records
                  migrations_dir) ;;!
          ret (bool_decide (list_to_set applied_migrations =@{gset string} list_to_set files)))
          (fun _ => ret false))
        (lift (close_db_pool pool))
  end.

(** What [main] prints for [check] and [status]. *)
Inductive StatusReport :=
| Pending (total_files total_applied : nat) (pending : list string)
| AllApplied (total_files total_applied : nat)
| ValidationError (total_files total_applied : nat) (err : MigrationError).

Inductive MainResult :=
| ReportStatus (r : StatusReport)
| RanSpecific
| Applied (processed : list string).

(** [except ValueError]. *)
Definition is_value_error (e : MigrationError) : bool :=
  match e with
  | InvalidDirection | DuplicateSequences _ | SequenceGap _ | OutOfOrder _ _ _
  | ChecksumMismatch _ _ _ | NoRollbackSection _ | TargetNotFound _
  | TargetNotApplied _ => true
  | FileNotFound _ | IsADirectory _ | UndefinedTable | SqlError | DataError | PoolError => false
  end.

Record Args := {
  a_direction : string;
  a_steps : option Z;
  a_specific : option string;
  a_target : option string;
  a_dry_run : bool;
}.

Definition main (args : Args) : MM MainResult :=
  create_migrations_table ;;!
  if String.eqb (a_direction args) "check" || String.eqb (a_direction args) "status" then
    let files := get_sorted_migration_files fs migrations_dir in
    let! applied := get_applied_migrations in
    let! records := get_applied_migration_records in
    match validate_migration_sequence files applied records migrations_dir with
    | Ok _ =>
        match filter (fun f => f ∉ applied) files with
        | [] => ret (ReportStatus (AllApplied (length files) (length applied)))
        | pending => ret (ReportStatus (Pending (length files) (length applied) pending))
        end
    | Err e =>
        if is_value_error e
        then ret (ReportStatus (ValidationError (length files) (length applied) e))
        else raise e
    end
  else
    match a_specific args with
    | Some name =>
        if truthy name then
          run_specific_migration name (a_direction args) (a_dry_run args) ;;! ret RanSpecific
        else
          let! l := apply_migrations (a_direction args) (a_steps args) (a_dry_run args)
                      (a_target args) in ret (Applied l)
    | None =>
        let! l := apply_migrations (a_direction args) (a_steps args) (a_dry_run args)
                    (a_target args) in ret (Applied l)
    end.
End runner.

(** ** What a valid sequence is *)

Definition seqs_unique (files : list string) : Prop :=
  NoDup (omap extract_sequence_number files).

Definition seqs_contiguous (files : list string) : Prop :=
  (forall f, f ∈ files -> is_Some (extract_sequence_number f)) ->
  forall f g n a b, f ∈ files -> g ∈ files ->
    extract_sequence_number f = Some a -> extract_sequence_number g = Some b ->
    a <= n <= b -> exists h, h ∈ files /\ extract_sequence_number h = Some n.

Definition unapplied_after_applied (files applied : list string) : Prop :=
  forall f g a b, f ∈ files -> f ∉ applied -> g ∈ applied ->
    extract_sequence_number f = Some a -> extract_sequence_number g = Some b -> b <= a.

(** *** Duplicates *)

Definition with_seq (n : Z) (files : list string) : list string :=
  filter (fun f => extract_sequence_number f = Some n) files.

(** The dict [m] groups the files [l] by sequence number. *)
Record groups (m : list (Z * list string)) (l : list string) : Prop := {
  groups_nodup : NoDup (fst <$> m);
  groups_val : forall k fl, (k, fl) ∈ m -> fl = with_seq k l;
  groups_key : forall k, with_seq k l <> [] -> k ∈ fst <$> m;
}.

Lemma with_seq_snoc k l f :
  with_seq k (l ++ [f]) =
  with_seq k l ++ (if decide (extract_sequence_number f = Some k) then [f] else []).
Proof. unfold with_seq. rewrite filter_app, filter_cons, filter_nil. by case_decide. Qed.

Lemma setdefault_append_keys m n f :
  fst <$> setdefault_append m n f =
  (fst <$> m) ++ (if mem n (fst <$> m) then [] else [n]).
Proof.
  induction m as [|[k fl] m IH]; csimpl; [done|].
  destruct (Z.eqb_spec k n) as [->|Hn]; csimpl.
  - replace (mem n (n :: _)) with true by (symmetry; apply mem_true; left).
    by rewrite app_nil_r.
  - rewrite IH. f_equal. f_equal.
    destruct (mem n (fst <$> m)) eqn:E, (mem n (k :: (fst <$> m))) eqn:E'; try done;
      rewrite ?mem_true, ?mem_false in *; set_solver.
Qed.

Lemma setdefault_append_elem m n f k fl :
  NoDup (fst <$> m) -> (k, fl) ∈ setdefault_append m n f ->
  (k <> n /\ (k, fl) ∈ m) \/
  (k = n /\ exists fl0, fl = fl0 ++ [f] /\
    ((n, fl0) ∈ m \/ (fl0 = [] /\ n ∉ fst <$> m))).
Proof.
  induction m as [|[k0 fl0] m IH]; csimpl.
  - intros _ [= -> ->]%list_elem_of_singleton. right. split; [done|].
    exists []. split; [done|]. right. split; [done|]. set_solver.
  - intros [Hk0 Hnd]%NoDup_cons.
    destruct (Z.eqb_spec k0 n) as [->|Hn]; csimpl.
    + intros [[= -> ->]|Hin]%elem_of_cons.
      * right. split; [done|]. exists fl0. split; [done|]. left. left.
      * left. split; [|by right]. intros ->. apply Hk0.
        apply list_elem_of_fmap. by exists (n, fl).
    + intros [[= -> ->]|Hin]%elem_of_cons; [left; split; [done|left]|].
      destruct (IH Hnd Hin) as [[? ?]|(-> & fl1 & -> & [?|[-> ?]])];
        [left; split; [done|by right] | | ]; right; (split; [done|]).
      * exists fl1. split; [done|]. left. by right.
      * exists []. split; [done|]. right. split; [done|]. set_solver.
Qed.

Lemma groups_snoc m l f n :
  groups m l -> extract_sequence_number f = Some n ->
  groups (setdefault_append m n f) (l ++ [f]).
Proof.
  intros [Hnd Hval Hkey] Hf. split.
  - rewrite setdefault_append_keys. destruct (mem n (fst <$> m)) eqn:E.
    + by rewrite app_nil_r.
    + apply mem_false in E. apply NoDup_app. split; [done|].
      split; [|apply NoDup_singleton]. set_solver.
  - intros k fl Hin. rewrite with_seq_snoc.
    destruct (setdefault_append_elem _ _ _ _ _ Hnd Hin) as [[Hk Hin']|(-> & fl0 & -> & H0)].
    + rewrite decide_False by congruence. rewrite app_nil_r. by apply Hval.
    + rewrite decide_True by done. f_equal.
      destruct H0 as [H0|[-> H0]]; [by apply Hval|].
      destruct (with_seq n l) eqn:E; [done|]. destruct H0. apply Hkey. by rewrite E.
  - intros k. rewrite with_seq_snoc, setdefault_append_keys. intros Hk.
    apply elem_of_app. case_decide as Hd.
    + assert (k = n) as -> by congruence.
      destruct (mem n (fst <$> m)) eqn:E; [left; by apply mem_true|right; left].
    + left. apply Hkey. by rewrite app_nil_r in Hk.
Qed.

Lemma groups_skip m l f :
  groups m l -> extract_sequence_number f = None -> groups m (l ++ [f]).
Proof.
  intros [Hnd Hval Hkey] Hf. split; [done| |].
  - intros k fl Hin. rewrite with_seq_snoc, decide_False, app_nil_r by congruence. auto.
  - intros k. rewrite with_seq_snoc, decide_False, app_nil_r by congruence. auto.
Qed.

Lemma build_seq_map_groups files m l :
  groups m l -> groups (build_seq_map files m) (l ++ files).
Proof.
  revert m l. induction files as [|f files IH]; intros m l Hm; simpl.
  - by rewrite app_nil_r.
  - rewrite cons_middle, app_assoc.
    destruct (extract_sequence_number f) as [n|] eqn:E;
      apply IH; [by apply groups_snoc|by apply groups_skip].
Qed.

Lemma seqs_unique_with_seq files :
  seqs_unique files <-> forall k, (length (with_seq k files) <= 1)%nat.
Proof.
  unfold seqs_unique. induction files as [|f files IH]; simpl.
  - split; [intros _ k; simpl; lia|constructor].
  - assert (forall k, k ∈ omap extract_sequence_number files <-> with_seq k files <> []) as Hin.
    { intros k. rewrite list_elem_of_omap. split.
      - intros (g & Hg & Hk) Hnil. exact (filter_nil_not_elem_of _ _ _ Hnil Hk Hg).
      - destruct (with_seq k files) as [|g gs] eqn:E; [done|]. intros _.
        assert (g ∈ with_seq k files) as [? ?]%list_elem_of_filter by (rewrite E; left).
        eauto. }
    unfold with_seq in *. setoid_rewrite filter_cons.
    destruct (extract_sequence_number f) as [n|] eqn:E; [|rewrite IH; done].
    rewrite NoDup_cons, Hin, IH. split.
    + intros [Hn Hall] k. case_decide as Hd; [|by apply Hall].
      injection Hd as ->. destruct (filter _ files) eqn:E'; [simpl; lia|]. by destruct Hn.
    + intros Hall. split.
      * intros Hne. specialize (Hall n). rewrite decide_True in Hall by done.
        destruct (filter _ files); [done|]. simpl in Hall. lia.
      * intros k. specialize (Hall k). case_decide; simpl in Hall; lia.
Qed.

Lemma check_duplicates_ok files :
  _check_duplicate_sequence_numbers files = Ok tt <-> seqs_unique files.
Proof.
  unfold _check_duplicate_sequence_numbers.
  assert (groups (build_seq_map files []) files) as [Hnd Hval Hkey].
  { apply (build_seq_map_groups files [] []). split; [constructor|set_solver|done]. }
  rewrite seqs_unique_with_seq. split.
  - intros H k. case_in H; [|done]. destruct (decide (with_seq k files = [])) as [->|Hne];
      [simpl; lia|].
    apply Hkey in Hne. apply list_elem_of_fmap in Hne as ([k' fl] & -> & Hin). simpl.
    rewrite <- (Hval _ _ Hin).
    destruct (decide (1 < length fl)%nat) as [Hl|]; [|lia].
    by destruct (filter_nil_not_elem_of _ _ (k', fl) Heql Hl).
  - intros H. case_goal; [done|].
    assert (p ∈ p :: l) as Hin by left. rewrite <- Heql in Hin.
    apply list_elem_of_filter in Hin as [Hlen Hin]. destruct p as [k fl].
    apply Hval in Hin as ->. specialize (H k). lia.
Qed.

(** *** Gaps, order, checksums *)

Lemma check_gaps_ok files : _check_sequence_gaps files = Ok tt <-> seqs_contiguous files.
Proof.
  unfold _check_sequence_gaps, seqs_contiguous.
  destruct files as [|f0 files0]; [split; [set_solver|done]|].
  set (files := f0 :: files0). set (vs := omap extract_sequence_number files).
  assert (forall n, n ∈ vs <-> exists h, h ∈ files /\ extract_sequence_number h = Some n) as Hvs
    by (intros n; apply list_elem_of_omap).
  destruct (Nat.eqb_spec (length vs) (length files)) as [Hlen|Hlen].
  - assert (forall f, f ∈ files -> is_Some (extract_sequence_number f)) as Hall.
    { by apply length_omap_eq. }
    destruct (list_min vs) as [mn|] eqn:Emin; [|by destruct vs].
    destruct (list_max vs) as [mx|] eqn:Emax; [|by destruct vs].
    apply list_min_spec in Emin as [Hmn Hmin]. apply list_max_spec in Emax as [Hmx Hmax].
    split.
    + intros H _ f g n a b Hf Hg Ha Hb Hn. case_in H; [|done].
      apply Hvs. destruct (decide (n ∈ vs)) as [|Hnot]; [done|exfalso].
      refine (filter_nil_not_elem_of _ _ n Heql Hnot _). apply elem_of_seqZ.
      assert (mn <= a) by (apply Hmin, Hvs; eauto).
      assert (b <= mx) by (apply Hmax, Hvs; eauto). lia.
    + intros H. case_goal; [done|]. exfalso.
      assert (z ∈ z :: l) as Hz by left. rewrite <- Heql in Hz.
      apply list_elem_of_filter in Hz as [Hz [? ?]%elem_of_seqZ].
      apply Hz, Hvs. apply Hvs in Hmn as (f & Hf & Ha), Hmx as (g & Hg & Hb).
      apply (H Hall f g z mn mx); auto; lia.
  - split; [|by repeat case_goal]. intros _ Hall. destruct Hlen.
    by apply length_omap_eq.
Qed.

Lemma out_of_order_loop_ok files applied m :
  out_of_order_loop files applied m = Ok tt <->
  forall f a, f ∈ files -> f ∉ applied -> extract_sequence_number f = Some a -> m <= a.
Proof.
  induction files as [|f files IH]; simpl; [set_solver|].
  destruct (mem f applied) eqn:Ef.
  - apply mem_true in Ef. rewrite IH. split; intros H g a; [|set_solver].
    intros [->|Hg]%elem_of_cons ?; [done|]. by apply (H g).
  - apply mem_false in Ef. destruct (extract_sequence_number f) as [s|] eqn:Es.
    + destruct (Z.ltb_spec s m) as [Hlt|Hge].
      * split; [done|]. intros H. specialize (H f s). exfalso.
        assert (m <= s) by (apply H; [left|done|done]). lia.
      * rewrite IH. split; intros H g a; [|set_solver].
        intros [->|Hg]%elem_of_cons ? Ha; [|by apply (H g)]. by simplify_eq.
    + rewrite IH. split; intros H g a; [|set_solver].
      intros [->|Hg]%elem_of_cons ? Ha; [by simplify_eq|by apply (H g)].
Qed.

Lemma check_out_of_order_ok files applied :
  _check_out_of_order_execution files applied = Ok tt <-> unapplied_after_applied files applied.
Proof.
  unfold _check_out_of_order_execution, unapplied_after_applied.
  destruct applied as [|g0 applied0]; [split; set_solver|].
  set (applied := g0 :: applied0).
  assert (forall n, n ∈ omap extract_sequence_number applied <->
     exists h, h ∈ applied /\ extract_sequence_number h = Some n) as Hvs
    by (intros n; apply list_elem_of_omap).
  destruct (list_max (omap extract_sequence_number applied)) as [m|] eqn:Em.
  - apply list_max_spec in Em as [Hm Hmax]. rewrite out_of_order_loop_ok. split.
    + intros H f g a b Hf Hna Hg Ha Hb. specialize (H f a Hf Hna Ha).
      assert (b <= m) by (apply Hmax, Hvs; eauto). lia.
    + intros H f a Hf Hna Ha. apply Hvs in Hm as (g & Hg & Hb). eauto.
  - split; [|done]. intros _ f g a b _ _ Hg _ Hb.
    assert (b ∈ omap extract_sequence_number applied) by (apply Hvs; eauto).
    destruct (omap extract_sequence_number applied); [set_solver|done].
Qed.

Section runner_lemmas.
Context {Schema : Type} `{!MigrationEnv Schema}.
Variable fs : FileSystem.
Variable script_dir : string.
Implicit Types d : MigrationDB Schema.

Definition checksums_match (records : list (string * MigrationRow)) (dir : string) : Prop :=
  forall v r c, (v, r) ∈ records -> path_exists fs (path_join dir v) = true ->
    checksum r = Some c -> truthy c = true ->
    compute_checksum fs (path_join dir v) = Ok c.

Lemma checksum_loop_ok records dir :
  checksum_loop fs records dir = Ok tt <-> checksums_match records dir.
Proof.
  unfold checksums_match. induction records as [|[v r] records IH]; simpl; [set_solver|].
  assert (forall (P : Prop), (P <-> forall c, path_exists fs (path_join dir v) = true ->
      checksum r = Some c -> truthy c = true -> compute_checksum fs (path_join dir v) = Ok c) ->
    (P /\ checksum_loop fs records dir = Ok tt) <->
    (forall v0 r0 c, (v0, r0) ∈ (v, r) :: records ->
       path_exists fs (path_join dir v0) = true -> checksum r0 = Some c ->
       truthy c = true -> compute_checksum fs (path_join dir v0) = Ok c)) as Hcons.
  { intros P HP. rewrite HP, IH. split.
    - intros [H1 H2] v0 r0 c [[= -> ->]|Hin]%elem_of_cons; [by apply H1|by apply H2].
    - intros H. split; [intros c; apply H; left|]. intros; eapply H; eauto. by right. }
  destruct (path_exists fs (path_join dir v)) eqn:Ep;
    [|rewrite <- (Hcons True); [tauto|split; [done|by intros]]].
  destruct (checksum r) as [c|] eqn:Ec;
    [|rewrite <- (Hcons True); [tauto|split; [done|by intros]]].
  destruct (truthy c) eqn:Et;
    [|rewrite <- (Hcons True); [tauto|split; [intros _ ? _ [= <-]; congruence|done]]].
  rewrite <- (Hcons (compute_checksum fs (path_join dir v) = Ok c)).
  - destruct (compute_checksum fs (path_join dir v)) as [a|e]; simpl; [|by split; [|intros []]].
    destruct (String.eqb_spec a c) as [->|Hne]; [naive_solver|]. split; [done|]. by intros [[= ?] _].
  - split; [by intros H ? _ [= <-]|intros H; by apply H].
Qed.

(** What [validate_migration_sequence] promises. *)
Record valid_sequence (files applied : list string) (records : list (string * MigrationRow))
  (dir : string) : Prop := {
  valid_unique : seqs_unique files;
  valid_contiguous : seqs_contiguous files;
  valid_ordered : unapplied_after_applied files applied;
  valid_checksums : truthy dir = true -> checksums_match records dir;
}.

Lemma outcome_unit_ok {E} (o : outcome E unit) u : o = Ok u <-> o = Ok tt.
Proof. by destruct u. Qed.

Lemma validate_ok files applied records dir :
  validate_migration_sequence fs files applied records dir = Ok tt <->
  valid_sequence files applied records dir.
Proof.
  unfold validate_migration_sequence.
  assert (valid_sequence files applied records dir <->
    _check_duplicate_sequence_numbers files = Ok tt /\
    _check_sequence_gaps files = Ok tt /\
    _check_out_of_order_execution files applied = Ok tt /\
    (truthy dir = true -> checksum_loop fs records dir = Ok tt)) as ->.
  { rewrite check_duplicates_ok, check_gaps_ok, check_out_of_order_ok, checksum_loop_ok.
    split; [by intros []|intros (?&?&?&?); by split]. }
  destruct (_check_duplicate_sequence_numbers files) as [[]|]; simpl; [|naive_solver].
  destruct (_check_sequence_gaps files) as [[]|]; simpl; [|naive_solver].
  destruct (_check_out_of_order_execution files applied) as [[]|]; simpl; [|naive_solver].
  destruct records as [|r records]; [simpl; tauto|].
  unfold _check_checksum_integrity. destruct (truthy dir); naive_solver.
Qed.
End runner_lemmas.

(** ** Sorting and paths *)

#[export] Instance key_le_trans : Transitive key_le.
Proof.
  intros f g h [?|[? ?]] [?|[? ?]]; unfold key_le; [left; lia..|].
  right. split; [lia|]. by transitivity g.
Qed.

#[export] Instance key_le_total : Total key_le.
Proof.
  intros f g. unfold key_le.
  destruct (Z.lt_trichotomy (fst (sort_key f)) (fst (sort_key g))) as [?|[?|?]]; [tauto| |tauto].
  destruct (total String.le f g); [left|right]; right; auto.
Qed.

#[export] Instance key_le_antisymm : AntiSymm (=) key_le.
Proof.
  intros f g [?|[? ?]] [?|[? ?]]; [lia..|]. by apply (anti_symm String.le).
Qed.

Lemma sorted_files_strongly fs dir : StronglySorted key_le (get_sorted_migration_files fs dir).
Proof.
  unfold get_sorted_migration_files. case_match; [constructor|].
  apply (StronglySorted_merge_sort _).
Qed.

Lemma sorted_files_perm fs dir l :
  fs_dirs fs !! dir = Some l ->
  get_sorted_migration_files fs dir ≡ₚ filter (fun f => endswith f ".sql" = true) l.
Proof.
  intros Hl. unfold get_sorted_migration_files.
  unfold path_exists. rewrite (bool_decide_eq_true_2 (is_Some (fs_dirs fs !! dir))) by eauto.
  rewrite orb_true_r. simpl. rewrite Hl. apply merge_sort_Permutation.
Qed.

Definition no_slash (s : string) : Prop := "/"%char ∉ list_ascii_of_string s.

Lemma basename_aux_no_slash s cur : no_slash s -> basename_aux s cur = cur +:+ s.
Proof.
  unfold no_slash. revert cur. induction s as [|c s IH]; intros cur; simpl.
  - intros _. by rewrite string_app_nil.
  - intros [Hc Hs]%not_elem_of_cons. destruct (Ascii.eqb_spec c "/"); [by subst|].
    rewrite IH by done. by rewrite <- string_app_assoc.
Qed.

Lemma basename_aux_slash a b cur : basename_aux (a +:+ String "/" b) cur = basename_aux b "".
Proof.
  revert cur. induction a as [|c a IH]; intros cur; [done|].
  rewrite string_app_cons. simpl. case_match; apply IH.
Qed.

Lemma endswith_split s suf : endswith s suf = true -> exists a, s = a +:+ suf.
Proof.
  induction s as [|c s IH]; cbn [endswith].
  - destruct (String.eqb_spec "" suf) as [<-|]; [by exists ""|by intros].
  - destruct (String.eqb_spec (String c s) suf) as [<-|]; [by exists ""|].
    intros [a ->]%IH. by exists (String c a).
Qed.

Lemma startswith_slash b : startswith b "/" = true -> exists b', b = String "/" b'.
Proof.
  destruct b as [|c b]; [done|]. unfold startswith. cbn [String.prefix]. intros H.
  destruct (ascii_dec "/" c) as [<-|]; [eauto|done].
Qed.

Lemma basename_path_join dir f : no_slash f -> basename (path_join dir f) = f.
Proof.
  intros Hf. unfold path_join, basename. destruct (startswith f "/") eqn:Es.
  { apply startswith_slash in Es as [b ->]. destruct Hf. left. }
  destruct (truthy dir) eqn:Et; simpl.
  - destruct (endswith dir "/") eqn:Ee.
    + apply endswith_split in Ee as [a ->]. rewrite <- string_app_assoc.
      rewrite string_app_cons. change ("" +:+ f) with f.
      by rewrite basename_aux_slash, basename_aux_no_slash.
    + rewrite string_app_cons. change ("" +:+ f) with f.
      by rewrite basename_aux_slash, basename_aux_no_slash.
  - unfold truthy in Et. destruct (String.eqb_spec dir "") as [->|]; [|done].
    apply (basename_aux_no_slash _ "" Hf).
Qed.

(** ** The read loop of [compute_checksum] hashes the whole file *)

Lemma substring_ge n s : (String.length s <= n)%nat -> String.substring 0 n s = s.
Proof.
  revert n. induction s as [|c s IH]; intros [|n] Hn; simpl in *; try done; try lia.
  rewrite IH; [done|lia].
Qed.

Lemma substring_split n s :
  (n <= String.length s)%nat ->
  s = String.substring 0 n s +:+ String.substring n (String.length s - n) s.
Proof.
  revert n. induction s as [|c s IH]; intros [|n] Hn; simpl in *; try done; try lia.
  - f_equal. by rewrite substring_all.
  - rewrite string_app_cons. f_equal. apply IH. lia.
Qed.

Lemma length_substring_tail n s :
  (n <= String.length s)%nat ->
  String.length (String.substring n (String.length s - n) s) = (String.length s - n)%nat.
Proof.
  revert n. induction s as [|c s IH]; intros [|n] Hn; simpl in *; try done; try lia.
  - by rewrite substring_all.
  - apply IH. lia.
Qed.

Lemma substring_tail_ge n s :
  (String.length s <= n)%nat -> String.substring n (String.length s - n) s = "".
Proof.
  intros Hn. replace (String.length s - n)%nat with 0%nat by lia. clear Hn.
  revert n. induction s as [|c s IH]; intros [|n]; simpl; auto.
Qed.

Lemma feed_chunks_all fuel f h :
  (String.length f < fuel)%nat -> feed_chunks fuel f h = h +:+ f.
Proof.
  assert (0 < chunk_size)%nat as Hpos by (unfold chunk_size; lia).
  revert f h. induction fuel as [|fuel IH]; intros f h Hf; [lia|]. cbn [feed_chunks].
  destruct (decide (String.length f <= chunk_size)%nat) as [Hle|Hgt].
  - rewrite (substring_ge _ _ Hle), (substring_tail_ge _ _ Hle).
    destruct (String.eqb_spec f "") as [->|Hne]; [by rewrite string_app_nil|].
    destruct f as [|c f]; [done|]. simpl in Hf.
    rewrite IH by (simpl; lia). by rewrite string_app_nil.
  - destruct (String.eqb_spec (String.substring 0 chunk_size f) "") as [E|_].
    + exfalso. destruct f as [|c f]; simpl in *; [lia|].
      by destruct chunk_size; [lia|].
    + rewrite IH by (rewrite length_substring_tail; lia).
      rewrite <- string_app_assoc. f_equal. symmetry. apply substring_split. lia.
Qed.
