(* ===== verification/MigrationsProps.v ===== *)
(** * What the migration runner guarantees

    Lemmas on the effect of [run_migration] and of the loop of
    [apply_migrations], then the properties of src/migrate.py. *)

From Stdlib Require Import ZArith Lia Ascii String List Bool.
From stdpp Require Import base gmap strings sorting list.
From S2P Require Import Prelude Migrations.
Local Open Scope string_scope.
Local Open Scope list_scope.
Local Open Scope Z_scope.

Section effects.
Context {Schema : Type} `{!MigrationEnv Schema}.
Variable fs : FileSystem.
Variable script_dir : string.
Implicit Types d : MigrationDB Schema.

Local Abbreviation dir := (migrations_dir fs script_dir).

(** The effect a migration file is meant to have on the user tables. *)
Definition migration_effect (direction f : string) (s : Schema) : option Schema :=
  match read_file fs (path_join dir f) with
  | Err _ => None
  | Ok content =>
      match parse_migration_sql (universal_newlines content) direction with
      | Err _ => None
      | Ok sql => if truthy sql then exec_sql sql s else Some s
      end
  end.

Fixpoint migration_effects (direction : string) (l : list string) (s : Schema) : option Schema :=
  match l with
  | [] => Some s
  | f :: l' => s' ← migration_effect direction f s; migration_effects direction l' s'
  end.

(** The row the runner leaves for an applied migration: its checksum, and no
    execution time. *)
Definition applied_row (f : string) (r : MigrationRow) : Prop :=
  exists c, compute_checksum fs (path_join dir f) = Ok c /\
            checksum r = Some c /\ execution_time_ms r = None.

(** The table after the files of [l] were processed. *)
Definition table_step (direction f : string) (t t' : gmap string MigrationRow) : Prop :=
  if String.eqb direction "up" then exists r, applied_row f r /\ t' = <[f := r]> t
  else t' = delete f t.

Inductive table_steps (direction : string) :
  list string -> gmap string MigrationRow -> gmap string MigrationRow -> Prop :=
| steps_nil t : table_steps direction [] t t
| steps_cons f l t t' t'' :
    table_step direction f t t' -> table_steps direction l t' t'' ->
    table_steps direction (f :: l) t t''.

(** *** [run_migration] is a transaction *)

Definition same_data (d d' : MigrationDB Schema) : Prop :=
  db_schema d' = db_schema d /\ schema_migrations d' = schema_migrations d.

Lemma run_migration_err filename direction b d e d' :
  run_migration fs filename direction b d = (Err e, d') -> same_data d d'.
Proof.
  unfold run_migration. intros H. run_err_inv; try done.
  by apply transaction_err_inv in H as (d1 & _ & ->).
Qed.

Lemma the_table_ok d t d' :
  the_table d = (Ok t, d') -> schema_migrations d = Some t /\ d' = d.
Proof. unfold the_table. case_goal; [|done]. by intros [= -> ->]. Qed.

Lemma upsert_ok v cs ms now d u d' :
  upsert_migration v cs ms now d = (Ok u, d') ->
  exists t, schema_migrations d = Some t /\ row_fits v cs ms = true /\
    schema_migrations d' = Some (<[v := {| applied_at := now; checksum := cs;
                                         execution_time_ms := ms |}]> t) /\
    db_schema d' = db_schema d.
Proof.
  unfold upsert_migration. intros H. run_inv. apply the_table_ok in H as [Ht ->].
  eexists. repeat split; [done|by apply negb_false_iff|simpl; by rewrite Ht].
Qed.

Lemma execute_script_ok sql d u d' :
  execute_script sql d = (Ok u, d') ->
  exec_sql sql (db_schema d) = Some (db_schema d') /\
  schema_migrations d' = schema_migrations d.
Proof. unfold execute_script. case_goal; [|done]. by intros [= <- <-]. Qed.

Lemma run_migration_ok f direction d u d' :
  no_slash f -> direction = "up" \/ direction = "down" ->
  run_migration fs (path_join dir f) direction true d = (Ok u, d') ->
  exists t, schema_migrations d = Some t /\
    migration_effect direction f (db_schema d) = Some (db_schema d') /\
    if String.eqb direction "up" then
      exists c ms, compute_checksum fs (path_join dir f) = Ok c /\
        row_fits f (Some c) (Some ms) = true /\
        exists now, schema_migrations d' =
          Some (<[f := {| applied_at := now; checksum := Some c;
                          execution_time_ms := Some ms |}]> t)
    else schema_migrations d' = Some (delete f t).
Proof.
  intros Hf Hdir. unfold run_migration. intros H. run_inv.
  apply when_ok_inv in H4.
  assert (migration_effect direction f (db_schema x6) = Some (db_schema x5) /\
          schema_migrations x5 = schema_migrations x6) as [Heff Htab].
  { unfold migration_effect. rewrite H0, H1.
    destruct H4 as [[-> Hx]|[-> ->]]; [|done]. by apply execute_script_ok in Hx. }
  rewrite basename_path_join in H5 by done. cbn [when] in H5.
  destruct Hdir as [->| ->]; simpl in *; run_inv.
  - apply upsert_ok in H6 as (t & Ht & Hfit & Ht' & Hs). exists t.
    rewrite <- Htab, Hs. repeat split; eauto 10.
  - apply the_table_ok in H5 as [Ht ->]. eexists.
    rewrite <- Htab. simpl. by rewrite Ht.
Qed.

Lemma process_ok f direction d u d' :
  no_slash f -> direction = "up" \/ direction = "down" ->
  process_migration fs script_dir direction f d = (Ok u, d') ->
  exists t t', schema_migrations d = Some t /\ schema_migrations d' = Some t' /\
    migration_effect direction f (db_schema d) = Some (db_schema d') /\
    table_step direction f t t'.
Proof.
  intros Hf Hdir. unfold process_migration, table_step. intros H. run_inv.
  apply run_migration_ok in H as (t & Ht & Heff & Hcase); [|done..].
  destruct Hdir as [->| ->]; simpl in *.
  - destruct Hcase as (c & ms & Hc & Hfit & now & Ht'). run_inv.
    unfold record_migration in *. run_inv.
    match goal with H : upsert_migration _ _ _ _ _ = _ |- _ =>
      apply upsert_ok in H as (t1 & Ht1 & _ & Ht1' & Hs) end.
    exists t. eexists. rewrite Hs. split; [done|]. split; [done|]. split; [done|].
    eexists. split; [|rewrite Ht' in Ht1; simplify_eq; by rewrite insert_insert_eq].
    eexists. by repeat split.
  - unfold remove_migration_record in H0. run_inv. apply the_table_ok in H as [Ht1 ->].
    exists t. eexists. split; [done|]. split; [simpl; by rewrite Hcase|]. split; [done|].
    by rewrite delete_delete_eq.
Qed.

Lemma row_fits_no_ms v c ms : row_fits v (Some c) (Some ms) = true -> row_fits v (Some c) None = true.
Proof. unfold row_fits. rewrite !andb_true_iff. tauto. Qed.

Lemma process_err f direction d e d' :
  no_slash f -> direction = "up" \/ direction = "down" ->
  process_migration fs script_dir direction f d = (Err e, d') -> same_data d d'.
Proof.
  intros Hf Hdir. unfold process_migration. intros [H|(u & d1 & H & H1)]%bind_err_inv.
  { by eapply run_migration_err. }
  exfalso. apply run_migration_ok in H as (t & Ht & Heff & Hcase); [|done..].
  destruct Hdir as [->| ->]; simpl in *.
  - destruct Hcase as (c & ms & Hc & Hfit%row_fits_no_ms & now & Ht').
    unfold record_migration, upsert_migration, lift, bind, gets, raise_if, the_table in H1.
    rewrite Hc in H1. simpl in H1. rewrite Ht' in H1. by rewrite Hfit in H1.
  - unfold remove_migration_record, bind, the_table in H1. by rewrite Hcase in H1.
Qed.

Lemma process_all l direction d o d' t :
  Forall no_slash l -> direction = "up" \/ direction = "down" ->
  schema_migrations d = Some t ->
  for_each l (process_migration fs script_dir direction) d = (o, d') ->
  exists done rest t', l = done ++ rest /\ schema_migrations d' = Some t' /\
    migration_effects direction done (db_schema d) = Some (db_schema d') /\
    table_steps direction done t t' /\ (is_ok o = true -> rest = []).
Proof.
  intros Hl Hdir. revert d t. induction Hl as [|f l Hf Hl IH]; intros d t Ht; simpl.
  - intros [= <- <-]. exists [], [], t. repeat split; try done. constructor.
  - intros H. destruct o as [u|e].
    + run_inv. apply process_ok in H as (t0 & t1 & Ht0 & Ht1 & Heff & Hstep); [|done..].
      simplify_eq. destruct (IH _ _ Ht1 H0) as (dn & rest & t' & -> & Ht' & Heffs & Hsteps & Hok).
      exists (f :: dn), rest, t'. repeat split; try done.
      * simpl. by rewrite Heff.
      * by econstructor.
    + apply bind_err_inv in H as [H|(u & d1 & H & H1)].
      * apply process_err in H as [Hs Hm]; [|done..].
        exists [], (f :: l), t. repeat split; try done.
        -- by rewrite Hm.
        -- by rewrite Hs.
        -- constructor.
      * apply process_ok in H as (t0 & t1 & Ht0 & Ht1 & Heff & Hstep); [|done..].
        simplify_eq. destruct (IH _ _ Ht1 H1) as (dn & rest & t' & -> & Ht' & Heffs & Hsteps & Hok).
        exists (f :: dn), rest, t'. repeat split; try done.
        -- simpl. by rewrite Heff.
        -- by econstructor.
Qed.

(** *** The table after a sequence of migrations *)

Lemma table_steps_up l t t' v :
  table_steps "up" l t t' ->
  (v ∈ l -> exists r, t' !! v = Some r /\ applied_row v r) /\ (v ∉ l -> t' !! v = t !! v).
Proof.
  induction 1 as [t|f l t t' t'' Hstep Hsteps [IH1 IH2]]; [set_solver|].
  destruct Hstep as (r & Hr & ->). split.
  - intros [->|Hv]%elem_of_cons; [|auto].
    destruct (decide (f ∈ l)) as [Hin|Hin]; [auto|]. exists r.
    by rewrite IH2, lookup_insert_eq by done.
  - intros [Hne Hv]%not_elem_of_cons. by rewrite IH2, lookup_insert_ne by done.
Qed.

Lemma table_steps_down l t t' v :
  table_steps "down" l t t' ->
  (v ∈ l -> t' !! v = None) /\ (v ∉ l -> t' !! v = t !! v).
Proof.
  induction 1 as [t|f l t t' t'' Hstep Hsteps [IH1 IH2]]; [set_solver|].
  unfold table_step in Hstep. simpl in Hstep. subst t'. split.
  - intros [->|Hv]%elem_of_cons; [|auto].
    destruct (decide (f ∈ l)) as [Hin|Hin]; [auto|]. by rewrite IH2, lookup_delete_eq.
  - intros [Hne Hv]%not_elem_of_cons. by rewrite IH2, lookup_delete_ne by done.
Qed.

Lemma elem_of_sorted_versions t v : v ∈ sorted_versions t <-> is_Some (t !! v).
Proof.
  unfold sorted_versions. rewrite merge_sort_Permutation, list_elem_of_fmap. split.
  - intros ([v' r] & -> & Hr%elem_of_map_to_list). eauto.
  - intros [r Hr]. exists (v, r). split; [done|by apply elem_of_map_to_list].
Qed.

Definition records_of (t : gmap string MigrationRow) : list (string * MigrationRow) :=
  omap (fun v => (fun r => (v, r)) <$> t !! v) (sorted_versions t).

Lemma elem_of_records_of t v r : (v, r) ∈ records_of t <-> t !! v = Some r.
Proof.
  unfold records_of. rewrite list_elem_of_omap. split.
  - intros (v' & _ & Hv). destruct (t !! v') eqn:E; [|done]. by simplify_eq/=.
  - intros Hr. exists v. rewrite elem_of_sorted_versions, Hr. eauto.
Qed.

Lemma get_applied_run d t :
  schema_migrations d = Some t -> get_applied_migrations d = (Ok (sorted_versions t), d).
Proof. intros Ht. unfold get_applied_migrations, bind, the_table. by rewrite Ht. Qed.

Lemma get_records_run d t :
  schema_migrations d = Some t -> get_applied_migration_records d = (Ok (records_of t), d).
Proof. intros Ht. unfold get_applied_migration_records, bind, the_table. by rewrite Ht. Qed.

(** *** The loop of [apply_migrations] *)

Definition selection (direction : string) (steps : option Z) (target : option string)
  (files applied : list string) : outcome MigrationError (option (list string)) :=
  if String.eqb direction "up" then _select_up_migrations files applied target steps
  else if String.eqb direction "down" then
    obind (_select_down_migrations files applied target steps) (fun l => Ok (Some l))
  else Err InvalidDirection.

Local Abbreviation files := (get_sorted_migration_files fs dir).

Lemma apply_migrations_run direction steps dry target d t :
  schema_migrations d = Some t ->
  apply_migrations fs script_dir direction steps dry target d =
  match validate_migration_sequence fs files (sorted_versions t) (records_of t) dir with
  | Err e => (Err e, d)
  | Ok _ =>
      match selection direction steps target files (sorted_versions t) with
      | Err e => (Err e, d)
      | Ok None => (Ok [], d)
      | Ok (Some l) =>
          bind (when (negb dry) (for_each l (process_migration fs script_dir direction)))
            (fun _ => ret l) d
      end
  end.
Proof.
  intros Ht. unfold apply_migrations.
  rewrite (bind_ok _ _ _ _ _ (get_applied_run _ _ Ht)).
  rewrite (bind_ok _ _ _ _ _ (get_records_run _ _ Ht)).
  unfold bind at 1, lift at 1. destruct (validate_migration_sequence _ _ _ _ _); [|done].
  unfold bind at 1, lift at 1. fold (selection direction steps target files (sorted_versions t)).
  by destruct (selection _ _ _ _ _) as [[l|]|].
Qed.

Lemma selection_direction direction steps target fl applied o :
  selection direction steps target fl applied = Ok o -> direction = "up" \/ direction = "down".
Proof.
  unfold selection. destruct (String.eqb_spec direction "up"); [by left|].
  destruct (String.eqb_spec direction "down"); [by right|done].
Qed.

Definition pending (fl applied : list string) : list string := filter (fun f => f ∉ applied) fl.
Definition applied_rev (fl applied : list string) : list string :=
  filter (fun f => f ∈ applied) (reverse fl).

Lemma selection_prefix direction steps target fl applied l :
  selection direction steps target fl applied = Ok (Some l) ->
  l `prefix_of` (if String.eqb direction "up" then pending fl applied else applied_rev fl applied).
Proof.
  unfold selection, _select_up_migrations, _select_down_migrations, pending, applied_rev.
  assert (forall st (l1 l2 : list string), l1 `prefix_of` l2 ->
    (match st with Some n => py_take n l1 | None => l1 end) `prefix_of` l2) as Hst.
  { intros [n|] l1 l2 H12; [|done]. etrans; [apply py_take_sublist|done]. }
  destruct (String.eqb direction "up").
  - destruct target as [tg|]; [|intros [= <-]; by apply Hst].
    destruct (truthy tg); [|intros [= <-]; by apply Hst].
    case_match; [intros [= <-]; apply Hst, prefix_take|by case_match].
  - destruct (String.eqb direction "down"); [|done].
    intros (l' & Hl' & [= <-])%obind_ok_inv. revert Hl'.
    destruct target as [tg|]; [|intros [= <-]; by apply (Hst (match steps with None => Some 1 | _ => steps end))].
    destruct (truthy tg); [|intros [= <-]; by apply Hst].
    case_match; [intros [= <-]; apply Hst, prefix_take|done].
Qed.

(** File names as [os.listdir] returns them. *)
Definition listing_wf : Prop :=
  forall p l f, fs_dirs fs !! p = Some l -> f ∈ l -> no_slash f.

Lemma files_no_slash f : listing_wf -> f ∈ files -> no_slash f.
Proof.
  intros Hwf. unfold get_sorted_migration_files. case_match; [by intros ?%elem_of_nil|].
  rewrite merge_sort_Permutation. intros [_ Hf]%list_elem_of_filter.
  destruct (fs_dirs fs !! dir) as [l|] eqn:E; [|by apply elem_of_nil in Hf].
  by eapply Hwf.
Qed.

Lemma selection_no_slash direction steps target applied l :
  listing_wf -> selection direction steps target files applied = Ok (Some l) ->
  Forall no_slash l.
Proof.
  intros Hwf Hsel%selection_prefix. apply Forall_forall. intros f Hf.
  apply (elem_of_prefix _ _ _ Hf) in Hsel. apply files_no_slash; [done|].
  case_match; [by apply list_elem_of_filter in Hsel as [_ ?]|].
  apply list_elem_of_filter in Hsel as [_ ?]. by apply elem_of_reverse.
Qed.

(** *** Validity after an upgrade *)

Lemma seq_inj l f g n :
  seqs_unique l -> f ∈ l -> g ∈ l -> extract_sequence_number f = Some n ->
  extract_sequence_number g = Some n -> f = g.
Proof.
  intros Hu Hf Hg Hfn Hgn. apply seqs_unique_with_seq with (k := n) in Hu.
  assert (f ∈ with_seq n l) as Hf' by (by apply list_elem_of_filter).
  assert (g ∈ with_seq n l) as Hg' by (by apply list_elem_of_filter).
  destruct (with_seq n l) as [|h [|h' tl]]; simpl in Hu; [set_solver| |lia]. set_solver.
Qed.

Lemma key_le_seq f g a b :
  key_le f g -> extract_sequence_number f = Some a -> extract_sequence_number g = Some b -> a <= b.
Proof. intros H Ha Hb. destruct H as [H|[H _]]; simpl in H; rewrite Ha, Hb in H; simpl in H; lia. Qed.

(** A sorted list in which no rejected element precedes an accepted one is
    its accepted elements followed by the rejected ones. *)
Lemma sorted_partition (R : relation string) (P : string -> Prop) `{!forall x, Decision (P x)} l :
  StronglySorted R l ->
  (forall x y, x ∈ l -> y ∈ l -> R x y -> ~ P x -> ~ P y) ->
  l = filter P l ++ filter (fun x => ~ P x) l.
Proof.
  induction 1 as [|x l Hl IH Hx]; intros Hord; [done|].
  rewrite !filter_cons. rewrite Forall_forall in Hx.
  destruct (decide (P x)) as [Hp|Hp].
  - rewrite (decide_False (P := ~ P x)) by tauto. simpl. f_equal. apply IH.
    intros y z Hy Hz. apply Hord; by right.
  - rewrite (decide_True (P := ~ P x)) by done.
    assert (forall y, y ∈ l -> ~ P y) as Hnone.
    { intros y Hy. apply (Hord x y); [left|by right|by apply Hx|done]. }
    assert (filter P l = []) as ->.
    { destruct (filter P l) as [|y l'] eqn:E; [done|]. exfalso.
      assert (y ∈ filter P l) as [Hp' Hy]%list_elem_of_filter by (rewrite E; left).
      by apply (Hnone y). }
    simpl. f_equal. symmetry. clear -Hnone. induction l as [|y l IH]; [done|].
    rewrite filter_cons, decide_True by (apply Hnone; left). f_equal.
    apply IH. intros z Hz. apply Hnone. by right.
Qed.

Definition all_numbered : Prop := forall f, f ∈ files -> is_Some (extract_sequence_number f).

Lemma files_partition applied :
  all_numbered -> seqs_unique files -> unapplied_after_applied files applied ->
  files = filter (fun f => f ∈ applied) files ++ pending files applied.
Proof.
  intros Hnum Hu Hord. apply (sorted_partition key_le); [apply sorted_files_strongly|].
  intros x y Hx Hy Hle Hnx Hpy.
  destruct (Hnum x Hx) as [a Ha], (Hnum y Hy) as [b Hb].
  pose proof (key_le_seq _ _ _ _ Hle Ha Hb). specialize (Hord x y a b Hx Hnx Hpy Ha Hb).
  assert (a = b) as -> by lia. by rewrite (seq_inj _ x y b Hu Hx Hy Ha Hb) in Hnx.
Qed.

Lemma files_nodup : all_numbered -> seqs_unique files -> NoDup files.
Proof.
  unfold seqs_unique, all_numbered. generalize files. intros l.
  induction l as [|f l IH]; intros Hnum Hu; [constructor|].
  destruct (Hnum f) as [n Hn]; [left|]. csimpl in Hu. rewrite Hn in Hu.
  apply NoDup_cons in Hu as [Hnin Hu]. constructor.
  - intros Hf. apply Hnin. apply list_elem_of_omap. eauto.
  - apply IH; [|done]. intros g Hg. apply Hnum. by right.
Qed.

(** The checksums of the processed files are right by construction. *)
Lemma checksums_after_up l t t' :
  table_steps "up" l t t' -> checksums_match fs (records_of t) dir ->
  checksums_match fs (records_of t') dir.
Proof.
  intros Hsteps Hold v r c Hin Hex Hc Htr. apply elem_of_records_of in Hin.
  destruct (table_steps_up l t t' v Hsteps) as [Hin' Hnin].
  destruct (decide (v ∈ l)) as [Hv|Hv].
  - destruct (Hin' Hv) as (r' & Hr' & c' & Hc' & Hrc & _). by simplify_eq.
  - apply (Hold v r c); [|done..]. apply elem_of_records_of. by rewrite <- Hnin.
Qed.

Lemma applied_after_up l t t' v :
  table_steps "up" l t t' -> v ∈ sorted_versions t' <-> v ∈ l \/ v ∈ sorted_versions t.
Proof.
  intros Hsteps. destruct (table_steps_up l t t' v Hsteps) as [Hin Hnin].
  rewrite !elem_of_sorted_versions. destruct (decide (v ∈ l)) as [Hv|Hv].
  - destruct (Hin Hv) as (r & -> & _). naive_solver.
  - rewrite (Hnin Hv). naive_solver.
Qed.

(** Applying a prefix of what is pending keeps the sequence valid. *)
Lemma valid_after_up l t t' :
  valid_sequence fs files (sorted_versions t) (records_of t) dir ->
  l `prefix_of` pending files (sorted_versions t) -> table_steps "up" l t t' ->
  valid_sequence fs files (sorted_versions t') (records_of t') dir.
Proof.
  intros [Hu Hgap Hord Hsum] [rest Hpre] Hsteps. split; [done..| |].
  - intros f g a b Hf Hna Hg Ha Hb.
    rewrite (applied_after_up l t t') in Hna, Hg by done. destruct Hg as [Hg|Hg].
    + assert (f ∈ rest) as Hfr.
      { assert (f ∈ pending files (sorted_versions t)) as Hfp by (apply list_elem_of_filter; tauto).
        rewrite Hpre in Hfp. apply elem_of_app in Hfp. tauto. }
      assert (StronglySorted key_le (l ++ rest)) as Hss.
      { rewrite <- Hpre. apply StronglySorted_filter, sorted_files_strongly. }
      apply (key_le_seq g f); [|done..].
      by eapply (StronglySorted_app_1_elem_of key_le).
    + apply (Hord f g a b); tauto.
  - intros Htr. by eapply checksums_after_up, Hsum.
Qed.

(** *** Going down again *)

(** What a downgrade selects right after an upgrade. *)
Lemma select_down_after_up l t t1 :
  all_numbered -> valid_sequence fs files (sorted_versions t) (records_of t) dir ->
  l `prefix_of` pending files (sorted_versions t) -> table_steps "up" l t t1 ->
  py_take (Z.of_nat (length l)) (filter (fun f => f ∈ sorted_versions t1) (reverse files))
  = reverse l.
Proof.
  intros Hnum [Hu _ Hord _] [rest Hpre] Hsteps.
  pose proof (files_partition _ Hnum Hu Hord) as Hpart.
  pose proof (files_nodup Hnum Hu) as Hnd. rewrite Hpart, Hpre in Hnd.
  apply NoDup_app in Hnd as (_ & _ & (_ & Hdisj & _)%NoDup_app).
  pose proof (fun v => applied_after_up l t t1 v Hsteps) as Happ.
  assert (forall x, x ∈ l ++ rest -> x ∉ sorted_versions t) as Hpend.
  { intros x. rewrite <- Hpre. by intros [? _]%list_elem_of_filter. }
  rewrite filter_reverse, Hpart, Hpre, !filter_app.
  rewrite (filter_every _ (filter _ files)) by
    (intros x [Hx _]%list_elem_of_filter; apply Happ; by right).
  rewrite (filter_every _ l) by (intros x Hx; apply Happ; by left).
  rewrite (filter_none _ rest), app_nil_r.
  - rewrite reverse_app. unfold py_take. destruct (Z.ltb_spec (Z.of_nat (length l)) 0); [lia|].
    rewrite Nat2Z.id, <- (length_reverse l). apply take_app_length.
  - intros x Hx [Hl|Ht]%Happ; [by apply (Hdisj x)|].
    apply (Hpend x); [|done]. apply elem_of_app. by right.
Qed.

(** The down section of [f] takes the user tables from [s'] to [s]. *)
Definition undoes (f : string) (s s' : Schema) : Prop :=
  exists content sql, read_file fs (path_join dir f) = Ok content /\
    parse_migration_sql (universal_newlines content) "down" = Ok sql /\ truthy sql = true /\
    exec_sql sql s' = Some s.

(** Along an upgrade that starts from [s], the down section of each file undoes what its
    up section did there. *)
Fixpoint undone_along (l : list string) (s : Schema) : Prop :=
  match l with
  | [] => True
  | f :: l' => forall s', migration_effect "up" f s = Some s' -> undoes f s s' /\ undone_along l' s'
  end.

Lemma undone_along_last l f s s1 s' :
  undone_along (l ++ [f]) s -> migration_effects "up" l s = Some s1 -> migration_effect "up" f s1 = Some s' ->
  undone_along l s /\ undoes f s1 s'.
Proof.
  revert s. induction l as [|g l IH]; intros s; cbn [app undone_along migration_effects].
  - intros H [= <-] Hf. split; [done|]. by apply H.
  - intros H He Hf. destruct (migration_effect "up" g s) as [s2|]; [|done]. cbn in He.
    destruct (H s2 eq_refl) as [Hg Hl]. destruct (IH s2 Hl He Hf) as [Hl' Hu]. split; [|done].
    by intros s3 [= <-].
Qed.

Lemma process_down_runs f d t s0 :
  no_slash f -> undoes f s0 (db_schema d) -> schema_migrations d = Some t ->
  exists d', process_migration fs script_dir "down" f d = (Ok tt, d') /\
    db_schema d' = s0 /\ schema_migrations d' = Some (delete f t).
Proof.
  intros Hf (content & sql & Hread & Hparse & Htr & Hinv) Ht.
  unfold process_migration, run_migration, bind, lift, raise_if, compute_checksum, transaction, gets.
  rewrite Hread. unfold read_file in Hread.
  destruct (fs_files fs !! path_join dir f) as [c|] eqn:Efile;
    [|by destruct (path_exists fs (path_join dir f))].
  unfold path_exists. rewrite Efile. simpl. rewrite Hparse. simpl. rewrite Htr. simpl.
  unfold execute_script. rewrite Hinv. simpl.
  unfold the_table. simpl. rewrite Ht. simpl. rewrite basename_path_join by done.
  simpl. eexists. split; [reflexivity|]. simpl. by rewrite delete_delete_eq.
Qed.

Lemma process_down_all l d t s0 :
  Forall no_slash l -> undone_along l s0 -> schema_migrations d = Some t ->
  migration_effects "up" l s0 = Some (db_schema d) ->
  exists d', for_each (reverse l) (process_migration fs script_dir "down") d = (Ok tt, d') /\
    db_schema d' = s0 /\ exists t', schema_migrations d' = Some t' /\
    table_steps "down" (reverse l) t t'.
Proof.
  revert d t. induction l as [|f l IH] using rev_ind; intros d t Hns Hrev Ht Heff.
  - injection Heff as ->. exists d. repeat split. exists t. split; [done|constructor].
  - apply Forall_app in Hns as [Hns [Hf _]%Forall_cons].
    assert (exists s1, migration_effects "up" l s0 = Some s1 /\
              migration_effect "up" f s1 = Some (db_schema d)) as (s1 & Heff1 & Hefff).
    { clear -Heff. revert s0 Heff. induction l as [|g l IH]; simpl; intros s0 Heff.
      - exists s0. split; [done|]. by destruct (migration_effect _ _ s0).
      - destruct (migration_effect "up" g s0); simpl in *; [auto|done]. }
    destruct (undone_along_last l f s0 s1 _ Hrev Heff1 Hefff) as [Hrl Hrf].
    destruct (process_down_runs f d t s1) as (d1 & Hrun & Hs1 & Ht1); [done..|].
    destruct (IH d1 (delete f t)) as (d' & Hrun' & Hs' & t' & Ht' & Hsteps);
      [done..|by rewrite Hs1|].
    rewrite reverse_app. simpl. exists d'. unfold bind. rewrite Hrun. split; [done|].
    split; [done|]. exists t'. split; [done|]. by econstructor.
Qed.
End effects.

(** ** A concrete runner, for the witnesses

    The user tables are a list of table names; a script is a [create] or a
    [drop] of one table. *)

Module Example.
Definition exec (sql : string) (s : list string) : option (list string) :=
  if startswith sql "create " then
    let t := String.substring 7 (String.length sql) sql in
    if mem t s then None else Some (t :: s)
  else if startswith sql "drop " then
    match s with
    | t :: s' => if String.eqb t (String.substring 5 (String.length sql) sql) then Some s' else None
    | [] => None
    end
  else None.

#[global] Instance env : MigrationEnv (list string) := {
  exec_sql := exec;
  exec_ms := fun _ _ => 7;
  sha256_hex := fun s => String.substring 0 64 s;
}.

Definition nl : string := String LF EmptyString.
Definition script (t : string) : string :=
  "-- up" +:+ nl +:+ "create " +:+ t +:+ nl +:+ "-- down" +:+ nl +:+ "drop " +:+ t +:+ nl.

Definition fs : FileSystem := {|
  fs_files := {[ "api/migrations/001_users.sql" := script "users";
                 "api/migrations/002_roles.sql" := script "roles" ]};
  fs_dirs := {[ "api/migrations" := ["002_roles.sql"; "README"; "001_users.sql"] ]};
|}.

Definition empty : MigrationDB (list string) :=
  {| db_schema := []; schema_migrations := Some ∅; clock := 0 |}.

Definition upgraded : MigrationDB (list string) :=
  snd (apply_migrations fs "" "up" None false None empty).

Lemma fs_listing_wf : listing_wf fs.
Proof.
  intros p l f Hl Hf. unfold fs in Hl. simpl in Hl.
  apply lookup_singleton_Some in Hl as [_ <-].
  repeat (apply elem_of_cons in Hf as [->|Hf]; [unfold no_slash; vm_compute; set_solver|]).
  by apply elem_of_nil in Hf.
Qed.

Lemma files_are : get_sorted_migration_files fs (migrations_dir fs "") =
  ["001_users.sql"; "002_roles.sql"].
Proof. vm_compute. reflexivity. Qed.

Lemma all_numbered_fs : all_numbered fs "".
Proof.
  unfold all_numbered. rewrite files_are. intros f.
  rewrite !elem_of_cons, elem_of_nil. intros [->|[->|[]]]; eexists; vm_compute; reflexivity.
Qed.

Lemma undoes_one f t s s' :
  read_file fs (path_join (migrations_dir fs "") f) = Ok (script t) ->
  parse_migration_sql (universal_newlines (script t)) "up" = Ok ("create " +:+ t) ->
  parse_migration_sql (universal_newlines (script t)) "down" = Ok ("drop " +:+ t) ->
  String.substring 7 (String.length ("create " +:+ t)) ("create " +:+ t) = t ->
  String.substring 5 (String.length ("drop " +:+ t)) ("drop " +:+ t) = t ->
  migration_effect fs "" "up" f s = Some s' -> undoes fs "" f s s'.
Proof.
  intros Hread Hup Hdown H7 H5 Heff. exists (script t), ("drop " +:+ t).
  split; [done|]. split; [done|]. split; [done|]. revert Heff.
  unfold migration_effect. rewrite Hread, Hup.
  change (exec ("create " +:+ t) s = Some s' -> exec ("drop " +:+ t) s' = Some s). unfold exec.
  replace (startswith ("create " +:+ t) "create ") with true by (by destruct t).
  replace (startswith ("drop " +:+ t) "create ") with false by (by destruct t).
  replace (startswith ("drop " +:+ t) "drop ") with true by (by destruct t).
  cbv iota. rewrite H7, H5. case_match; [discriminate|]. intros [= <-].
  by rewrite String.eqb_refl.
Qed.

Lemma undone_along_fs s : undone_along fs "" ["001_users.sql"; "002_roles.sql"] s.
Proof.
  intros s1 H1. split; [|intros s2 H2; split; [|done]].
  - by apply (undoes_one _ "users"); [vm_compute; reflexivity..|].
  - by apply (undoes_one _ "roles"); [vm_compute; reflexivity..|].
Qed.
End Example.

(** ** Properties *)

Section properties.
Context {Schema : Type} `{!MigrationEnv Schema}.
Variable fs : FileSystem.
Variable script_dir : string.
Implicit Types d : MigrationDB Schema.

Local Abbreviation dir := (migrations_dir fs script_dir).
Local Abbreviation files := (get_sorted_migration_files fs dir).

(** [validate_migration_sequence] accepts exactly the sequences in which
    sequence numbers are unique, a fully numbered directory has no gap, no
    unapplied file precedes an applied one, and every recorded checksum whose
    file still exists is the checksum of the file. *)
Theorem validate_accepts_exactly_valid (fl applied : list string)
  (records : list (string * MigrationRow)) (d : string) :
  validate_migration_sequence fs fl applied records d = Ok tt <->
  valid_sequence fs fl applied records d.
Proof. apply validate_ok. Qed.

(** Whatever order [os.listdir] uses, the runner processes the [.sql] files
    in one and the same order, by sequence number and then by name, each once. *)
Theorem sorted_files_canonical (fs2 : FileSystem) (p : string) (l l2 : list string) :
  fs_dirs fs !! p = Some l -> fs_dirs fs2 !! p = Some l2 -> l ≡ₚ l2 ->
  get_sorted_migration_files fs p = get_sorted_migration_files fs2 p /\
  StronglySorted key_le (get_sorted_migration_files fs p) /\
  get_sorted_migration_files fs p ≡ₚ filter (fun f => endswith f ".sql" = true) l.
Proof.
  intros Hl Hl2 Hp. split; [|split; [apply sorted_files_strongly|by apply sorted_files_perm]].
  apply (StronglySorted_unique key_le); [apply sorted_files_strongly..|].
  rewrite (sorted_files_perm _ _ _ Hl), (sorted_files_perm _ _ _ Hl2). by rewrite Hp.
Qed.

(** A migration that raises, in its script, in recording it or before
    either, leaves the user tables and [schema_migrations] as they were. *)
Theorem run_migration_atomic (filename direction : string) (b : bool) d e d' :
  run_migration fs filename direction b d = (Err e, d') ->
  db_schema d' = db_schema d /\ schema_migrations d' = schema_migrations d.
Proof. apply run_migration_err. Qed.

(** Which files a call is for.  The files to go through are, upwards, the pending ones in
    order, downwards the applied ones in reverse order; up to the target and with it where
    one is named; and as many of them as there are steps: all without a number,
    but one alone for a plain downgrade, and all but the last so many for a negative
    number, as slices are in Python. *)
Inductive up_to (target : option string) (l : list string) : list string -> Prop :=
| no_target : default "" target = "" -> up_to target l l
| to_target before tg after : target = Some tg -> tg <> "" -> l = before ++ tg :: after -> tg ∉ before ->
    up_to target l (before ++ [tg]).

Definition steps_of (direction : string) (steps : option Z) (target : option string) (l : list string) : nat :=
  match steps with
  | Some n => if n <? 0 then length l - Z.to_nat (- n) else Z.to_nat n
  | None => if String.eqb direction "down" && bool_decide (target = None) then 1 else length l
  end.

Definition selects (direction : string) (steps : option Z) (target : option string)
  (files applied l : list string) : Prop :=
  exists within,
    (direction = "up" /\ up_to target (filter (fun f => f ∉ applied) files) within \/
     direction = "down" /\ up_to target (filter (fun f => f ∈ applied) (reverse files)) within) /\
    l = take (steps_of direction steps target within) within.

Lemma index_of_split (tg : string) l i : index_of tg l = Some i ->
  exists before after, l = before ++ (tg :: after) /\ tg ∉ before /\ take (i + 1) l = before ++ [tg].
Proof.
  revert i. induction l as [|x l IH]; intros i; simpl; [done|]. destruct (decide (x = tg)) as [->|Hne].
  - intros [= <-]. exists [], l. split; [done|]. split; [by apply not_elem_of_nil|done].
  - destruct (index_of tg l) as [j|]; [|done]. intros [= <-]. destruct (IH j eq_refl) as (b & a & -> & Hb & Ht).
    exists (x :: b), a. split; [done|]. split; [by apply not_elem_of_cons|]. cbn [Nat.add take]. by rewrite Ht.
Qed.

Lemma py_take_steps (n : Z) (l : list string) :
  py_take n l = take (if n <? 0 then length l - Z.to_nat (- n) else Z.to_nat n) l.
Proof. unfold py_take. destruct (Z.ltb_spec n 0); [|done]. f_equal. lia. Qed.

(** Both selections look for the target in a list and go on with what they found. *)
Lemma found_up_to {A} target cands (k : list string -> outcome MigrationError A) (other : string -> outcome MigrationError A) a :
  (forall tg, other tg <> Ok a) ->
  match target with
  | Some tg => if truthy tg then
                 match index_of tg cands with Some i => k (take (i + 1) cands) | None => other tg end
               else k cands
  | None => k cands
  end = Ok a ->
  exists within, up_to target cands within /\ k within = Ok a.
Proof.
  intros Ho. destruct target as [tg|]; [|intros H; exists cands; by split; [constructor|]].
  destruct (truthy tg) eqn:Et; [|intros H; exists cands; split; [constructor; by destruct tg|done]].
  destruct (index_of tg cands) as [i|] eqn:Ei; [|by intros ?%Ho].
  apply index_of_split in Ei as (b & c & Hl & Hb & ->). intros H. exists (b ++ [tg]). split; [|done].
  eapply to_target; [done| |exact Hl|exact Hb]. by intros ->.
Qed.

Lemma selection_selects direction steps target fl applied l :
  selection direction steps target fl applied = Ok (Some l) -> selects direction steps target fl applied l.
Proof.
  unfold selection, selects, steps_of. destruct (String.eqb_spec direction "up") as [->|_].
  - intros H. apply (found_up_to target (filter (fun f => f ∉ applied) fl)
      (fun w => Ok (Some (match steps with Some n => py_take n w | None => w end)))
      (fun tg => if mem tg applied then Ok None else Err (TargetNotFound tg))) in H as (within & Hw & [= <-]).
    + exists within. split; [by left|]. destruct steps; [apply py_take_steps|cbn; by rewrite firstn_all].
    + intros tg. by destruct (mem tg applied).
  - destruct (String.eqb_spec direction "down") as [->|_]; [|done].
    intros (l' & H & [= <-])%obind_ok_inv.
    apply (found_up_to target (filter (fun f => f ∈ applied) (reverse fl))
      (fun w => Ok (match (match steps, target with None, None => Some 1 | _, _ => steps end) with
                    | Some n => py_take n w | None => w end))
      (fun tg => Err (TargetNotApplied tg))) in H as (within & Hw & [= <-]); [|done].
    exists within. split; [by right|]. destruct steps; [apply py_take_steps|].
    destruct target; cbn; [by rewrite firstn_all|done].
Qed.

Lemma selection_none direction steps target fl applied :
  selection direction steps target fl applied = Ok None ->
  direction = "up" /\ exists tg, target = Some tg /\ tg ∈ applied.
Proof.
  unfold selection. destruct (String.eqb_spec direction "up") as [->|_].
  - unfold _select_up_migrations. destruct target as [tg|]; [|done]. destruct (truthy tg); [|done].
    destruct (index_of tg _); [done|]. destruct (mem tg applied) eqn:E; [|done]. apply mem_true in E. eauto.
  - destruct (String.eqb direction "down"); [|done]. by intros (l' & _ & [=])%obind_ok_inv.
Qed.

(** How any run of [apply_migrations] that is not a dry run ends. *)
Lemma apply_migrations_ends (direction : string) (steps : option Z)
  (target : option string) d t o d' :
  listing_wf fs -> schema_migrations d = Some t ->
  apply_migrations fs script_dir direction steps false target d = (o, d') ->
  exists done t', schema_migrations d' = Some t' /\
    migration_effects fs script_dir direction done (db_schema d) = Some (db_schema d') /\
    table_steps fs script_dir direction done t t' /\
    match selection direction steps target files (sorted_versions t) with
    | Ok (Some l) => exists rest, l = done ++ rest /\ forall l', o = Ok l' -> l' = done /\ rest = []
    | Ok None => done = [] /\ forall l', o = Ok l' -> l' = []
    | Err _ => done = [] /\ forall l', o <> Ok l'
    end.
Proof.
  intros Hwf Ht Hrun. rewrite (apply_migrations_run fs script_dir direction steps false target d t Ht) in Hrun.
  destruct (validate_migration_sequence _ _ _ _ _) as [u|e].
  2: { injection Hrun as <- <-. exists [], t. repeat split; [done|constructor|].
       destruct (selection _ _ _ _ _) as [[l|]|]; [by exists l|done..]. }
  destruct (selection _ _ _ _ _) as [[l|]|e] eqn:Esel;
    [|injection Hrun as <- <-; exists [], t; repeat split; [done|constructor|congruence]
     |injection Hrun as <- <-; exists [], t; repeat split; [done|constructor|done]].
  pose proof (selection_direction _ _ _ _ _ _ Esel) as Hdir.
  pose proof (selection_no_slash fs script_dir _ _ _ _ _ Hwf Esel) as Hns.
  unfold bind, when in Hrun. simpl in Hrun.
  destruct (for_each l _ d) as [o1 d1] eqn:Eloop.
  destruct (process_all fs script_dir _ _ _ _ _ _ Hns Hdir Ht Eloop)
    as (dn & rest & t' & -> & Ht' & Heff & Hsteps & Hok).
  exists dn, t'. destruct o1 as [u1|e1]; injection Hrun as <- <-; repeat split; try done; exists rest; split; try done.
  intros l' [= <-]. by rewrite (Hok eq_refl), app_nil_r.
Qed.

(** C16: [apply_migrations] on the files of the directory, however it ends: the migrations
    it ran come first among those the call selects, in their order; the user tables are
    what exactly their scripts make of them, and [schema_migrations] differs by exactly
    these versions.  When it returns normally it returns these, and they are all that the
    call selects by direction, steps and target ([selects]), or none where the target of
    an upgrade is applied already. *)
Theorem apply_migrations_runs_a_prefix (direction : string) (steps : option Z)
  (target : option string) d t o d' :
  listing_wf fs -> schema_migrations d = Some t ->
  apply_migrations fs script_dir direction steps false target d = (o, d') ->
  exists done t', schema_migrations d' = Some t' /\
    migration_effects fs script_dir direction done (db_schema d) = Some (db_schema d') /\
    table_steps fs script_dir direction done t t' /\
    (done = [] \/ exists l, selects direction steps target files (sorted_versions t) l /\ done `prefix_of` l) /\
    (forall l, o = Ok l -> l = done /\
      (selects direction steps target files (sorted_versions t) l \/
       direction = "up" /\ l = [] /\ exists tg, target = Some tg /\ tg ∈ sorted_versions t)).
Proof.
  intros Hwf Ht Hrun. destruct (apply_migrations_ends _ _ _ _ _ _ _ Hwf Ht Hrun) as (dn & t' & Ht' & He & Hs & Hsel).
  exists dn, t'. split; [done|]. split; [done|]. split; [done|].
  destruct (selection _ _ _ _ _) as [[l|]|e] eqn:E.
  - apply selection_selects in E. destruct Hsel as (rest & -> & Hok). split; [right; eexists; split; [exact E|by eexists]|].
    intros l' [-> ->]%Hok. split; [done|]. left. by rewrite app_nil_r in E.
  - destruct Hsel as [-> Hok]. apply selection_none in E as (-> & tg & -> & Htg). split; [by left|].
    intros l' Hl'. rewrite (Hok _ Hl'). split; [done|]. right. eauto.
  - destruct Hsel as [-> Hok]. split; [by left|]. by intros l' Hl'%Hok.
Qed.

Lemma check_all_run pool d t :
  create_db_pool pool = Ok tt -> close_db_pool pool = Ok tt ->
  schema_migrations d = Some t -> files <> [] ->
  valid_sequence fs files (sorted_versions t) (records_of t) dir ->
  check_all_migrations_applied fs script_dir pool d =
  (Ok (bool_decide (list_to_set (sorted_versions t) =@{gset string} list_to_set files)), d).
Proof.
  intros Ho Hc Ht Hne Hval. unfold check_all_migrations_applied.
  destruct files as [|f0 fl] eqn:E; [done|]. rewrite Ho, Hc. unfold bind at 1, lift at 1, finally, try_catch.
  rewrite (bind_ok _ _ _ _ _ (get_applied_run _ _ Ht)).
  rewrite (bind_ok _ _ _ _ _ (get_records_run _ _ Ht)).
  unfold bind, lift. apply validate_ok in Hval. by rewrite Hval.
Qed.

(** A successful non-dry upgrade: what was selected, and the state after it. *)
Lemma apply_up_ok steps target d t l d' :
  listing_wf fs -> schema_migrations d = Some t ->
  apply_migrations fs script_dir "up" steps false target d = (Ok l, d') ->
  exists t', schema_migrations d' = Some t' /\
    migration_effects fs script_dir "up" l (db_schema d) = Some (db_schema d') /\
    table_steps fs script_dir "up" l t t' /\
    l `prefix_of` pending files (sorted_versions t) /\
    valid_sequence fs files (sorted_versions t) (records_of t) dir /\
    valid_sequence fs files (sorted_versions t') (records_of t') dir.
Proof.
  intros Hwf Ht Hrun.
  assert (valid_sequence fs files (sorted_versions t) (records_of t) dir) as Hval.
  { apply validate_ok. rewrite (apply_migrations_run fs script_dir _ _ _ _ _ _ Ht) in Hrun.
    by destruct (validate_migration_sequence _ _ _ _ _) as [[]|]. }
  destruct (apply_migrations_ends _ _ _ _ _ _ _ Hwf Ht Hrun) as (dn & t' & Ht' & Heff & Hsteps & Hsel).
  assert (l = dn /\ l `prefix_of` pending files (sorted_versions t)) as [-> Hpre].
  { destruct (selection _ _ _ _ _) as [[sel|]|e] eqn:E.
    - destruct Hsel as (rest & -> & Hok). destruct (Hok l eq_refl) as [-> ->]. split; [done|].
      by apply selection_prefix in E; rewrite app_nil_r in E.
    - destruct Hsel as [-> Hok]. rewrite (Hok l eq_refl). split; [done|apply prefix_nil].
    - destruct Hsel as [_ Hok]. by destruct (Hok l). }
  exists t'. do 5 (split; [done|]).
  by eapply valid_after_up.
Qed.

(** When nothing but known files was applied before, a full upgrade that
    returns leaves exactly the files of the directory applied, and the
    start-up check [check_all_migrations_applied], where its pool opens and closes, then
    answers true. *)
Theorem full_upgrade_is_up_to_date pool d t l d' :
  create_db_pool pool = Ok tt -> close_db_pool pool = Ok tt ->
  listing_wf fs -> schema_migrations d = Some t ->
  (forall v, is_Some (t !! v) -> v ∈ files) -> 
  apply_migrations fs script_dir "up" None false None d = (Ok l, d') ->
  l = pending files (sorted_versions t) /\
  (exists t', schema_migrations d' = Some t' /\ forall v, is_Some (t' !! v) <-> v ∈ files) /\
  check_all_migrations_applied fs script_dir pool d' = (Ok true, d').
Proof.
  intros Ho Hc Hwf Ht Hknown Hrun.
  assert (l = pending files (sorted_versions t)) as ->.
  { rewrite (apply_migrations_run fs script_dir _ _ _ _ _ _ Ht) in Hrun.
    destruct (validate_migration_sequence _ _ _ _ _); [|done]. cbn in Hrun. run_inv. done. }
  destruct (apply_up_ok _ _ _ _ _ _ Hwf Ht Hrun) as (t' & Ht' & _ & Hsteps & _ & _ & Hval).
  assert (forall v, v ∈ sorted_versions t' <-> v ∈ files) as Hdom.
  { intros v. rewrite (applied_after_up _ _ _ _ _ _ Hsteps).
    unfold pending. rewrite list_elem_of_filter, !elem_of_sorted_versions.
    destruct (decide (is_Some (t !! v))); naive_solver. }
  split; [done|]. split; [exists t'; split; [done|]; intros v; by rewrite <- elem_of_sorted_versions|].
  destruct (decide (files = [])) as [Hnil|Hne].
  { unfold check_all_migrations_applied. by rewrite Hnil. }
  rewrite (check_all_run _ _ _ Ho Hc Ht' Hne Hval). f_equal. f_equal.
  apply bool_decide_eq_true. apply set_eq. intros v. rewrite !elem_of_list_to_set. apply Hdom.
Qed.

(** C21: where every file is numbered, and the down section of each file an upgrade ran
    undoes what its up section did in that run, a downgrade of as many steps runs the
    same migrations in reverse and restores the user tables and [schema_migrations].  Not
    every script of the repository is such a one: the down section of
    009_user_impersonation.sql drops a column that the trigger function it leaves in place
    still writes. *)
Theorem upgrade_downgrade_roundtrip (steps : option Z) (target : option string) d t l d1 :
  listing_wf fs -> all_numbered fs script_dir -> schema_migrations d = Some t ->
  apply_migrations fs script_dir "up" steps false target d = (Ok l, d1) ->
  undone_along fs script_dir l (db_schema d) ->
  exists d2, apply_migrations fs script_dir "down" (Some (Z.of_nat (length l))) false None d1
               = (Ok (reverse l), d2) /\
    db_schema d2 = db_schema d /\ schema_migrations d2 = Some t.
Proof.
  intros Hwf Hnum Ht Hrun Hrev.
  destruct (apply_up_ok _ _ _ _ _ _ Hwf Ht Hrun)
    as (t1 & Ht1 & Heff & Hsteps & Hpre & Hval & Hval1).
  assert (Forall no_slash l) as Hns.
  { apply Forall_forall. intros f Hf. apply (files_no_slash fs script_dir f Hwf).
    by eapply (elem_of_prefix _ _ _ Hf), list_elem_of_filter in Hpre as [_ ?]. }
  destruct (process_down_all fs script_dir l d1 t1 (db_schema d) Hns Hrev Ht1 Heff)
    as (d2 & Hloop & Hs2 & t2 & Ht2 & Hdown).
  exists d2. split; [|split; [done|]].
  - rewrite (apply_migrations_run fs script_dir _ _ _ _ _ _ Ht1).
    apply validate_ok in Hval1. rewrite Hval1.
    assert (selection "down" (Some (Z.of_nat (length l))) None files (sorted_versions t1)
      = Ok (Some (reverse l))) as ->.
    { change (Ok (E := MigrationError) (Some (py_take (Z.of_nat (length l))
        (filter (fun f => f ∈ sorted_versions t1) (reverse files)))) = Ok (Some (reverse l))).
      by rewrite (select_down_after_up fs script_dir l t t1). }
    unfold bind, when. cbn [negb]. by rewrite Hloop.
  - rewrite Ht2. f_equal. apply map_eq. intros v.
    destruct (table_steps_down fs script_dir _ _ _ v Hdown) as [Hin Hnin].
    destruct (table_steps_up fs script_dir _ _ _ v Hsteps) as [_ Hnin'].
    rewrite elem_of_reverse in Hin, Hnin. destruct (decide (v ∈ l)) as [Hv|Hv].
    + rewrite (Hin Hv). eapply (elem_of_prefix _ _ _ Hv), list_elem_of_filter in Hpre as [Hn _].
      rewrite elem_of_sorted_versions in Hn. by destruct (t !! v); [destruct Hn|].
    + by rewrite (Hnin Hv), (Hnin' Hv).
Qed.

(** The chunked read of [compute_checksum] ends and hashes exactly the bytes
    of the file, whatever its length. *)
Theorem checksum_of_whole_file (p content : string) :
  fs_files fs !! p = Some content -> compute_checksum fs p = Ok (sha256_hex content).
Proof.
  intros Hp. unfold compute_checksum, read_file. rewrite Hp.
  cbn [obind]. by rewrite feed_chunks_all by lia.
Qed.

(** [apply_migrations] records an upgrade twice, and the second record has no
    execution time: the time measured by [run_migration] is lost for every
    migration it applies. *)
Theorem upgrade_loses_execution_time (steps : option Z) (target : option string) d t l d' f :
  listing_wf fs -> schema_migrations d = Some t ->
  apply_migrations fs script_dir "up" steps false target d = (Ok l, d') -> f ∈ l ->
  exists t' r, schema_migrations d' = Some t' /\ t' !! f = Some r /\
    execution_time_ms r = None /\ exists c, checksum r = Some c /\
    compute_checksum fs (path_join dir f) = Ok c.
Proof.
  intros Hwf Ht Hrun Hf.
  destruct (apply_up_ok _ _ _ _ _ _ Hwf Ht Hrun) as (t' & Ht' & _ & Hsteps & _).
  destruct (table_steps_up fs script_dir _ _ _ f Hsteps) as [Hin _].
  destruct (Hin Hf) as (r & Hr & c & Hc & Hrc & Hms). eauto 10.
Qed.
End properties.

(** *** The sections of a script *)

(** The lines before the first down marker, less the comments that mention "up". *)
Definition up_section (lines : list string) : list string :=
  filter (fun l => is_up_comment l = false)
    (take (default (length lines) (fst <$> list_find (fun l => is_down_marker l = true) lines)) lines).

(** The lines after it, less further down markers. *)
Definition down_section (lines : list string) : list string :=
  filter (fun l => is_down_marker l = false)
    (drop (default (length lines) (fst <$> list_find (fun l => is_down_marker l = true) lines)) lines).

Lemma split_sections_down lines ups downs :
  split_sections lines true ups downs =
  (ups, downs ++ filter (fun l => is_down_marker l = false) lines).
Proof.
  revert downs. induction lines as [|l lines IH]; intros downs; simpl; [by rewrite app_nil_r|].
  rewrite filter_cons. destruct (is_down_marker l); simpl; [apply IH|].
  rewrite andb_false_r, IH. by rewrite <- app_assoc.
Qed.

Lemma split_sections_up lines ups downs :
  split_sections lines false ups downs = (ups ++ up_section lines, downs ++ down_section lines).
Proof.
  unfold up_section, down_section. revert ups.
  induction lines as [|l lines IH]; intros ups; simpl; [by rewrite !app_nil_r|].
  destruct (is_down_marker l) eqn:Ed; simpl.
  - rewrite split_sections_down, filter_cons, Ed. simpl.
    by rewrite app_nil_r.
  - assert (forall A (x : option (nat * A)), default (S (length lines)) (fst <$> (prod_map S id <$> x))
      = S (default (length lines) (fst <$> x))) as -> by (by intros ? [[]|]).
    simpl. rewrite filter_cons. destruct (is_up_comment l); simpl; [apply IH|].
    rewrite IH. by rewrite <- app_assoc.
Qed.

(** The sections [parse_migration_sql] returns: up is what precedes the first
    comment line that mentions "down", without the comment lines that mention
    "up"; down is what follows it; any other direction raises. *)
Theorem parse_migration_sql_sections (sql direction : string) :
  parse_migration_sql sql direction =
  if String.eqb (lower direction) "up"
  then Ok (strip (join (String LF EmptyString) (up_section (splitlines sql))))
  else if String.eqb (lower direction) "down"
  then Ok (strip (join (String LF EmptyString) (down_section (splitlines sql))))
  else Err InvalidDirection.
Proof.
  unfold parse_migration_sql. rewrite split_sections_up. simpl.
  by destruct (String.eqb (lower direction) "up"), (String.eqb (lower direction) "down").
Qed.

(** ** Witnesses *)

Lemma sorted_files_canonical_witness :
  get_sorted_migration_files Example.fs "api/migrations" = ["001_users.sql"; "002_roles.sql"] /\
  StronglySorted key_le (get_sorted_migration_files Example.fs "api/migrations").
Proof.
  split; [vm_compute; reflexivity|].
  apply (sorted_files_canonical Example.fs Example.fs "api/migrations"
           ["002_roles.sql"; "README"; "001_users.sql"] ["002_roles.sql"; "README"; "001_users.sql"]);
    reflexivity.
Defined.

Lemma run_migration_atomic_witness :
  let p := "api/migrations/002_roles.sql" in
  let d := {| db_schema := ["roles"]; schema_migrations := Some ∅; clock := 0 |} in
  fst (run_migration Example.fs p "up" true d) = Err SqlError /\
  db_schema (snd (run_migration Example.fs p "up" true d)) = ["roles"].
Proof.
  intros p d. split; [vm_compute; reflexivity|].
  apply (run_migration_atomic Example.fs p "up" true d SqlError). vm_compute. reflexivity.
Defined.

Lemma apply_migrations_runs_a_prefix_witness :
  exists done t', schema_migrations Example.upgraded = Some t' /\
    migration_effects Example.fs "" "up" done [] = Some (db_schema Example.upgraded) /\
    done = ["001_users.sql"; "002_roles.sql"] /\
    (selects "up" None None (get_sorted_migration_files Example.fs "api/migrations") [] done \/ done = []).
Proof.
  destruct (apply_migrations_runs_a_prefix Example.fs "" "up" None None Example.empty ∅
    (Ok ["001_users.sql"; "002_roles.sql"]) Example.upgraded Example.fs_listing_wf)
    as (dn & t' & Ht & Heff & _ & _ & Hl); [reflexivity|vm_compute; reflexivity|].
  destruct (Hl _ eq_refl) as [Hdn Hs]. subst dn. exists ["001_users.sql"; "002_roles.sql"], t'.
  split; [exact Ht|]. split; [exact Heff|]. split; [reflexivity|].
  destruct Hs as [Hs|(_ & Hs & _)]; [left; exact Hs|right; exact Hs].
Defined.

Definition working_pool : CheckPool := {| create_db_pool := Ok tt; close_db_pool := Ok tt |}.

Lemma full_upgrade_is_up_to_date_witness :
  fst (check_all_migrations_applied Example.fs "" working_pool Example.empty) = Ok false /\
  check_all_migrations_applied Example.fs "" working_pool Example.upgraded = (Ok true, Example.upgraded).
Proof.
  split; [vm_compute; reflexivity|].
  apply (full_upgrade_is_up_to_date Example.fs "" working_pool Example.empty ∅
    ["001_users.sql"; "002_roles.sql"] Example.upgraded eq_refl eq_refl Example.fs_listing_wf).
  - reflexivity.
  - intros v [r Hr]. rewrite lookup_empty in Hr. discriminate Hr.
  - vm_compute. reflexivity.
Defined.

Lemma upgrade_downgrade_roundtrip_witness :
  exists d2, apply_migrations Example.fs "" "down" (Some 2) false None Example.upgraded
    = (Ok ["002_roles.sql"; "001_users.sql"], d2) /\
  db_schema d2 = [] /\ schema_migrations d2 = Some ∅.
Proof.
  apply (upgrade_downgrade_roundtrip Example.fs "" None None Example.empty ∅
    ["001_users.sql"; "002_roles.sql"] Example.upgraded Example.fs_listing_wf).
  - apply Example.all_numbered_fs.
  - reflexivity.
  - vm_compute. reflexivity.
  - apply Example.undone_along_fs.
Defined.

Lemma checksum_of_whole_file_witness :
  compute_checksum Example.fs "api/migrations/001_users.sql" =
  Ok (sha256_hex (Example.script "users")).
Proof. apply (checksum_of_whole_file Example.fs). vm_compute. reflexivity. Defined.

Lemma upgrade_loses_execution_time_witness :
  exists t' r, schema_migrations Example.upgraded = Some t' /\ t' !! "001_users.sql" = Some r /\
    execution_time_ms r = None.
Proof.
  destruct (upgrade_loses_execution_time Example.fs "" None None Example.empty ∅
    ["001_users.sql"; "002_roles.sql"] Example.upgraded "001_users.sql" Example.fs_listing_wf)
    as (t' & r & Ht & Hr & Hms & _); [reflexivity|vm_compute; reflexivity|left|].
  exists t', r. split; [exact Ht|]. split; [exact Hr|exact Hms].
Defined.
