(* ===== verification/Database.v ===== *)
(** * Connection pools and query routing (src/api/core/database.py)

    The class variables of [DataBase] are a record; pools are opaque
    identifiers.  What asyncpg does (opening a pool, probing it, handing out a
    connection, running a statement on it) is a parameter, and that a connection loses
    its session settings when it is released is its documented behaviour.  Durations are rationals, in seconds.
    Logging is not modelled; the query counters of the metrics module are. *)

From Stdlib Require Import ZArith Lia Ascii String List Bool QArith Lqa.
From stdpp Require Import base gmap strings list.
From S2P Require Import Prelude.
Local Open Scope string_scope.
Local Open Scope list_scope.
Local Open Scope Z_scope.

(** ** Exceptions *)

(** The exception classes the module distinguishes.  [CannotConnectNow],
    [ConnectionDoesNotExist] and [UndefinedFunction] derive from
    [asyncpg.PostgresError]; [Timeout] is Python's, which derives from
    [OSError]; [InterfaceErr] derives from neither. *)
Inductive DbError :=
| PostgresErr
| CannotConnectNow
| ConnectionDoesNotExist
| UndefinedFunction
| InterfaceErr
| OSErr
| Timeout
| Cancelled
| RuntimeErr (msg : string)
| ValueErr (msg : string)
| IndexErr
| AttributeErr.

Definition is_postgres_error (e : DbError) : bool :=
  match e with
  | PostgresErr | CannotConnectNow | ConnectionDoesNotExist | UndefinedFunction => true
  | _ => false
  end.

Definition is_os_error (e : DbError) : bool :=
  match e with OSErr | Timeout => true | _ => false end.

Definition is_interface_error (e : DbError) : bool :=
  match e with InterfaceErr => true | _ => false end.

(** The exceptions [_db_retry] retries. *)
Definition retryable (e : DbError) : bool :=
  match e with
  | InterfaceErr | CannotConnectNow | ConnectionDoesNotExist | OSErr | Timeout => true
  | _ => false
  end.

(** ** State *)

Definition PoolId := nat.

Record PoolMeta := {
  uri : string;
  pool : PoolId;
  region : string;
  healthy : bool;
  last_latency : option Q;
}.

(** [read_pools_by_region], in insertion order. *)
Definition Regions := list (string * list PoolMeta).

Record DataBase := {
  write_pool : option PoolId;
  read_pools_by_region : Regions;
  health_task : option bool;              (* [Some true]: running *)
  region_priority : list string;
  has_timescaledb_approx_count : option bool;
}.

(** [d.get(r)] on an insertion-ordered dict. *)
Fixpoint region_get (rs : Regions) (r : string) : option (list PoolMeta) :=
  match rs with
  | [] => None
  | (k, ms) :: rs' => if String.eqb k r then Some ms else region_get rs' r
  end.

(** [d.setdefault(r, [])]. *)
Definition region_setdefault (rs : Regions) (r : string) : Regions :=
  match region_get rs r with Some _ => rs | None => rs ++ [(r, [])] end.

(** [d[r].append(m)]. *)
Fixpoint region_append (rs : Regions) (r : string) (m : PoolMeta) : Regions :=
  match rs with
  | [] => []
  | (k, ms) :: rs' =>
      if String.eqb k r then (k, ms ++ [m]) :: rs' else (k, ms) :: region_append rs' r m
  end.

(** ** Creating the pools *)

(** A value of the [read_uris] dict: one URI or a list; [None] stands for an
    entry that is not a string. *)
Inductive UriSpec :=
| OneUri (u : option string)
| ManyUris (us : list (option string)).

Record PoolSettings := {
  REGION_PRIORITY : list string;
  HEALTH_CHECK_INTERVAL : Z;
}.

Definition init_db : DataBase :=
  {| write_pool := None; read_pools_by_region := []; health_task := None;
     region_priority := []; has_timescaledb_approx_count := None |}.

Section create.
Variable connect : string -> outcome DbError PoolId.
Variable settings : PoolSettings.

(** The loop over the URIs of one region; only [PostgresError] and [OSError]
    are logged and skipped, anything else leaves [create_pool]. *)
Fixpoint create_region_pools (rs : Regions) (r : string) (us : list (option string))
  : outcome DbError Regions :=
  match us with
  | [] => Ok rs
  | None :: us' => create_region_pools rs r us'
  | Some u :: us' =>
      match connect u with
      | Ok p => create_region_pools
                  (region_append rs r {| uri := u; pool := p; region := r; healthy := true;
                                         last_latency := None |}) r us'
      | Err e => if is_postgres_error e || is_os_error e
                 then create_region_pools rs r us' else Err e
      end
  end.

Fixpoint create_read_pools (rs : Regions) (read_uris : list (string * UriSpec))
  : outcome DbError Regions :=
  match read_uris with
  | [] => Ok rs
  | (r, spec) :: rest =>
      let uri_list := match spec with OneUri u => [u] | ManyUris us => us end in
      obind (create_region_pools (region_setdefault rs r) r uri_list)
        (fun rs' => create_read_pools rs' rest)
  end.

Definition create_pool (write_uri : string) (read_uris : list (string * UriSpec))
  : M DataBase DbError unit :=
  let! wp := lift (connect write_uri) in
  modify (fun c => {| write_pool := Some wp; read_pools_by_region := [];
                      health_task := health_task c; region_priority := region_priority c;
                      has_timescaledb_approx_count := has_timescaledb_approx_count c |}) ;;!
  let! rs := lift (create_read_pools [] read_uris) in
  modify (fun c =>
    let rs' := match rs with
               | [] => [("global", [{| uri := write_uri; pool := wp; region := "global";
                                       healthy := true; last_latency := None |}])]
               | _ => rs
               end in
    {| write_pool := write_pool c; read_pools_by_region := rs';
       health_task := if HEALTH_CHECK_INTERVAL settings >? 0 then Some true else health_task c;
       region_priority := match REGION_PRIORITY settings with
                          | [] => fst <$> rs'
                          | p => p
                          end;
       has_timescaledb_approx_count := has_timescaledb_approx_count c |}).
End create.

(** ** Health checks *)

(** One probe: the latency of [SELECT 1], or the exception. *)
Definition probe_meta (o : outcome DbError Q) (m : PoolMeta) : outcome DbError PoolMeta :=
  match o with
  | Ok latency => Ok {| uri := uri m; pool := pool m; region := region m; healthy := true;
                        last_latency := Some latency |}
  | Err e => if is_postgres_error e || is_os_error e
             then Ok {| uri := uri m; pool := pool m; region := region m; healthy := false;
                        last_latency := last_latency m |}
             else Err e
  end.

(** The inner loops of one cycle of [_health_check_loop]: the metas are
    updated in place, so those before an escaping exception stay updated. *)
Fixpoint probe_metas (probe : PoolId -> outcome DbError Q) (ms : list PoolMeta)
  : list PoolMeta * option DbError :=
  match ms with
  | [] => ([], None)
  | m :: ms' =>
      match probe_meta (probe (pool m)) m with
      | Ok m' => let '(ms'', e) := probe_metas probe ms' in (m' :: ms'', e)
      | Err e => (m :: ms', Some e)
      end
  end.

Fixpoint probe_regions (probe : PoolId -> outcome DbError Q) (rs : Regions)
  : Regions * option DbError :=
  match rs with
  | [] => ([], None)
  | (r, ms) :: rs' =>
      match probe_metas probe ms with
      | (ms', None) => let '(rs'', e) := probe_regions probe rs' in ((r, ms') :: rs'', e)
      | (ms', Some e) => ((r, ms') :: rs', Some e)
      end
  end.

Definition set_regions (rs : Regions) (c : DataBase) : DataBase :=
  {| write_pool := write_pool c; read_pools_by_region := rs; health_task := health_task c;
     region_priority := region_priority c;
     has_timescaledb_approx_count := has_timescaledb_approx_count c |}.

Definition set_health_task (t : option bool) (c : DataBase) : DataBase :=
  {| write_pool := write_pool c; read_pools_by_region := read_pools_by_region c;
     health_task := t; region_priority := region_priority c;
     has_timescaledb_approx_count := has_timescaledb_approx_count c |}.

(** [_health_check_loop] over the cycles [probes]: an exception that is not
    caught ends the task. *)
Fixpoint health_check_loop (probes : list (PoolId -> outcome DbError Q)) (c : DataBase) : DataBase :=
  match probes with
  | [] => c
  | probe :: probes' =>
      match probe_regions probe (read_pools_by_region c) with
      | (rs, None) => health_check_loop probes' (set_regions rs c)
      | (rs, Some _) => set_health_task (Some false) (set_regions rs c)
      end
  end.

(** ** Choosing a region and a pool *)

Definition any_healthy (ms : list PoolMeta) : bool := existsb healthy ms.

Definition latencies (ms : list PoolMeta) : list Q :=
  omap (fun m => if healthy m then last_latency m else None) ms.

Definition qsum (l : list Q) : Q := fold_left Qplus l 0%Q.

(** [sum(l) / len(l)], defined for a non-empty list. *)
Definition average (l : list Q) : Q := (qsum l / inject_Z (Z.of_nat (length l)))%Q.

Definition Qltb (a b : Q) : bool := negb (Qle_bool b a).

(** The loop that keeps the region with the lowest average latency. *)
Fixpoint best_by_latency (rs : Regions) (best : option (string * Q)) : option (string * Q) :=
  match rs with
  | [] => best
  | (r, ms) :: rs' =>
      match latencies ms with
      | [] => best_by_latency rs' best
      | ls =>
          let avg := average ls in
          match best with
          | None => best_by_latency rs' (Some (r, avg))
          | Some (_, b) =>
              if Qltb avg b then best_by_latency rs' (Some (r, avg)) else best_by_latency rs' best
          end
      end
  end.

Fixpoint first_priority (rs : Regions) (priority : list string) : option string :=
  match priority with
  | [] => None
  | r :: rest =>
      match region_get rs r with
      | Some ms => if any_healthy ms then Some r else first_priority rs rest
      | None => first_priority rs rest
      end
  end.

Fixpoint first_nonempty (rs : Regions) : option string :=
  match rs with
  | [] => None
  | (r, []) :: rs' => first_nonempty rs'
  | (r, _) :: _ => Some r
  end.

(** [if client_region:] and the test of the exact match. *)
Definition client_match (rs : Regions) (client_region : option string) : option string :=
  match client_region with
  | Some r => if truthy r then
                match region_get rs r with
                | Some ms => if any_healthy ms then Some r else None
                | None => None
                end
              else None
  | None => None
  end.

(** A region named by the empty string is falsy in [if best_region:]. *)
Definition _choose_region (c : DataBase) (client_region : option string) : option string :=
  let rs := read_pools_by_region c in
  match client_match rs client_region with
  | Some r => Some r
  | None =>
      match first_priority rs (region_priority c) with
      | Some r => Some r
      | None =>
          match best_by_latency rs None with
          | Some (r, _) => if truthy r then Some r else first_nonempty rs
          | None => first_nonempty rs
          end
      end
  end.

Fixpoint _get_region_for_pool (rs : Regions) (p : PoolId) : option string :=
  match rs with
  | [] => None
  | (r, ms) :: rs' =>
      if existsb (fun m => Nat.eqb (pool m) p) ms then Some r else _get_region_for_pool rs' p
  end.

(** [a or b] for an optional string. *)
Definition or_else (o : option string) (b : string) : string :=
  match o with Some s => if truthy s then s else b | None => b end.

Definition all_metas (rs : Regions) : list PoolMeta := concat (snd <$> rs).

(** [secrets.choice(l)], given the random number it drew. *)
Definition choice {A} (rnd : nat) (l : list A) : outcome DbError A :=
  match l !! (rnd mod length l)%nat with Some x => Ok x | None => Err IndexErr end.

(** The list [_select_read_pool] draws from once a region is chosen. *)
Definition candidate_metas (rs : Regions) (r : string) : list PoolMeta :=
  let metas := default [] (region_get rs r) in
  match filter (fun m => healthy m = true) metas with
  | [] =>
      match filter (fun m => healthy m = true) (all_metas rs) with
      | [] => all_metas rs
      | all_healthy => all_healthy
      end
  | _ => metas
  end.

Definition _select_read_pool (rnd : nat) (c : DataBase) (client_region : option string)
  : outcome DbError (PoolId * string) :=
  match _choose_region c client_region with
  | None =>
      match write_pool c with
      | Some wp => Ok (wp, or_else (_get_region_for_pool (read_pools_by_region c) wp) "primary_fallback")
      | None => Err (RuntimeErr "No DB pools available")
      end
  | Some r =>
      obind (choice rnd (candidate_metas (read_pools_by_region c) r))
        (fun m => Ok (pool m, r))
  end.

Definition get_pool (rnd : nat) (c : DataBase) (client_region : option string) (use_primary : bool)
  : outcome DbError (PoolId * string) :=
  if use_primary then
    match write_pool c with
    | None => Err (RuntimeErr "Write pool not initialized")
    | Some wp => Ok (wp, or_else (_get_region_for_pool (read_pools_by_region c) wp) "primary")
    end
  else _select_read_pool rnd c client_region.

(** ** Running statements *)

(** The audit settings of a connection: actor, client address, impersonator;
    [None]: not set. *)
Definition Audit := option (string * string * string).

(** A connection of a pool. *)
Definition ConnId := nat.

(** Which connection a pool hands out, and what PostgreSQL does with a statement on
    a connection with these settings: its rows, the server afterwards and the time it
    took. *)
Class Server (S Row Arg : Type) := {
  pick_connection : PoolId -> S -> ConnId;
  run_query : PoolId -> Audit -> string -> list Arg -> S -> outcome DbError (list Row) * S * Q;
  set_config : PoolId -> string * string * string -> S -> outcome DbError unit * S;
}.

Record Counters := {
  read_total : nat;
  read_slow : nat;
  write_total : nat;
  write_slow : nat;
}.

Record DbWorld (S : Type) := {
  cls : DataBase;
  server : S;
  sessions : gmap ConnId (string * string * string);  (* the settings connections carry *)
  draws : list nat;               (* what [secrets] will draw *)
  CLIENT_REGION : option string;
  CURRENT_ACTOR_ID : option string;
  CLIENT_IP : option string;
  CURRENT_IMPERSONATOR_ID : option string;
  counters : Counters;
}.
Arguments Build_DbWorld {S}.
Arguments cls {S}.
Arguments server {S}.
Arguments sessions {S}.
Arguments draws {S}.
Arguments CLIENT_REGION {S}.
Arguments CURRENT_ACTOR_ID {S}.
Arguments CLIENT_IP {S}.
Arguments CURRENT_IMPERSONATOR_ID {S}.
Arguments counters {S}.

Section queries.
Context {S Row Arg : Type} `{!Server S Row Arg}.

Definition DbM := M (DbWorld S) DbError.

Definition set_server (s : S) (w : DbWorld S) : DbWorld S :=
  {| cls := cls w; server := s; sessions := sessions w; draws := draws w; CLIENT_REGION := CLIENT_REGION w;
     CURRENT_ACTOR_ID := CURRENT_ACTOR_ID w; CLIENT_IP := CLIENT_IP w;
     CURRENT_IMPERSONATOR_ID := CURRENT_IMPERSONATOR_ID w; counters := counters w |}.

Definition set_sessions (m : gmap ConnId (string * string * string)) (w : DbWorld S) : DbWorld S :=
  {| cls := cls w; server := server w; sessions := m; draws := draws w; CLIENT_REGION := CLIENT_REGION w;
     CURRENT_ACTOR_ID := CURRENT_ACTOR_ID w; CLIENT_IP := CLIENT_IP w;
     CURRENT_IMPERSONATOR_ID := CURRENT_IMPERSONATOR_ID w; counters := counters w |}.

Definition set_counters (k : Counters) (w : DbWorld S) : DbWorld S :=
  {| cls := cls w; server := server w; sessions := sessions w; draws := draws w; CLIENT_REGION := CLIENT_REGION w;
     CURRENT_ACTOR_ID := CURRENT_ACTOR_ID w; CLIENT_IP := CLIENT_IP w;
     CURRENT_IMPERSONATOR_ID := CURRENT_IMPERSONATOR_ID w; counters := k |}.

Definition set_cls (c : DataBase) (w : DbWorld S) : DbWorld S :=
  {| cls := c; server := server w; sessions := sessions w; draws := draws w; CLIENT_REGION := CLIENT_REGION w;
     CURRENT_ACTOR_ID := CURRENT_ACTOR_ID w; CLIENT_IP := CLIENT_IP w;
     CURRENT_IMPERSONATOR_ID := CURRENT_IMPERSONATOR_ID w; counters := counters w |}.

(** The next random draw. *)
Definition draw : DbM nat :=
  fun w => (Ok (default 0%nat (head (draws w))),
            {| cls := cls w; server := server w; sessions := sessions w; draws := tail (draws w);
               CLIENT_REGION := CLIENT_REGION w; CURRENT_ACTOR_ID := CURRENT_ACTOR_ID w;
               CLIENT_IP := CLIENT_IP w; CURRENT_IMPERSONATOR_ID := CURRENT_IMPERSONATOR_ID w;
               counters := counters w |}).

Definition pick_pool (use_primary : bool) : DbM (PoolId * string) :=
  let! rnd := draw in
  let! c := gets cls in
  let! r := gets CLIENT_REGION in
  lift (get_pool rnd c r use_primary).

(** [_db_retry]: [n] further attempts after a retryable exception. *)
Fixpoint retry_more {A} (n : nat) (m : DbM A) : DbM A :=
  match n with
  | O => m
  | Datatypes.S n' => try_catch m (fun e => if retryable e then retry_more n' m else raise e)
  end.

(** [stop_after_attempt(3)], [reraise=True]; the waits are not modelled. *)
Definition _db_retry {A} (m : DbM A) : DbM A := retry_more 2 m.

Definition on_server (p : PoolId) (a : Audit) (query : string) (args : list Arg)
  : DbM (list Row * Q) :=
  fun w => match run_query p a query args (server w) with
           | (Ok rows, s, dur) => (Ok (rows, dur), set_server s w)
           | (Err e, s, _) => (Err e, set_server s w)
           end.

(** The audit settings sent before a write; [x or ""]. *)
Definition audit_of (w : DbWorld S) : string * string * string :=
  (default "" (CURRENT_ACTOR_ID w), default "" (CLIENT_IP w),
   default "" (CURRENT_IMPERSONATOR_ID w)).

(** [pool.acquire()] around a body: asyncpg resets the settings of a connection when
    it is released. *)
Definition with_conn {A} (p : PoolId) (body : ConnId -> DbM A) : DbM A :=
  let! c := gets (fun w => pick_connection p (server w)) in
  finally (body c) (modify (fun w => set_sessions (delete c (sessions w)) w)).

(** A statement on a connection, and on one of a pool. *)
Definition on_conn (p : PoolId) (c : ConnId) (query : string) (args : list Arg) : DbM (list Row * Q) :=
  let! a := gets (fun w => sessions w !! c) in on_server p a query args.

Definition on_pool (p : PoolId) (query : string) (args : list Arg) : DbM (list Row * Q) :=
  with_conn p (fun c => on_conn p c query args).

(** [SELECT set_config(...)] on a connection, with the exceptions [catch] swallowed. *)
Definition set_audit (catch : DbError -> bool) (p : PoolId) (c : ConnId) : DbM unit :=
  fun w => match set_config p (audit_of w) (server w) with
           | (Ok _, s) => (Ok tt, set_sessions (<[c := audit_of w]> (sessions w)) (set_server s w))
           | (Err e, s) => if catch e then (Ok tt, set_server s w) else (Err e, set_server s w)
           end.

Definition audit_errors (e : DbError) : bool := is_postgres_error e || is_interface_error e.

Definition slow (dur : Q) : bool := Qltb 1 dur.

Definition count_read (dur : Q) : DbM unit :=
  modify (fun w => let k := counters w in
    set_counters {| read_total := read_total k + 1;
                    read_slow := if slow dur then read_slow k + 1 else read_slow k;
                    write_total := write_total k; write_slow := write_slow k |} w).

Definition count_write (dur : Q) : DbM unit :=
  modify (fun w => let k := counters w in
    set_counters {| read_total := read_total k; read_slow := read_slow k;
                    write_total := write_total k + 1;
                    write_slow := if slow dur then write_slow k + 1 else write_slow k |} w).

(** One attempt of [fetch]; [EXPLAIN] runs first when asked for, and its
    exceptions are logged only.  Both the [fetch_row] and the list form run the
    same statement; [fetch_row] keeps the first row. *)
Definition fetch_attempt (query : string) (args : list Arg) (log_explain : bool) : DbM (list Row) :=
  let! (p, _) := pick_pool false in
  when log_explain
    (try_catch (let! _ := on_pool p ("EXPLAIN " +:+ query) args in ret tt)
       (fun _ => ret tt)) ;;!
  let! (rows, dur) := on_pool p query args in
  count_read dur ;;! ret rows.

Definition fetch (query : string) (args : list Arg) (log_explain : bool) : DbM (list Row) :=
  _db_retry (fetch_attempt query args log_explain).

Definition fetch_one (query : string) (args : list Arg) (log_explain : bool) : DbM (option Row) :=
  _db_retry (let! rows := fetch_attempt query args log_explain in ret (head rows)).

Definition write_attempt (query : string) (args : list Arg) : DbM (option Row) :=
  let! (p, _) := pick_pool true in
  let! (rows, dur) := with_conn p (fun c => set_audit audit_errors p c ;;! on_conn p c query args) in
  count_write dur ;;! ret (head rows).

Definition write (query : string) (args : list Arg) : DbM (option Row) :=
  _db_retry (write_attempt query args).

(** [con]: an explicit pool, or a connection of one that the caller holds. *)
Inductive Target := T_pool (p : PoolId) | T_conn (p : PoolId) (c : ConnId).

Definition fetchval {V} (proj : Row -> V) (query : string) (args : list Arg)
  (con : option Target) (use_primary : bool) : DbM (option V) :=
  _db_retry (
    let! t := match con with
              | Some t => ret t
              | None => let! (p, _) := pick_pool use_primary in ret (T_pool p)
              end in
    let! (rows, _) := match t with
                      | T_pool p => on_pool p query args
                      | T_conn p c => on_conn p c query args
                      end in
    ret (proj <$> head rows)).

(** [execute] reads [cls.write_pool] itself: when it is [None] the call fails
    on the missing attribute.  On a connection of the caller the settings stay. *)
Definition execute (query : string) (args : list Arg) (con : option Target) : DbM unit :=
  _db_retry (
    let! c := gets cls in
    match (match con with Some t => Some t | None => T_pool <$> write_pool c end) with
    | None => raise AttributeErr
    | Some (T_pool p) =>
        let! _ := with_conn p (fun c => set_audit audit_errors p c ;;! on_conn p c query args) in ret tt
    | Some (T_conn p c) =>
        let! _ := (set_audit audit_errors p c ;;! on_conn p c query args) in ret tt
    end).

(** [transaction]: the body runs on one connection of the pool, with the audit
    settings when any is set (they end with the transaction, before the connection is
    released); an exception rolls the server back. *)
Definition with_transaction {A} (use_primary : bool) (body : PoolId -> ConnId -> DbM A) : DbM A :=
  let! (p, _) := pick_pool use_primary in
  with_conn p (fun c =>
    Prelude.transaction (fun old new => set_server (server old) new) (
      let! (a, ip, imp) := gets audit_of in
      when (truthy a || truthy ip || truthy imp) (set_audit (fun _ => true) p c) ;;!
      body p c)).

(** [^[a-zA-Z_][a-zA-Z0-9_]*$] as [re.match] reads it: [$] also matches before
    a final line feed. *)
Definition is_letter_ (c : ascii) : bool :=
  let n := nat_of_ascii c in
  ((65 <=? n) && (n <=? 90) || (97 <=? n) && (n <=? 122) || (n =? 95))%nat.

Fixpoint ident_tail (s : string) : bool :=
  match s with
  | EmptyString => true
  | String c EmptyString => is_letter_ c || is_digit c || Ascii.eqb c LF
  | String c s' => (is_letter_ c || is_digit c) && ident_tail s'
  end.

Definition valid_table_name (s : string) : bool :=
  match s with
  | EmptyString => false
  | String c s' => is_letter_ c && ident_tail s'
  end.

Definition set_ts (b : option bool) : DbM unit :=
  modify (fun w => let c := cls w in
    set_cls {| write_pool := write_pool c; read_pools_by_region := read_pools_by_region c;
               health_task := health_task c; region_priority := region_priority c;
               has_timescaledb_approx_count := b |} w).

(** [get_table_approximate_count]; [to_z] reads the integer column of a row,
    [to_null] whether the value is NULL. *)
Definition get_table_approximate_count (to_z : Row -> option Z) (name_arg : string -> Arg)
  (table_name : string) : DbM Z :=
  raise_if (negb (valid_table_name table_name)) (ValueErr ("Invalid table name: " +:+ table_name)) ;;!
  (let catch e := is_postgres_error e || is_interface_error e || is_os_error e in
  let value q args := let! v := fetchval to_z q args None false in ret (mjoin v) in
  let! c := gets cls in
  let! first :=
    (match has_timescaledb_approx_count c with
     | Some false => ret None
     | flag =>
         try_catch (
           when (bool_decide (flag = None)) (
             let! has_func := value "SELECT to_regproc('approximate_row_count')" [] in
             set_ts (Some (bool_decide (is_Some has_func)))) ;;!
           let! c' := gets cls in
           match has_timescaledb_approx_count c' with
           | Some true =>
               let! v := value ("SELECT approximate_row_count('" +:+ table_name +:+ "')") [] in
               ret (Z.max 0 <$> v)
           | _ => ret None
           end)
           (fun e => if catch e then
                       when (match e with UndefinedFunction => true | _ => false end)
                         (set_ts (Some false)) ;;! ret None
                     else raise e)
     end) in
  match first with
  | Some n => ret n
  | None =>
      let! second :=
        try_catch (
          let! v := value "SELECT reltuples::bigint FROM pg_class WHERE relname = $1"
                      [name_arg table_name] in
          ret (match v with Some n => if n >? 0 then Some n else None | None => None end))
          (fun e => if catch e then ret None else raise e) in
      match second with
      | Some n => ret n
      | None =>
          try_catch (
            let! v := value ("SELECT COUNT(*) FROM " +:+ table_name) [] in
            ret (match v with Some n => Z.max 0 n | None => 0 end))
            (fun e => if catch e then ret 0 else raise e)
      end
  end).
End queries.

(** [clean_query]: runs of white space become one space. *)
Fixpoint collapse_spaces (s : string) (in_space : bool) : string :=
  match s with
  | EmptyString => EmptyString
  | String c s' =>
      if is_space c then
        if in_space then collapse_spaces s' true else String " " (collapse_spaces s' true)
      else String c (collapse_spaces s' false)
  end.
Definition clean_query (query : string) : string := collapse_spaces (strip query) false.

(** ** Closing, health report *)

(** Closing pools: [closed] lists the pools closed so far, in order. *)
Section close.
Variable close : PoolId -> outcome DbError unit.

Definition close_one (p : PoolId) : M (list PoolId) DbError unit :=
  fun closed =>
    if bool_decide (p ∈ closed) then (Ok tt, closed)
    else match close p with
         | Ok _ => (Ok tt, closed ++ [p])
         | Err e => if is_postgres_error e || (match e with Timeout => true | _ => false end)
                    then (Ok tt, closed) else (Err e, closed)
         end.

(** The state is reset only when no other exception escaped. *)
Definition close_pool : M (DataBase * list PoolId) DbError unit :=
  fun '(c, closed) =>
    let c1 := match health_task c with
              | Some true => set_health_task (Some false) c
              | _ => c
              end in
    match (for_each (all_metas (read_pools_by_region c1)) (fun m => close_one (pool m)) ;;!
           match write_pool c1 with Some wp => close_one wp | None => ret tt end) closed with
    | (Ok _, closed') =>
        (Ok tt, ({| write_pool := None; read_pools_by_region := [];
                    health_task := health_task c1; region_priority := region_priority c1;
                    has_timescaledb_approx_count := has_timescaledb_approx_count c1 |}, closed'))
    | (Err e, closed') => (Err e, (c1, closed'))
    end.
End close.

Record RegionHealth := {
  healthy_pools : nat;
  total_pools : nat;
  avg_latency : option Q;
}.

Definition region_health (ms : list PoolMeta) : RegionHealth :=
  {| healthy_pools := length (filter (fun m => healthy m = true) ms);
     total_pools := length ms;
     avg_latency := match latencies ms with [] => None | ls => Some (average ls) end |}.

(** [health_check]; [probe] of the write pool raises or gives a latency.  An
    exception outside the caught classes leaves the method. *)
Definition health_check (probe : PoolId -> outcome DbError Q) (c : DataBase)
  : outcome DbError (list (string * RegionHealth)) :=
  obind (match write_pool c with
         | None => Ok []
         | Some wp =>
             match probe wp with
             | Ok l => Ok [("primary_write", {| healthy_pools := 1; total_pools := 1;
                                                avg_latency := Some l |})]
             | Err e => if is_postgres_error e || is_interface_error e || is_os_error e
                        then Ok [("primary_write", {| healthy_pools := 0; total_pools := 1;
                                                      avg_latency := None |})]
                        else Err e
             end
         end)
    (fun primary => Ok (primary ++ (map (fun '(r, ms) => (r, region_health ms)) (read_pools_by_region c)))).

(** [get_pool_stats]; [size], [free_size] and [usage] are the pool's. *)
Record PoolStats := {
  st_healthy : option bool;
  st_latency : option Q;
  st_size : Z;
  st_free_size : Z;
  st_usage : Z;
}.

Definition get_pool_stats (size free_size usage : PoolId -> Z) (c : DataBase)
  : outcome DbError (PoolStats * list (string * list PoolStats)) :=
  match write_pool c with
  | None => Err (RuntimeErr "Database not initialized")
  | Some wp =>
      Ok ({| st_healthy := None; st_latency := None; st_size := size wp;
             st_free_size := free_size wp; st_usage := usage wp |},
          map (fun '(r, ms) => (r, map (fun m => {| st_healthy := Some (healthy m);
             st_latency := last_latency m; st_size := size (pool m);
             st_free_size := free_size (pool m); st_usage := usage (pool m) |}) ms))
            (read_pools_by_region c))
  end.
