(* ===== verification/DatabaseProps.v ===== *)
(** * What pool selection and query routing guarantee

    Properties of src/api/core/database.py. *)

From Stdlib Require Import ZArith Lia Ascii String List Bool QArith Lqa.
From stdpp Require Import base gmap strings list.
From S2P Require Import Prelude Database.
Local Open Scope string_scope.
Local Open Scope list_scope.
Local Open Scope Z_scope.

(** ** Lemmas on the region table *)

Lemma region_get_elem rs r ms : region_get rs r = Some ms -> (r, ms) ∈ rs.
Proof.
  induction rs as [|[k ms'] rs IH]; simpl; [done|].
  destruct (String.eqb_spec k r) as [->|]; [intros [= ->]; left|intros; right; auto].
Qed.

Lemma elem_of_all_metas m rs : m ∈ all_metas rs <-> exists r ms, (r, ms) ∈ rs /\ m ∈ ms.
Proof.
  unfold all_metas. rewrite list_elem_of_In, in_concat. setoid_rewrite <- list_elem_of_In. split.
  - intros (ms & ([r ms'] & -> & Hin)%list_elem_of_fmap & Hm). eauto.
  - intros (r & ms & Hin & Hm). exists ms. split; [|done]. apply list_elem_of_fmap.
    by exists (r, ms).
Qed.

Lemma any_healthy_true ms : any_healthy ms = true <-> exists m, m ∈ ms /\ healthy m = true.
Proof.
  unfold any_healthy. rewrite existsb_exists. split; intros (m & Hm & Hh); exists m;
    (split; [by apply list_elem_of_In|done]).
Qed.

Lemma healthy_filter_nonempty ms :
  any_healthy ms = true <-> filter (fun m => healthy m = true) ms <> [].
Proof.
  rewrite any_healthy_true. split.
  - intros (m & Hm & Hh) Hnil. exact (filter_nil_not_elem_of _ _ _ Hnil Hh Hm).
  - destruct (filter _ ms) as [|m l] eqn:E; [done|]. intros _. exists m.
    assert (m ∈ filter (fun m => healthy m = true) ms) as [? ?]%list_elem_of_filter
      by (rewrite E; left). done.
Qed.

Lemma first_nonempty_spec rs r :
  first_nonempty rs = Some r -> exists m ms, (r, m :: ms) ∈ rs.
Proof.
  induction rs as [|[k [|m ms]] rs IH]; simpl; [done|..].
  - intros (m & ms & Hin)%IH. exists m, ms. by right.
  - intros [= ->]. exists m, ms. left.
Qed.

Lemma first_nonempty_none rs : first_nonempty rs = None <-> all_metas rs = [].
Proof.
  unfold all_metas. induction rs as [|[k [|m ms]] rs IH]; csimpl; [done|apply IH|done].
Qed.

Lemma first_priority_spec rs ps r :
  first_priority rs ps = Some r ->
  exists l1 l2 ms, ps = l1 ++ r :: l2 /\ region_get rs r = Some ms /\ any_healthy ms = true /\
    forall q ms', q ∈ l1 -> region_get rs q = Some ms' -> any_healthy ms' = false.
Proof.
  induction ps as [|p ps IH]; simpl; [done|].
  assert (forall P : Prop, (forall ms', region_get rs p = Some ms' -> any_healthy ms' = false) ->
    first_priority rs ps = Some r -> exists l1 l2 ms, p :: ps = l1 ++ r :: l2 /\
      region_get rs r = Some ms /\ any_healthy ms = true /\
      forall q ms', q ∈ l1 -> region_get rs q = Some ms' -> any_healthy ms' = false) as Hskip.
  { intros _ Hp (l1 & l2 & ms & -> & Hg & Hh & Hl)%IH. exists (p :: l1), l2, ms.
    repeat split; [done..|]. intros q ms' [->|Hq]%elem_of_cons; [apply Hp|by apply Hl]. }
  destruct (region_get rs p) as [ms|] eqn:E; [|by apply (Hskip True)].
  destruct (any_healthy ms) eqn:Eh; [|apply (Hskip True); congruence].
  intros [= ->]. exists [], ps, ms. repeat split; [done..|set_solver].
Qed.

Lemma first_priority_none rs ps q ms :
  first_priority rs ps = None -> q ∈ ps -> region_get rs q = Some ms -> any_healthy ms = false.
Proof.
  induction ps as [|p ps IH]; simpl; [set_solver|].
  intros Hn [->|Hq]%elem_of_cons Hg.
  - rewrite Hg in Hn. by destruct (any_healthy ms).
  - destruct (region_get rs p) as [msp|]; [destruct (any_healthy msp)|]; [done|auto..].
Qed.

Lemma Qltb_false a b : Qltb a b = false -> (b <= a)%Q.
Proof. unfold Qltb. rewrite negb_false_iff. apply Qle_bool_iff. Qed.
Lemma Qltb_true a b : Qltb a b = true -> (a <= b)%Q.
Proof.
  unfold Qltb. rewrite negb_true_iff. intros H. apply Qlt_le_weak, Qnot_le_lt.
  intros Hle. apply Qle_bool_iff in Hle. congruence.
Qed.

(** The regions the latency loop measures. *)
Definition measured (rs : Regions) (r : string) (avg : Q) : Prop :=
  exists ms, (r, ms) ∈ rs /\ latencies ms <> [] /\ avg = average (latencies ms).

Lemma best_by_latency_spec rs best r avg :
  best_by_latency rs best = Some (r, avg) ->
  (best = Some (r, avg) \/ measured rs r avg) /\
  (forall r' avg', best = Some (r', avg') -> (avg <= avg')%Q) /\
  (forall r' avg', measured rs r' avg' -> (avg <= avg')%Q).
Proof.
  revert best. induction rs as [|[k ms] rs IH]; intros best; simpl.
  - intros ->. split; [by left|]. split; [intros ? ? [= <- <-]; apply Qle_refl|].
    intros r' avg' (ms & Hin & _). set_solver.
  - assert (forall r' a', measured ((k, ms) :: rs) r' a' <->
      (r' = k /\ latencies ms <> [] /\ a' = average (latencies ms)) \/ measured rs r' a') as Hm.
    { intros r' a'. unfold measured. split.
      - intros (ms' & [[= -> ->]|Hin]%elem_of_cons & ? & ?); [left; auto|right; eauto].
      - intros [(-> & ? & ?)|(ms' & ? & ? & ?)]; [exists ms; split; [left|auto]|].
        exists ms'. split; [by right|auto]. }
    setoid_rewrite Hm. destruct (latencies ms) as [|q qs] eqn:El.
    { intros (H1 & H2 & H3)%IH. split; [destruct H1; auto|]. split; [done|].
      intros r' a' [(_ & ? & _)|?]; [done|eauto]. }
    set (a := average (q :: qs)). destruct best as [[rb b]|].
    + destruct (Qltb a b) eqn:Elt; intros (H1 & H2 & H3)%IH.
      * apply Qltb_true in Elt. specialize (H2 _ _ eq_refl). split.
        { destruct H1 as [[= <- <-]|H1]; right; [left|right]; auto. }
        split; [intros ? ? [= <- <-]; by eapply Qle_trans|].
        intros r' a' [(-> & _ & ->)|?]; [done|eauto].
      * apply Qltb_false in Elt. specialize (H2 _ _ eq_refl). split; [tauto|].
        split; [intros ? ? [= <- <-]; done|].
        intros r' a' [(-> & _ & ->)|?]; [by eapply Qle_trans|eauto].
    + intros (H1 & H2 & H3)%IH. specialize (H2 _ _ eq_refl). split.
      { destruct H1 as [[= <- <-]|H1]; right; [left|right]; auto. }
      split; [done|]. intros r' a' [(-> & _ & ->)|?]; [done|eauto].
Qed.

Lemma measured_healthy rs r a : measured rs r a -> exists ms, (r, ms) ∈ rs /\ any_healthy ms = true.
Proof.
  intros (ms & Hin & Hne & _). exists ms. split; [done|]. apply any_healthy_true.
  destruct (latencies ms) as [|q qs] eqn:E; [done|].
  assert (q ∈ latencies ms) as (m & Hm & Hq)%list_elem_of_omap by (rewrite E; left).
  exists m. destruct (healthy m); [done|discriminate].
Qed.

(** ** Region choice *)

Definition region_healthy (rs : Regions) (r : string) : Prop :=
  exists ms, region_get rs r = Some ms /\ any_healthy ms = true.

(** The keys of a dict are distinct; regions have names. *)
Definition regions_wf (rs : Regions) : Prop := NoDup (fst <$> rs) /\ "" ∉ fst <$> rs.

Lemma region_get_nodup rs r ms :
  NoDup (fst <$> rs) -> (r, ms) ∈ rs -> region_get rs r = Some ms.
Proof.
  induction rs as [|[k ms'] rs IH]; csimpl; [set_solver|].
  intros [Hk Hnd]%NoDup_cons [[= -> ->]|Hin]%elem_of_cons.
  - by rewrite String.eqb_refl.
  - destruct (String.eqb_spec k r) as [->|]; [|auto]. destruct Hk.
    apply list_elem_of_fmap. by exists (r, ms).
Qed.

Lemma client_match_some rs cl r :
  client_match rs cl = Some r -> cl = Some r /\ region_healthy rs r.
Proof.
  unfold client_match, region_healthy. destruct cl as [q|]; [|done].
  destruct (truthy q); [|done]. destruct (region_get rs q) as [ms|] eqn:E; [|done].
  destruct (any_healthy ms) eqn:Eh; [|done]. intros [= ->]. eauto.
Qed.

Lemma client_match_none rs r :
  regions_wf rs -> client_match rs (Some r) = None -> ~ region_healthy rs r.
Proof.
  unfold client_match, region_healthy. intros [_ Hne] H (ms & Hg & Hh).
  rewrite Hg, Hh in H. destruct (truthy r) eqn:Et; [done|].
  unfold truthy in Et. apply negb_false_iff, String.eqb_eq in Et as ->.
  apply Hne. apply region_get_elem in Hg. apply list_elem_of_fmap. by exists ("", ms).
Qed.

Lemma truthy_region rs r a : regions_wf rs -> measured rs r a -> truthy r = true.
Proof.
  intros [_ Hne] (ms & Hin & _). unfold truthy. apply negb_true_iff, String.eqb_neq.
  intros ->. apply Hne, list_elem_of_fmap. by exists ("", ms).
Qed.

Lemma best_by_latency_none rs best r a :
  best_by_latency rs best = None -> ~ measured rs r a.
Proof.
  revert best. induction rs as [|[k ms] rs IH]; intros best; simpl.
  - intros _ (ms & Hin & _). set_solver.
  - intros H (ms' & [[= -> ->]|Hin]%elem_of_cons & Hne & Ha).
    + destruct (latencies ms) as [|q qs]; [done|]. exfalso. clear -H.
      assert (forall b, best_by_latency rs (Some b) <> None) as Hsome.
      { clear. induction rs as [|[k ms] rs IH]; intros b; simpl; [done|].
        destruct (latencies ms); [auto|]. destruct b as [rb b]. destruct (Qltb _ _); auto. }
      destruct best as [[rb b]|]; [destruct (Qltb _ _)|]; by apply Hsome in H.
    + assert (measured rs r a) as Hm by (by exists ms'). clear -H IH Hm.
      destruct (latencies ms); [by apply IH in H|].
      destruct best as [[rb b]|]; [destruct (Qltb _ _)|]; by apply IH in H.
Qed.

(** The region a read goes to: the client's region if it has a healthy pool;
    otherwise the first healthy region of the priority list; otherwise the
    region with the lowest average latency over its healthy measured pools;
    otherwise any region that has a pool; none exactly when there is no pool. *)
Theorem choose_region_policy (c : DataBase) (client : option string) :
  let rs := read_pools_by_region c in
  regions_wf rs ->
  match _choose_region c client with
  | None => all_metas rs = []
  | Some r =>
      (client = Some r /\ region_healthy rs r) \/
      (forall q, client = Some q -> ~ region_healthy rs q) /\
      ((exists l1 l2, region_priority c = l1 ++ r :: l2 /\ region_healthy rs r /\
          forall q, q ∈ l1 -> ~ region_healthy rs q) \/
       (forall q, q ∈ region_priority c -> ~ region_healthy rs q) /\
       ((exists a, measured rs r a /\ forall q b, measured rs q b -> (a <= b)%Q) \/
        (forall q b, ~ measured rs q b) /\ exists m ms, (r, m :: ms) ∈ rs))
  end.
Proof.
  intros rs Hwf. unfold _choose_region. fold rs.
  destruct (client_match rs client) as [r|] eqn:Ec.
  { left. by apply client_match_some. }
  assert (forall q, client = Some q -> ~ region_healthy rs q) as Hcl
    by (intros q ->; by apply client_match_none).
  destruct (first_priority rs (region_priority c)) as [r|] eqn:Ep.
  { right. split; [done|]. left. apply first_priority_spec in Ep as (l1 & l2 & ms & -> & Hg & Hh & Hl).
    exists l1, l2. split; [done|]. split; [by exists ms|]. intros q Hq (ms' & Hg' & Hh').
    rewrite (Hl _ _ Hq Hg') in Hh'. done. }
  assert (forall q, q ∈ region_priority c -> ~ region_healthy rs q) as Hpr.
  { intros q Hq (ms & Hg & Hh). by rewrite (first_priority_none _ _ _ _ Ep Hq Hg) in Hh. }
  destruct (best_by_latency rs None) as [[r a]|] eqn:Eb.
  - apply best_by_latency_spec in Eb as ([?|Hm] & _ & Hmin); [done|].
    rewrite (truthy_region _ _ _ Hwf Hm). right. split; [done|]. right. split; [done|]. left. eauto.
  - pose proof (fun q b => best_by_latency_none rs None q b Eb) as Hno.
    destruct (first_nonempty rs) as [r|] eqn:Ef; [|by apply first_nonempty_none].
    apply first_nonempty_spec in Ef. right. split; [done|]. right. split; [done|]. by right.
Qed.

(** ** Pool choice *)

Lemma choice_ok {A} rnd (l : list A) x : choice rnd l = Ok x -> x ∈ l.
Proof.
  unfold choice. destruct (l !! _) eqn:E; [|done]. intros [= <-].
  by eapply list_elem_of_lookup_2.
Qed.

Lemma choice_nonempty {A} rnd (l : list A) : l <> [] -> exists x, choice rnd l = Ok x.
Proof.
  intros Hl. unfold choice.
  destruct (lookup_lt_is_Some_2 l (rnd mod length l)) as [x ->]; [|eauto].
  apply Nat.mod_upper_bound. by destruct l.
Qed.

Lemma candidate_elem rs r m : m ∈ candidate_metas rs r -> m ∈ all_metas rs.
Proof.
  unfold candidate_metas. repeat case_match.
  - done.
  - intros Hm. match goal with H : filter _ (all_metas rs) = _ |- _ => rewrite <- H in Hm end.
    by apply list_elem_of_filter in Hm as [_ ?].
  - destruct (region_get rs r) as [ms|] eqn:E; simpl; [|set_solver].
    intros Hm. apply elem_of_all_metas. exists r, ms. split; [by apply region_get_elem|done].
Qed.

Lemma candidate_nonempty rs r : all_metas rs <> [] -> candidate_metas rs r <> [].
Proof.
  intros Hne. unfold candidate_metas. repeat case_match; try done.
  destruct (default [] (region_get rs r)); done.
Qed.

Lemma choose_region_none c client :
  _choose_region c client = None -> all_metas (read_pools_by_region c) = [].
Proof.
  unfold _choose_region. repeat case_match; try done; intros H'; by apply first_nonempty_none.
Qed.

Lemma choose_region_some c client r :
  _choose_region c client = Some r -> all_metas (read_pools_by_region c) <> [].
Proof.
  unfold _choose_region. intros H.
  assert (forall q ms, (q, ms) ∈ read_pools_by_region c -> ms <> [] ->
    all_metas (read_pools_by_region c) <> []) as Hne.
  { intros q [|m ms] Hin Hms Hnil; [done|].
    assert (m ∈ all_metas (read_pools_by_region c)) as Hm
      by (apply elem_of_all_metas; exists q, (m :: ms); split; [done|left]).
    rewrite Hnil in Hm. set_solver. }
  assert (forall q ms, region_get (read_pools_by_region c) q = Some ms -> any_healthy ms = true ->
    all_metas (read_pools_by_region c) <> []) as Hh.
  { intros q ms Hg Hms. apply (Hne q ms); [by apply region_get_elem|]. by destruct ms. }
  assert (first_nonempty (read_pools_by_region c) <> None -> all_metas (read_pools_by_region c) <> [])
    as Hf by (intros Hf Hn; by apply Hf, first_nonempty_none).
  destruct (client_match _ _) eqn:E1.
  { apply client_match_some in E1 as (_ & ms & Hg & Hms). by eapply Hh. }
  destruct (first_priority _ _) eqn:E2.
  { apply first_priority_spec in E2 as (? & ? & ms & _ & Hg & Hms & _). by eapply Hh. }
  destruct (best_by_latency _ _) as [[q a]|] eqn:E3.
  - apply best_by_latency_spec in E3 as ([?|(ms & Hin & Hms & _)] & _); [done|].
    apply (Hne q ms Hin). by intros ->.
  - apply Hf. congruence.
Qed.

(** A read never fails for lack of a pool: as soon as the write pool is open,
    for every client region and every random draw a pool is selected, and it
    is a configured read pool, or the write pool when there is none. *)
Theorem read_pool_always_available (rnd : nat) (c : DataBase) (client : option string) (wp : PoolId) :
  write_pool c = Some wp ->
  exists p r, get_pool rnd c client false = Ok (p, r) /\
    ((exists m, m ∈ all_metas (read_pools_by_region c) /\ p = pool m) \/
     (all_metas (read_pools_by_region c) = [] /\ p = wp)).
Proof.
  intros Hw. unfold get_pool, _select_read_pool.
  destruct (_choose_region c client) as [r|] eqn:E.
  - apply choose_region_some in E.
    destruct (choice_nonempty rnd _ (candidate_nonempty _ r E)) as [m Hm].
    rewrite Hm. simpl. exists (pool m), r. split; [done|]. left. exists m. split; [|done].
    by eapply candidate_elem, choice_ok.
  - apply choose_region_none in E. rewrite Hw. eexists _, _. split; [done|]. by right.
Qed.

(** When some pool is healthy, a read goes to a healthy pool or at least to a
    pool of a region that has a healthy one: a region that is entirely down is
    never used. *)
Theorem read_pool_avoids_dead_regions (rnd : nat) (c : DataBase) (client : option string)
  (m0 : PoolMeta) (p : PoolId) (r : string) :
  m0 ∈ all_metas (read_pools_by_region c) -> healthy m0 = true ->
  get_pool rnd c client false = Ok (p, r) ->
  exists m, m ∈ all_metas (read_pools_by_region c) /\ p = pool m /\
    (healthy m = true \/
     exists ms, region_get (read_pools_by_region c) r = Some ms /\ m ∈ ms /\ any_healthy ms = true).
Proof.
  intros Hm0 Hh0. unfold get_pool, _select_read_pool.
  destruct (_choose_region c client) as [q|] eqn:E.
  2: { apply choose_region_none in E. rewrite E in Hm0. set_solver. }
  intros (m & Hm%choice_ok & [= <- <-])%obind_ok_inv. exists m.
  split; [by eapply candidate_elem|]. split; [done|].
  revert Hm. unfold candidate_metas.
  destruct (filter _ (default [] _)) as [|h hs] eqn:E1.
  - destruct (filter _ (all_metas _)) as [|h hs] eqn:E2.
    { destruct (filter_nil_not_elem_of _ _ m0 E2 Hh0 Hm0). }
    rewrite <- E2. intros [? _]%list_elem_of_filter. by left.
  - destruct (region_get _ q) as [ms|] eqn:Eg; simpl in *; [|done]. intros Hm. right.
    exists ms. split; [done|]. split; [done|]. apply healthy_filter_nonempty. by rewrite E1.
Qed.

(** ** Example pools *)

Module Pools.
Definition mk (p : PoolId) (r : string) (h : bool) (l : option Q) : PoolMeta :=
  {| uri := r; pool := p; region := r; healthy := h; last_latency := l |}.
Definition eu : list PoolMeta := [mk 1%nat "eu" true (Some 1%Q); mk 2%nat "eu" false None].
Definition us : list PoolMeta := [mk 3%nat "us" true (Some (1 # 2)%Q)].
Definition db : DataBase :=
  {| write_pool := Some 0%nat; read_pools_by_region := [("eu", eu); ("us", us)];
     health_task := Some true; region_priority := ["eu"; "us"];
     has_timescaledb_approx_count := None |}.
End Pools.

(** A read can be sent to an unhealthy pool while a healthy pool of the same
    region exists: [_select_read_pool] computes the healthy pools of the region
    and then draws from all of them. *)
Theorem unhealthy_pool_selected :
  exists (c : DataBase) (rnd : nat) (m m' : PoolMeta) (r : string) (ms : list PoolMeta),
    region_get (read_pools_by_region c) r = Some ms /\ m ∈ ms /\ m' ∈ ms /\
    healthy m = true /\ healthy m' = false /\
    get_pool rnd c (Some r) false = Ok (pool m', r).
Proof.
  exists Pools.db, 1%nat, (Pools.mk 1%nat "eu" true (Some 1%Q)), (Pools.mk 2%nat "eu" false None), "eu", Pools.eu.
  repeat split; [left|right; left].
Qed.

(** ** The health loop *)

(** An [InterfaceError] in a probe, which is neither a [PostgresError] nor an
    [OSError], ends the health-check task: whatever later cycles would have
    seen, the pools keep the health of that moment. *)
Theorem interface_error_ends_health_loop (c : DataBase) (r : string) (m : PoolMeta)
  (ms : list PoolMeta) (rs : Regions) (probe : PoolId -> outcome DbError Q)
  (later : list (PoolId -> outcome DbError Q)) :
  read_pools_by_region c = (r, m :: ms) :: rs -> probe (pool m) = Err InterfaceErr ->
  health_task (health_check_loop (probe :: later) c) = Some false /\
  read_pools_by_region (health_check_loop (probe :: later) c) = read_pools_by_region c.
Proof. intros Hc Hp. simpl. rewrite Hc. simpl. by rewrite Hp. Qed.

(** A probe outcome that the loop catches. *)
Definition probe_caught (o : outcome DbError Q) : Prop :=
  match o with Ok _ => True | Err e => is_postgres_error e = true \/ is_os_error e = true end.

Lemma probe_meta_caught o m :
  probe_caught o -> exists m', probe_meta o m = Ok m' /\ pool m' = pool m /\ uri m' = uri m /\
    healthy m' = is_ok o.
Proof.
  unfold probe_caught, probe_meta. destruct o as [q|e]; [eauto|].
  intros H. replace (is_postgres_error e || is_os_error e) with true; [eauto|].
  symmetry. apply orb_true_iff. tauto.
Qed.

Lemma probe_metas_caught probe ms :
  (forall m, m ∈ ms -> probe_caught (probe (pool m))) ->
  exists ms', probe_metas probe ms = (ms', None) /\
    Forall2 (fun m m' => pool m' = pool m /\ uri m' = uri m /\ healthy m' = is_ok (probe (pool m))) ms ms'.
Proof.
  induction ms as [|m ms IH]; intros H; simpl; [eauto|].
  destruct (probe_meta_caught (probe (pool m)) m) as (m' & -> & ?); [apply H; left|].
  destruct IH as (ms' & -> & ?); [intros; apply H; by right|]. eauto.
Qed.

Lemma probe_regions_caught probe rs :
  (forall m, m ∈ all_metas rs -> probe_caught (probe (pool m))) ->
  exists rs', probe_regions probe rs = (rs', None) /\
    Forall2 (fun m m' => pool m' = pool m /\ uri m' = uri m /\ healthy m' = is_ok (probe (pool m)))
      (all_metas rs) (all_metas rs') /\ fst <$> rs' = fst <$> rs.
Proof.
  induction rs as [|[r ms] rs IH]; intros H; simpl; [by exists []|].
  destruct (probe_metas_caught probe ms) as (ms' & -> & Hms).
  { intros m Hm. apply H, elem_of_app. by left. }
  destruct IH as (rs' & -> & Hrs & Hk).
  { intros m Hm. apply H, elem_of_app. by right. }
  eexists. split; [done|]. split; [|csimpl; by rewrite Hk]. unfold all_metas. csimpl.
  by apply Forall2_app.
Qed.

(** A health cycle whose probes only raise [PostgresError] or [OSError] keeps
    the task alive, keeps every pool, and marks exactly the pools that
    answered as healthy. *)
Theorem health_cycle_marks_pools (c : DataBase) (probe : PoolId -> outcome DbError Q) :
  (forall m, m ∈ all_metas (read_pools_by_region c) -> probe_caught (probe (pool m))) ->
  health_task (health_check_loop [probe] c) = health_task c /\
  Forall2 (fun m m' => pool m' = pool m /\ uri m' = uri m /\ healthy m' = is_ok (probe (pool m)))
    (all_metas (read_pools_by_region c))
    (all_metas (read_pools_by_region (health_check_loop [probe] c))).
Proof.
  intros H. simpl. destruct (probe_regions_caught probe _ H) as (rs & -> & Hrs & _). done.
Qed.

(** ** Retries *)

Section retry_props.
Context {S Row Arg : Type} `{!Server S Row Arg}.

Lemma retry_more_bound {A} (m : DbM (S := S) A) (runs : DbWorld S -> nat) (n : nat) w :
  (forall w, runs (snd (m w)) = (runs w + 1)%nat) ->
  (runs w < runs (snd (retry_more n m w)) <= runs w + Datatypes.S n)%nat.
Proof.
  intros Hm. revert w. induction n as [|n IH]; intros w; simpl.
  - rewrite Hm. lia.
  - unfold try_catch. specialize (Hm w). destruct (m w) as [[a|e] w1]; simpl in *; [lia|].
    destruct (retryable e); simpl; [|lia]. specialize (IH w1). lia.
Qed.

Lemma retry_more_err {A} (m : DbM (S := S) A) n w e w' :
  retry_more n m w = (Err e, w') -> exists w1, m w1 = (Err e, w').
Proof.
  revert w. induction n as [|n IH]; intros w; simpl; [eauto|]. unfold try_catch.
  destruct (m w) as [[a|e1] w1] eqn:E; [done|]. destruct (retryable e1); [apply IH|].
  intros [= <- <-]. eauto.
Qed.

(** [_db_retry] runs the decorated operation at least once and at most three
    times, exactly once when it returns or raises an exception that is not
    retryable, and what it raises is what the last attempt raised. *)
Theorem db_retry_at_most_three {A} (m : DbM (S := S) A) (runs : DbWorld S -> nat) (w : DbWorld S) :
  (forall w, runs (snd (m w)) = (runs w + 1)%nat) ->
  (runs w + 1 <= runs (snd (_db_retry m w)) <= runs w + 3)%nat /\
  (match fst (m w) with Ok _ => true | Err e => negb (retryable e) end = true ->
   _db_retry m w = m w) /\
  (forall e w', _db_retry m w = (Err e, w') -> exists w1, m w1 = (Err e, w')).
Proof.
  intros Hm. split; [|split].
  - pose proof (retry_more_bound m runs 2 w Hm). unfold _db_retry. lia.
  - unfold _db_retry. simpl. unfold try_catch. destruct (m w) as [[a|e] w1]; simpl; [done|].
    by destruct (retryable e).
  - intros e w'. apply retry_more_err.
Qed.

(** ** Writes and counts *)

(** A server that notes the statements it is given, and with which settings. *)
Record Call := { call_pool : PoolId; call_audit : Audit; call_query : string; call_args : list Arg }.

#[local] Instance recording : Server (S * list Call) Row Arg := {|
  pick_connection := fun p s => pick_connection p (fst s);
  run_query := fun p a q args s =>
    let '(o, s', dur) := run_query p a q args (fst s) in
    (o, (s', snd s ++ [{| call_pool := p; call_audit := a; call_query := q; call_args := args |}]), dur);
  set_config := fun p v s => let '(o, s') := set_config p v (fst s) in (o, (s', snd s));
|}.

Section writes.
Context (query : string) (args : list Arg) (w : DbWorld (S * list Call)).

Definition own_audit : string * string * string :=
  (default "" (CURRENT_ACTOR_ID w), default "" (CLIENT_IP w), default "" (CURRENT_IMPERSONATOR_ID w)).

(** A statement of this request: on the primary, with its settings, or with none when
    the server refused to set them. *)
Definition own_call (c : Call) : Prop :=
  write_pool (cls w) = Some (call_pool c) /\ call_query c = query /\ call_args c = args /\
  (call_audit c = Some own_audit \/
   call_audit c = None /\ exists s, is_err (fst (set_config (call_pool c) own_audit s)) = true).

(** The request is the same and the statements since are its own, at most [n]. *)
Definition noted (n : nat) (w' : DbWorld (S * list Call)) : Prop :=
  cls w' = cls w /\ audit_of w' = own_audit /\
  exists calls, snd (server w') = snd (server w) ++ calls /\ (length calls <= n)%nat /\ Forall own_call calls.

Definition wrote (n : nat) (w' : DbWorld (S * list Call)) : Prop := sessions w' = ∅ /\ noted n w'.

Definition called (w' : DbWorld (S * list Call)) : Prop := snd (server w') <> snd (server w).

Lemma noted_more n m w' : (n <= m)%nat -> noted n w' -> noted m w'.
Proof. intros Hle (H1 & H2 & calls & H3 & H4 & H5). split; [done|]. split; [done|]. exists calls. split; [done|]. split; [lia|done]. Qed.

Lemma noted_same n w1 w2 : cls w2 = cls w1 -> audit_of w2 = audit_of w1 -> snd (server w2) = snd (server w1) ->
  noted n w1 -> noted n w2.
Proof. intros E1 E2 E3 (H1 & H2 & H). unfold noted. rewrite E1, E2, E3. auto. Qed.

(** A statement with the settings of the request or, where they were refused, none. *)
Lemma statement_noted p a n w' : write_pool (cls w) = Some p -> noted n w' ->
  a = Some own_audit \/ a = None /\ (exists s, is_err (fst (set_config p own_audit s)) = true) ->
  let '(o, w2) := on_server p a query args w' in
  noted (Datatypes.S n) w2 /\ sessions w2 = sessions w' /\ called w2.
Proof.
  intros Hp (Hc & Ha & calls & Hcalls & Hn & Hall) Hau. unfold on_server. cbn [run_query recording].
  destruct (run_query p a query args (fst (server w'))) as [[o s2] dur].
  assert (forall w2, cls w2 = cls w' -> audit_of w2 = audit_of w' -> sessions w2 = sessions w' ->
    server w2 = (s2, snd (server w') ++ [{| call_pool := p; call_audit := a; call_query := query; call_args := args |}]) ->
    noted (Datatypes.S n) w2 /\ sessions w2 = sessions w' /\ called w2) as H.
  { intros w2 E1 E2 E3 E4. split; [|split; [done|]].
    - split; [congruence|]. split; [congruence|]. eexists. split; [rewrite E4; cbn; rewrite Hcalls, <- app_assoc; reflexivity|].
      split; [rewrite length_app; simpl; lia|]. apply Forall_app. split; [done|]. by constructor; [split_and!|].
    - unfold called. rewrite E4, Hcalls. cbn. intros E. apply (f_equal length) in E. rewrite !length_app in E. simpl in E. lia. }
  destruct o; by apply H.
Qed.

Lemma write_statement_run p n w' : write_pool (cls w) = Some p -> wrote n w' ->
  let '(o, w2) := with_conn p (fun c => set_audit audit_errors p c ;;! on_conn p c query args) w' in
  wrote (Datatypes.S n) w2 /\ (is_ok o = true -> called w2).
Proof.
  intros Hp [Hs Hnote]. pose proof Hnote as (_ & Ha & _).
  unfold with_conn, bind at 1, gets, finally. set (c := pick_connection p (server w')). unfold bind, set_audit. rewrite Ha.
  destruct (set_config p own_audit (server w')) as [[u|e] s1] eqn:Ec;
    (cbn [set_config recording] in Ec; destruct (set_config p own_audit (fst (server w'))) as [r s1'] eqn:Ec'; injection Ec as -> <-).
  - unfold on_conn, bind, gets. cbn [sessions set_sessions set_server]. rewrite lookup_insert_eq, Hs.
    set (w1 := set_sessions _ _). assert (noted n w1) as Hw1 by (by apply (noted_same n w')).
    pose proof (statement_noted p (Some own_audit) n w1 Hp Hw1 ltac:(by left)) as H.
    destruct (on_server p (Some own_audit) query args w1) as [o w2]. destruct H as (H & Hs2 & Hcall). cbn.
    split; [|done]. split; [|by apply (noted_same _ w2)]. cbn. rewrite Hs2. cbn. by rewrite delete_insert_eq.
  - destruct (audit_errors e).
    + unfold on_conn, bind, gets. cbn [sessions set_server]. rewrite Hs, lookup_empty.
      set (w1 := set_server _ _). assert (noted n w1) as Hw1 by (by apply (noted_same n w')).
      pose proof (statement_noted p None n w1 Hp Hw1) as H.
      destruct (on_server p None query args w1) as [o w2]. destruct H as (H & Hs2 & Hcall).
      { right. split; [done|]. exists (server w'). cbn [set_config recording]. by rewrite Ec'. }
      cbn. split; [|done]. split; [|by apply (noted_same _ w2)]. cbn. rewrite Hs2. cbn. by rewrite Hs, delete_empty.
    + cbn. split; [|done]. split; [by rewrite Hs, delete_empty|]. apply (noted_more n); [lia|]. by apply (noted_same n w').
Qed.

(** Retries add up. *)
Lemma retry_wrote {A} (m : DbM (S := S * list Call) A) k :
  (forall n w', wrote n w' -> let '(o, w2) := m w' in wrote (Datatypes.S n) w2 /\ (is_ok o = true -> called w2)) ->
  forall n w', wrote n w' -> let '(o, w2) := retry_more k m w' in
    wrote (Datatypes.S (k + n)) w2 /\ (is_ok o = true -> called w2).
Proof.
  intros Hm. induction k as [|k IH]; intros n w' Hw; [by apply Hm|]. cbn [retry_more]. unfold try_catch.
  pose proof (Hm n w' Hw) as H. destruct (m w') as [[a|e] w1]; destruct H as [[Hs Hn] H].
  - split; [|auto]. split; [done|]. eapply noted_more; [|done]. lia.
  - destruct (retryable e).
    + pose proof (IH _ w1 (conj Hs Hn)) as H2. destruct (retry_more k m w1) as [o w2]. destruct H2 as [[Hs2 Hn2] H2].
      split; [|done]. split; [done|]. eapply noted_more; [|done]. lia.
    + split; [|done]. split; [done|]. eapply noted_more; [|done]. lia.
Qed.

(** What a request wrote: whatever the outcome, every statement that reached a server. *)
Definition writes_as_itself {A} (m : DbM (S := S * list Call) A) : Prop :=
  let '(o, w') := m w in
  sessions w' = ∅ /\
  exists calls, snd (server w') = snd (server w) ++ calls /\ (length calls <= 3)%nat /\ Forall own_call calls /\
    (is_ok o = true -> calls <> []).

Lemma wrote_result {A} (m : DbM (S := S * list Call) A) :
  (let '(o, w') := m w in wrote 3 w' /\ (is_ok o = true -> called w')) -> writes_as_itself m.
Proof.
  unfold writes_as_itself. destruct (m w) as [o w']. intros [(Hs & _ & _ & calls & Hc & Hn & Hall) Hcall].
  split; [done|]. exists calls. split_and!; try done. intros Ho ->. apply (Hcall Ho). by rewrite Hc, app_nil_r.
Qed.

(** C23: Where the connections that wait in the pools carry no audit settings, as asyncpg
    leaves a connection that is released, [DataBase.write], and [DataBase.execute]
    without an explicit connection, however they end and however often they retry: at
    most three statements reach a server, and one when the call succeeds; each is the
    one asked for, on the primary pool, on a connection that carries the current actor,
    client address and impersonator, in this order, or, only if the server refuses to
    set these, no settings: never those of another request.  No settings are left on a
    connection.  A statement that writes but is sent with [DataBase.fetch] is not covered:
    it goes to a read pool and without settings. *)
Theorem write_on_primary_with_own_audit :
  sessions w = ∅ ->
  writes_as_itself (write query args) /\ writes_as_itself (execute query args None).
Proof.
  intros Hs. assert (wrote 0 w) as H0.
  { split; [done|]. split; [done|]. split; [done|]. exists []. split; [by rewrite app_nil_r|]. by split. }
  split; apply wrote_result; unfold write, execute, _db_retry; apply (retry_wrote _ 2); try exact H0; intros n w' Hw.
  - unfold write_attempt, pick_pool, bind at 1, draw, bind at 1, gets, lift, bind at 1, bind at 1.
    destruct Hw as [Hs' Hn]. pose proof Hn as (Hc & _). set (w1 := {| cls := _ |}).
    assert (wrote n w1) as Hw1 by (split; [done|by apply (noted_same n w')]).
    unfold get_pool. change (cls w1) with (cls w'). rewrite Hc. destruct (write_pool (cls w)) as [p|] eqn:Ep.
    + pose proof (write_statement_run p n w1 Ep Hw1) as H. cbn -[with_conn bind].
      unfold bind at 1. unfold bind at 2.
      destruct (with_conn p _ w1) as [[[rows dur]|e] w2]; [|done]. destruct H as [[Hs2 Hn2] H].
      cbn. split; [|done]. split; [done|]. by apply (noted_same _ w2).
    + cbn. split; [|done]. destruct Hw1. split; [done|]. by eapply noted_more; [|eassumption]; lia.
  - unfold bind at 1, gets. destruct Hw as [Hs' Hn]. pose proof Hn as (Hc & _). rewrite Hc.
    destruct (write_pool (cls w)) as [p|] eqn:Ep; cbn.
    + pose proof (write_statement_run p n w' Ep (conj Hs' Hn)) as H. unfold bind.
      by destruct (with_conn p _ w') as [[[rows dur]|e] w2].
    + split; [|done]. split; [done|]. by eapply noted_more; [|eassumption]; lia.
Qed.
End writes.

(** [get_table_approximate_count] refuses a name that is not an identifier
    before it sends any statement, and what it returns is never negative,
    whatever the server answers or raises. *)
Theorem approximate_count_safe (to_z : Row -> option Z) (name_arg : string -> Arg)
  (table_name : string) (w : DbWorld S) :
  (valid_table_name table_name = false ->
   get_table_approximate_count to_z name_arg table_name w =
   (Err (ValueErr ("Invalid table name: " +:+ table_name)), w)) /\
  (forall n w', get_table_approximate_count to_z name_arg table_name w = (Ok n, w') -> 0 <= n).
Proof.
  split; [unfold get_table_approximate_count, bind; by intros ->|]. revert w.
  change (returns (fun n => 0 <= n) (get_table_approximate_count (S := S) to_z name_arg table_name)).
  unfold get_table_approximate_count. eapply returns_bind; [apply returns_any|]. intros _ _.
  eapply returns_bind; [apply returns_any|]. intros c _.
  apply (returns_bind (fun o => forall n, o = Some n -> 0 <= n)).
  - assert (forall (m : DbM (S := S) (option Z)), returns (fun o => forall n, o = Some n -> 0 <= n)
      (bind m (fun v => ret (Z.max 0 <$> v)))) as Hmax.
    { intros m. eapply returns_bind; [apply returns_any|]. intros v _. apply returns_ret.
      destruct v; simpl; [intros n [= <-]; lia|done]. }
    assert (forall e (b : bool) (u : DbM (S := S) unit),
      returns (fun o : option Z => forall n, o = Some n -> 0 <= n)
        (if b then bind u (fun _ => ret None) else raise e)) as Hnone.
    { intros e [] u; [|apply returns_raise]. eapply returns_bind; [apply returns_any|].
      intros _ _. by apply returns_ret. }
    case_match; [case_match|]; try (by apply returns_ret); apply returns_try;
      try (intros e; apply Hnone); (eapply returns_bind; [apply returns_any|]; intros _ _;
      eapply returns_bind; [apply returns_any|]; intros c' _; repeat case_match;
      try (apply Hmax); by apply returns_ret).
  - intros [n|] Hn; [apply returns_ret; auto|].
    apply (returns_bind (fun o => forall n, o = Some n -> 0 <= n)).
    + apply returns_try; [|intros e; case_match; [by apply returns_ret|apply returns_raise]].
      eapply returns_bind; [apply returns_any|]. intros v _. apply returns_ret.
      repeat case_match; intros n' [= <-]. lia.
    + intros [n|] Hn'; [apply returns_ret; auto|].
      apply returns_try; [|intros e; case_match; [by apply returns_ret|apply returns_raise]].
      eapply returns_bind; [apply returns_any|]. intros v _. apply returns_ret. case_match; lia.
Qed.
End retry_props.

(** ** Witnesses *)

(** A server that counts the statements it runs, and loses the connection on
    the first one. *)
#[export] Instance flaky_server : Server nat Z string := {|
  pick_connection := fun _ _ => 7%nat;
  run_query := fun _ _ _ _ n => (if (n =? 0)%nat then Err ConnectionDoesNotExist else Ok [42%Z],
                                 (n + 1)%nat, 0%Q);
  set_config := fun _ _ n => (Ok tt, n);
|}.

Definition world0 : DbWorld nat :=
  {| cls := Pools.db; server := 0%nat; sessions := ∅; draws := []; CLIENT_REGION := Some "us";
     CURRENT_ACTOR_ID := Some "alice"; CLIENT_IP := None; CURRENT_IMPERSONATOR_ID := None;
     counters := {| read_total := 0; read_slow := 0; write_total := 0; write_slow := 0 |} |}.

Lemma pools_db_wf : regions_wf (read_pools_by_region Pools.db).
Proof.
  split; simpl; [|set_solver]. repeat constructor; set_solver.
Qed.

Lemma choose_region_policy_witness :
  let rs := read_pools_by_region Pools.db in
  _choose_region Pools.db None = Some "eu" /\
  (region_healthy rs "eu" \/ (exists a, measured rs "eu" a) \/ exists m ms, ("eu", m :: ms) ∈ rs).
Proof.
  intros rs. split; [reflexivity|].
  pose proof (choose_region_policy Pools.db None pools_db_wf) as H.
  replace (_choose_region Pools.db None) with (Some "eu") in H by reflexivity. fold rs in H.
  destruct H as [[[=] _]|(_ & [(l1 & l2 & _ & Hh & _)|(_ & [(a & Ha & _)|(_ & Hm)])])].
  - by left.
  - right. left. by exists a.
  - by right; right.
Defined.

Lemma read_pool_always_available_witness :
  exists p r, get_pool 5 Pools.db (Some "eu") false = Ok (p, r).
Proof.
  destruct (read_pool_always_available 5 Pools.db (Some "eu") 0%nat eq_refl) as (p & r & H & _).
  exists p, r. exact H.
Defined.

Lemma read_pool_avoids_dead_regions_witness :
  exists m, m ∈ all_metas (read_pools_by_region Pools.db) /\ 3%nat = pool m.
Proof.
  destruct (read_pool_avoids_dead_regions 0 Pools.db (Some "us") (Pools.mk 3%nat "us" true (Some (1 # 2)%Q))
    3%nat "us") as (m & Hm & Hp & _).
  - simpl. right. right. left.
  - reflexivity.
  - reflexivity.
  - exists m. split; [exact Hm|exact Hp].
Defined.

Lemma interface_error_ends_health_loop_witness :
  health_task (health_check_loop [(fun _ => Err InterfaceErr); (fun _ => Ok 1%Q)] Pools.db)
    = Some false.
Proof.
  apply (interface_error_ends_health_loop Pools.db "eu" (Pools.mk 1%nat "eu" true (Some 1%Q))
    [Pools.mk 2%nat "eu" false None] [("us", Pools.us)] (fun _ => Err InterfaceErr)
    [fun _ => Ok 1%Q]); reflexivity.
Defined.

Lemma health_cycle_marks_pools_witness :
  health_task (health_check_loop [fun _ => Err OSErr] Pools.db) = Some true.
Proof.
  apply (health_cycle_marks_pools Pools.db (fun _ => Err OSErr)).
  intros m _. right. reflexivity.
Defined.

Lemma db_retry_at_most_three_witness :
  (server (snd (_db_retry (on_server 0%nat None "UPDATE" []) world0)) <= 3)%nat /\
  fst (write "UPDATE" [] world0) = Ok (Some 42).
Proof.
  split; [|vm_compute; reflexivity].
  destruct (db_retry_at_most_three (on_server 0%nat None "UPDATE" []) server world0) as [[_ H] _].
  - intros w. unfold on_server. simpl. destruct (server w =? 0)%nat; reflexivity.
  - exact H.
Defined.

#[local] Existing Instance recording.

Lemma write_on_primary_with_own_audit_witness :
  let w : DbWorld (nat * list Call) := {| cls := Pools.db; server := (1%nat, []); sessions := ∅; draws := []; CLIENT_REGION := Some "us";
              CURRENT_ACTOR_ID := Some "alice"; CLIENT_IP := None; CURRENT_IMPERSONATOR_ID := None;
              counters := counters world0 |} in
  writes_as_itself "UPDATE" [] w (write (Row := Z) "UPDATE" []) /\
  fst (write (Row := Z) "UPDATE" [] w) = Ok (Some 42).
Proof.
  intros w. split; [|vm_compute; reflexivity].
  exact (proj1 (write_on_primary_with_own_audit "UPDATE" [] w eq_refl)).
Defined.

Lemma approximate_count_safe_witness :
  fst (get_table_approximate_count Some (fun s => s) "users; DROP TABLE users" world0) =
  Err (ValueErr "Invalid table name: users; DROP TABLE users").
Proof.
  rewrite (proj1 (approximate_count_safe Some (fun s => s) "users; DROP TABLE users" world0));
    vm_compute; reflexivity.
Defined.

