(* ===== verification/Redis.v ===== *)
(** * The Redis interface

    Redis is a service outside the repository: the model sees it through the
    class [Redis] of the commands the code issues (GET, SET with EX and NX, DEL,
    HGET, HSET, HDEL, EXPIRE) and the class [RedisLaws] of their documented
    behaviour, with keys that expire.  Times are whole seconds.  A command on a
    key of another type is outside the laws.  [MapRedis] is an implementation
    that satisfies them, used to run the model and for the witnesses.

    Stored values are texts, or JSON texts represented by their tree; [Model]
    is what pydantic's [model_dump] and [model_validate] are to a data type. *)

From Stdlib Require Import ZArith Lia Ascii String List Bool.
From stdpp Require Import base gmap strings list.
From S2P Require Import Prelude.
Local Open Scope string_scope.
Local Open Scope list_scope.
Local Open Scope Z_scope.

Inductive Json :=
| JNull
| JBool (b : bool)
| JNum (n : Z)
| JFloat (text : string)          (* a float, as the text it was read from or is written as *)
| JStr (s : string)
| JList (l : list Json)
| JObj (fields : list (string * Json)).

(** [d.get(k)] on a JSON object. *)
Fixpoint fields_get (fs : list (string * Json)) (k : string) : option Json :=
  match fs with
  | [] => None
  | (k', v) :: fs' => if String.eqb k' k then Some v else fields_get fs' k
  end.
Definition jget (k : string) (j : Json) : option Json :=
  match j with JObj fs => fields_get fs k | _ => None end.

(** A text of a float is zero: no digit but 0 before the exponent. *)
Fixpoint float_zero (t : string) : bool :=
  match t with
  | EmptyString => true
  | String c t' =>
      if Ascii.eqb c "e"%char || Ascii.eqb c "E"%char then true
      else (Ascii.eqb c "0"%char || Ascii.eqb c "."%char || Ascii.eqb c "-"%char) && float_zero t'
  end.

(** [not v]. *)
Definition falsy (j : Json) : bool :=
  match j with
  | JNull | JBool false | JNum 0 | JStr EmptyString | JList [] | JObj [] => true
  | JFloat t => float_zero t
  | _ => false
  end.

(** Typed readings of a field; an optional field accepts [null]. *)
Definition as_str (j : option Json) : option string :=
  match j with Some (JStr s) => Some s | _ => None end.
Definition as_num (j : option Json) : option Z :=
  match j with Some (JNum n) => Some n | _ => None end.
Definition as_bool (j : option Json) : option bool :=
  match j with Some (JBool b) => Some b | _ => None end.
Definition as_opt {A} (f : option Json -> option A) (j : option Json) : option (option A) :=
  match j with
  | None | Some JNull => Some None
  | _ => Some <$> f j
  end.
Definition of_opt {A} (f : A -> Json) (o : option A) : Json :=
  match o with Some a => f a | None => JNull end.

(** A Redis value: plain text or a JSON document. *)
Inductive RVal :=
| RText (s : string)
| RJson (j : Json).

(** The truth value of what GET returned: the empty string is false. *)
Definition rval_truthy (v : RVal) : bool :=
  match v with RText s => truthy s | RJson _ => true end.

(** Serialisation of a pydantic model. *)
Class Model (A : Type) := {
  model_dump : A -> Json;
  model_validate : Json -> option A;
  model_validate_dump : forall a, model_validate (model_dump a) = Some a;
}.

Class Redis (R : Type) := {
  r_get : Z -> string -> R -> option RVal;
  r_set : Z -> string -> RVal -> option Z -> R -> R;
  r_del : list string -> R -> R;
  r_hget : Z -> string -> string -> R -> option RVal;
  r_hset : Z -> string -> string -> RVal -> R -> R;
  r_hdel : Z -> string -> list string -> R -> R;
  r_expire : Z -> string -> Z -> R -> R;
}.

(** The time an entry written at [now] with [ex] is still there at [n]. *)
Definition alive (now : Z) (ex : option Z) (n : Z) : bool :=
  match ex with Some e => n <? now + e | None => true end.

Class RedisLaws (R : Type) `{!Redis R} : Prop := {
  get_set_eq : forall now n k v ex (r : R), now <= n ->
    r_get n k (r_set now k v ex r) = if alive now ex n then Some v else None;
  get_set_ne : forall now n k k' v ex (r : R), k <> k' ->
    r_get n k' (r_set now k v ex r) = r_get n k' r;
  hget_set_ne : forall now n k h f v ex (r : R), k <> h ->
    r_hget n h f (r_set now k v ex r) = r_hget n h f r;
  get_del : forall n k ks (r : R),
    r_get n k (r_del ks r) = if mem k ks then None else r_get n k r;
  hget_del : forall n h f ks (r : R),
    r_hget n h f (r_del ks r) = if mem h ks then None else r_hget n h f r;
  hget_hset_eq : forall now h f v (r : R), r_hget now h f (r_hset now h f v r) = Some v;
  hget_hset_ne : forall now h f f' v (r : R), f <> f' ->
    r_hget now h f' (r_hset now h f v r) = r_hget now h f' r;
  hget_hset_key : forall now n h h' f f' v (r : R), h <> h' ->
    r_hget n h' f' (r_hset now h f v r) = r_hget n h' f' r;
  get_hset_ne : forall now n h k f v (r : R), h <> k ->
    r_get n k (r_hset now h f v r) = r_get n k r;
  hget_hdel : forall now h f fs (r : R),
    r_hget now h f (r_hdel now h fs r) = if mem f fs then None else r_hget now h f r;
  hget_hdel_key : forall now n h h' f fs (r : R), h <> h' ->
    r_hget n h' f (r_hdel now h fs r) = r_hget n h' f r;
  get_hdel_ne : forall now n h k fs (r : R), h <> k ->
    r_get n k (r_hdel now h fs r) = r_get n k r;
  hget_expire : forall now n h f e (r : R), now <= n ->
    r_hget n h f (r_expire now h e r) = if n <? now + e then r_hget now h f r else None;
  hget_expire_key : forall now n h h' f e (r : R), h <> h' ->
    r_hget n h' f (r_expire now h e r) = r_hget n h' f r;
  get_expire_ne : forall now n h k e (r : R), h <> k ->
    r_get n k (r_expire now h e r) = r_get n k r;
  get_mono : forall n n' k (r : R), n <= n' ->
    r_get n' k r = None \/ r_get n' k r = r_get n k r;
}.

Create Rewrite HintDb redis.
#[export] Hint Rewrite @get_set_eq using (first [assumption|lia]) : redis.
#[export] Hint Rewrite @get_set_ne @hget_set_ne @get_hset_ne using congruence : redis.
#[export] Hint Rewrite @get_del @hget_del @hget_hset_eq @hget_hdel : redis.

(** ** An implementation *)

Module MapRedis.
Inductive content :=
| Str (v : RVal)
| Hash (m : gmap string RVal).

Record entry := { e_content : content; e_until : option Z }.

Abbreviation t := (gmap string entry).

Definition live (now : Z) (e : entry) : bool :=
  match e_until e with Some u => now <? u | None => true end.

Definition find (now : Z) (k : string) (r : t) : option entry :=
  match r !! k with Some e => if live now e then Some e else None | None => None end.

Definition get (now : Z) (k : string) (r : t) : option RVal :=
  match find now k r with Some {| e_content := Str v |} => Some v | _ => None end.

Definition set (now : Z) (k : string) (v : RVal) (ex : option Z) (r : t) : t :=
  <[k := {| e_content := Str v; e_until := (fun e => now + e) <$> ex |}]> r.

Definition del (ks : list string) (r : t) : t := foldr delete r ks.

Definition hget (now : Z) (h f : string) (r : t) : option RVal :=
  match find now h r with Some {| e_content := Hash m |} => m !! f | _ => None end.

(** A hash that has expired is absent: HSET creates a fresh one. *)
Definition hset (now : Z) (h f : string) (v : RVal) (r : t) : t :=
  match find now h r with
  | Some {| e_content := Hash m; e_until := u |} =>
      <[h := {| e_content := Hash (<[f := v]> m); e_until := u |}]> r
  | _ => <[h := {| e_content := Hash {[f := v]}; e_until := None |}]> r
  end.

Definition hdel (now : Z) (h : string) (fs : list string) (r : t) : t :=
  match find now h r with
  | Some {| e_content := Hash m; e_until := u |} =>
      <[h := {| e_content := Hash (foldr delete m fs); e_until := u |}]> r
  | _ => r
  end.

Definition expire (now : Z) (h : string) (e : Z) (r : t) : t :=
  match find now h r with
  | Some en => <[h := {| e_content := e_content en; e_until := Some (now + e) |}]> r
  | None => delete h r
  end.

#[global] Instance redis : Redis t := {
  r_get := get; r_set := set; r_del := del; r_hget := hget; r_hset := hset;
  r_hdel := hdel; r_expire := expire;
}.

Lemma find_insert_ne now h k e r : h <> k -> find now k (<[h := e]> r) = find now k r.
Proof. intros Hne. unfold find. by rewrite lookup_insert_ne. Qed.

Lemma find_insert_eq now k e r : find now k (<[k := e]> r) = if live now e then Some e else None.
Proof. unfold find. by rewrite lookup_insert_eq. Qed.

Lemma foldr_delete_lookup {A} (m : gmap string A) ks k :
  foldr delete m ks !! k = if mem k ks then None else m !! k.
Proof.
  induction ks as [|k' ks IH]; simpl.
  - done.
  - destruct (decide (k' = k)) as [->|Hne].
    + rewrite lookup_delete_eq. replace (mem k (k :: ks)) with true; [done|].
      symmetry. apply mem_true. left.
    + rewrite lookup_delete_ne, IH by done.
      replace (mem k (k' :: ks)) with (mem k ks); [done|].
      destruct (mem k ks) eqn:E; symmetry; rewrite ?mem_true, ?mem_false in *; set_solver.
Qed.

Lemma find_del now ks k r : find now k (del ks r) = if mem k ks then None else find now k r.
Proof. unfold find, del. rewrite foldr_delete_lookup. by destruct (mem k ks). Qed.

Lemma find_hset_ne now n h k f v r : h <> k -> find n k (hset now h f v r) = find n k r.
Proof. intros Hne. unfold hset. repeat case_match; by rewrite find_insert_ne. Qed.
Lemma find_hdel_ne now n h k fs r : h <> k -> find n k (hdel now h fs r) = find n k r.
Proof. intros Hne. unfold hdel. repeat case_match; by rewrite ?find_insert_ne. Qed.
Lemma find_expire_ne now n h k e r : h <> k -> find n k (expire now h e r) = find n k r.
Proof.
  intros Hne. unfold expire. case_match; [by rewrite find_insert_ne|].
  unfold find. by rewrite lookup_delete_ne.
Qed.

Lemma find_live now k r e : find now k r = Some e -> live now e = true.
Proof. unfold find. repeat case_match; congruence. Qed.

Lemma hget_hset_same now h f f' v r :
  hget now h f' (hset now h f v r) = if decide (f = f') then Some v else hget now h f' r.
Proof.
  unfold hset. destruct (find now h r) as [[c u]|] eqn:E.
  - assert (live now {| e_content := c; e_until := u |} = true) as Hl by (by eapply find_live).
    unfold live in Hl. destruct c as [w|m]; unfold hget at 1; rewrite find_insert_eq; simpl.
    + unfold live. simpl. unfold hget. rewrite E. case_decide.
      * subst. by rewrite lookup_singleton_eq.
      * by rewrite lookup_singleton_ne.
    + unfold live. simpl in *. rewrite Hl. unfold hget. rewrite E. case_decide.
      * subst. by rewrite lookup_insert_eq.
      * by rewrite lookup_insert_ne.
  - unfold hget. rewrite find_insert_eq, E. simpl. case_decide.
    + subst. by rewrite lookup_singleton_eq.
    + by rewrite lookup_singleton_ne.
Qed.

#[global] Instance laws : RedisLaws t.
Proof.
  split; simpl.
  - intros now n k v ex r Hle. unfold get, set. rewrite find_insert_eq. unfold live, alive. simpl.
    destruct ex as [e|]; simpl; [by destruct (n <? now + e)|done].
  - intros now n k k' v ex r Hne. unfold get, set. by rewrite find_insert_ne.
  - intros now n k h f v ex r Hne. unfold hget, set. by rewrite find_insert_ne.
  - intros n k ks r. unfold get. rewrite find_del. by destruct (mem k ks).
  - intros n h f ks r. unfold hget. rewrite find_del. by destruct (mem h ks).
  - intros now h f v r. rewrite hget_hset_same. by case_decide.
  - intros now h f f' v r Hne. rewrite hget_hset_same. by case_decide.
  - intros now n h h' f f' v r Hne. unfold hget. by rewrite find_hset_ne.
  - intros now n h k f v r Hne. unfold get. by rewrite find_hset_ne.
  - intros now h f fs r. unfold hdel. destruct (find now h r) as [[[w|m] u]|] eqn:E.
    + unfold hget. rewrite E. by destruct (mem f fs).
    + unfold hget. rewrite find_insert_eq, E. unfold live. simpl.
      apply find_live in E. unfold live in E. simpl in E. rewrite E. apply foldr_delete_lookup.
    + unfold hget. rewrite E. by destruct (mem f fs).
  - intros now n h h' f fs r Hne. unfold hget. by rewrite find_hdel_ne.
  - intros now n h k fs r Hne. unfold get. by rewrite find_hdel_ne.
  - intros now n h f e r Hle. unfold expire, hget. destruct (find now h r) as [[c u]|] eqn:E.
    + rewrite find_insert_eq. unfold live. simpl. by destruct (n <? now + e).
    + unfold find. rewrite lookup_delete_eq. by destruct (n <? now + e).
  - intros now n h h' f e r Hne. unfold hget. by rewrite find_expire_ne.
  - intros now n h k e r Hne. unfold get. by rewrite find_expire_ne.
  - intros n n' k r Hle. unfold get, find. destruct (r !! k) as [[c u]|]; [|by left].
    unfold live. simpl. destruct u as [u|]; [|by right].
    destruct (Z.ltb_spec n' u); [|by left]. replace (n <? u) with true; [by right|].
    symmetry. apply Z.ltb_lt. lia.
Qed.
End MapRedis.
