(* ===== verification/Schema.v ===== *)
(** * Rows and tables (src/api/migrations, src/api/apps/*/v0/schemas)

    One record per table row, with the columns of the migrations; a table with a
    single-column primary key is a finite map from that key.  UUIDs are their
    canonical lower-case text, timestamps are whole seconds.  Columns that no
    modelled statement reads or writes (identity profile, device data) are left
    out. *)

From Stdlib Require Import ZArith String List Bool.
From stdpp Require Import base gmap strings list.
From S2P Require Import Prelude Redis.
Local Open Scope string_scope.
Local Open Scope list_scope.
Local Open Scope Z_scope.

Abbreviation uuid := string.

(** ** Users, identities, sessions (001, 002) *)

Record User := {
  u_id : uuid;
  username : string;
  email : string;
  hashed_password : option string;
  full_name : option string;
  is_active : bool;
  profile_picture_url : option string;
  u_created_at : Z;
  token_version : Z;
}.

Record Identity := {
  i_user_id : uuid;
  provider : string;
  provider_user_id : string;
  i_email : option string;
  email_verified : option bool;
}.

Record UserSession := {
  s_id : uuid;
  jti : string;
  s_user_id : uuid;
  issued_at : Z;
  s_expires_at : Z;
  ip_address : option string;
  user_agent : option string;
  s_created_at : Z;
  s_updated_at : Z;
}.

(** ** Roles and permissions (002) *)

Record Permission := {
  p_id : uuid;
  p_name : string;
  p_description : option string;
  p_created_at : Z;
}.

Record Role := {
  r_id : uuid;
  r_name : string;
  r_description : option string;
  r_created_at : Z;
  r_updated_at : Z;
}.

(** ** Two-factor configuration (007): [backup_codes] decoded *)

Record BackupCode := {
  code_hash : string;
  used : bool;
  used_at : option Z;
}.

Record TwoFactor := {
  is_enabled : bool;
  secret_encrypted : string;
  backup_codes : list BackupCode;
}.

(** ** System configuration (010), app versions (003), API keys (008) *)

Record SystemConfig := {
  enforce_mfa : bool;
  sc_updated_at : Z;
  sc_updated_by : option uuid;
}.

Record AppVersion := {
  platform : string;
  min_build : Z;
  latest_build : Z;
  force_update : bool;
  update_message : option string;
  update_url : option string;
  v_created_at : Z;
  v_updated_at : Z;
}.

Record ApiKey := {
  k_id : uuid;
  k_created_by : option uuid;
  k_name : string;
  k_prefix : string;
  k_hashed_key : string;
  k_scopes : list string;
  k_rate_limit : option Z;
  k_expires_at : option Z;
  k_last_used_at : option Z;
  k_is_active : bool;
  k_created_at : Z;
  k_updated_at : Z;
}.

(** ** Webhooks (008), dead letters (005), schedules (004), devices (011) *)

(** [headers] as the driver decodes it: a value stored by the service is a JSON
    string (the text of the headers), as [Webhooks] explains. *)
Record WebhookEndpoint := {
  we_id : uuid;
  we_created_by : option uuid;
  we_url : string;
  we_secret : string;
  we_description : option string;
  we_event_types : list string;
  we_headers : Json;
  we_is_active : bool;
  we_created_at : Z;
  we_updated_at : Z;
}.

Inductive WebhookDirection := INBOUND | OUTBOUND.
Inductive WebhookStatus := SUCCESS | FAILED | RETRYING.

Record WebhookLog := {
  wl_id : uuid;
  wl_direction : WebhookDirection;
  wl_endpoint_id : option uuid;
  wl_source : string;
  wl_event_name : string;
  wl_url : string;
  wl_status : WebhookStatus;
  wl_status_code : option Z;
  wl_payload : Json;
  wl_request_headers : Json;
  wl_response_headers : Json;
  wl_response_body : option string;
  wl_error_message : option string;
  wl_ip_address : option string;
  wl_created_at : Z;
}.

Record DeadLetterTask := {
  d_id : uuid;
  d_task_id : string;
  d_task_name : string;
  d_queue : string;
  d_args : Json;
  d_kwargs : Json;
  d_headers : Json;
  d_exception_type : option string;
  d_exception_message : option string;
  d_traceback : option string;
  d_retry_count : Z;
  d_failed_at : Z;
  d_created_at : Z;
  d_updated_at : Z;
}.

Inductive ScheduleType := CRONTAB | INTERVAL.
Inductive IntervalPeriod := SECONDS | MINUTES | HOURS | DAYS.

Record PeriodicTask := {
  pt_id : uuid;
  pt_name : string;
  pt_task : string;
  pt_schedule_type : ScheduleType;
  pt_cron_minute : option string;
  pt_cron_hour : option string;
  pt_cron_day_of_week : option string;
  pt_cron_day_of_month : option string;
  pt_cron_month_of_year : option string;
  pt_interval_every : option Z;
  pt_interval_period : option IntervalPeriod;
  pt_args : Json;
  pt_kwargs : Json;
  pt_enabled : bool;
  pt_created_at : Z;
  pt_updated_at : Z;
}.

Record UserDevice := {
  ud_id : uuid;
  ud_user_id : uuid;
  ud_fcm_token : string;
  ud_platform : string;
  ud_device_name : option string;
  ud_is_active : bool;
  ud_last_used_at : Z;
  ud_created_at : Z;
  ud_updated_at : Z;
}.

(** ** The database *)

Record Tables := {
  users : gmap uuid User;
  user_identities : list Identity;
  user_sessions : gmap uuid UserSession;
  permissions : gmap uuid Permission;
  roles : gmap uuid Role;
  role_permissions : gset (uuid * uuid);
  user_roles : gset (uuid * uuid);
  user_two_factor : gmap uuid TwoFactor;
  system_configurations : option SystemConfig;
  app_versions : gmap string AppVersion;
  api_keys : gmap uuid ApiKey;
  webhook_endpoints : gmap uuid WebhookEndpoint;
  webhook_logs : list WebhookLog;
  dead_letter_tasks : gmap uuid DeadLetterTask;
  periodic_tasks : gmap uuid PeriodicTask;
  user_devices : gmap uuid UserDevice;
}.

Definition empty_tables : Tables :=
  {| users := ∅; user_identities := []; user_sessions := ∅; permissions := ∅; roles := ∅;
     role_permissions := ∅; user_roles := ∅; user_two_factor := ∅; system_configurations :=
     None; app_versions := ∅; api_keys := ∅; webhook_endpoints := ∅; webhook_logs := [];
     dead_letter_tasks := ∅; periodic_tasks := ∅; user_devices := ∅ |}.

Definition set_users (f : gmap uuid User -> gmap uuid User) (t : Tables) : Tables :=
  {| users := f (users t); user_identities := user_identities t; user_sessions := user_sessions
     t; permissions := permissions t; roles := roles t; role_permissions := role_permissions t;
     user_roles := user_roles t; user_two_factor := user_two_factor t; system_configurations :=
     system_configurations t; app_versions := app_versions t; api_keys := api_keys t;
     webhook_endpoints := webhook_endpoints t; webhook_logs := webhook_logs t; dead_letter_tasks
     := dead_letter_tasks t; periodic_tasks := periodic_tasks t; user_devices := user_devices t
     |}.

Definition set_identities (f : list Identity -> list Identity) (t : Tables) : Tables :=
  {| users := users t; user_identities := f (user_identities t); user_sessions := user_sessions
     t; permissions := permissions t; roles := roles t; role_permissions := role_permissions t;
     user_roles := user_roles t; user_two_factor := user_two_factor t; system_configurations :=
     system_configurations t; app_versions := app_versions t; api_keys := api_keys t;
     webhook_endpoints := webhook_endpoints t; webhook_logs := webhook_logs t; dead_letter_tasks
     := dead_letter_tasks t; periodic_tasks := periodic_tasks t; user_devices := user_devices t
     |}.

Definition set_sessions (f : gmap uuid UserSession -> gmap uuid UserSession) (t : Tables) : Tables :=
  {| users := users t; user_identities := user_identities t; user_sessions := f (user_sessions
     t); permissions := permissions t; roles := roles t; role_permissions := role_permissions t;
     user_roles := user_roles t; user_two_factor := user_two_factor t; system_configurations :=
     system_configurations t; app_versions := app_versions t; api_keys := api_keys t;
     webhook_endpoints := webhook_endpoints t; webhook_logs := webhook_logs t; dead_letter_tasks
     := dead_letter_tasks t; periodic_tasks := periodic_tasks t; user_devices := user_devices t
     |}.

Definition set_roles (f : gmap uuid Role -> gmap uuid Role) (t : Tables) : Tables :=
  {| users := users t; user_identities := user_identities t; user_sessions := user_sessions t;
     permissions := permissions t; roles := f (roles t); role_permissions := role_permissions t;
     user_roles := user_roles t; user_two_factor := user_two_factor t; system_configurations :=
     system_configurations t; app_versions := app_versions t; api_keys := api_keys t;
     webhook_endpoints := webhook_endpoints t; webhook_logs := webhook_logs t; dead_letter_tasks
     := dead_letter_tasks t; periodic_tasks := periodic_tasks t; user_devices := user_devices t
     |}.

Definition set_role_permissions (f : gset (uuid * uuid) -> gset (uuid * uuid)) (t : Tables) : Tables :=
  {| users := users t; user_identities := user_identities t; user_sessions := user_sessions t;
     permissions := permissions t; roles := roles t; role_permissions := f (role_permissions t);
     user_roles := user_roles t; user_two_factor := user_two_factor t; system_configurations :=
     system_configurations t; app_versions := app_versions t; api_keys := api_keys t;
     webhook_endpoints := webhook_endpoints t; webhook_logs := webhook_logs t; dead_letter_tasks
     := dead_letter_tasks t; periodic_tasks := periodic_tasks t; user_devices := user_devices t
     |}.

Definition set_user_roles (f : gset (uuid * uuid) -> gset (uuid * uuid)) (t : Tables) : Tables :=
  {| users := users t; user_identities := user_identities t; user_sessions := user_sessions t;
     permissions := permissions t; roles := roles t; role_permissions := role_permissions t;
     user_roles := f (user_roles t); user_two_factor := user_two_factor t; system_configurations
     := system_configurations t; app_versions := app_versions t; api_keys := api_keys t;
     webhook_endpoints := webhook_endpoints t; webhook_logs := webhook_logs t; dead_letter_tasks
     := dead_letter_tasks t; periodic_tasks := periodic_tasks t; user_devices := user_devices t
     |}.

Definition set_two_factor (f : gmap uuid TwoFactor -> gmap uuid TwoFactor) (t : Tables) : Tables :=
  {| users := users t; user_identities := user_identities t; user_sessions := user_sessions t;
     permissions := permissions t; roles := roles t; role_permissions := role_permissions t;
     user_roles := user_roles t; user_two_factor := f (user_two_factor t); system_configurations
     := system_configurations t; app_versions := app_versions t; api_keys := api_keys t;
     webhook_endpoints := webhook_endpoints t; webhook_logs := webhook_logs t; dead_letter_tasks
     := dead_letter_tasks t; periodic_tasks := periodic_tasks t; user_devices := user_devices t
     |}.

Definition set_system_config (f : option SystemConfig -> option SystemConfig) (t : Tables) : Tables :=
  {| users := users t; user_identities := user_identities t; user_sessions := user_sessions t;
     permissions := permissions t; roles := roles t; role_permissions := role_permissions t;
     user_roles := user_roles t; user_two_factor := user_two_factor t; system_configurations :=
     f (system_configurations t); app_versions := app_versions t; api_keys := api_keys t;
     webhook_endpoints := webhook_endpoints t; webhook_logs := webhook_logs t; dead_letter_tasks
     := dead_letter_tasks t; periodic_tasks := periodic_tasks t; user_devices := user_devices t
     |}.

Definition set_app_versions (f : gmap string AppVersion -> gmap string AppVersion) (t : Tables) : Tables :=
  {| users := users t; user_identities := user_identities t; user_sessions := user_sessions t;
     permissions := permissions t; roles := roles t; role_permissions := role_permissions t;
     user_roles := user_roles t; user_two_factor := user_two_factor t; system_configurations :=
     system_configurations t; app_versions := f (app_versions t); api_keys := api_keys t;
     webhook_endpoints := webhook_endpoints t; webhook_logs := webhook_logs t; dead_letter_tasks
     := dead_letter_tasks t; periodic_tasks := periodic_tasks t; user_devices := user_devices t
     |}.

Definition set_api_keys (f : gmap uuid ApiKey -> gmap uuid ApiKey) (t : Tables) : Tables :=
  {| users := users t; user_identities := user_identities t; user_sessions := user_sessions t;
     permissions := permissions t; roles := roles t; role_permissions := role_permissions t;
     user_roles := user_roles t; user_two_factor := user_two_factor t; system_configurations :=
     system_configurations t; app_versions := app_versions t; api_keys := f (api_keys t);
     webhook_endpoints := webhook_endpoints t; webhook_logs := webhook_logs t; dead_letter_tasks
     := dead_letter_tasks t; periodic_tasks := periodic_tasks t; user_devices := user_devices t
     |}.

Definition set_webhook_endpoints (f : gmap uuid WebhookEndpoint -> gmap uuid WebhookEndpoint) (t : Tables) : Tables :=
  {| users := users t; user_identities := user_identities t; user_sessions := user_sessions t;
     permissions := permissions t; roles := roles t; role_permissions := role_permissions t;
     user_roles := user_roles t; user_two_factor := user_two_factor t; system_configurations :=
     system_configurations t; app_versions := app_versions t; api_keys := api_keys t;
     webhook_endpoints := f (webhook_endpoints t); webhook_logs := webhook_logs t;
     dead_letter_tasks := dead_letter_tasks t; periodic_tasks := periodic_tasks t; user_devices
     := user_devices t |}.

Definition set_webhook_logs (f : list WebhookLog -> list WebhookLog) (t : Tables) : Tables :=
  {| users := users t; user_identities := user_identities t; user_sessions := user_sessions t;
     permissions := permissions t; roles := roles t; role_permissions := role_permissions t;
     user_roles := user_roles t; user_two_factor := user_two_factor t; system_configurations :=
     system_configurations t; app_versions := app_versions t; api_keys := api_keys t;
     webhook_endpoints := webhook_endpoints t; webhook_logs := f (webhook_logs t);
     dead_letter_tasks := dead_letter_tasks t; periodic_tasks := periodic_tasks t; user_devices
     := user_devices t |}.

Definition set_dead_letter_tasks (f : gmap uuid DeadLetterTask -> gmap uuid DeadLetterTask) (t : Tables) : Tables :=
  {| users := users t; user_identities := user_identities t; user_sessions := user_sessions t;
     permissions := permissions t; roles := roles t; role_permissions := role_permissions t;
     user_roles := user_roles t; user_two_factor := user_two_factor t; system_configurations :=
     system_configurations t; app_versions := app_versions t; api_keys := api_keys t;
     webhook_endpoints := webhook_endpoints t; webhook_logs := webhook_logs t; dead_letter_tasks
     := f (dead_letter_tasks t); periodic_tasks := periodic_tasks t; user_devices :=
     user_devices t |}.

Definition set_periodic_tasks (f : gmap uuid PeriodicTask -> gmap uuid PeriodicTask) (t : Tables) : Tables :=
  {| users := users t; user_identities := user_identities t; user_sessions := user_sessions t;
     permissions := permissions t; roles := roles t; role_permissions := role_permissions t;
     user_roles := user_roles t; user_two_factor := user_two_factor t; system_configurations :=
     system_configurations t; app_versions := app_versions t; api_keys := api_keys t;
     webhook_endpoints := webhook_endpoints t; webhook_logs := webhook_logs t; dead_letter_tasks
     := dead_letter_tasks t; periodic_tasks := f (periodic_tasks t); user_devices :=
     user_devices t |}.

Definition set_user_devices (f : gmap uuid UserDevice -> gmap uuid UserDevice) (t : Tables) : Tables :=
  {| users := users t; user_identities := user_identities t; user_sessions := user_sessions t;
     permissions := permissions t; roles := roles t; role_permissions := role_permissions t;
     user_roles := user_roles t; user_two_factor := user_two_factor t; system_configurations :=
     system_configurations t; app_versions := app_versions t; api_keys := api_keys t;
     webhook_endpoints := webhook_endpoints t; webhook_logs := webhook_logs t; dead_letter_tasks
     := dead_letter_tasks t; periodic_tasks := periodic_tasks t; user_devices := f (user_devices
     t) |}.

(** ** Response models *)

Record RoleData := {
  rd_role : Role;
  rd_permissions : list Permission;
}.

Record UserData := {
  ud_user : User;
  ud_roles : list RoleData;
}.

(** ** Joins *)

Definition values {A} (m : gmap string A) : list A := snd <$> map_to_list m.

Lemma elem_of_values {A} (m : gmap string A) x : x ∈ values m <-> exists k, m !! k = Some x.
Proof.
  unfold values. rewrite list_elem_of_fmap. split.
  - intros ([k y] & -> & Hk%elem_of_map_to_list). eauto.
  - intros [k Hk]. exists (k, x). split; [done|by apply elem_of_map_to_list].
Qed.

(** The permissions a role joins to through [role_permissions]. *)
Definition permissions_of (t : Tables) (role : uuid) : list Permission :=
  omap (fun '(r, p) => if String.eqb r role then permissions t !! p else None)
    (elements (role_permissions t)).

Definition role_data (t : Tables) (r : Role) : RoleData :=
  {| rd_role := r; rd_permissions := permissions_of t (r_id r) |}.

(** The roles of a user: [LEFT JOIN user_roles LEFT JOIN roles ... FILTER (r.id IS NOT NULL)]. *)
Definition roles_of (t : Tables) (user : uuid) : list RoleData :=
  omap (fun '(u, r) => if String.eqb u user then role_data t <$> roles t !! r else None)
    (elements (user_roles t)).

Definition user_data (t : Tables) (u : User) : UserData :=
  {| ud_user := u; ud_roles := roles_of t (u_id u) |}.

Lemma elem_of_permissions_of t role p :
  p ∈ permissions_of t role <->
  exists pid, (role, pid) ∈ role_permissions t /\ permissions t !! pid = Some p.
Proof.
  unfold permissions_of. rewrite list_elem_of_omap. setoid_rewrite elem_of_elements. split.
  - intros ([r pid] & Hin & Hp). destruct (String.eqb_spec r role) as [->|]; [eauto|done].
  - intros (pid & Hin & Hp). exists (role, pid). by rewrite String.eqb_refl.
Qed.

Lemma elem_of_roles_of t user rd :
  rd ∈ roles_of t user <->
  exists rid r, (user, rid) ∈ user_roles t /\ roles t !! rid = Some r /\ rd = role_data t r.
Proof.
  unfold roles_of. rewrite list_elem_of_omap. setoid_rewrite elem_of_elements. split.
  - intros ([u rid] & Hin & Hr). destruct (String.eqb_spec u user) as [->|]; [|done].
    destruct (roles t !! rid) as [r|] eqn:E; [|done]. injection Hr as <-. eauto.
  - intros (rid & r & Hin & Hr & ->). exists (user, rid). by rewrite String.eqb_refl, Hr.
Qed.

(** Sort by a descending string key ([ORDER BY id DESC]). *)
Definition desc_by {A} (key : A -> string) (x y : A) : Prop := String.le (key y) (key x).
#[export] Instance desc_by_dec {A} (key : A -> string) : RelDecision (desc_by key).
Proof. intros x y. unfold desc_by. apply _. Defined.
#[export] Instance desc_by_trans {A} (key : A -> string) : Transitive (desc_by key).
Proof. intros x y z. unfold desc_by. intros. by transitivity (key y). Qed.
#[export] Instance desc_by_total {A} (key : A -> string) : Total (desc_by key).
Proof. intros x y. unfold desc_by. destruct (total String.le (key x) (key y)); auto. Qed.
