(* ===== verification/JsonText.v ===== *)
(** * JSON texts: [json.dumps] and [json.loads]

    The standard library's [json], as the code uses it: [dumps] with the default
    separators or the compact ones, [loads] of a whole text.  Texts are UTF-8
    bytes; an integer is a number, a float the text it is read from or written as
    ([NaN], [Infinity] and [-Infinity] too, which Python writes and reads although
    they are no JSON): two texts of one float are not identified.  [loads] refuses a
    lone surrogate.  [loads] of what [dumps] wrote gives the value back. *)

From Stdlib Require Import ZArith Lia Ascii String List Bool.
From stdpp Require Import base gmap strings list pretty.
From S2P Require Import Prelude Redis.
Local Open Scope string_scope.
Local Open Scope list_scope.
Local Open Scope Z_scope.

(** ** Bytes *)

Definition byte_of (c : ascii) : Z := Z.of_nat (nat_of_ascii c).
Definition char_of (b : Z) : ascii := ascii_of_nat (Z.to_nat b).

(** [bytes.decode("utf-8")] succeeds. *)
Definition cont (lo hi : Z) (c : ascii) : bool := (lo <=? byte_of c) && (byte_of c <=? hi).

Fixpoint utf8_valid (s : string) : bool :=
  match s with
  | EmptyString => true
  | String c s1 =>
      let b := byte_of c in
      if b <? 128 then utf8_valid s1
      else match s1 with
      | EmptyString => false
      | String c1 s2 =>
          if (194 <=? b) && (b <=? 223) then cont 128 191 c1 && utf8_valid s2
          else match s2 with
          | EmptyString => false
          | String c2 s3 =>
              if b =? 224 then cont 160 191 c1 && cont 128 191 c2 && utf8_valid s3
              else if b =? 237 then cont 128 159 c1 && cont 128 191 c2 && utf8_valid s3
              else if (225 <=? b) && (b <=? 239) then cont 128 191 c1 && cont 128 191 c2 && utf8_valid s3
              else match s3 with
              | EmptyString => false
              | String c3 s4 =>
                  let tail := cont 128 191 c2 && cont 128 191 c3 && utf8_valid s4 in
                  if b =? 240 then cont 144 191 c1 && tail
                  else if (241 <=? b) && (b <=? 243) then cont 128 191 c1 && tail
                  else if b =? 244 then cont 128 143 c1 && tail
                  else false
              end
          end
      end
  end.

(** The UTF-8 bytes of a code point, in front of a text. *)
Definition utf8_cons (n : Z) (s : string) : string :=
  if n <? 128 then String (char_of n) s
  else if n <? 2048 then String (char_of (192 + n / 64)) (String (char_of (128 + n mod 64)) s)
  else if n <? 65536 then
    String (char_of (224 + n / 4096)) (String (char_of (128 + n / 64 mod 64))
      (String (char_of (128 + n mod 64)) s))
  else String (char_of (240 + n / 262144)) (String (char_of (128 + n / 4096 mod 64))
      (String (char_of (128 + n / 64 mod 64)) (String (char_of (128 + n mod 64)) s))).

(** ** Hexadecimal escapes *)

Definition hex_digit (v : Z) : ascii := if v <? 10 then char_of (48 + v) else char_of (87 + v).

Definition hex_val (c : ascii) : option Z :=
  let b := byte_of c in
  if (48 <=? b) && (b <=? 57) then Some (b - 48)
  else if (97 <=? b) && (b <=? 102) then Some (b - 87)
  else if (65 <=? b) && (b <=? 70) then Some (b - 55)
  else None.

(** [\uXXXX] in front of a text. *)
Definition hex4_cons (n : Z) (s : string) : string :=
  String "092" (String "u" (String (hex_digit (n / 4096 mod 16)) (String (hex_digit (n / 256 mod 16))
    (String (hex_digit (n / 16 mod 16)) (String (hex_digit (n mod 16)) s))))).

Definition hex4 (a b c d : ascii) : option Z :=
  a ← hex_val a; b ← hex_val b; c ← hex_val c; d ← hex_val d;
  Some (((a * 16 + b) * 16 + c) * 16 + d).

(** A code point, escaped as one unit or as a surrogate pair. *)
Definition escape_cons (n : Z) (s : string) : string :=
  if n <? 65536 then hex4_cons n s
  else hex4_cons (55296 + (n - 65536) / 1024) (hex4_cons (56320 + (n - 65536) mod 1024) s).

(** ** [json.dumps] *)

Definition DQ : ascii := "034"%char.
Definition BSL : ascii := "092"%char.

(** A character below 128 in a string literal. *)
Definition ascii_cons (c : ascii) (s : string) : string :=
  let b := byte_of c in
  if Ascii.eqb c DQ then String BSL (String DQ s)
  else if Ascii.eqb c BSL then String BSL (String BSL s)
  else if b =? 10 then String BSL (String "n" s)
  else if b =? 13 then String BSL (String "r" s)
  else if b =? 9 then String BSL (String "t" s)
  else if b =? 12 then String BSL (String "f" s)
  else if b =? 8 then String BSL (String "b" s)
  else if (b <? 32) || (b =? 127) then hex4_cons b s
  else String c s.

(** The inside of a string literal ([ensure_ascii]). *)
Fixpoint quote_body (s : string) : string :=
  match s with
  | EmptyString => EmptyString
  | String c s1 =>
      let b := byte_of c in
      if b <? 128 then ascii_cons c (quote_body s1)
      else match s1 with
      | EmptyString => s
      | String c1 s2 =>
          let m1 := byte_of c1 - 128 in
          if b <? 224 then escape_cons ((b - 192) * 64 + m1) (quote_body s2)
          else match s2 with
          | EmptyString => s
          | String c2 s3 =>
              let m2 := byte_of c2 - 128 in
              if b <? 240 then escape_cons (((b - 224) * 64 + m1) * 64 + m2) (quote_body s3)
              else match s3 with
              | EmptyString => s
              | String c3 s4 =>
                  escape_cons ((((b - 240) * 64 + m1) * 64 + m2) * 64 + (byte_of c3 - 128)) (quote_body s4)
              end
          end
      end
  end.

Definition quote (s : string) : string := String DQ (quote_body s +:+ String DQ EmptyString).

(** [isep], [ksep]: the separators of items and of keys. *)
Fixpoint dumps_with (isep ksep : string) (j : Json) : string :=
  match j with
  | JNull => "null"
  | JBool true => "true"
  | JBool false => "false"
  | JNum n => pretty n
  | JFloat t => t
  | JStr s => quote s
  | JList l => "[" +:+ join isep (map (dumps_with isep ksep) l) +:+ "]"
  | JObj fs => "{" +:+ join isep (map (fun '(k, v) => quote k +:+ ksep +:+ dumps_with isep ksep v) fs) +:+ "}"
  end.

Definition dumps : Json -> string := dumps_with ", " ": ".
Definition dumps_compact : Json -> string := dumps_with "," ":".

(** ** [json.loads] *)

Definition is_json_space (c : ascii) : bool :=
  let b := byte_of c in (b =? 32) || (b =? 9) || (b =? 10) || (b =? 13).

Fixpoint skip_ws (s : string) : string :=
  match s with
  | String c s' => if is_json_space c then skip_ws s' else s
  | EmptyString => EmptyString
  end.

Fixpoint digits (s : string) (acc : Z) : Z * string :=
  match s with
  | String c s' => if is_digit c then digits s' (acc * 10 + digit_val c) else (acc, s)
  | EmptyString => (acc, EmptyString)
  end.

(** No leading zero. *)
Definition natural (s : string) : option (Z * string) :=
  match s with
  | String c s' =>
      if Ascii.eqb c "0" then Some (0, s')
      else if is_digit c then Some (digits s 0) else None
  | EmptyString => None
  end.

Definition signed (s : string) : option (Z * string) :=
  match s with
  | String c s' =>
      if Ascii.eqb c "-" then '(n, s'') ← natural s'; Some (- n, s'') else natural s
  | EmptyString => None
  end.

Fixpoint digit_run (s : string) : string * string :=
  match s with
  | String c s' => if is_digit c then let '(d, r) := digit_run s' in (String c d, r) else (EmptyString, s)
  | EmptyString => (EmptyString, EmptyString)
  end.

Definition starts_digit (s : string) : bool :=
  match s with String c _ => is_digit c | EmptyString => false end.

(** What there is of a fraction and of an exponent, and the rest. *)
Definition fraction (s : string) : string * string :=
  match s with
  | String c s' =>
      if Ascii.eqb c "." && starts_digit s' then let '(d, r) := digit_run s' in (String c d, r)
      else (EmptyString, s)
  | EmptyString => (EmptyString, EmptyString)
  end.

Definition is_sign (c : ascii) : bool := Ascii.eqb c "+" || Ascii.eqb c "-".
Definition is_e (c : ascii) : bool := Ascii.eqb c "e" || Ascii.eqb c "E".

Definition exponent (s : string) : string * string :=
  match s with
  | String c (String g s'' as s') =>
      if is_e c then
        if is_sign g then
          if starts_digit s'' then let '(d, r) := digit_run s'' in (String c (String g d), r) else (EmptyString, s)
        else if is_digit g then let '(d, r) := digit_run s' in (String c d, r) else (EmptyString, s)
      else (EmptyString, s)
  | _ => (EmptyString, s)
  end.

(** The text of the integer that was read at the start of [s]. *)
Definition int_text (s : string) (n : Z) : string :=
  match s with
  | String c _ => if Ascii.eqb c "-" then String c (pretty (- n)) else pretty n
  | EmptyString => EmptyString
  end.

Definition number (s : string) : option (Json * string) :=
  '(n, r) ← signed s;
  let '(f, r1) := fraction r in
  let '(e, r2) := exponent r1 in
  Some (match f +:+ e with EmptyString => JNum n | tail => JFloat (int_text s n +:+ tail) end, r2).

(** The character of a one-letter escape. *)
Definition unescape (e : ascii) : option ascii :=
  if Ascii.eqb e DQ || Ascii.eqb e BSL || Ascii.eqb e "/" then Some e
  else if Ascii.eqb e "b" then Some "008"%char
  else if Ascii.eqb e "f" then Some "012"%char
  else if Ascii.eqb e "n" then Some "010"%char
  else if Ascii.eqb e "r" then Some "013"%char
  else if Ascii.eqb e "t" then Some "009"%char
  else None.

Definition is_high (n : Z) : bool := (55296 <=? n) && (n <=? 56319).
Definition is_low (n : Z) : bool := (56320 <=? n) && (n <=? 57343).

(** The rest of a string literal, after its opening quote. *)
Fixpoint str_body (s : string) : option (string * string) :=
  match s with
  | EmptyString => None
  | String c s1 =>
      if Ascii.eqb c DQ then Some (EmptyString, s1)
      else if Ascii.eqb c BSL then
        match s1 with
        | EmptyString => None
        | String e s2 =>
            if Ascii.eqb e "u" then
              match s2 with
              | String x1 (String x2 (String x3 (String x4 s3))) =>
                  n ← hex4 x1 x2 x3 x4;
                  if is_high n then
                    match s3 with
                    | String b (String u (String y1 (String y2 (String y3 (String y4 s4))))) =>
                        m ← hex4 y1 y2 y3 y4;
                        if Ascii.eqb b BSL && Ascii.eqb u "u" && is_low m then
                          '(t, r) ← str_body s4;
                          Some (utf8_cons (65536 + (n - 55296) * 1024 + (m - 56320)) t, r)
                        else None
                    | _ => None
                    end
                  else if is_low n then None
                  else '(t, r) ← str_body s3; Some (utf8_cons n t, r)
              | _ => None
              end
            else d ← unescape e; '(t, r) ← str_body s2; Some (String d t, r)
        end
      else if byte_of c <? 32 then None
      else '(t, r) ← str_body s1; Some (String c t, r)
  end.

(** [d[k] = v] on an insertion-ordered dict. *)
Fixpoint dict_set (k : string) (v : Json) (d : list (string * Json)) : list (string * Json) :=
  match d with
  | [] => [(k, v)]
  | (k', v') :: d' => if String.eqb k' k then (k', v) :: d' else (k', v') :: dict_set k v d'
  end.

Definition expect (c : ascii) (s : string) : option string :=
  match s with String d s' => if Ascii.eqb d c then Some s' else None | EmptyString => None end.

(** [s] starts with the keyword: what follows it. *)
Fixpoint keyword (w s : string) : option string :=
  match w with
  | EmptyString => Some s
  | String c w' => s' ← expect c s; keyword w' s'
  end.

(** A value, the items of an array after the bracket, the members of an object
    after the brace; the fuel bounds the nesting and the number of items. *)
Fixpoint value (fuel : nat) (s : string) : option (Json * string) :=
  match fuel with
  | O => None
  | S n =>
      match skip_ws s with
      | EmptyString => None
      | String c s1 =>
          if Ascii.eqb c DQ then '(t, r) ← str_body s1; Some (JStr t, r)
          else if Ascii.eqb c "[" then
            match expect "]" (skip_ws s1) with
            | Some r => Some (JList [], r)
            | None => '(l, r) ← items n s1; Some (JList l, r)
            end
          else if Ascii.eqb c "{" then
            match expect "}" (skip_ws s1) with
            | Some r => Some (JObj [], r)
            | None => '(fs, r) ← members n s1 []; Some (JObj fs, r)
            end
          else if Ascii.eqb c "n" then r ← keyword "ull" s1; Some (JNull, r)
          else if Ascii.eqb c "t" then r ← keyword "rue" s1; Some (JBool true, r)
          else if Ascii.eqb c "f" then r ← keyword "alse" s1; Some (JBool false, r)
          else if Ascii.eqb c "N" then r ← keyword "aN" s1; Some (JFloat "NaN", r)
          else if Ascii.eqb c "I" then r ← keyword "nfinity" s1; Some (JFloat "Infinity", r)
          else match number (String c s1) with
               | Some x => Some x
               | None => r ← keyword "-Infinity" (String c s1); Some (JFloat "-Infinity", r)
               end
      end
  end
with items (fuel : nat) (s : string) : option (list Json * string) :=
  match fuel with
  | O => None
  | S n =>
      '(v, r) ← value n s;
      match expect "," (skip_ws r) with
      | Some r' => '(l, r'') ← items n r'; Some (v :: l, r'')
      | None => r' ← expect "]" (skip_ws r); Some ([v], r')
      end
  end
with members (fuel : nat) (s : string) (d : list (string * Json)) : option (list (string * Json) * string) :=
  match fuel with
  | O => None
  | S n =>
      s1 ← expect DQ (skip_ws s);
      '(k, r) ← str_body s1;
      r1 ← expect ":" (skip_ws r);
      '(v, r2) ← value n r1;
      match expect "," (skip_ws r2) with
      | Some r3 => members n r3 (dict_set k v d)
      | None => r3 ← expect "}" (skip_ws r2); Some (dict_set k v d, r3)
      end
  end.

(** [None]: JSONDecodeError.  A step of [items] or [members] and the step of its
    value share a character, so twice the length of the text is fuel enough. *)
Definition loads (s : string) : option Json :=
  '(j, r) ← value (S (2 * String.length s)) s;
  if String.eqb (skip_ws r) EmptyString then Some j else None.

(** ** Python values

    [PFloat] is a float as the text json gives it, [PSeq] is a list, a tuple or a set in its iteration order, [PObj] any other
    object (a UUID, a datetime, a Decimal, ...), with its [str]. *)
Inductive PyVal :=
| PNone
| PBool (b : bool)
| PInt (n : Z)
| PFloat (text : string)
| PStr (s : string)
| PSeq (l : list PyVal)
| PDict (fields : list (PyVal * PyVal))
| PObj (str : string).

(** A JSON value as Python holds it. *)
Fixpoint of_json_value (j : Json) : PyVal :=
  match j with
  | JNull => PNone
  | JBool b => PBool b
  | JNum n => PInt n
  | JFloat t => PFloat t
  | JStr s => PStr s
  | JList l => PSeq (map of_json_value l)
  | JObj fs => PDict (map (fun '(k, v) => (PStr k, of_json_value v)) fs)
  end.

(** [if v]. *)
Definition py_truthy (v : PyVal) : bool :=
  match v with
  | PNone | PBool false | PInt 0 | PStr EmptyString | PSeq [] | PDict [] => false
  | PFloat t => negb (float_zero t)
  | _ => true
  end.

(** [int(s)] of a text, and [int(v)]. *)
Fixpoint int_digits (s : string) (acc : Z) (under : bool) : option Z :=
  match s with
  | EmptyString => if under then None else Some acc
  | String c s' =>
      if is_digit c then int_digits s' (10 * acc + digit_val c) false
      else if Ascii.eqb c "_" && negb under then int_digits s' acc true else None
  end.

Definition int_of_text (s : string) : option Z :=
  match strip s with
  | String "-" s' => Z.opp <$> int_digits s' 0 true
  | String "+" s' => int_digits s' 0 true
  | s' => int_digits s' 0 true
  end.

(** [int(v)] of a float: its text cut at the point, as Python's [int] cuts. *)
Definition digits_value (s : string) : Z := fst (digits s 0).

Definition float_int (t : string) : option Z :=
  '(n, r) ← signed t;
  let '(f, r1) := fraction r in
  let '(e, r2) := exponent r1 in
  let k := Z.of_nat (String.length f - 1) in
  let m := Z.abs n * 10 ^ k + digits_value (String.substring 1 (String.length f - 1) f) in
  let x := match e with
           | String _ (String "-" d) => - digits_value d
           | String _ (String "+" d) => digits_value d
           | String _ d => digits_value d
           | EmptyString => 0
           end in
  let a := if k <=? x then m * 10 ^ (x - k) else m / 10 ^ (k - x) in
  Some (if startswith t "-" then - a else a).

Definition py_int (v : PyVal) : option Z :=
  match v with
  | PInt n => Some n
  | PFloat t => float_int t
  | PBool b => Some (if b then 1 else 0)
  | PStr s => int_of_text s
  | _ => None
  end.

(** [str] of a float: the names of what is no number are not json's. *)
Definition float_str (t : string) : string :=
  if String.eqb t "NaN" then "nan"
  else if String.eqb t "Infinity" then "inf"
  else if String.eqb t "-Infinity" then "-inf"
  else t.

(** [str(v)]; the text of a container or of another object is given. *)
Definition py_str (str_of : PyVal -> string) (v : PyVal) : string :=
  match v with
  | PStr s => s
  | PNone => "None"
  | PBool b => if b then "True" else "False"
  | PInt n => pretty n
  | PFloat t => float_str t
  | v => str_of v
  end.

(** The keys [json.dumps] turns to text; others are a [TypeError]. *)
Definition json_key (v : PyVal) : option string :=
  match v with
  | PStr s => Some s
  | PInt n => Some (pretty n)
  | PFloat t => Some t
  | PBool b => Some (if b then "true" else "false")
  | PNone => Some "null"
  | _ => None
  end.

(** [json.dumps(v)] of a value: [None] is the [TypeError] on what is no JSON. *)
Fixpoint json_of_value (v : PyVal) : option Json :=
  match v with
  | PNone => Some JNull
  | PBool b => Some (JBool b)
  | PInt n => Some (JNum n)
  | PFloat t => Some (JFloat t)
  | PStr s => Some (JStr s)
  | PSeq l =>
      (fix all (l : list PyVal) : option (list Json) :=
         match l with
         | [] => Some []
         | x :: l' => j ← json_of_value x; js ← all l'; Some (j :: js)
         end) l ≫= (fun js => Some (JList js))
  | PDict fs =>
      (fix all (l : list (PyVal * PyVal)) : option (list (string * Json)) :=
         match l with
         | [] => Some []
         | (k, x) :: l' => k ← json_key k; j ← json_of_value x; js ← all l'; Some ((k, j) :: js)
         end) fs ≫= (fun js => Some (JObj js))
  | PObj _ => None
  end.

(** ** Lemmas *)

Lemma byte_of_range c : 0 <= byte_of c < 256.
Proof. unfold byte_of. pose proof (nat_ascii_bounded c). lia. Qed.

Lemma char_of_byte c : char_of (byte_of c) = c.
Proof. unfold char_of, byte_of. by rewrite Nat2Z.id, ascii_nat_embedding. Qed.

Lemma byte_of_char b : 0 <= b < 256 -> byte_of (char_of b) = b.
Proof.
  intros H. unfold char_of, byte_of. rewrite nat_ascii_embedding by lia. lia.
Qed.

Lemma app_cons c s t : String c s +:+ t = String c (s +:+ t).
Proof. done. Qed.

Lemma hex_val_digit v : 0 <= v < 16 -> hex_val (hex_digit v) = Some v.
Proof.
  intros H. assert (v ∈ seqZ 0 16) as Hv by (apply elem_of_seqZ; lia). clear H.
  cbv in Hv. repeat (apply elem_of_cons in Hv as [->|Hv]; [done|]). by apply elem_of_nil in Hv.
Qed.

Lemma hex4_roundtrip n : 0 <= n < 65536 ->
  hex4 (hex_digit (n / 4096 mod 16)) (hex_digit (n / 256 mod 16)) (hex_digit (n / 16 mod 16))
    (hex_digit (n mod 16)) = Some n.
Proof.
  intros H. unfold hex4. rewrite !hex_val_digit by (apply Z.mod_pos_bound; lia).
  cbn [mbind option_bind]. f_equal. Z.to_euclidean_division_equations. lia.
Qed.

Lemma hex4_cons_app n s t : hex4_cons n s +:+ t = hex4_cons n (s +:+ t).
Proof. done. Qed.
Lemma escape_cons_app n s t : escape_cons n s +:+ t = escape_cons n (s +:+ t).
Proof. unfold escape_cons. by case_match. Qed.
Lemma ascii_cons_app c s t : ascii_cons c s +:+ t = ascii_cons c (s +:+ t).
Proof. unfold ascii_cons. by repeat case_match. Qed.

Lemma str_body_escape n s : 0 <= n < 1114112 -> is_high n = false -> is_low n = false ->
  str_body (escape_cons n s) = ('(t, r) ← str_body s; Some (utf8_cons n t, r)).
Proof.
  intros Hn Hh Hl. unfold escape_cons. destruct (n <? 65536) eqn:E.
  - unfold hex4_cons. cbn [str_body]. rewrite hex4_roundtrip by lia. simpl. by rewrite Hh, Hl.
  - set (h := 55296 + (n - 65536) / 1024). set (l := 56320 + (n - 65536) mod 1024).
    assert (55296 <= h <= 56319) by (subst h; Z.to_euclidean_division_equations; lia).
    assert (56320 <= l <= 57343) by (subst l; Z.to_euclidean_division_equations; lia).
    unfold hex4_cons. cbn [str_body]. rewrite !hex4_roundtrip by lia. simpl.
    replace (is_high h) with true by (unfold is_high; lia).
    replace (is_low l) with true by (unfold is_low; lia). cbn [andb].
    replace (65536 + (h - 55296) * 1024 + (l - 56320)) with n; [done|].
    subst h l. Z.to_euclidean_division_equations. lia.
Qed.

Lemma str_body_ascii c s : byte_of c < 128 ->
  str_body (ascii_cons c s) = ('(t, r) ← str_body s; Some (String c t, r)).
Proof.
  intros Hc. destruct c as [[] [] [] [] [] [] [] []]; try (exfalso; clear -Hc; by vm_compute in Hc); reflexivity.
Qed.

Lemma cont_range lo hi c : cont lo hi c = true -> lo <= byte_of c <= hi.
Proof. unfold cont. lia. Qed.

(** A multi-byte character is rebuilt from its code point. *)
Lemma utf8_cons2 c c1 s : 194 <= byte_of c <= 223 -> 128 <= byte_of c1 <= 191 ->
  utf8_cons ((byte_of c - 192) * 64 + (byte_of c1 - 128)) s = String c (String c1 s).
Proof.
  intros H H1. set (n := _ + _). unfold utf8_cons.
  replace (n <? 128) with false by lia. replace (n <? 2048) with true by lia.
  replace (192 + n / 64) with (byte_of c) by (subst n; Z.to_euclidean_division_equations; lia).
  replace (128 + n mod 64) with (byte_of c1) by (subst n; Z.to_euclidean_division_equations; lia).
  by rewrite !char_of_byte.
Qed.

Lemma utf8_cons3 c c1 c2 s : 224 <= byte_of c <= 239 -> (if byte_of c =? 224 then 160 else 128) <= byte_of c1 <= 191 ->
  128 <= byte_of c2 <= 191 ->
  utf8_cons (((byte_of c - 224) * 64 + (byte_of c1 - 128)) * 64 + (byte_of c2 - 128)) s =
  String c (String c1 (String c2 s)).
Proof.
  intros H H1 H2. set (n := _ + _). unfold utf8_cons.
  replace (n <? 128) with false by (subst n; case_match; lia). replace (n <? 2048) with false by (subst n; case_match; lia).
  replace (n <? 65536) with true by (subst n; case_match; lia).
  replace (224 + n / 4096) with (byte_of c) by (subst n; case_match; Z.to_euclidean_division_equations; lia).
  replace (n / 64 mod 64) with (byte_of c1 - 128) by (subst n; case_match; Z.to_euclidean_division_equations; lia).
  replace (n mod 64) with (byte_of c2 - 128) by (subst n; case_match; Z.to_euclidean_division_equations; lia).
  replace (128 + (byte_of c1 - 128)) with (byte_of c1) by lia.
  replace (128 + (byte_of c2 - 128)) with (byte_of c2) by lia.
  by rewrite !char_of_byte.
Qed.

Lemma utf8_cons4 c c1 c2 c3 s : 240 <= byte_of c <= 244 -> (if byte_of c =? 240 then 144 else 128) <= byte_of c1 <= 191 ->
  128 <= byte_of c2 <= 191 -> 128 <= byte_of c3 <= 191 ->
  utf8_cons ((((byte_of c - 240) * 64 + (byte_of c1 - 128)) * 64 + (byte_of c2 - 128)) * 64 + (byte_of c3 - 128)) s =
  String c (String c1 (String c2 (String c3 s))).
Proof.
  intros H H1 H2 H3. set (n := _ + _). unfold utf8_cons.
  replace (n <? 128) with false by (subst n; case_match; lia). replace (n <? 2048) with false by (subst n; case_match; lia).
  replace (n <? 65536) with false by (subst n; case_match; lia).
  replace (240 + n / 262144) with (byte_of c) by (subst n; case_match; Z.to_euclidean_division_equations; lia).
  replace (n / 4096 mod 64) with (byte_of c1 - 128) by (subst n; case_match; Z.to_euclidean_division_equations; lia).
  replace (n / 64 mod 64) with (byte_of c2 - 128) by (subst n; case_match; Z.to_euclidean_division_equations; lia).
  replace (n mod 64) with (byte_of c3 - 128) by (subst n; case_match; Z.to_euclidean_division_equations; lia).
  replace (128 + (byte_of c1 - 128)) with (byte_of c1) by lia.
  replace (128 + (byte_of c2 - 128)) with (byte_of c2) by lia.
  replace (128 + (byte_of c3 - 128)) with (byte_of c3) by lia.
  by rewrite !char_of_byte.
Qed.

(** Splits the conjunctions of [utf8_valid] and bounds the continuation bytes. *)
Ltac utf8_split H :=
  repeat match goal with
  | H : _ && _ = true |- _ => apply andb_prop in H as [? ?]
  | H : cont _ _ _ = true |- _ => apply cont_range in H
  end.

Lemma str_body_quote s rest : utf8_valid s = true ->
  str_body (quote_body s +:+ String DQ rest) = Some (s, rest).
Proof.
  remember (String.length s) as n eqn:Hn. revert s Hn.
  induction n as [n IH] using lt_wf_ind. intros s -> Hs.
  destruct s as [|c s1]; [done|]. cbn [utf8_valid quote_body] in *.
  destruct (byte_of c <? 128) eqn:Eb.
  { rewrite ascii_cons_app, str_body_ascii by lia. by rewrite (IH (String.length s1)) by (simpl; lia || done). }
  destruct s1 as [|c1 s2]; [done|]. destruct ((194 <=? byte_of c) && (byte_of c <=? 223)) eqn:E2.
  { replace (byte_of c <? 224) with true by lia. utf8_split Hs.
    rewrite escape_cons_app, str_body_escape by (unfold is_high, is_low; lia).
    rewrite (IH (String.length s2)) by (simpl; lia || done). cbn [mbind option_bind].
    by rewrite utf8_cons2 by lia. }
  destruct s2 as [|c2 s3]; [done|].
  destruct ((224 <=? byte_of c) && (byte_of c <=? 239)) eqn:E3.
  { replace (byte_of c <? 224) with false by lia. replace (byte_of c <? 240) with true by lia.
    assert ((if byte_of c =? 224 then 160 else 128) <= byte_of c1 <= (if byte_of c =? 237 then 159 else 191) /\
            128 <= byte_of c2 <= 191 /\ utf8_valid s3 = true) as (H1 & H2 & H3).
    { destruct (byte_of c =? 224) eqn:E4; rewrite ?E4 in Hs;
        [replace (byte_of c =? 237) with false by lia; utf8_split Hs; split_and!; lia || done|].
      destruct (byte_of c =? 237) eqn:E5; rewrite ?E5 in Hs; [utf8_split Hs; split_and!; lia || done|].
      replace ((225 <=? byte_of c) && (byte_of c <=? 239)) with true in Hs by lia.
      utf8_split Hs; split_and!; lia || done. }
    rewrite escape_cons_app, str_body_escape by (unfold is_high, is_low; repeat case_match; lia).
    rewrite (IH (String.length s3)) by (simpl; lia || done). cbn [mbind option_bind].
    by rewrite utf8_cons3 by (repeat case_match; lia). }
  replace (byte_of c =? 224) with false in Hs by lia. replace (byte_of c =? 237) with false in Hs by lia.
  replace ((225 <=? byte_of c) && (byte_of c <=? 239)) with false in Hs by lia.
  destruct s3 as [|c3 s4]; [done|].
  assert (240 <= byte_of c <= 244 /\
          (if byte_of c =? 240 then 144 else 128) <= byte_of c1 <= (if byte_of c =? 244 then 143 else 191) /\
          128 <= byte_of c2 <= 191 /\ 128 <= byte_of c3 <= 191 /\ utf8_valid s4 = true) as (H0 & H1 & H2 & H3 & H4).
  { destruct (byte_of c =? 240) eqn:E4; rewrite ?E4 in Hs;
      [replace (byte_of c =? 244) with false by lia; utf8_split Hs; split_and!; lia || done|].
    destruct ((241 <=? byte_of c) && (byte_of c <=? 243)) eqn:E5; rewrite ?E5 in Hs;
      [replace (byte_of c =? 244) with false by lia; utf8_split Hs; split_and!; lia || done|].
    destruct (byte_of c =? 244) eqn:E6; rewrite ?E6 in Hs; [utf8_split Hs; split_and!; lia || done|done]. }
  replace (byte_of c <? 224) with false by lia. replace (byte_of c <? 240) with false by lia.
  rewrite escape_cons_app, str_body_escape by (unfold is_high, is_low; repeat case_match; lia).
  rewrite (IH (String.length s4)) by (simpl; lia || done). cbn [mbind option_bind].
  by rewrite utf8_cons4 by (repeat case_match; lia).
Qed.

(** *** Numbers *)

(** What may follow a number: no digit, no fraction, no exponent and no sign. *)
Definition ends_number (c : ascii) : bool := negb (is_digit c || Ascii.eqb c "." || is_e c || is_sign c).

Definition num_end (s : string) : Prop :=
  match s with
  | String c _ => ends_number c = true
  | EmptyString => True
  end.

Lemma num_end_cases c s : num_end (String c s) ->
  is_digit c = false /\ Ascii.eqb c "." = false /\ is_e c = false /\ is_sign c = false.
Proof. cbn. unfold ends_number. destruct (is_digit c), (Ascii.eqb c "."), (is_e c), (is_sign c); done. Qed.

Fixpoint all_digits (s : string) : bool :=
  match s with
  | EmptyString => true
  | String c s' => is_digit c && all_digits s'
  end.

Lemma digits_app s rest acc : all_digits s = true -> num_end rest ->
  digits (s +:+ rest) acc = (fst (digits s acc), rest).
Proof.
  revert acc. induction s as [|c s IH]; intros acc Hs Hr.
  - destruct rest as [|d rest]; [done|]. apply num_end_cases in Hr as [Hd _]. simpl. by rewrite Hd.
  - simpl in Hs. apply andb_prop in Hs as [Hc Hs]. rewrite app_cons. cbn [digits]. rewrite Hc. by apply IH.
Qed.

(** The decimal text of a positive number: digits, the first not zero. *)
Lemma pretty_go_digits x s : (0 < x)%N -> exists c d,
  pretty_N_go x s = String c (d +:+ s) /\ is_digit c = true /\ c <> "0"%char /\ all_digits d = true /\
  fst (digits d (digit_val c)) = Z.of_N x.
Proof.
  revert s. induction (N.lt_wf_0 x) as [x _ IH]. intros s Hx.
  assert (is_digit (pretty_N_char (x mod 10)) = true /\ digit_val (pretty_N_char (x mod 10)) = Z.of_N (x mod 10)) as [Hd Hv].
  { pose proof (N.mod_lt x 10 ltac:(lia)) as Hm. revert Hm. generalize (x mod 10)%N. intros y Hy.
    assert (Z.of_N y ∈ seqZ 0 10) as Hin by (apply elem_of_seqZ; lia). rewrite <- (N2Z.id y) at 1 2.
    revert Hin. generalize (Z.of_N y). intros z Hin. cbv in Hin.
    repeat (apply elem_of_cons in Hin as [->|Hin]; [done|]). by apply elem_of_nil in Hin. }
  rewrite pretty_N_go_step by done. destruct (decide (x < 10)%N) as [Hlt|Hge].
  - rewrite N.div_small, pretty_N_go_0 by done. exists (pretty_N_char (x mod 10)), "". split_and!; try done.
    + intros Hc. rewrite Hc in Hv. rewrite N.mod_small in Hv by done.
      change (digit_val "0") with 0 in Hv. lia.
    + simpl. by rewrite Hv, N.mod_small.
  - assert (0 < x / 10)%N by (apply N.div_str_pos; lia).
    destruct (IH (x / 10)%N ltac:(by apply N.div_lt) (String (pretty_N_char (x mod 10)) s) ltac:(done))
      as (c & d & Hg & Hc & Hne & Hds & Hval).
    exists c, (d +:+ String (pretty_N_char (x mod 10)) ""). split_and!; try done.
    + rewrite Hg. f_equal. rewrite <- string_app_assoc. done.
    + clear -Hds Hd. induction d as [|e d IH]; simpl in *; [by rewrite Hd|].
      apply andb_prop in Hds as [-> Hds]. by rewrite IH.
    + assert (forall acc, fst (digits (d +:+ String (pretty_N_char (x mod 10)) "") acc) =
                          fst (digits d acc) * 10 + Z.of_N (x mod 10)) as ->.
      { clear -Hds Hd Hv. induction d as [|e d IH]; intros acc; simpl.
        - by rewrite Hd, Hv.
        - simpl in Hds. apply andb_prop in Hds as [He Hds]. rewrite He. by apply IH. }
      rewrite Hval. pose proof (N.div_mod' x 10). lia.
Qed.

Lemma utf8_digits s : all_digits s = true -> utf8_valid s = true.
Proof.
  induction s as [|c s IH]; [done|]. simpl. intros [Hc Hs]%andb_prop.
  replace (byte_of c <? 128) with true; [by apply IH|]. symmetry. apply Z.ltb_lt.
  unfold is_digit in Hc. apply andb_prop in Hc as [_ Hc%Nat.leb_le]. unfold byte_of. lia.
Qed.

Lemma pretty_digits x : all_digits (pretty (x : N)) = true.
Proof.
  unfold pretty, pretty_N. case_decide; [done|].
  destruct (pretty_go_digits x "" ltac:(lia)) as (c & d & -> & Hc & _ & Hd & _).
  rewrite string_app_nil. simpl. by rewrite Hc.
Qed.

Lemma utf8_pretty (n : Z) : utf8_valid (pretty n) = true.
Proof.
  destruct n as [|p|p]; [done|apply utf8_digits, pretty_digits|].
  apply (utf8_digits (pretty (N.pos p))), pretty_digits.
Qed.

Lemma natural_pretty x rest : num_end rest -> natural (pretty x +:+ rest) = Some (Z.of_N x, rest).
Proof.
  intros Hr. unfold pretty, pretty_N. case_decide as Hx.
  - subst. done.
  - destruct (pretty_go_digits x "" ltac:(lia)) as (c & d & -> & Hc & Hne & Hd & Hv).
    rewrite app_cons, string_app_nil. cbn [natural]. rewrite Hc.
    replace (Ascii.eqb c "0") with false by (symmetry; by apply Ascii.eqb_neq).
    pose proof (digits_app d rest (digit_val c) Hd Hr) as Hdig.
    cbn [digits]. rewrite Hc. change (0 * 10 + digit_val c) with (digit_val c). by rewrite Hdig, Hv.
Qed.

Lemma signed_pretty n rest : num_end rest -> signed (pretty n +:+ rest) = Some (n, rest).
Proof.
  intros Hr. destruct n as [|p|p].
  - done.
  - change (pretty (Z.pos p)) with (pretty (N.pos p)). pose proof (natural_pretty (N.pos p) rest Hr) as Hn.
    unfold pretty, pretty_N in *. rewrite decide_False in * by done.
    destruct (pretty_go_digits (N.pos p) "" ltac:(lia)) as (c & d & Hg & Hc & _). rewrite Hg in *.
    rewrite app_cons in *. cbn [signed].
    by replace (Ascii.eqb c "-") with false by (symmetry; apply Ascii.eqb_neq; by intros ->).
  - change (pretty (Z.neg p)) with (String "-" (pretty (N.pos p))). rewrite app_cons. cbn [signed].
    rewrite natural_pretty by done. done.
Qed.

Lemma fraction_end rest : num_end rest -> fraction rest = ("", rest).
Proof. destruct rest as [|c rest]; [done|]. intros (_ & H & _)%num_end_cases. cbn. by rewrite H. Qed.

Lemma exponent_end rest : num_end rest -> exponent rest = ("", rest).
Proof. destruct rest as [|c [|d rest]]; [done|done|]. intros (_ & _ & H & _)%num_end_cases. cbn. by rewrite H. Qed.

Lemma number_pretty n rest : num_end rest -> number (pretty n +:+ rest) = Some (JNum n, rest).
Proof.
  intros Hr. unfold number. rewrite signed_pretty by done. cbn [mbind option_bind].
  by rewrite fraction_end, exponent_end by done.
Qed.

Lemma number_head c s j r : number (String c s) = Some (j, r) -> Ascii.eqb c "-" || is_digit c = true.
Proof.
  unfold number. cbn [signed natural]. destruct (Ascii.eqb c "-"); [done|].
  destruct (Ascii.eqb c "0") eqn:E; [by apply Ascii.eqb_eq in E as ->|]. by destruct (is_digit c).
Qed.

(** What a reader takes of a text it takes of the text with more behind it. *)
Lemma starts_digit_app s rest : num_end rest -> starts_digit (s +:+ rest) = starts_digit s.
Proof. destruct s; [|done]. destruct rest; [done|]. by intros [H _]%num_end_cases. Qed.

Lemma digits_more s rest acc n r : num_end rest -> digits s acc = (n, r) -> digits (s +:+ rest) acc = (n, r +:+ rest).
Proof.
  intros Hr. revert acc. induction s as [|c s IH]; intros acc; simpl.
  - intros [= <- <-]. destruct rest; [done|]. apply num_end_cases in Hr as [Hd _]. simpl. by rewrite Hd.
  - destruct (is_digit c); [apply IH|]. by intros [= <- <-].
Qed.

Lemma digit_run_more s rest d r : num_end rest -> digit_run s = (d, r) -> digit_run (s +:+ rest) = (d, r +:+ rest).
Proof.
  intros Hr. revert d. induction s as [|c s IH]; intros d; simpl.
  - intros [= <- <-]. destruct rest; [done|]. apply num_end_cases in Hr as [Hd _]. simpl. by rewrite Hd.
  - destruct (is_digit c); [|by intros [= <- <-]]. destruct (digit_run s) as [d' r'].
    intros [= <- <-]. by rewrite (IH d').
Qed.

Lemma signed_more s rest n r : num_end rest -> signed s = Some (n, r) -> signed (s +:+ rest) = Some (n, r +:+ rest).
Proof.
  intros Hr. assert (forall s n r, natural s = Some (n, r) -> natural (s +:+ rest) = Some (n, r +:+ rest)) as Hn.
  { clear s n r. intros [|c s] n r; [done|]. rewrite app_cons. cbn [natural]. destruct (Ascii.eqb c "0"); [by intros [= <- <-]|].
    destruct (is_digit c); [|done]. intros [= H]. f_equal. rewrite <- app_cons. by apply digits_more. }
  destruct s as [|c s]; [done|]. rewrite app_cons. cbn [signed].
  destruct (Ascii.eqb c "-"); [|rewrite <- app_cons; apply Hn].
  intros H. destruct (natural s) as [[k r']|] eqn:E; [|done]. injection H as <- <-. by rewrite (Hn _ _ _ E).
Qed.

Lemma fraction_more s rest f r : num_end rest -> fraction s = (f, r) -> fraction (s +:+ rest) = (f, r +:+ rest).
Proof.
  intros Hr. destruct s as [|c s].
  - intros [= <- <-]. by apply fraction_end.
  - rewrite app_cons. cbn [fraction]. rewrite starts_digit_app by done. destruct (_ && _); [|by intros [= <- <-]].
    destruct (digit_run s) as [d r'] eqn:E. intros [= <- <-]. by rewrite (digit_run_more _ _ _ _ Hr E).
Qed.

Lemma exponent_more s rest e r : num_end rest -> exponent s = (e, r) -> exponent (s +:+ rest) = (e, r +:+ rest).
Proof.
  intros Hr. destruct s as [|c [|g s]].
  - intros [= <- <-]. by apply exponent_end.
  - intros [= <- <-]. destruct rest as [|x rest]; [done|]. apply num_end_cases in Hr as (H1 & _ & _ & H2).
    change (String c "" +:+ String x rest) with (String c (String x rest)). cbn [exponent]. rewrite H2, H1. by destruct (is_e c).
  - rewrite !app_cons. cbn [exponent]. rewrite starts_digit_app by done.
    destruct (is_e c); [|by intros [= <- <-]]. destruct (is_sign g).
    + destruct (starts_digit s); [|by intros [= <- <-]]. destruct (digit_run s) as [d r'] eqn:E. intros [= <- <-].
      by rewrite (digit_run_more _ _ _ _ Hr E).
    + destruct (is_digit g); [|by intros [= <- <-]]. destruct (digit_run (String g s)) as [d r'] eqn:E. intros [= <- <-].
      by rewrite <- app_cons, (digit_run_more _ _ _ _ Hr E).
Qed.

Lemma number_more s rest j r : num_end rest -> number s = Some (j, r) -> number (s +:+ rest) = Some (j, r +:+ rest).
Proof.
  intros Hr. unfold number. destruct (signed s) as [[n r0]|] eqn:Es; [|done]. cbn [mbind option_bind].
  rewrite (signed_more _ _ _ _ Hr Es). cbn [mbind option_bind].
  destruct (fraction r0) as [f r1] eqn:Ef. rewrite (fraction_more _ _ _ _ Hr Ef).
  destruct (exponent r1) as [e r2] eqn:Ee. rewrite (exponent_more _ _ _ _ Hr Ee). intros [= <- <-].
  by destruct s.
Qed.

(** The texts of floats. *)
Definition float_text (t : string) : bool :=
  mem t ["NaN"; "Infinity"; "-Infinity"] ||
  match number t with Some (JFloat t', EmptyString) => String.eqb t' t | _ => false end.

Lemma float_text_cases t : float_text t = true ->
  t = "NaN" \/ t = "Infinity" \/ t = "-Infinity" \/ number t = Some (JFloat t, "").
Proof.
  unfold float_text. intros [H|H]%orb_true_iff.
  - apply mem_true in H. set_solver.
  - destruct (number t) as [[[] [|]]|]; try done. apply String.eqb_eq in H. subst. auto.
Qed.

(** *** Values *)

Lemma Json_ind' (P : Json -> Prop) :
  P JNull -> (forall b, P (JBool b)) -> (forall n, P (JNum n)) -> (forall t, P (JFloat t)) ->
  (forall s, P (JStr s)) -> (forall l, Forall P l -> P (JList l)) -> (forall fs, Forall (fun x => P (snd x)) fs -> P (JObj fs)) ->
  forall j, P j.
Proof.
  intros H1 H2 H3 Hf H4 H5 H6. fix IH 1. intros [| | | | |l|fs]; [done|done|done|done|done| |].
  - apply H5. induction l; constructor; [apply IH|done].
  - apply H6. induction fs as [|[k v] fs IHf]; constructor; [apply IH|done].
Qed.

(** A Python value with UTF-8 text, texts of floats and dicts without duplicate keys. *)
Fixpoint json_ok (j : Json) : Prop :=
  match j with
  | JStr s => utf8_valid s = true
  | JFloat t => float_text t = true
  | JList l => (fix all (l : list Json) := match l with [] => True | x :: l' => json_ok x /\ all l' end) l
  | JObj fs => NoDup (fst <$> fs) /\
      (fix all (l : list (string * Json)) :=
         match l with [] => True | (k, v) :: l' => utf8_valid k = true /\ json_ok v /\ all l' end) fs
  | _ => True
  end.

Lemma json_ok_list l : json_ok (JList l) <-> Forall json_ok l.
Proof.
  induction l as [|x l IH]; [by split|]. rewrite Forall_cons, <- IH. done.
Qed.

Lemma json_ok_obj fs :
  json_ok (JObj fs) <-> NoDup (fst <$> fs) /\ Forall (fun p => utf8_valid (fst p) = true /\ json_ok (snd p)) fs.
Proof.
  cbn [json_ok]. apply Morphisms_Prop.and_iff_morphism; [done|].
  induction fs as [|[k v] fs IH]; [by split|]. rewrite Forall_cons, <- IH. simpl. tauto.
Qed.

Fixpoint weight (j : Json) : nat :=
  match j with
  | JList l => S (list_sum (map (fun x => S (weight x)) l))
  | JObj fs => S (list_sum (map (fun '(_, x) => S (weight x)) fs))
  | _ => 1
  end.

Lemma skip_ws_nonspace c s : is_json_space c = false -> skip_ws (String c s) = String c s.
Proof. intros H. simpl. by rewrite H. Qed.

Lemma app_single c t : String c EmptyString +:+ t = String c t.
Proof. done. Qed.

Lemma quote_app s t : quote s +:+ t = String DQ (quote_body s +:+ String DQ t).
Proof. unfold quote. by rewrite app_cons, <- string_app_assoc. Qed.

Section dumps.
Context (isep ksep : string) (Hi : isep = ", " \/ isep = ",") (Hk : ksep = ": " \/ ksep = ":").
Local Abbreviation dump := (dumps_with isep ksep).

(** The first character of a value. *)
Lemma dump_head j : json_ok j ->
  exists c s, dump j = String c s /\ is_json_space c = false /\ c <> "]"%char /\ c <> "}"%char.
Proof.
  assert (forall u n r, signed u = Some (n, r) ->
    exists c s, u = String c s /\ is_json_space c = false /\ c <> "]"%char /\ c <> "}"%char) as Hn.
  { intros u n r H. destruct u as [|c s]; [done|]. exists c, s. cbn [signed natural] in H.
    destruct (Ascii.eqb c "-") eqn:E; [apply Ascii.eqb_eq in E as ->; done|].
    destruct (Ascii.eqb c "0") eqn:E0; [apply Ascii.eqb_eq in E0 as ->; done|].
    destruct (is_digit c) eqn:Ed; [|done].
    destruct c as [[] [] [] [] [] [] [] []]; try discriminate Ed; done. }
  intros Hok. destruct j as [|[]|n|t|s|l|fs]; [..|].
  all: try (eexists _, _; split; [reflexivity|done]).
  - apply (Hn _ n ""). rewrite <- (string_app_nil (dump _)). by apply (signed_pretty n "").
  - apply float_text_cases in Hok as [->|[->|[->|H]]]; try (eexists _, _; split; [reflexivity|done]).
    unfold number in H. destruct (signed t) as [[n r]|] eqn:E; [|done]. by eapply Hn.
Qed.

Lemma value_space n s : value n (String " " s) = value n s.
Proof. by destruct n. Qed.
Lemma items_space n s : items n (String " " s) = items n s.
Proof. destruct n as [|n]; [done|]. cbn [items]. by rewrite value_space. Qed.
Lemma members_space n s d : members n (String " " s) d = members n s d.
Proof. by destruct n. Qed.

Lemma dict_set_new k v d : k ∉ fst <$> d -> dict_set k v d = d ++ [(k, v)].
Proof.
  induction d as [|[k' v'] d IH]; intros H; [done|]. csimpl in H. apply not_elem_of_cons in H as [H1 H2].
  cbn [dict_set]. replace (String.eqb k' k) with false by (symmetry; by apply String.eqb_neq). by rewrite IH.
Qed.

Definition reads (j : Json) : Prop := forall fuel rest, (weight j <= fuel)%nat -> num_end rest ->
  value fuel (dump j +:+ rest) = Some (j, rest).

(** The items after the first bracket. *)
Lemma items_dump x l rest fuel :
  Forall reads (x :: l) -> (list_sum (map (fun x => S (weight x)) (x :: l)) <= fuel)%nat ->
  items fuel (join isep (map dump (x :: l)) +:+ String "]" rest) = Some (x :: l, rest).
Proof.
  revert x fuel. induction l as [|y l IH]; intros x fuel [Hx Hl]%Forall_cons Hw.
  - simpl in Hw. destruct fuel as [|fuel]; [lia|]. unfold join. cbn [map String.concat items].
    rewrite Hx by (done || lia). done.
  - destruct fuel as [|fuel]; [simpl in Hw; lia|].
    assert (join isep (map dump (x :: y :: l)) +:+ String "]" rest =
            dump x +:+ (isep +:+ (join isep (map dump (y :: l)) +:+ String "]" rest))) as ->.
    { unfold join. cbn [map String.concat]. by rewrite !string_app_assoc. }
    cbn [items]. rewrite Hx; [|simpl in Hw; lia|by destruct Hi as [->| ->]].
    cbn [mbind option_bind]. assert (list_sum (map (fun x => S (weight x)) (y :: l)) <= fuel)%nat as Hw' by (simpl in *; lia).
    specialize (IH y fuel Hl Hw'). cbv zeta in IH. revert IH. generalize (join isep (map dump (y :: l)) +:+ String "]" rest).
    intros t IH. destruct Hi as [-> | ->]; [change (", " +:+ t) with (String "," (String " " t))|change ("," +:+ t) with (String "," t)];
      cbn [skip_ws expect]; change (is_json_space ",") with false; cbn [expect];
      rewrite Ascii.eqb_refl; [rewrite items_space|]; by rewrite IH.
Qed.

Lemma members_dump k x fs rest fuel d :
  Forall (fun p => utf8_valid (fst p) = true /\ reads (snd p)) ((k, x) :: fs) ->
  NoDup (fst <$> d ++ (k, x) :: fs) ->
  (list_sum (map (fun '(_, x) => S (weight x)) ((k, x) :: fs)) <= fuel)%nat ->
  members fuel (join isep (map (fun '(k, v) => quote k +:+ ksep +:+ dump v) ((k, x) :: fs)) +:+ String "}" rest) d =
  Some (d ++ (k, x) :: fs, rest).
Proof.
  revert k x fuel d. induction fs as [|[k' x'] fs IH]; intros k x fuel d [[Hu Hx] Hl]%Forall_cons Hd Hw;
    (destruct fuel as [|fuel]; [simpl in Hw; lia|]); cbn [fst snd] in Hu, Hx.
  all: assert (k ∉ fst <$> d) as Hk' by
    (rewrite fmap_app in Hd; apply NoDup_app in Hd as (_ & Hd & _); intros Hin; apply (Hd k Hin); left).
  all: assert (forall t, members (S fuel) ((quote k +:+ ksep +:+ dump x) +:+ t) d =
    ('(v, r2) ← value fuel (dump x +:+ t);
      match expect "," (skip_ws r2) with
      | Some r3 => members fuel r3 (dict_set k v d)
      | None => r3 ← expect "}" (skip_ws r2); Some (dict_set k v d, r3)
      end)) as Hstep.
  1,3: intros t; rewrite <- !string_app_assoc, quote_app; cbn [members skip_ws expect];
       change (is_json_space DQ) with false; cbn [expect]; rewrite Ascii.eqb_refl; cbn [mbind option_bind];
       rewrite (str_body_quote k) by done; cbn [mbind option_bind];
       destruct Hk as [-> | ->]; simpl; [|done]; apply (f_equal (fun o => o ≫= _)), value_space.
  - unfold join. cbn [map String.concat]. rewrite Hstep, Hx by (done || (simpl in Hw; lia)).
    cbn [mbind option_bind]. simpl. by rewrite dict_set_new.
  - assert (join isep (map (fun '(k, v) => quote k +:+ ksep +:+ dump v) ((k, x) :: (k', x') :: fs)) +:+ String "}" rest =
            (quote k +:+ ksep +:+ dump x) +:+ (isep +:+ (join isep (map (fun '(k, v) => quote k +:+ ksep +:+ dump v) ((k', x') :: fs)) +:+ String "}" rest))) as ->.
    { unfold join. cbn [map String.concat]. by rewrite !string_app_assoc. }
    rewrite Hstep, Hx; [|simpl in Hw; lia|by destruct Hi as [->| ->]]. cbn [mbind option_bind].
    rewrite dict_set_new by done.
    assert (list_sum (map (fun '(_, x) => S (weight x)) ((k', x') :: fs)) <= fuel)%nat as Hw' by (simpl in *; lia).
    specialize (IH k' x' fuel (d ++ [(k, x)]) Hl). rewrite <- app_assoc in IH. specialize (IH Hd Hw'). revert IH.
    generalize (join isep (map (fun '(k, v) => quote k +:+ ksep +:+ dump v) ((k', x') :: fs)) +:+ String "}" rest).
    intros t IH. destruct Hi as [-> | ->]; [change (", " +:+ t) with (String "," (String " " t))|change ("," +:+ t) with (String "," t)];
      cbn [skip_ws expect]; change (is_json_space ",") with false; cbn [expect];
      rewrite Ascii.eqb_refl; [rewrite members_space|]; by rewrite IH.
Qed.

Lemma value_dump j : json_ok j -> reads j.
Proof.
  induction j as [|[]|n|t|s|l IH|fs IH] using Json_ind'; intros Hok fuel rest Hw Hr;
    (destruct fuel as [|fuel]; [simpl in Hw; lia|]); try done.
  - destruct (dump_head (JNum n) I) as (c & t & Hd & Hs & _). pose proof (number_pretty n rest Hr) as Hn.
    cbn [dumps_with] in *. rewrite Hd in *. rewrite app_cons in *. cbn [value]. rewrite skip_ws_nonspace by done.
    assert (Ascii.eqb c "-" || is_digit c = true) as Hc by (by eapply number_head).
    destruct c as [[] [] [] [] [] [] [] []]; try discriminate Hc; cbn [Ascii.eqb Bool.eqb];
      by rewrite Hn.
  - destruct (float_text_cases _ Hok) as [->|[->|[->|H]]]; [done..|].
    destruct (dump_head (JFloat t) Hok) as (c & u & Hd & Hs & _). pose proof (number_more _ rest _ _ Hr H) as Hn.
    cbn [dumps_with] in *. rewrite Hd in *. rewrite app_cons in *. cbn [value]. rewrite skip_ws_nonspace by done.
    assert (Ascii.eqb c "-" || is_digit c = true) as Hc by (by eapply number_head).
    destruct c as [[] [] [] [] [] [] [] []]; try discriminate Hc; cbn [Ascii.eqb Bool.eqb];
      by rewrite Hn.
  - cbn [dumps_with]. rewrite quote_app. cbn [value].
    rewrite skip_ws_nonspace, Ascii.eqb_refl by done. by rewrite (str_body_quote s) by done.
  - cbn [dumps_with]. rewrite <- !string_app_assoc, !app_single. cbn [value].
    rewrite skip_ws_nonspace by done. cbn [Ascii.eqb]. change (Ascii.eqb "[" DQ) with false. cbn [Ascii.eqb Bool.eqb].
    destruct l as [|x l]; [done|].
    assert (Forall reads (x :: l)) as HF.
    { apply json_ok_list in Hok. rewrite Forall_forall in *. eauto. }
    destruct (dump_head x) as (c & t & Hd & Hs & Hc & _); [apply json_ok_list, Forall_cons in Hok; apply Hok|].
    rewrite (items_dump x l rest fuel HF) by (simpl in *; lia).
    assert (expect "]" (skip_ws (join isep (map dump (x :: l)) +:+ String "]" rest)) = None) as ->; [|done].
    assert (exists u, join isep (map dump (x :: l)) = String c u) as [u ->].
    { unfold join. cbn [map String.concat]. rewrite Hd. destruct (map dump l); eexists; [done|]. by rewrite app_cons. }
    rewrite app_cons, skip_ws_nonspace by done. simpl. by replace (Ascii.eqb c "]") with false by (symmetry; by apply Ascii.eqb_neq).
  - cbn [dumps_with]. rewrite <- !string_app_assoc, !app_single. cbn [value].
    rewrite skip_ws_nonspace by done. change (Ascii.eqb "{" DQ) with false. cbn [Ascii.eqb Bool.eqb].
    destruct fs as [|[k x] fs]; [done|]. apply json_ok_obj in Hok as [Hnd Hok].
    assert (Forall (fun p => utf8_valid (fst p) = true /\ reads (snd p)) ((k, x) :: fs)) as HF.
    { rewrite Forall_forall in *. intros p Hp. destruct (Hok p Hp). split; [done|]. by apply IH. }
    rewrite (members_dump k x fs rest fuel [] HF) by (done || (simpl in *; lia)).
    assert (expect "}" (skip_ws (join isep (map (fun '(k, v) => quote k +:+ ksep +:+ dump v) ((k, x) :: fs)) +:+ String "}" rest)) = None) as ->; [|done].
    unfold join. cbn [map String.concat]. destruct (map _ fs); unfold quote; by rewrite !app_cons.
Qed.

Lemma join_length l : (list_sum (map String.length l) + (length l - 1) <= String.length (join isep l))%nat.
Proof.
  unfold join. induction l as [|x l IH]; [done|]. destruct l as [|y l]; [simpl in *; lia|].
  cbn [String.concat] in *. rewrite !string_length_app.
  assert (1 <= String.length isep)%nat by (destruct Hi as [-> | ->]; simpl; lia). simpl in *. lia.
Qed.

Lemma weight_length j : json_ok j -> (weight j <= 2 * String.length (dump j))%nat.
Proof.
  induction j as [|b|n|u|t|l IH|fs IH] using Json_ind'; intros Hok;
    try (destruct (dump_head _ Hok) as (c & s & -> & _); simpl; lia).
  1: apply json_ok_list in Hok. 2: apply json_ok_obj in Hok as [_ Hok].
  all: cbn [weight dumps_with]; rewrite !string_length_app; cbn [String.length].
  - pose proof (join_length (map dump l)) as Hj. rewrite length_map in Hj.
    assert (list_sum (map (fun x => S (weight x)) l) <= length l + 2 * list_sum (map String.length (map dump l)))%nat; [|lia].
    clear Hj. induction IH as [|x l Hx _ IH]; [done|]. apply Forall_cons in Hok as [H1 H2].
    specialize (Hx H1). specialize (IH H2). simpl in *; lia.
  - pose proof (join_length (map (fun '(k, v) => quote k +:+ ksep +:+ dump v) fs)) as Hj. rewrite length_map in Hj.
    assert (list_sum (map (fun '(_, x) => S (weight x)) fs) <= length fs + 2 * list_sum (map String.length
      (map (fun '(k, v) => quote k +:+ ksep +:+ dump v) fs)))%nat; [|lia].
    clear Hj. induction IH as [|[k x] fs Hx _ IH]; [done|]. apply Forall_cons in Hok as [[_ H1] H2].
    specialize (Hx H1). specialize (IH H2). simpl in *. rewrite !string_length_app. lia.
Qed.

Lemma loads_dumps_with j : json_ok j -> loads (dump j) = Some j.
Proof.
  intros Hj. unfold loads. pose proof (weight_length j Hj) as Hw.
  pose proof (value_dump j Hj (S (2 * String.length (dump j))) "" ltac:(lia) I) as Hv.
  rewrite string_app_nil in Hv. by rewrite Hv.
Qed.
End dumps.

Lemma loads_dumps j : json_ok j -> loads (dumps j) = Some j.
Proof. intros Hj. apply loads_dumps_with; auto. Qed.

Lemma loads_dumps_compact j : json_ok j -> loads (dumps_compact j) = Some j.
Proof. intros Hj. apply loads_dumps_with; auto. Qed.

(** ** No control character in a JSON text *)

Definition printable (c : ascii) : bool := 32 <=? byte_of c.
Local Abbreviation clean s := (all_chars printable s = true).

Lemma all_chars_app P s t : all_chars P (s +:+ t) = all_chars P s && all_chars P t.
Proof. induction s as [|c s IH]; [done|]. rewrite app_cons. cbn. by rewrite IH, andb_assoc. Qed.

Lemma hex_digit_printable v : 0 <= v < 16 -> printable (hex_digit v) = true.
Proof.
  intros H. assert (v ∈ seqZ 0 16) as Hv by (apply elem_of_seqZ; lia). clear H.
  cbv in Hv. repeat (apply elem_of_cons in Hv as [->|Hv]; [done|]). by apply elem_of_nil in Hv.
Qed.

Lemma hex4_clean n s : clean s -> clean (hex4_cons n s).
Proof.
  intros Hs. unfold hex4_cons. cbn [all_chars]. rewrite !hex_digit_printable by (apply Z.mod_pos_bound; lia). exact Hs.
Qed.

Lemma escape_clean n s : clean s -> clean (escape_cons n s).
Proof. intros Hs. unfold escape_cons. case_match; auto using hex4_clean. Qed.

Lemma ascii_clean c s : clean s -> clean (ascii_cons c s).
Proof.
  intros Hs. assert (forall e, printable e = true -> clean (String e s)) as He.
  { intros e Hc. cbn [all_chars]. by rewrite Hc, Hs. }
  assert (forall e, clean (String e s) -> clean (String BSL (String e s))) as Hb by done.
  unfold ascii_cons. cbv zeta. repeat (case_match; [first [by apply hex4_clean | by apply Hb, He]|]).
  apply He. unfold printable. lia.
Qed.

Lemma quote_body_clean s : utf8_valid s = true -> clean (quote_body s).
Proof.
  remember (String.length s) as n eqn:Hn. revert s Hn. induction n as [n IH] using lt_wf_ind. intros s -> Hs.
  destruct s as [|c s1]; [done|]. cbn [utf8_valid quote_body] in *.
  destruct (byte_of c <? 128) eqn:Eb; [apply ascii_clean, (IH (String.length s1)); [simpl; lia|done|done]|].
  destruct s1 as [|c1 s2]; [done|].
  destruct (byte_of c <? 224) eqn:E2.
  { destruct ((194 <=? byte_of c) && (byte_of c <=? 223)) eqn:E3.
    - apply andb_prop in Hs as [_ Hs]. apply escape_clean, (IH (String.length s2)); [simpl; lia|done|done].
    - destruct s2 as [|c2 s3]; [done|].
      replace (byte_of c =? 224) with false in Hs by lia. replace (byte_of c =? 237) with false in Hs by lia.
      replace ((225 <=? byte_of c) && (byte_of c <=? 239)) with false in Hs by lia. destruct s3; [done|].
      replace (byte_of c =? 240) with false in Hs by lia. replace (byte_of c =? 244) with false in Hs by lia.
      by replace ((241 <=? byte_of c) && (byte_of c <=? 243)) with false in Hs by lia. }
  replace ((194 <=? byte_of c) && (byte_of c <=? 223)) with false in Hs by lia.
  destruct s2 as [|c2 s3]; [done|]. destruct (byte_of c <? 240) eqn:E3.
  - apply escape_clean, (IH (String.length s3)); [simpl; lia|done|].
    replace ((225 <=? byte_of c) && (byte_of c <=? 239)) with (negb (byte_of c =? 224)) in Hs by lia.
    by destruct (byte_of c =? 224), (byte_of c =? 237); cbn in Hs; repeat (apply andb_prop in Hs as [_ Hs]).
  - replace (byte_of c =? 224) with false in Hs by lia. replace (byte_of c =? 237) with false in Hs by lia.
    replace ((225 <=? byte_of c) && (byte_of c <=? 239)) with false in Hs by lia. destruct s3 as [|c3 s4]; [done|].
    apply escape_clean, (IH (String.length s4)); [simpl; lia|done|].
    destruct (byte_of c =? 240), ((241 <=? byte_of c) && (byte_of c <=? 243)), (byte_of c =? 244); cbn in Hs;
      by repeat (apply andb_prop in Hs as [_ Hs]).
Qed.

Lemma quote_clean s : utf8_valid s = true -> clean (quote s).
Proof. intros Hs. unfold quote. cbn. by rewrite all_chars_app, quote_body_clean. Qed.

(** The characters of the texts of numbers. *)
Definition plain (c : ascii) : bool := (32 <=? byte_of c) && (byte_of c <? 128).

Lemma plain_clean s : all_chars plain s = true -> clean s.
Proof. apply all_chars_impl. intros c [Hc _]%andb_prop. exact Hc. Qed.

Lemma plain_utf8 s : all_chars plain s = true -> utf8_valid s = true.
Proof. induction s as [|c s IH]; [done|]. cbn. intros [[_ ->]%andb_prop Hs]%andb_prop. by apply IH. Qed.

Lemma plain_digit c : is_digit c = true -> plain c = true.
Proof. unfold is_digit, plain, byte_of. intros [H1%Nat.leb_le H2%Nat.leb_le]%andb_prop. lia. Qed.

Lemma plain_digits s : all_digits s = true -> all_chars plain s = true.
Proof. induction s as [|c s IH]; [done|]. cbn. intros [Hc Hs]%andb_prop. by rewrite plain_digit, IH. Qed.

Lemma plain_pretty (n : Z) : all_chars plain (pretty n) = true.
Proof.
  destruct n as [|p|p]; [done|apply plain_digits, pretty_digits|].
  apply (plain_digits (pretty (N.pos p))), pretty_digits.
Qed.

Lemma plain_digit_run s : all_chars plain (fst (digit_run s)) = true.
Proof.
  induction s as [|c s IH]; [done|]. simpl. destruct (is_digit c) eqn:E; [|done]. destruct (digit_run s) as [d r].
  cbn in *. by rewrite plain_digit, IH.
Qed.

Lemma plain_sign c : is_sign c = true -> plain c = true.
Proof. by intros [->%Ascii.eqb_eq| ->%Ascii.eqb_eq]%orb_true_iff. Qed.
Lemma plain_e c : is_e c = true -> plain c = true.
Proof. by intros [->%Ascii.eqb_eq| ->%Ascii.eqb_eq]%orb_true_iff. Qed.

Lemma plain_fraction s : all_chars plain (fst (fraction s)) = true.
Proof.
  destruct s as [|c s]; [done|]. cbn [fraction]. destruct (Ascii.eqb c ".") eqn:E; [|done]. cbn [andb].
  apply Ascii.eqb_eq in E as ->. destruct (starts_digit s); [|done].
  pose proof (plain_digit_run s) as H. by destruct (digit_run s).
Qed.

Lemma plain_exponent s : all_chars plain (fst (exponent s)) = true.
Proof.
  destruct s as [|c [|g s]]; [done..|]. cbn [exponent]. destruct (is_e c) eqn:Ec; [|done]. apply plain_e in Ec.
  destruct (is_sign g) eqn:Eg.
  - apply plain_sign in Eg. destruct (starts_digit s); [|done]. pose proof (plain_digit_run s) as H.
    destruct (digit_run s). cbn in *. by rewrite Ec, Eg, H.
  - destruct (is_digit g); [|done]. pose proof (plain_digit_run (String g s)) as H.
    destruct (digit_run (String g s)). cbn in *. by rewrite Ec, H.
Qed.

Lemma plain_float t : float_text t = true -> all_chars plain t = true.
Proof.
  intros [->|[->|[->|H]]]%float_text_cases; [done..|]. unfold number in H.
  destruct (signed t) as [[n r]|]; [|done]. cbn [mbind option_bind] in H.
  pose proof (plain_fraction r) as Hf. destruct (fraction r) as [f r1]. pose proof (plain_exponent r1) as He.
  destruct (exponent r1) as [e r2]. cbn [fst] in *.
  destruct (f +:+ e) as [|c u] eqn:E; [done|]. injection H as H _. rewrite <- H, all_chars_app, <- E, all_chars_app, Hf, He.
  rewrite andb_true_r. unfold int_text. destruct t as [|d t]; [done|]. destruct (Ascii.eqb d "-") eqn:Ed; [|apply plain_pretty].
  apply Ascii.eqb_eq in Ed as ->. apply plain_pretty.
Qed.

Lemma utf8_float t : float_text t = true -> utf8_valid t = true.
Proof. intros H. by apply plain_utf8, plain_float. Qed.

Lemma join_all P sep l :
  all_chars P sep = true -> Forall (fun s => all_chars P s = true) l -> all_chars P (join sep l) = true.
Proof.
  intros Hs Hl. unfold join. induction Hl as [|x l Hx Hl IH]; [done|]. destruct l as [|y l]; [done|].
  cbn [String.concat] in *. by rewrite !all_chars_app, Hx, Hs, IH.
Qed.

Lemma dumps_printable isep ksep j : clean isep -> clean ksep -> json_ok j -> clean (dumps_with isep ksep j).
Proof.
  intros Hi Hk. induction j as [|[]|n|t|s|l IH|fs IH] using Json_ind'; intros Hj; try done.
  - apply plain_clean, plain_pretty.
  - by apply plain_clean, plain_float.
  - by apply quote_clean.
  - apply json_ok_list in Hj. cbn [dumps_with]. rewrite !all_chars_app, join_all; [done|done|].
    apply Forall_fmap. rewrite Forall_forall in *. intros x Hx. by apply IH, Hj.
  - apply json_ok_obj in Hj as [_ Hj]. cbn [dumps_with]. rewrite !all_chars_app, join_all; [done|done|].
    apply Forall_fmap. rewrite Forall_forall in *. intros [k v] Hx. destruct (Hj _ Hx) as [Hkey Hv]. cbn in *.
    pose proof (IH _ Hx Hv) as Hd. cbn in Hd. by rewrite !all_chars_app, quote_clean, Hk, Hd.
Qed.
