(* ===== verification/World.v ===== *)
(** * The state the services share, and the code they call outside the repository

    [World] is what a request handler can read or change: the primary database,
    the read replica when there is one, Redis, the clock, the random source, the
    event stream, the scheduled audit inserts and the context variables of
    src/api/core/context.py.  [Ext] collects the third-party functions the code
    calls (PyJWT, bcrypt, cryptography, pyotp, hashlib, uuid, secrets) and
    [ExtLaws] what the code relies on; [Settings] is src/api/core/config.py. *)

From Stdlib Require Import ZArith Lia Ascii String List Bool.
From stdpp Require Import base gmap strings list pretty.
From S2P Require Import Prelude Schema Redis JsonText.
Local Open Scope string_scope.
Local Open Scope list_scope.
Local Open Scope Z_scope.

(** ** Exceptions *)

(** [HTTPException] carries the status and the i18n key or text of its detail. *)
Inductive Exn :=
| HTTPException (status_code : Z) (detail : string)
| RedisError
| UniqueViolation (constraint : string)
| ForeignKeyViolation (constraint : string)
| ReadOnlyTransaction
| UndefinedColumn (column : string)
| CheckViolation (constraint : string)
| ValueErr (msg : string)
| TypeErr (msg : string)
| KeyErr (key : string)
| AttributeErr (attribute : string)
| BrokerError                          (* CeleryError, KombuError or OSError of a send *)
| ValidationErr
| InvalidToken
| IndexErr (msg : string)
| LoginFailed (msg : string)                 (* starlette-admin *)
| FormValidationErr (errors : list (string * string))
| ActionFailed (msg : string)
| OtherErr (what : string).             (* an exception of a third-party client *)

(** ** Settings (config.py) *)

Class Settings := {
  SECRET_KEY : string;
  ACCESS_TOKEN_EXPIRE_MINUTES : Z;
  REFRESH_TOKEN_EXPIRE_DAYS : Z;
  SUDO_TOKEN_EXPIRE_MINUTES : Z;
  TWO_FACTOR_CHALLENGE_EXPIRE_MINUTES : Z;
  TWO_FACTOR_ISSUER_NAME : string;
}.

(** The defaults. *)
Definition default_settings : Settings := {|
  SECRET_KEY := "test_secret_key";
  ACCESS_TOKEN_EXPIRE_MINUTES := 336;
  REFRESH_TOKEN_EXPIRE_DAYS := 21;
  SUDO_TOKEN_EXPIRE_MINUTES := 60;
  TWO_FACTOR_CHALLENGE_EXPIRE_MINUTES := 5;
  TWO_FACTOR_ISSUER_NAME := "FastAPI Template";
|}.

(** ** Third-party code *)

(** The payload of a JWT; an absent claim is [None].  [c_act] is the RFC 8693
    actor claim, with its [id] and [sub]. *)
Record Claims := {
  c_sub : option string;
  c_id : option uuid;
  c_scopes : option (list string);
  c_token_version : option Z;
  c_is_impersonation : option bool;
  c_act : option (option uuid * option string);
  c_exp : option Z;
  c_type : option string;
  c_jti : option string;
}.

Class Ext := {
  jwt_encode : Claims -> string -> string;
  (** [None]: any [PyJWTError]; the time is what expiry is checked against. *)
  jwt_decode : Z -> string -> string -> option Claims;
  bcrypt_hash : nat -> string -> string;
  bcrypt_check : string -> string -> bool;
  sha256 : string -> string;
  uuid4 : nat -> uuid;
  uuid7 : nat -> uuid;
  fernet_encrypt : nat -> string -> string;
  fernet_decrypt : string -> option string;
  random_base32 : nat -> string;
  token_hex2 : nat -> string;
  token_urlsafe32 : nat -> string;
  (** The TOTP code of a secret in a 30-second slice. *)
  totp_at : string -> Z -> string;
  (** [pyotp.TOTP(secret).verify(code, valid_window)] at a time. *)
  totp_verify : string -> string -> Z -> Z -> bool;
  provisioning_uri : string -> string -> string -> string;
  qr_svg : string -> string;
  (** The number behind a random draw. *)
  rnd : nat -> nat;
  (** pydantic's check of an e-mail address. *)
  email_valid : string -> bool;
}.

Class ExtLaws {EX : Ext} : Prop := {
  (** A token decodes to what was encoded until it expires, not after. *)
  jwt_roundtrip : forall c k now e, c_exp c = Some e -> now < e ->
    jwt_decode now (jwt_encode c k) k = Some c;
  jwt_expired : forall c k now e, c_exp c = Some e -> e <= now ->
    jwt_decode now (jwt_encode c k) k = None;
  (** Only encoding under the key produces a token that decodes. *)
  jwt_authentic : forall now tok k c, jwt_decode now tok k = Some c -> tok = jwt_encode c k;
  bcrypt_ok : forall n p, bcrypt_check p (bcrypt_hash n p) = true;
  uuid4_inj : forall m n, uuid4 m = uuid4 n -> m = n;
  uuid7_inj : forall m n, uuid7 m = uuid7 n -> m = n;
  totp_window : forall s c t win, totp_verify s c t win = true <->
    exists i, - win <= i <= win /\ c = totp_at s (t / 30 + i);
  email_not_empty : email_valid "" = false;
  fernet_roundtrip : forall n s, fernet_decrypt (fernet_encrypt n s) = Some s;
}.

(** ** The world *)

Record Event := {
  event_id : uuid;
  event_name : string;
  timestamp : Z;
  payload : list (string * Json);
}.

Record AuditEntry := {
  a_actor : uuid;
  a_impersonator : option uuid;
  a_action : string;
  a_resource : string;
  a_resource_id : string;
  a_details : Json;
  a_ip : option string;
}.

(** A message to a Celery worker: [args] and [kwargs] as the sender gave them. *)
Record CeleryTask := {
  ct_name : string;
  ct_args : Json;
  ct_kwargs : Json;
  ct_queue : option string;
}.

Record World (R : Type) := {
  db : Tables;  (* the primary *)
  replica : option Tables;  (* a read-only standby; [None]: reads use the primary *)
  redis : R;
  faults : list bool;  (* which of the next Redis commands fail *)
  now : Z;
  drawn : nat;  (* random draws so far *)
  stream : list Event;  (* published events, oldest first *)
  audit : list AuditEntry;  (* audit inserts handed to background tasks, oldest first *)
  sent : list CeleryTask;  (* Celery tasks sent to the broker, oldest first *)
  broker_faults : list bool;  (* which of the next sends fail *)
  published : list (string * string);  (* Redis pub/sub: channel and message, oldest first *)
  ctx_actor : option string;  (* CURRENT_ACTOR_ID *)
  ctx_impersonator : option string;  (* CURRENT_IMPERSONATOR_ID *)
  ctx_ip : option string;  (* CLIENT_IP *)
}.
Arguments Build_World {R}.
Arguments db {R}.
Arguments replica {R}.
Arguments redis {R}.
Arguments faults {R}.
Arguments now {R}.
Arguments drawn {R}.
Arguments stream {R}.
Arguments audit {R}.
Arguments sent {R}.
Arguments broker_faults {R}.
Arguments published {R}.
Arguments ctx_actor {R}.
Arguments ctx_impersonator {R}.
Arguments ctx_ip {R}.

Section world.
Context {R : Type} {RD : Redis R} {EX : Ext}.

Definition PyM := M (World R) Exn.

Definition set_db (f : Tables -> Tables) (w : World R) : World R :=
  {| db := f (db w); replica := replica w; redis := redis w; faults := faults w; now := now w;
     drawn := drawn w; stream := stream w; audit := audit w; sent := sent w; broker_faults :=
     broker_faults w; published := published w; ctx_actor := ctx_actor w; ctx_impersonator :=
     ctx_impersonator w; ctx_ip := ctx_ip w |}.

Definition set_redis (f : R -> R) (w : World R) : World R :=
  {| db := db w; replica := replica w; redis := f (redis w); faults := faults w; now := now w;
     drawn := drawn w; stream := stream w; audit := audit w; sent := sent w; broker_faults :=
     broker_faults w; published := published w; ctx_actor := ctx_actor w; ctx_impersonator :=
     ctx_impersonator w; ctx_ip := ctx_ip w |}.

Definition set_faults (l : list bool) (w : World R) : World R :=
  {| db := db w; replica := replica w; redis := redis w; faults := l; now := now w; drawn :=
     drawn w; stream := stream w; audit := audit w; sent := sent w; broker_faults :=
     broker_faults w; published := published w; ctx_actor := ctx_actor w; ctx_impersonator :=
     ctx_impersonator w; ctx_ip := ctx_ip w |}.

Definition set_now (t : Z) (w : World R) : World R :=
  {| db := db w; replica := replica w; redis := redis w; faults := faults w; now := t; drawn :=
     drawn w; stream := stream w; audit := audit w; sent := sent w; broker_faults :=
     broker_faults w; published := published w; ctx_actor := ctx_actor w; ctx_impersonator :=
     ctx_impersonator w; ctx_ip := ctx_ip w |}.

Definition set_drawn (n : nat) (w : World R) : World R :=
  {| db := db w; replica := replica w; redis := redis w; faults := faults w; now := now w; drawn
     := n; stream := stream w; audit := audit w; sent := sent w; broker_faults := broker_faults
     w; published := published w; ctx_actor := ctx_actor w; ctx_impersonator := ctx_impersonator
     w; ctx_ip := ctx_ip w |}.

Definition add_event (e : Event) (w : World R) : World R :=
  {| db := db w; replica := replica w; redis := redis w; faults := faults w; now := now w; drawn
     := drawn w; stream := stream w ++ [e]; audit := audit w; sent := sent w; broker_faults :=
     broker_faults w; published := published w; ctx_actor := ctx_actor w; ctx_impersonator :=
     ctx_impersonator w; ctx_ip := ctx_ip w |}.

Definition add_audit (e : AuditEntry) (w : World R) : World R :=
  {| db := db w; replica := replica w; redis := redis w; faults := faults w; now := now w; drawn
     := drawn w; stream := stream w; audit := audit w ++ [e]; sent := sent w; broker_faults :=
     broker_faults w; published := published w; ctx_actor := ctx_actor w; ctx_impersonator :=
     ctx_impersonator w; ctx_ip := ctx_ip w |}.

Definition add_sent (c : CeleryTask) (w : World R) : World R :=
  {| db := db w; replica := replica w; redis := redis w; faults := faults w; now := now w; drawn
     := drawn w; stream := stream w; audit := audit w; sent := sent w ++ [c]; broker_faults :=
     broker_faults w; published := published w; ctx_actor := ctx_actor w; ctx_impersonator :=
     ctx_impersonator w; ctx_ip := ctx_ip w |}.

Definition set_broker_faults (l : list bool) (w : World R) : World R :=
  {| db := db w; replica := replica w; redis := redis w; faults := faults w; now := now w; drawn
     := drawn w; stream := stream w; audit := audit w; sent := sent w; broker_faults := l;
     published := published w; ctx_actor := ctx_actor w; ctx_impersonator := ctx_impersonator w;
     ctx_ip := ctx_ip w |}.

Definition add_published (m : string * string) (w : World R) : World R :=
  {| db := db w; replica := replica w; redis := redis w; faults := faults w; now := now w; drawn
     := drawn w; stream := stream w; audit := audit w; sent := sent w; broker_faults :=
     broker_faults w; published := published w ++ [m]; ctx_actor := ctx_actor w;
     ctx_impersonator := ctx_impersonator w; ctx_ip := ctx_ip w |}.

Definition set_actor (a : option string) (w : World R) : World R :=
  {| db := db w; replica := replica w; redis := redis w; faults := faults w; now := now w; drawn
     := drawn w; stream := stream w; audit := audit w; sent := sent w; broker_faults :=
     broker_faults w; published := published w; ctx_actor := a; ctx_impersonator :=
     ctx_impersonator w; ctx_ip := ctx_ip w |}.

Definition set_impersonator (a : option string) (w : World R) : World R :=
  {| db := db w; replica := replica w; redis := redis w; faults := faults w; now := now w; drawn
     := drawn w; stream := stream w; audit := audit w; sent := sent w; broker_faults :=
     broker_faults w; published := published w; ctx_actor := ctx_actor w; ctx_impersonator := a;
     ctx_ip := ctx_ip w |}.

Definition set_ip (a : option string) (w : World R) : World R :=
  {| db := db w; replica := replica w; redis := redis w; faults := faults w; now := now w; drawn
     := drawn w; stream := stream w; audit := audit w; sent := sent w; broker_faults :=
     broker_faults w; published := published w; ctx_actor := ctx_actor w; ctx_impersonator :=
     ctx_impersonator w; ctx_ip := a |}.

(** ** Random draws *)

Definition draw : PyM nat := fun w => (Ok (drawn w), set_drawn (S (drawn w)) w).

Definition new_uuid4 : PyM uuid := let! n := draw in ret (uuid4 n).

(** ** Database statements *)

(** The tables a read statement ([DataBase.fetch], [fetchval]) sees. *)
Definition read_view (w : World R) : Tables := default (db w) (replica w).

Definition db_read {A} (f : Tables -> A) : PyM A := gets (fun w => f (read_view w)).

(** A statement on the primary ([DataBase.write], [execute]): it either raises
    and changes nothing, or commits. *)
Definition db_write {A} (f : Tables -> outcome Exn (A * Tables)) : PyM A :=
  fun w => match f (db w) with
           | Ok (a, t) => (Ok a, set_db (fun _ => t) w)
           | Err e => (Err e, w)
           end.

(** A modifying statement sent through a read pool ([DataBase.fetch] or
    [fetchval] of a DELETE or UPDATE ... RETURNING): a standby refuses it. *)
Definition db_write_on_read_pool {A} (f : Tables -> outcome Exn (A * Tables)) : PyM A :=
  fun w => match replica w with
           | Some _ => (Err ReadOnlyTransaction, w)
           | None => db_write f w
           end.

(** ** Redis commands *)

(** Each command first consumes one entry of the fault schedule. *)
Definition redis_command {A} (m : PyM A) : PyM A :=
  fun w => match faults w with
           | true :: l => (Err RedisError, set_faults l w)
           | false :: l => m (set_faults l w)
           | [] => m w
           end.

Definition redis_get (k : string) : PyM (option RVal) :=
  redis_command (gets (fun w => r_get (now w) k (redis w))).

(** SET with EX: a non-positive expiry is an error of the command. *)
Definition redis_set (k : string) (v : RVal) (ex : option Z) : PyM unit :=
  redis_command (fun w =>
    match ex with
    | Some e => if e <=? 0 then (Err RedisError, w)
                else (Ok tt, set_redis (r_set (now w) k v (Some e)) w)
    | None => (Ok tt, set_redis (r_set (now w) k v None) w)
    end).

(** SET with NX and EX: whether the key was set. *)
Definition redis_set_nx (k : string) (v : RVal) (ex : Z) : PyM bool :=
  redis_command (fun w =>
    match r_get (now w) k (redis w) with
    | Some _ => (Ok false, w)
    | None => (Ok true, set_redis (r_set (now w) k v (Some ex)) w)
    end).

Definition redis_del (ks : list string) : PyM unit :=
  redis_command (modify (set_redis (r_del ks))).

Definition redis_hget (h f : string) : PyM (option RVal) :=
  redis_command (gets (fun w => r_hget (now w) h f (redis w))).

Definition redis_hdel (h : string) (fs : list string) : PyM unit :=
  redis_command (modify (fun w => set_redis (r_hdel (now w) h fs) w)).

(** The pipeline HSET, EXPIRE of the cache: one round trip. *)
Definition redis_hset_expire (h f : string) (v : RVal) (ex : option Z) : PyM unit :=
  redis_command (modify (fun w => set_redis (fun r =>
    let r' := r_hset (now w) h f v r in
    match ex with Some e => r_expire (now w) h e r' | None => r' end) w)).

(** The transaction DEL, INCR of a pipeline: one round trip.  [v] never has an
    expiry; a value that is no 64-bit number is an error of INCR alone. *)
Definition redis_del_incr (d v : string) : PyM unit :=
  redis_command (fun w =>
    let w' := set_redis (r_del [d]) w in
    match r_get (now w) v (redis w') with
    | None => (Ok tt, set_redis (r_set (now w) v (RText "1") None) w')
    | Some (RText s) =>
        match signed s with
        | Some (n, EmptyString) =>
            if n + 1 <? 2 ^ 63 then (Ok tt, set_redis (r_set (now w) v (RText (pretty (n + 1))) None) w')
            else (Err RedisError, w')
        | _ => (Err RedisError, w')
        end
    | Some (RJson _) => (Err RedisError, w')
    end).

(** [celery_app.send_task]: arguments that are empty or absent stand for none;
    others must be a list, and the keyword arguments a mapping. *)
Definition sendable (c : CeleryTask) : bool :=
  match ct_args c with JList _ => true | j => falsy j end &&
  match ct_kwargs c with JObj _ => true | j => falsy j end.

Definition send_task (c : CeleryTask) : PyM unit :=
  if sendable c then fun w =>
    match broker_faults w with
    | true :: l => (Err BrokerError, set_broker_faults l w)
    | false :: l => (Ok tt, add_sent c (set_broker_faults l w))
    | [] => (Ok tt, add_sent c w)
    end
  else raise (TypeErr "task arguments").

(** PUBLISH on the socket database. *)
Definition redis_publish (channel message : string) : PyM unit :=
  redis_command (modify (add_published (channel, message))).

(** [asyncio.gather]: both run; the first exception is raised. *)
Definition gather2 {A B} (m1 : PyM A) (m2 : PyM B) : PyM unit :=
  fun w => match m1 w with
           | (Ok _, w1) => match m2 w1 with
                           | (Ok _, w2) => (Ok tt, w2)
                           | (Err e, w2) => (Err e, w2)
                           end
           | (Err e, w1) => (Err e, snd (m2 w1))
           end.

Fixpoint gather_all (ms : list (PyM unit)) : PyM unit :=
  match ms with
  | [] => ret tt
  | m :: ms' => gather2 m (gather_all ms')
  end.

(** ** Events and audit *)

(** [event_bus.publish(ApplicationEvent(...))]: XADD. *)
Definition publish (name : string) (p : list (string * Json)) : PyM unit :=
  let! id := new_uuid4 in
  let! t := gets now in
  redis_command (modify (add_event {| event_id := id; event_name := name; timestamp := t; payload := p |})).

Definition jstr_opt (o : option string) : Json :=
  match o with Some s => JStr s | None => JNull end.

(** What [AuditLogger.log] reads of a request: the admin of its session, the
    forwarded-for header and the peer address. *)
Record Request := {
  rq_admin_id : option string;
  rq_forwarded_for : option string;
  rq_client_host : option string;
  rq_user_agent : option string;
}.

(** [a or b] of optional strings; the empty string is false. *)
Definition or_opt (a b : option string) : option string :=
  match a with Some s => if truthy s then Some s else b | None => b end.

(** [forwarded.split(",")[0].strip()]. *)
Definition first_forwarded (s : string) : string :=
  strip (default "" (head (split_on "," s))).

(** [AuditLogger._save_audit_log], run by the background task: the rows of the log
    after the insert; what it raises is logged and dropped. *)
Definition _save_audit_log (failure : option Exn) (e : AuditEntry) (audit_logs : list AuditEntry) : list AuditEntry :=
  match failure with Some _ => audit_logs | None => audit_logs ++ [e] end.

(** The scheduled inserts run one by one, each with what the database raises. *)
Fixpoint run_audit_inserts (failures : list (option Exn)) (scheduled audit_logs : list AuditEntry) : list AuditEntry :=
  match scheduled with
  | [] => audit_logs
  | e :: rest =>
      run_audit_inserts (tail failures) rest (_save_audit_log (mjoin (head failures)) e audit_logs)
  end.

(** [AuditLogger.log]: resolves actor, impersonator and address, and schedules
    the insert; without an actor nothing is logged. *)
Definition audit_log (action resource resource_id : string) (details : option Json)
  (actor_id impersonator_id : option string) (request : option Request) : PyM unit :=
  let! ca := gets ctx_actor in
  let! ci := gets ctx_impersonator in
  let! cip := gets ctx_ip in
  let resolved_actor := or_opt actor_id ca in
  let resolved_imp := or_opt impersonator_id ci in
  let resolved_actor :=
    match or_opt resolved_actor None, request with
    | None, Some rq => rq_admin_id rq
    | a, _ => a
    end in
  match or_opt resolved_actor None with
  | None => ret tt
  | Some a =>
      let ip := match or_opt cip None, request with
                | None, Some rq =>
                    match or_opt (rq_forwarded_for rq) None with
                    | Some f => Some (first_forwarded f)
                    | None => match rq_client_host rq with Some h => Some h | None => cip end
                    end
                | _, _ => cip
                end in
      modify (add_audit {| a_actor := a; a_impersonator := or_opt resolved_imp None;
                           a_action := action; a_resource := resource;
                           a_resource_id := resource_id;
                           a_details := default (JObj []) details; a_ip := ip |})
  end.
End world.
