(* ===== verification/Concrete.v ===== *)
(** * A concrete environment

    An instance of the third-party functions that satisfies their laws, with the
    default settings and the map-based Redis: what the model runs on in the
    examples and in the witnesses of the theorems.  A token is the text of its
    claims and of the key. *)

From Stdlib Require Import ZArith Lia Ascii String List Bool.
From stdpp Require Import base countable gmap strings list pretty.
From S2P Require Import Prelude Schema Redis World.
Local Open Scope string_scope.
Local Open Scope list_scope.
Local Open Scope Z_scope.

(** ** Texts of countable data *)

Fixpoint pos_text (p : positive) : string :=
  match p with
  | xH => EmptyString
  | xO p' => String "0" (pos_text p')
  | xI p' => String "1" (pos_text p')
  end.

Fixpoint text_pos (s : string) : positive :=
  match s with
  | EmptyString => xH
  | String c s' => if Ascii.eqb c "0" then xO (text_pos s') else xI (text_pos s')
  end.

Lemma text_pos_text p : text_pos (pos_text p) = p.
Proof. induction p as [p IH|p IH|]; simpl; by rewrite ?IH. Qed.

Definition text_of {A} `{Countable A} (a : A) : string := pos_text (encode a).

Definition of_text {A} `{Countable A} (s : string) : option A := decode (text_pos s).

Lemma of_text_of {A} `{Countable A} (a : A) : of_text (text_of a) = Some a.
Proof. unfold of_text, text_of. rewrite text_pos_text. apply decode_encode. Qed.

(** ** Claims *)

Definition claims_tuple (c : Claims) :=
  (c_exp c, c_type c, c_jti c, (c_sub c, c_id c, (c_scopes c, c_token_version c),
    (c_is_impersonation c, c_act c))).

#[export] Instance claims_eq_dec : EqDecision Claims.
Proof. solve_decision. Defined.

#[export] Instance claims_countable : Countable Claims.
Proof.
  refine (inj_countable' claims_tuple
    (fun '(e, t, j, (s, i, (sc, v), (im, a))) =>
       {| c_sub := s; c_id := i; c_scopes := sc; c_token_version := v; c_is_impersonation := im;
          c_act := a; c_exp := e; c_type := t; c_jti := j |}) _).
  by intros [].
Defined.

Definition tok_encode (c : Claims) (k : string) : string := text_of (c, k).

Definition unexpired (t : Z) (c : Claims) : bool :=
  match c_exp c with Some e => t <? e | None => true end.

Definition tok_decode (t : Z) (tok k : string) : option Claims :=
  match of_text (A := Claims * string) tok with
  | Some (c, _) => if String.eqb tok (tok_encode c k) && unexpired t c then Some c else None
  | None => None
  end.

(** ** One-time codes: six digits, the last one the slice modulo ten *)

Definition code_at (secret : string) (slice : Z) : string :=
  "12345" +:+ pretty (slice mod 10).

Definition code_verify (secret code : string) (t win : Z) : bool :=
  existsb (fun i => String.eqb code (code_at secret (t / 30 + i))) (seqZ (- win) (2 * win + 1)).

#[export] Instance concrete_ext : Ext := {
  jwt_encode := tok_encode;
  jwt_decode := tok_decode;
  bcrypt_hash := fun n p => "bcrypt$" +:+ p;
  bcrypt_check := fun p h => String.eqb h ("bcrypt$" +:+ p);
  sha256 := fun s => "sha$" +:+ s;
  uuid4 := fun n => "u4-" +:+ pretty n;
  uuid7 := fun n => "u7-" +:+ pretty n;
  fernet_encrypt := fun n s => "fernet$" +:+ s;
  fernet_decrypt := fun s => if String.prefix "fernet$" s then Some (String.substring 7 (String.length s - 7) s) else None;
  random_base32 := fun n => "SECRET" +:+ pretty n;
  token_hex2 := fun n => pretty (1000 + n mod 9000)%nat;
  token_urlsafe32 := fun n => "key" +:+ pretty n;
  totp_at := code_at;
  totp_verify := code_verify;
  provisioning_uri := fun s n i => "otpauth://totp/" +:+ i +:+ ":" +:+ n +:+ "?secret=" +:+ s;
  qr_svg := fun u => "<svg>" +:+ u;
  rnd := fun n => n;
  email_valid := truthy;
}.

Lemma tok_decode_encode t c k :
  tok_decode t (tok_encode c k) k = if unexpired t c then Some c else None.
Proof.
  unfold tok_decode. unfold tok_encode at 1. rewrite of_text_of, String.eqb_refl. done.
Qed.

#[export] Instance concrete_laws : ExtLaws.
Proof.
  split; simpl.
  - intros c k t e He Hlt. rewrite tok_decode_encode. unfold unexpired. rewrite He.
    by replace (t <? e) with true by (symmetry; apply Z.ltb_lt; lia).
  - intros c k t e He Hlt. rewrite tok_decode_encode. unfold unexpired. rewrite He.
    by replace (t <? e) with false by (symmetry; apply Z.ltb_ge; lia).
  - intros t tok k c. unfold tok_decode. destruct (of_text tok) as [[c' k']|]; [|done].
    destruct (String.eqb_spec tok (tok_encode c' k)) as [->|]; simpl; [|done].
    by destruct (unexpired t c'); intros [= <-].
  - intros n p. apply String.eqb_refl.
  - intros a b H. apply (String.app_inj "u4-") in H. by apply (inj pretty) in H.
  - intros a b H. apply (String.app_inj "u7-") in H. by apply (inj pretty) in H.
  - intros s c t win. unfold code_verify. rewrite existsb_exists. split.
    + intros (i & Hi & Hc). rewrite <- list_elem_of_In, elem_of_seqZ in Hi.
      apply String.eqb_eq in Hc. exists i. split; [lia|done].
    + intros (i & Hi & ->). exists i. rewrite <- list_elem_of_In, elem_of_seqZ.
      split; [lia|apply String.eqb_refl].
  - done.
  - intros n s. change ("" +:+ s) with s. rewrite Nat.sub_0_r, substring_all. by destruct s.
Qed.

#[export] Existing Instance default_settings.

(** A request without session, from one browser. *)
Definition browser : Request :=
  {| rq_admin_id := None; rq_forwarded_for := None; rq_client_host := Some "10.0.0.1";
     rq_user_agent := Some "Firefox" |}.

(** A world on the map-based Redis: no replica, no faults, time 1000. *)
Definition world_of (t : Tables) : World MapRedis.t :=
  {| db := t; replica := None; redis := ∅; faults := []; now := 1000; drawn := 0; stream := [];
     audit := []; sent := []; broker_faults := []; published := []; ctx_actor := None; ctx_impersonator := None; ctx_ip := None |}.
