(* ===== verification/Tokens.v ===== *)
(** * Passwords and tokens (src/api/core/auth.py)

    Token creation draws a [jti] and stamps the expiry; [verify_token] decodes,
    checks the claims and the type, and consults the blacklist of its type. *)

From Stdlib Require Import ZArith Lia Ascii String List Bool.
From stdpp Require Import base gmap strings list.
From S2P Require Import Prelude Schema Redis World.
Local Open Scope string_scope.
Local Open Scope list_scope.
Local Open Scope Z_scope.

(** ** Data *)

Inductive TokenTypes := ACCESS | REFRESH | SUDO.

Definition token_type_value (t : TokenTypes) : string :=
  match t with ACCESS => "access" | REFRESH => "refresh" | SUDO => "sudo" end.

(** The dict [{"token", "expires_at", "jti"}] of [_create_token]. *)
Record TokenDetails := {
  token : string;
  expires_at : Z;
  td_jti : string;
}.

Record TokenData := {
  t_username : string;
  t_id : option uuid;
  t_exp : Z;
  t_jti : string;
  t_type : string;
  t_scopes : list string;
  t_token_version : Z;
  t_is_impersonation : bool;
  t_impersonator_id : option uuid;
  t_impersonator_username : option string;
}.

(** A payload as the services build it: no [exp], [type] or [jti] yet. *)
Definition payload_of (sub : string) (id : uuid) (scopes : option (list string))
  (version : option Z) (imp : option bool) (act : option (option uuid * option string)) : Claims :=
  {| c_sub := Some sub; c_id := Some id; c_scopes := scopes; c_token_version := version;
     c_is_impersonation := imp; c_act := act; c_exp := None; c_type := None; c_jti := None |}.

Definition blacklist_key (t : TokenTypes) (j : string) : string :=
  "blacklist:" +:+ token_type_value t +:+ ":" +:+ j.

Section tokens.
Context {R : Type} {RD : Redis R} {EX : Ext} {ST : Settings}.

Definition verify_password (plain_password : string) (hashed : option string) : bool :=
  match hashed with
  | None => false
  | Some h => bcrypt_check plain_password h
  end.

Definition get_password_hash (password : string) : PyM (R := R) string :=
  let! salt := draw in ret (bcrypt_hash salt password).

(** [to_encode.update({"exp", "type", "jti"})]. *)
Definition stamp (data : Claims) (expire : Z) (token_type j : string) : Claims :=
  {| c_sub := c_sub data; c_id := c_id data; c_scopes := c_scopes data;
     c_token_version := c_token_version data; c_is_impersonation := c_is_impersonation data;
     c_act := c_act data; c_exp := Some expire; c_type := Some token_type; c_jti := Some j |}.

Definition _create_token (data : Claims) (expire : Z) (token_type : TokenTypes)
  : PyM (R := R) TokenDetails :=
  let! j := new_uuid4 in
  let to_encode := stamp data expire (token_type_value token_type) j in
  ret {| token := jwt_encode to_encode SECRET_KEY; expires_at := expire; td_jti := j |}.

Definition create_access_token (data : Claims) : PyM (R := R) TokenDetails :=
  let! t := gets now in
  _create_token data (t + ACCESS_TOKEN_EXPIRE_MINUTES * 60) ACCESS.

Definition create_impersonation_token (data : Claims) (expire_minutes : Z)
  : PyM (R := R) TokenDetails :=
  let! t := gets now in
  _create_token data (t + expire_minutes * 60) ACCESS.

Definition create_refresh_token (data : Claims) : PyM (R := R) string :=
  let! t := gets now in
  let! d := _create_token data (t + REFRESH_TOKEN_EXPIRE_DAYS * 86400) REFRESH in
  ret (token d).

Definition create_sudo_token (data : Claims) : PyM (R := R) string :=
  let! t := gets now in
  let! d := _create_token data (t + SUDO_TOKEN_EXPIRE_MINUTES * 60) SUDO in
  ret (token d).

Definition invalid_credentials : Exn := HTTPException 401 "Invalid authentication credentials".

Definition revoked_detail (t : TokenTypes) : string :=
  match t with
  | ACCESS => "Access token has been revoked."
  | REFRESH => "Refresh token has been revoked."
  | SUDO => "Sudo token has been revoked."
  end.

(** [token_type] ranges over the three types: every caller passes one of them. *)
Definition verify_token (tok : string) (token_type : TokenTypes) : PyM (R := R) TokenData :=
  let! t := gets now in
  match jwt_decode t tok SECRET_KEY with
  | None => raise invalid_credentials
  | Some p =>
      match c_sub p, c_id p, c_exp p, c_jti p, c_type p with
      | Some u, Some i, Some e, Some j, Some ty =>
          raise_if (negb (String.eqb ty (token_type_value token_type))) invalid_credentials ;;!
          let! black := redis_get (blacklist_key token_type j) in
          raise_if (bool_decide (is_Some black)) (HTTPException 401 (revoked_detail token_type)) ;;!
          ret {| t_username := u; t_id := Some i; t_exp := e; t_jti := j; t_type := ty;
                 t_scopes := default [] (c_scopes p);
                 t_token_version := default 1 (c_token_version p);
                 t_is_impersonation := default false (c_is_impersonation p);
                 t_impersonator_id := match c_act p with Some (a, _) => a | None => None end;
                 t_impersonator_username := match c_act p with Some (_, s) => s | None => None end |}
      | _, _, _, _, _ => raise invalid_credentials
      end
  end.
End tokens.

(** ** Lemmas *)

Section token_lemmas.
Context {R : Type} {RD : Redis R} {EX : Ext} {ST : Settings}.
Implicit Types w : World R.

(** The data a verified payload gives. *)
Definition token_data_of (p : Claims) (u : string) (i : uuid) (e : Z) (j ty : string) : TokenData :=
  {| t_username := u; t_id := Some i; t_exp := e; t_jti := j; t_type := ty;
     t_scopes := default [] (c_scopes p); t_token_version := default 1 (c_token_version p);
     t_is_impersonation := default false (c_is_impersonation p);
     t_impersonator_id := match c_act p with Some (a, _) => a | None => None end;
     t_impersonator_username := match c_act p with Some (_, s) => s | None => None end |}.

Lemma redis_command_inv {A} (m : PyM (R := R) A) w o w' :
  redis_command m w = (o, w') ->
  (o = Err RedisError /\ w' = set_faults (tail (faults w)) w) \/
  m (set_faults (tail (faults w)) w) = (o, w').
Proof.
  unfold redis_command. destruct (faults w) as [|[] l] eqn:E; simpl.
  - intros H. right. destruct w. simpl in *. subst. exact H.
  - intros [= <- <-]. by left.
  - by right.
Qed.

Lemma redis_get_ok_inv k w v w' :
  redis_get k w = (Ok v, w') ->
  v = r_get (now w) k (redis w) /\ w' = set_faults (tail (faults w)) w.
Proof.
  intros [[? _]|H]%redis_command_inv; [done|]. unfold gets in H. by injection H as <- <-.
Qed.

Lemma verify_token_ok tok ty w td w' :
  verify_token tok ty w = (Ok td, w') ->
  exists p u i e j, jwt_decode (now w) tok SECRET_KEY = Some p /\
    c_sub p = Some u /\ c_id p = Some i /\ c_exp p = Some e /\ c_jti p = Some j /\
    c_type p = Some (token_type_value ty) /\
    r_get (now w) (blacklist_key ty j) (redis w) = None /\
    td = token_data_of p u i e j (token_type_value ty) /\
    w' = set_faults (tail (faults w)) w.
Proof.
  unfold verify_token. intros H. run_inv.
  destruct (jwt_decode (now x0) tok SECRET_KEY) as [p|] eqn:Ed; [|done].
  destruct (c_sub p) as [u|] eqn:E1; [|done]. destruct (c_id p) as [i|] eqn:E2; [|done].
  destruct (c_exp p) as [e|] eqn:E3; [|done]. destruct (c_jti p) as [j|] eqn:E4; [|done].
  destruct (c_type p) as [t|] eqn:E5; [|done]. run_inv.
  apply negb_false_iff, String.eqb_eq in H as ->.
  apply redis_get_ok_inv in H0 as [-> ->].
  apply bool_decide_eq_false in H1. rewrite <- eq_None_not_Some in H1.
  exists p, u, i, e, j. by repeat split.
Qed.

(** A run of [verify_token] on an intact Redis. *)
Lemma verify_token_run tok ty w p u i e j :
  faults w = [] -> jwt_decode (now w) tok SECRET_KEY = Some p ->
  c_sub p = Some u -> c_id p = Some i -> c_exp p = Some e -> c_jti p = Some j ->
  c_type p = Some (token_type_value ty) ->
  verify_token tok ty w =
  (match r_get (now w) (blacklist_key ty j) (redis w) with
   | None => Ok (token_data_of p u i e j (token_type_value ty))
   | Some _ => Err (HTTPException 401 (revoked_detail ty))
   end, w).
Proof.
  intros Hf Hd H1 H2 H3 H4 H5. unfold verify_token, bind, gets.
  rewrite Hd, H1, H2, H3, H4, H5, String.eqb_refl. simpl.
  unfold redis_get, redis_command. rewrite Hf. simpl.
  by destruct (r_get (now w) (blacklist_key ty j) (redis w)).
Qed.

Lemma create_token_run data e ty w :
  _create_token data e ty w =
  (Ok {| token := jwt_encode (stamp data e (token_type_value ty) (uuid4 (drawn w))) SECRET_KEY;
         expires_at := e; td_jti := uuid4 (drawn w) |}, set_drawn (S (drawn w)) w).
Proof. done. Qed.

Lemma blacklist_key_inj t t' j j' :
  blacklist_key t j = blacklist_key t' j' -> t = t' /\ j = j'.
Proof.
  unfold blacklist_key. intros H. assert (t = t') as ->.
  { destruct t, t'; simpl in H; unfold String.app in H; simpl in H; try done. }
  split; [done|]. by repeat apply String.app_inj in H.
Qed.
End token_lemmas.
