(* ===== verification/Users.v ===== *)
(** * Users (src/api/apps/user/v0/dao/user.py and service/user.py)

    Each SQL statement of [UserDAO] is a function on the tables, with the
    uniqueness and foreign-key constraints of the migrations; the methods run
    these statements through the pool the code uses.  Length limits of VARCHAR
    columns and the e-mail syntax check of the response model are not modelled. *)

From Stdlib Require Import ZArith Lia Ascii String List Bool.
From stdpp Require Import base gmap strings sorting list.
From S2P Require Import Prelude Schema Redis World Tokens.
Local Open Scope string_scope.
Local Open Scope list_scope.
Local Open Scope Z_scope.

(** ** Request models *)

Record UserCreate := {
  uc_email : string;
  uc_username : string;
  uc_full_name : option string;
  uc_is_active : bool;
  uc_password : option string;
}.

Record UserUpdate := {
  uu_full_name : option string;
  uu_email : option string;
  uu_username : option string;
}.

Record UserSessionCreate := {
  sc_jti : string;
  sc_user_id : uuid;
  sc_issued_at : Z;
  sc_expires_at : Z;
  sc_ip_address : option string;
  sc_user_agent : option string;
}.

(** The Google user info: the claims the code reads. *)
Record UserInfo := {
  gi_sub : string;
  gi_email : option string;
  gi_email_verified : option bool;
  gi_name : option string;
}.

Record CursorPage (A : Type) := {
  items : list A;
  next_cursor : option string;
}.
Arguments Build_CursorPage {A}.
Arguments items {A}.
Arguments next_cursor {A}.

(** ** LIKE patterns *)

(** [s ILIKE pat], both already lowered: [%] any text, [_] one character,
    [\] quotes the next character. *)
Fixpoint like (pat s : string) : bool :=
  match pat with
  | EmptyString => String.eqb s EmptyString
  | String "%" pat' =>
      (fix any (t : string) : bool :=
         like pat' t || match t with String _ t' => any t' | EmptyString => false end) s
  | String "_" pat' => match s with String _ s' => like pat' s' | EmptyString => false end
  | String "\" (String c pat') =>
      match s with String d s' => Ascii.eqb c d && like pat' s' | EmptyString => false end
  | String c pat' =>
      match s with String d s' => Ascii.eqb c d && like pat' s' | EmptyString => false end
  end.

Definition ilike (s pat : string) : bool := like (lower pat) (lower s).
Definition ilike_opt (s : option string) (pat : string) : bool :=
  match s with Some x => ilike x pat | None => false end.

(** [if search and search.strip()]: the pattern of a search. *)
Definition search_pattern (search : option string) : option string :=
  match search with
  | Some q => if truthy (strip q) then Some ("%" +:+ strip q +:+ "%") else None
  | None => None
  end.

Definition user_matches (search : option string) (u : User) : bool :=
  match search_pattern search with
  | Some p => ilike (username u) p || ilike (email u) p || ilike_opt (full_name u) p
  | None => true
  end.

(** [ORDER BY created_at DESC LIMIT limit OFFSET skip]. *)
Definition newest_first (x y : User) : Prop := u_created_at y <= u_created_at x.
#[export] Instance newest_first_dec : RelDecision newest_first.
Proof. intros x y. unfold newest_first. apply _. Defined.

Definition page {A} (limit skip : Z) (l : list A) : list A :=
  take (Z.to_nat limit) (drop (Z.to_nat skip) l).

(** ** Statements *)

Definition find_user (P : User -> bool) (t : Tables) : option User :=
  head (filter (fun u => P u = true) (values (users t))).

Definition set_user (u : User) : Tables -> Tables := set_users (<[u_id u := u]>).

(** Another user than [id] has the username or the e-mail address. *)
Definition username_taken (id : uuid) (name : string) (t : Tables) : bool :=
  existsb (fun u => String.eqb (username u) name && negb (String.eqb (u_id u) id)) (values (users t)).
Definition email_taken (id : uuid) (mail : string) (t : Tables) : bool :=
  existsb (fun u => String.eqb (email u) mail && negb (String.eqb (u_id u) id)) (values (users t)).

Definition check_user_unique (u : User) (t : Tables) : outcome Exn unit :=
  if username_taken (u_id u) (username u) t then Err (UniqueViolation "users_username_key")
  else if email_taken (u_id u) (email u) t then Err (UniqueViolation "users_email_key")
  else Ok tt.

(** INSERT INTO users ... RETURNING *. *)
Definition insert_user (id : uuid) (t0 : Z) (d : UserCreate) (hp : option string) (t : Tables)
  : outcome Exn (User * Tables) :=
  let u := {| u_id := id; username := uc_username d; email := uc_email d; hashed_password := hp;
              full_name := uc_full_name d; is_active := uc_is_active d;
              profile_picture_url := None; u_created_at := t0; token_version := 1 |} in
  obind (check_user_unique u t) (fun _ => Ok (u, set_user u t)).

(** UPDATE users SET email = COALESCE(...), ... WHERE id = $4. *)
Definition update_user_row (id : uuid) (d : UserUpdate) (t : Tables) : outcome Exn (unit * Tables) :=
  match users t !! id with
  | None => Ok (tt, t)
  | Some u =>
      let u' := {| u_id := u_id u; username := default (username u) (uu_username d);
                   email := default (email u) (uu_email d); hashed_password := hashed_password u;
                   full_name := match uu_full_name d with Some n => Some n | None => full_name u end;
                   is_active := is_active u; profile_picture_url := profile_picture_url u;
                   u_created_at := u_created_at u; token_version := token_version u |} in
      obind (check_user_unique u' t) (fun _ => Ok (tt, set_user u' t))
  end.

Definition with_password (hp : string) (u : User) : User :=
  {| u_id := u_id u; username := username u; email := email u; hashed_password := Some hp;
     full_name := full_name u; is_active := is_active u;
     profile_picture_url := profile_picture_url u; u_created_at := u_created_at u;
     token_version := token_version u + 1 |}.

Definition bump_version (u : User) : User :=
  {| u_id := u_id u; username := username u; email := email u; hashed_password := hashed_password u;
     full_name := full_name u; is_active := is_active u;
     profile_picture_url := profile_picture_url u; u_created_at := u_created_at u;
     token_version := token_version u + 1 |}.

(** UPDATE users SET ... WHERE id = $n, for a change that keeps the keys. *)
Definition alter_user (id : uuid) (f : User -> User) (t : Tables) : outcome Exn (unit * Tables) :=
  Ok (tt, set_users (alter f id) t).

(** INSERT INTO user_identities. *)
Definition insert_identity (uid : uuid) (gi : UserInfo) (t : Tables) : outcome Exn (unit * Tables) :=
  if bool_decide (users t !! uid = None) then Err (ForeignKeyViolation "user_identities_user_id_fkey")
  else if existsb (fun i => String.eqb (provider i) "google" &&
                            String.eqb (provider_user_id i) (gi_sub gi)) (user_identities t)
  then Err (UniqueViolation "user_identities_provider_uid")
  else if existsb (fun i => String.eqb (provider i) "google" &&
                            String.eqb (i_user_id i) uid) (user_identities t)
  then Err (UniqueViolation "user_identities_user_provider")
  else Ok (tt, set_identities (fun l => l ++ [{| i_user_id := uid; provider := "google";
         provider_user_id := gi_sub gi; i_email := gi_email gi;
         email_verified := gi_email_verified gi |}]) t).

(** INSERT INTO user_sessions ... ON CONFLICT (user_id, user_agent) DO UPDATE:
    a NULL user agent conflicts with nothing. *)
Definition session_for (uid : uuid) (agent : option string) (t : Tables) : option UserSession :=
  match agent with
  | None => None
  | Some _ => head (filter (fun s => s_user_id s = uid /\ user_agent s = agent) (values (user_sessions t)))
  end.

Definition upsert_session (id : uuid) (t0 : Z) (d : UserSessionCreate) (t : Tables)
  : outcome Exn (unit * Tables) :=
  if bool_decide (users t !! sc_user_id d = None)
  then Err (ForeignKeyViolation "user_sessions_user_id_fkey")
  else
    let old := session_for (sc_user_id d) (sc_user_agent d) t in
    let sid := match old with Some s => s_id s | None => id end in
    if existsb (fun s => String.eqb (jti s) (sc_jti d) && negb (String.eqb (s_id s) sid))
         (values (user_sessions t))
    then Err (UniqueViolation "user_sessions_jti_key")
    else
      let s := {| s_id := sid; jti := sc_jti d; s_user_id := sc_user_id d;
                  issued_at := sc_issued_at d; s_expires_at := sc_expires_at d;
                  ip_address := sc_ip_address d; user_agent := sc_user_agent d;
                  s_created_at := match old with Some o => s_created_at o | None => t0 end;
                  s_updated_at := t0 |} in
      Ok (tt, set_sessions (<[sid := s]>) t).

(** DELETE FROM user_sessions WHERE jti = $1 AND user_id = $2 RETURNING ttl.  Times are
    whole seconds here, on which the cast [::integer] of the difference is the identity. *)
Definition delete_session (t0 : Z) (uid : uuid) (j : string) (t : Tables)
  : outcome Exn (option Z * Tables) :=
  match head (filter (fun s => jti s = j /\ s_user_id s = uid) (values (user_sessions t))) with
  | None => Ok (None, t)
  | Some s => Ok (Some (s_expires_at s - t0), set_sessions (delete (s_id s)) t)
  end.

(** DELETE FROM user_sessions WHERE user_id = $1 RETURNING jti, ttl. *)
Definition delete_sessions_of (t0 : Z) (uid : uuid) (t : Tables)
  : outcome Exn (list (string * Z) * Tables) :=
  Ok ((fun s => (jti s, s_expires_at s - t0)) <$>
        filter (fun s => s_user_id s = uid) (values (user_sessions t)),
      set_sessions (filter (fun '(_, s) => s_user_id s <> uid)) t).

(** DELETE FROM users WHERE id = ANY($1) RETURNING id, with the cascades. *)
Definition delete_users_rows (ids : list uuid) (t : Tables) : outcome Exn (list uuid * Tables) :=
  let gone := filter (fun i => is_Some (users t !! i)) (remove_dups ids) in
  Ok (gone,
      set_users (filter (fun '(i, _) => i ∉ ids))
     (set_identities (filter (fun i => i_user_id i ∉ ids))
     (set_sessions (filter (fun '(_, s) => s_user_id s ∉ ids))
     (set_user_roles (filter (fun '(u, _) => u ∉ ids))
     (set_two_factor (filter (fun '(u, _) => u ∉ ids))
     (set_api_keys (fmap (fun k =>
        if match k_created_by k with Some c => mem c ids | None => false end
        then {| k_id := k_id k; k_created_by := None; k_name := k_name k; k_prefix := k_prefix k;
                k_hashed_key := k_hashed_key k; k_scopes := k_scopes k;
                k_rate_limit := k_rate_limit k; k_expires_at := k_expires_at k;
                k_last_used_at := k_last_used_at k; k_is_active := k_is_active k;
                k_created_at := k_created_at k; k_updated_at := k_updated_at k |} else k))
     (set_webhook_endpoints (fmap (fun e =>
        if match we_created_by e with Some c => mem c ids | None => false end
        then {| we_id := we_id e; we_created_by := None; we_url := we_url e; we_secret := we_secret e;
                we_description := we_description e; we_event_types := we_event_types e;
                we_headers := we_headers e; we_is_active := we_is_active e;
                we_created_at := we_created_at e; we_updated_at := we_updated_at e |} else e))
     (set_user_devices (filter (fun '(_, d) => ud_user_id d ∉ ids))
     (set_system_config (fmap (fun c =>
        match sc_updated_by c with
        | Some u => if bool_decide (u ∈ ids)
                    then {| enforce_mfa := enforce_mfa c; sc_updated_at := sc_updated_at c;
                            sc_updated_by := None |} else c
        | None => c
        end)) t))))))))).

(** INSERT INTO user_roles SELECT * FROM UNNEST ... ON CONFLICT DO NOTHING. *)
Definition insert_user_roles (uid : uuid) (role_ids : list uuid) (t : Tables)
  : outcome Exn (unit * Tables) :=
  if bool_decide (users t !! uid = None) then Err (ForeignKeyViolation "user_roles_user_id_fkey")
  else if existsb (fun r => bool_decide (roles t !! r = None)) role_ids
  then Err (ForeignKeyViolation "user_roles_role_id_fkey")
  else Ok (tt, set_user_roles (fun s => s ∪ list_to_set ((fun r => (uid, r)) <$> role_ids)) t).

(** INSERT INTO user_two_factor ... ON CONFLICT (user_id) DO UPDATE. *)
Definition upsert_two_factor_row (uid : uuid) (secret : string) (codes : list BackupCode)
  (enabled : bool) (t : Tables) : outcome Exn (unit * Tables) :=
  if bool_decide (users t !! uid = None) then Err (ForeignKeyViolation "user_two_factor_user_id_fkey")
  else Ok (tt, set_two_factor (<[uid := {| is_enabled := enabled; secret_encrypted := secret;
                                           backup_codes := codes |}]>) t).

Definition disable_two_factor_row (uid : uuid) (t : Tables) : outcome Exn (unit * Tables) :=
  Ok (tt, set_two_factor (alter (fun _ =>
    {| is_enabled := false; secret_encrypted := ""; backup_codes := [] |}) uid) t).

Definition update_codes_row (uid : uuid) (codes : list BackupCode) (t : Tables)
  : outcome Exn (unit * Tables) :=
  Ok (tt, set_two_factor (alter (fun f =>
    {| is_enabled := is_enabled f; secret_encrypted := secret_encrypted f; backup_codes := codes |})
    uid) t).

(** ** UserDAO *)

Section user_dao.
Context {R : Type} {RD : Redis R} {EX : Ext} {ST : Settings}.
Local Abbreviation Py := (PyM (R := R)).

Definition _get_user_with_roles (P : User -> bool) : Py (option UserData) :=
  db_read (fun t => user_data t <$> find_user P t).

Definition get_by_username (name : string) : Py (option UserData) :=
  _get_user_with_roles (fun u => String.eqb (username u) name).

Definition get_by_id (id : uuid) : Py (option UserData) :=
  _get_user_with_roles (fun u => String.eqb (u_id u) id).

Definition get_by_email (mail : string) : Py (option UserData) :=
  _get_user_with_roles (fun u => String.eqb (email u) mail).

Definition get_by_google_sub (sub : string) : Py (option UserData) :=
  db_read (fun t =>
    let linked u := existsb (fun i => String.eqb (provider i) "google" &&
                      String.eqb (provider_user_id i) sub && String.eqb (i_user_id i) (u_id u))
                      (user_identities t) in
    user_data t <$> find_user linked t).

Definition get_all_paginated (limit skip : Z) (search : option string) : Py (list UserData) :=
  db_read (fun t => user_data t <$>
    page limit skip (merge_sort newest_first
      (filter (fun u => user_matches search u = true) (values (users t))))).

Definition count_users (search : option string) : Py Z :=
  db_read (fun t => Z.of_nat (length (filter (fun u => user_matches search u = true) (values (users t))))).

Definition delete_users (user_ids : list uuid) : Py Z :=
  match user_ids with
  | [] => ret 0
  | _ => let! rows := db_write_on_read_pool (delete_users_rows user_ids) in
         ret (Z.of_nat (length rows))
  end.

Definition get_by_ids (pks : list uuid) : Py (list UserData) :=
  match pks with
  | [] => ret []
  | _ => db_read (fun t => user_data t <$> filter (fun u => u_id u ∈ pks) (values (users t)))
  end.

Definition create_user_row (d : UserCreate) (hp : option string) : Py User :=
  let! n := draw in
  let! t0 := gets now in
  db_write (insert_user (uuid7 n) t0 d hp).

Definition add_identity (uid : uuid) (gi : UserInfo) : Py unit :=
  db_write (insert_identity uid gi).

(** The inserted row is returned with no roles loaded. *)
Definition create_user_oauth (d : UserCreate) (gi : UserInfo) : Py UserData :=
  let! u := create_user_row d None in
  add_identity (u_id u) gi ;;!
  ret {| ud_user := u; ud_roles := [] |}.

Definition upsert_user_session (d : UserSessionCreate) : Py unit :=
  let! n := draw in
  let! t0 := gets now in
  db_write (upsert_session (uuid7 n) t0 d).

(** The re-read goes through the read pool. *)
Definition update_user (id : uuid) (d : UserUpdate) : Py (option UserData) :=
  db_write (update_user_row id d) ;;!
  get_by_id id.

Definition update_password_row (id : uuid) (hp : string) : Py unit :=
  db_write (alter_user id (with_password hp)).

(** [if not row: return None]: a remaining time of 0 counts as no row. *)
Definition dao_revoke_user_session (uid : uuid) (j : string) : Py (option Z) :=
  let! t0 := gets now in
  let! row := db_write_on_read_pool (delete_session t0 uid j) in
  ret (match row with Some n => if n =? 0 then None else Some n | None => None end).

Definition dao_revoke_all_user_sessions (uid : uuid) : Py (list (string * Z)) :=
  let! t0 := gets now in
  db_write_on_read_pool (delete_sessions_of t0 uid).

(** [if cursor: ... id < cursor]: the cursor is a UUID, or the empty text. *)
Definition before_cursor (cursor : option uuid) (id : uuid) : bool :=
  match cursor with Some c => if truthy c then String.ltb id c else true | None => true end.

Definition dao_get_user_sessions (uid : uuid) (limit : Z) (cursor : option uuid)
  : Py (list UserSession) :=
  db_read (fun t =>
    take (Z.to_nat limit) (merge_sort (desc_by s_id)
      (filter (fun s => s_user_id s = uid /\ before_cursor cursor (s_id s) = true)
        (values (user_sessions t))))).

Definition role_assigned_payload (u : UserData) (role_ids : list uuid) : list (string * Json) :=
  [("user_id", JStr (u_id (ud_user u))); ("email", JStr (email (ud_user u)));
   ("username", JStr (username (ud_user u))); ("role_ids", JList (JStr <$> role_ids))].

Definition assign_roles (uid : uuid) (role_ids : list uuid) : Py unit :=
  match role_ids with
  | [] => ret tt
  | _ =>
      gather2 (db_write (insert_user_roles uid role_ids))
              (db_write (alter_user uid bump_version)) ;;!
      let! u := get_by_id uid in
      match u with
      | Some u => publish "user.role.assigned" (role_assigned_payload u role_ids)
      | None => ret tt
      end
  end.

Definition get_two_factor (uid : uuid) : Py (option TwoFactor) :=
  db_read (fun t => user_two_factor t !! uid).

Definition upsert_two_factor (uid : uuid) (secret : string) (codes : list BackupCode)
  (enabled : bool) : Py unit :=
  db_write (upsert_two_factor_row uid secret codes enabled).

Definition dao_disable_two_factor (uid : uuid) : Py unit := db_write (disable_two_factor_row uid).

Definition update_two_factor_backup_codes (uid : uuid) (codes : list BackupCode) : Py unit :=
  db_write (update_codes_row uid codes).

(** ** UserService *)

Definition user_not_found : Exn := HTTPException 404 "user.not_found".

Definition create_user (d : UserCreate) : Py UserData :=
  match uc_password d with
  | None => raise (ValueErr "Password is required for user creation")
  | Some p =>
      let! hp := get_password_hash p in
      let! u := create_user_row d (Some hp) in
      publish "user.created" [("user_id", JStr (u_id u)); ("email", JStr (email u));
                              ("username", JStr (username u))] ;;!
      ret {| ud_user := u; ud_roles := [] |}
  end.

Definition get_user_by_username (name : string) : Py UserData :=
  let! u := get_by_username name in
  match u with Some u => ret u | None => raise user_not_found end.

Definition get_user_by_id (id : uuid) : Py UserData :=
  let! u := get_by_id id in
  match u with Some u => ret u | None => raise user_not_found end.

(** [UserData.model_validate(None)] raises when the user does not exist. *)
Definition svc_update_user (id : uuid) (d : UserUpdate) : Py UserData :=
  let! u := update_user id d in
  match u with Some u => ret u | None => raise ValidationErr end.

(** The two blacklist entries of a session. *)
Definition blacklist_session (j : string) (ttl : Z) : Py unit :=
  gather2 (redis_set (blacklist_key ACCESS j) (RText "1") (Some ttl))
          (redis_set (blacklist_key REFRESH j) (RText "1") (Some ttl)).

Definition revoke_user_session (uid : uuid) (j : string) : Py unit :=
  let! ttl := dao_revoke_user_session uid j in
  match ttl with
  | None => raise (HTTPException 404 "session.not_found")
  | Some n => blacklist_session j n
  end.

Definition revoke_all_user_sessions (uid : uuid) : Py unit :=
  let! revoked := dao_revoke_all_user_sessions uid in
  gather_all ((fun '(j, ttl) => blacklist_session j ttl) <$> filter (fun '(_, ttl) => 0 < ttl) revoked).

Definition get_user_sessions (uid : uuid) (limit : Z) (cursor : option uuid)
  : Py (CursorPage UserSession) :=
  let! sessions := dao_get_user_sessions uid (limit + 1) cursor in
  if Z.of_nat (length sessions) >? limit then
    let sessions := py_take limit sessions in
    match last sessions with
    | Some s => ret {| items := sessions; next_cursor := Some (s_id s) |}
    | None => raise (ValueErr "list index out of range")
    end
  else ret {| items := sessions; next_cursor := None |}.

Definition assign_roles_to_user (uid : uuid) (role_ids : list uuid) : Py unit :=
  assign_roles uid role_ids.
End user_dao.
