(* ===== verification/Cache.v ===== *)
(** * The cache decorators (src/api/core/cache.py)

    [cached] is the wrapper of [@cache], [invalidating] that of
    [@cache_invalidate].  A key that cannot be generated from the arguments is
    [None].  Metrics and logging are not modelled. *)

From Stdlib Require Import ZArith Lia Ascii String List Bool.
From stdpp Require Import base gmap strings list.
From S2P Require Import Prelude Schema Redis World Tokens.
Local Open Scope string_scope.
Local Open Scope list_scope.
Local Open Scope Z_scope.

(** What the cache can store of a result: [None] for Python's [None], which is
    never stored; [of_json] is [json.loads] and [model_validate], which may
    raise. *)
Class Cacheable (A : Type) := {
  to_json : A -> option Json;
  of_json : Json -> option A;
}.

(** The cached copy of a result is the result: no field is left out. *)
Class CacheLaw (A : Type) `{!Cacheable A} : Prop :=
  of_to_json : forall (a : A) j, to_json a = Some j -> of_json j = Some a.

#[export] Instance cacheable_model {A} `{!Model A} : Cacheable A :=
  {| to_json := fun a => Some (model_dump a); of_json := model_validate |}.

#[export] Instance cache_law_model {A} `{!Model A} : CacheLaw A.
Proof. intros a j [= <-]. apply model_validate_dump. Qed.

#[export] Instance cacheable_option {A} `{!Model A} : Cacheable (option A) :=
  {| to_json := fun o => model_dump <$> o; of_json := fun j => Some <$> model_validate j |}.

#[export] Instance cache_law_option {A} `{!Model A} : CacheLaw (option A).
Proof. intros [a|] j; simpl; [|done]. intros [= <-]. by rewrite model_validate_dump. Qed.

Definition list_of_json {A} `{!Model A} (j : Json) : option (list A) :=
  match j with JList l => mapM model_validate l | _ => None end.

#[export] Instance cacheable_list {A} `{!Model A} : Cacheable (list A) :=
  {| to_json := fun l => Some (JList (model_dump <$> l)); of_json := list_of_json |}.

#[export] Instance cache_law_list {A} `{!Model A} : CacheLaw (list A).
Proof.
  intros l j [= <-]. cbn [of_json list_of_json cacheable_list].
  induction l as [|a l IH]; [done|].
  change (model_dump <$> a :: l) with (model_dump a :: (model_dump <$> l)).
  cbn [mapM]. rewrite model_validate_dump. cbn [mbind option_bind]. by rewrite IH.
Qed.

Section cache.
Context {R : Type} {RD : Redis R} {EX : Ext} {ST : Settings}.
Local Abbreviation Py := (PyM (R := R)).

(** [hash_key]: the field [key] of that hash instead of the key itself. *)
Definition cache_lookup (hash_key : option string) (key : string) : Py (option RVal) :=
  match hash_key with
  | Some h => redis_hget h key
  | None => redis_get key
  end.

Definition cache_store (hash_key : option string) (key : string) (v : RVal) (expire : option Z)
  : Py unit :=
  let ex := match expire with Some e => if e =? 0 then None else Some e | None => None end in
  match hash_key with
  | Some h => redis_hset_expire h key v ex
  | None => redis_set key v ex
  end.

(** [None]: a miss, or any exception. *)
Definition _get_from_cache {A} `{!Cacheable A} (key : string) (hash_key : option string)
  : Py (option A) :=
  try_catch (
    let! cached_value := cache_lookup hash_key key in
    ret (match cached_value with
         | Some (RJson j) => of_json j
         | _ => None
         end))
    (fun _ => ret None).

Definition _save_to_cache {A} `{!Cacheable A} (key : string) (hash_key : option string) (value : A)
  (expire : option Z) : Py unit :=
  try_catch (
    match to_json value with
    | Some j => cache_store hash_key key (RJson j) expire
    | None => ret tt
    end)
    (fun _ => ret tt).

Definition cached {A} `{!Cacheable A} (key : option string) (hash_key : option string)
  (expire : option Z) (func : Py A) : Py A :=
  match key with
  | None => func
  | Some key =>
      let! cached_result := _get_from_cache key hash_key in
      match cached_result with
      | Some a => ret a
      | None =>
          let! result := func in
          _save_to_cache key hash_key result expire ;;!
          ret result
      end
  end.

(** [keys]: the generated patterns. *)
Definition invalidating {A} (keys : list (option string)) (hash_key : option string)
  (invalidate_hash : bool) (func : Py A) : Py A :=
  let! result := func in
  try_catch (
    match invalidate_hash, hash_key with
    | true, Some h => redis_del [h]
    | _, _ =>
        match omap (fun k => k) keys with
        | [] => ret tt
        | keys_to_delete =>
            match hash_key with
            | Some h => redis_hdel h keys_to_delete
            | None => redis_del keys_to_delete
            end
        end
    end)
    (fun _ => ret tt) ;;!
  ret result.
End cache.

(** ** Coherence *)

Section coherence.
Context {R : Type} {RD : Redis R} {RL : RedisLaws R} {EX : Ext} {ST : Settings}.
Implicit Types w : World R.

(** The entry of the cache, as [cache_lookup] would read it. *)
Definition entry (hash_key : option string) (key : string) (w : World R) : option RVal :=
  match hash_key with
  | Some h => r_hget (now w) h key (redis w)
  | None => r_get (now w) key (redis w)
  end.

(** A cached value, if any, is the value the function would compute. *)
Definition coherent {A} `{!Cacheable A} (hash_key : option string) (key : string)
  (g : Tables -> A) (w : World R) : Prop :=
  forall j a, entry hash_key key w = Some (RJson j) -> of_json j = Some a -> a = g (read_view w).

Lemma entry_faults hk k l w : entry hk k (set_faults l w) = entry hk k w.
Proof. by destruct hk. Qed.

Lemma cache_lookup_cases hk k w :
  cache_lookup hk k w = (Err RedisError, set_faults (tail (faults w)) w) \/
  cache_lookup hk k w = (Ok (entry hk k w), set_faults (tail (faults w)) w).
Proof.
  unfold cache_lookup, entry, redis_hget, redis_get, redis_command.
  destruct hk, (faults w) as [|[] l] eqn:E; simpl; try (by left); right;
    unfold gets; simpl; try done; rewrite <- E; by destruct w.
Qed.

(** A store fails and changes nothing, or the entry is there. *)
Lemma cache_store_cases hk k v ex w :
  (forall e, ex = Some e -> 0 <= e) ->
  (exists l, snd (cache_store hk k v ex w) = set_faults l w) \/
  (entry hk k (snd (cache_store hk k v ex w)) = Some v /\
   db (snd (cache_store hk k v ex w)) = db w /\
   replica (snd (cache_store hk k v ex w)) = replica w /\
   now (snd (cache_store hk k v ex w)) = now w).
Proof.
  intros Hex. unfold cache_store.
  set (ex' := match ex with Some e => if e =? 0 then None else Some e | None => None end).
  assert (forall e, ex' = Some e -> 0 < e) as Hex'.
  { intros e. unfold ex'. destruct ex as [e0|]; [|done]. specialize (Hex e0 eq_refl).
    destruct (Z.eqb_spec e0 0); [done|]. intros [= <-]. lia. }
  clearbody ex'. destruct hk as [h|].
  - unfold redis_hset_expire, redis_command.
    destruct (faults w) as [|[] l]; simpl; [right|by left; exists l|right];
      (split; [|done]); destruct ex' as [e|]; rewrite ?hget_expire by lia;
      specialize (Hex' _ eq_refl) || idtac;
      try (replace (now w <? now w + e) with true by (symmetry; apply Z.ltb_lt; lia));
      apply hget_hset_eq.
  - unfold redis_set, redis_command.
    destruct (faults w) as [|[] l]; simpl; [right|by left; exists l|right];
      destruct ex' as [e|]; simpl;
      try (specialize (Hex' _ eq_refl); destruct (Z.leb_spec e 0); [lia|]); simpl;
      (split; [|done]); rewrite get_set_eq by lia; simpl; try done;
      by replace (now w <? now w + e) with true by (symmetry; apply Z.ltb_lt; lia).
Qed.

Lemma save_to_cache_ok {A} `{!Cacheable A} k hk (a : A) ex w :
  exists w', _save_to_cache k hk a ex w = (Ok tt, w').
Proof.
  unfold _save_to_cache, try_catch. destruct (to_json a); [|by eexists].
  destruct (cache_store _ _ _ _ w) as [[[]|e] w1]; by eexists.
Qed.

(** Caching a read does not change what it returns, whatever Redis does. *)
Lemma cached_read {A} `{!Cacheable A} `{!CacheLaw A} key hk ex (g : Tables -> A) w :
  (forall e, ex = Some e -> 0 <= e) -> coherent hk key g w ->
  exists w', cached (Some key) hk ex (db_read g) w = (Ok (g (read_view w)), w') /\
    db w' = db w /\ replica w' = replica w /\ now w' = now w /\ coherent hk key g w'.
Proof.
  intros Hex Hcoh. unfold cached, _get_from_cache.
  set (w1 := set_faults (tail (faults w)) w).
  assert (coherent hk key g w1) as Hcoh1.
  { intros j a. unfold w1. rewrite entry_faults. apply Hcoh. }
  assert (exists w', bind (db_read g) (fun result => bind (_save_to_cache key hk result ex)
      (fun _ => ret result)) w1 = (Ok (g (read_view w)), w') /\
    db w' = db w /\ replica w' = replica w /\ now w' = now w /\ coherent hk key g w') as Hmiss.
  { unfold bind at 1, db_read, gets. change (read_view w1) with (read_view w).
    unfold bind, _save_to_cache, try_catch. destruct (to_json (g (read_view w))) as [j|] eqn:Ej.
    2: { eexists. split; [done|]. done. }
    destruct (cache_store_cases hk key (RJson j) ex w1 Hex) as [[l Hl]|(He & Hd & Hr & Hn)];
      destruct (cache_store hk key (RJson j) ex w1) as [[[]|e] w2]; simpl in *; subst;
      eexists; (split; [reflexivity|]); try (by repeat split);
      (split; [done|]); (split; [done|]); (split; [done|]);
      intros j' a' Hj' Ha'; rewrite He in Hj'; injection Hj' as <-;
      rewrite (of_to_json _ _ Ej) in Ha'; injection Ha' as <-;
      unfold read_view; rewrite Hd, Hr; done. }
  destruct (cache_lookup_cases hk key w) as [Hl|Hl]; unfold bind at 1, try_catch at 1.
  - rewrite (bind_err _ _ _ _ _ Hl). exact Hmiss.
  - rewrite (bind_ok _ _ _ _ _ Hl). simpl. destruct (entry hk key w) as [[s|j]|] eqn:Ee; [exact Hmiss| |exact Hmiss].
    destruct (of_json j) as [a|] eqn:Ej; [|exact Hmiss].
    rewrite (Hcoh j a Ee Ej). eexists. split; [reflexivity|]. done.
Qed.
End coherence.
