(* ===== verification/AppConfig.v ===== *)
(** * System configuration and app versions

    src/api/apps/common/v0/dao/system_config.py, service/system_config.py,
    dao/version.py and service/version.py: cached reads of the database, and
    updates that invalidate the cache. *)

From Stdlib Require Import ZArith Lia Ascii String List Bool.
From stdpp Require Import base gmap strings sorting list.
From S2P Require Import Prelude Schema Redis World Tokens Users Cache.
Local Open Scope string_scope.
Local Open Scope list_scope.
Local Open Scope Z_scope.

(** ** Serialised models *)

#[export] Instance system_config_model : Model SystemConfig.
Proof.
  refine {|
    model_dump := fun c => JObj [("id", JNum 1); ("enforce_mfa", JBool (enforce_mfa c));
      ("updated_at", JNum (sc_updated_at c)); ("updated_by", of_opt JStr (sc_updated_by c))];
    model_validate := fun j =>
      m ← as_bool (jget "enforce_mfa" j); t ← as_num (jget "updated_at" j);
      b ← as_opt as_str (jget "updated_by" j);
      Some {| enforce_mfa := m; sc_updated_at := t; sc_updated_by := b |} |}.
  by intros [m t [b|]].
Defined.

#[export] Instance app_version_model : Model AppVersion.
Proof.
  refine {|
    model_dump := fun v => JObj [("platform", JStr (platform v)); ("min_build", JNum (min_build v));
      ("latest_build", JNum (latest_build v)); ("force_update", JBool (force_update v));
      ("update_message", of_opt JStr (update_message v)); ("update_url", of_opt JStr (update_url v));
      ("created_at", JNum (v_created_at v)); ("updated_at", JNum (v_updated_at v))];
    model_validate := fun j =>
      p ← as_str (jget "platform" j); mi ← as_num (jget "min_build" j);
      la ← as_num (jget "latest_build" j); fo ← as_bool (jget "force_update" j);
      me ← as_opt as_str (jget "update_message" j); ur ← as_opt as_str (jget "update_url" j);
      cr ← as_num (jget "created_at" j); up ← as_num (jget "updated_at" j);
      Some {| platform := p; min_build := mi; latest_build := la; force_update := fo;
              update_message := me; update_url := ur; v_created_at := cr; v_updated_at := up |} |}.
  by intros [p mi la fo [me|] [ur|] cr up].
Defined.

Record AppVersionUpdate := {
  av_min_build : option Z;
  av_latest_build : option Z;
  av_force_update : option bool;
  av_update_message : option string;
  av_update_url : option string;
}.

(** The dict [create_version] reads. *)
Record AppVersionCreate := {
  cv_platform : string;
  cv_min_build : Z;
  cv_latest_build : Z;
  cv_force_update : bool;
  cv_update_message : option string;
  cv_update_url : option string;
}.

Record ForceUpdateResponse := {
  fu_update_required : bool;
  fu_force : bool;
  fu_message : string;
  fu_latest_build : Z;
  fu_min_build : Z;
  fu_update_url : option string;
}.

Definition SYSTEM_CONFIG_CACHE : string := "system_config:singleton".
Definition APP_VERSION_CACHE (platform : string) : string := "app_version:" +:+ platform.
Definition APP_VERSIONS_ALL_CACHE : string := "app_versions:all".

(** [ORDER BY platform]. *)
Definition by_platform (x y : AppVersion) : Prop := String.le (platform x) (platform y).
#[export] Instance by_platform_dec : RelDecision by_platform.
Proof. intros x y. unfold by_platform. apply _. Defined.

Definition sorted_versions (l : list AppVersion) : list AppVersion := merge_sort by_platform l.

(** [LOWER(platform) ILIKE '%search%']. *)
Definition version_matches (search : option string) (v : AppVersion) : bool :=
  match search with
  | Some q => if truthy (strip q)
              then ilike (lower (platform v)) ("%" +:+ lower (strip q) +:+ "%") else true
  | None => true
  end.

(** ** Statements *)

(** INSERT INTO system_configurations (id) VALUES (1) ON CONFLICT ... RETURNING *. *)
Definition seed_config_row (t0 : Z) (t : Tables) : outcome Exn (SystemConfig * Tables) :=
  let c := default {| enforce_mfa := false; sc_updated_at := t0; sc_updated_by := None |}
             (system_configurations t) in
  Ok (c, set_system_config (fun _ => Some c) t).

(** UPDATE ... WHERE id = 1 RETURNING *: no row, no result. *)
Definition set_config_row (t0 : Z) (new_mfa : option bool) (user_id : option uuid) (t : Tables)
  : outcome Exn (option SystemConfig * Tables) :=
  match system_configurations t with
  | None => Ok (None, t)
  | Some c =>
      if match user_id with Some u => bool_decide (users t !! u = None) | None => false end
      then Err (ForeignKeyViolation "system_configurations_updated_by_fkey")
      else
        let c' := {| enforce_mfa := default (enforce_mfa c) new_mfa; sc_updated_at := t0;
                     sc_updated_by := match user_id with Some u => Some u | None => sc_updated_by c end |} in
        Ok (Some c', set_system_config (fun _ => Some c') t)
  end.

Definition insert_version (t0 : Z) (d : AppVersionCreate) (t : Tables) : outcome Exn (AppVersion * Tables) :=
  let p := lower (cv_platform d) in
  match app_versions t !! p with
  | Some _ => Err (UniqueViolation "app_versions_pkey")
  | None =>
      let v := {| platform := p; min_build := cv_min_build d; latest_build := cv_latest_build d;
                  force_update := cv_force_update d; update_message := cv_update_message d;
                  update_url := cv_update_url d; v_created_at := t0; v_updated_at := t0 |} in
      Ok (v, set_app_versions (<[p := v]>) t)
  end.

Definition delete_version_rows (platforms : list string) (t : Tables)
  : outcome Exn (list string * Tables) :=
  Ok (filter (fun p => is_Some (app_versions t !! p)) (remove_dups platforms),
      set_app_versions (filter (fun '(p, _) => p ∉ platforms)) t).

Definition merge_version (t0 : Z) (d : AppVersionUpdate) (v : AppVersion) : AppVersion :=
  {| platform := platform v; min_build := default (min_build v) (av_min_build d);
     latest_build := default (latest_build v) (av_latest_build d);
     force_update := default (force_update v) (av_force_update d);
     update_message := match av_update_message d with Some m => Some m | None => update_message v end;
     update_url := match av_update_url d with Some m => Some m | None => update_url v end;
     v_created_at := v_created_at v; v_updated_at := t0 |}.

Definition update_version_row (t0 : Z) (p : string) (d : AppVersionUpdate) (t : Tables)
  : outcome Exn (option AppVersion * Tables) :=
  match app_versions t !! lower p with
  | None => Ok (None, t)
  | Some v => let v' := merge_version t0 d v in
              Ok (Some v', set_app_versions (<[lower p := v']>) t)
  end.

Section app_config.
Context {R : Type} {RD : Redis R} {EX : Ext} {ST : Settings}.
Local Abbreviation Py := (PyM (R := R)).

(** ** SystemConfigDAO *)

(** SELECT, or the seed INSERT ... ON CONFLICT DO UPDATE RETURNING when no row. *)
Definition fetch_config : Py SystemConfig :=
  let! res := db_read system_configurations in
  match res with
  | Some c => ret c
  | None =>
      let! t0 := gets now in
      db_write (seed_config_row t0)
  end.

Definition get_config : Py SystemConfig :=
  cached (Some SYSTEM_CONFIG_CACHE) None (Some 86400) fetch_config.

Definition update_config_row (new_mfa : option bool) (user_id : option uuid) : Py (option SystemConfig) :=
  let! t0 := gets now in
  db_write (set_config_row t0 new_mfa user_id).

Definition dao_update_config (new_mfa : option bool) (user_id : option uuid) : Py (option SystemConfig) :=
  invalidating [Some SYSTEM_CONFIG_CACHE] None false (update_config_row new_mfa user_id).

(** ** SystemConfigService *)

Definition update_config (new_mfa : option bool) (user_id : option uuid) : Py (option SystemConfig) :=
  let! updated := dao_update_config new_mfa user_id in
  publish "system_config.updated" [("updated_by", jstr_opt user_id)] ;;!
  ret updated.

(** ** VersionDAO *)

(** The cache key keeps the case of the argument; the query lowers it. *)
Definition get_version_info (p : string) : Py (option AppVersion) :=
  cached (Some (APP_VERSION_CACHE p)) None None (db_read (fun t => app_versions t !! lower p)).

Definition get_all_versions : Py (list AppVersion) :=
  cached (Some APP_VERSIONS_ALL_CACHE) None None
    (db_read (fun t => sorted_versions (values (app_versions t)))).

Definition list_versions (limit skip : Z) (search : option string) : Py (list AppVersion) :=
  db_read (fun t => page limit skip (sorted_versions
    (filter (fun v => version_matches search v = true) (values (app_versions t))))).

Definition count_versions (search : option string) : Py Z :=
  db_read (fun t => Z.of_nat (length
    (filter (fun v => version_matches search v = true) (values (app_versions t))))).

Definition get_by_platforms (platforms : list string) : Py (list AppVersion) :=
  match platforms with
  | [] => ret []
  | _ => db_read (fun t => sorted_versions
           (filter (fun v => platform v ∈ (lower <$> platforms)) (values (app_versions t))))
  end.

Definition create_version (d : AppVersionCreate) : Py AppVersion :=
  invalidating [Some APP_VERSIONS_ALL_CACHE] None false (
    let! t0 := gets now in
    let! v := db_write (insert_version t0 d) in
    redis_del [APP_VERSION_CACHE (lower (cv_platform d))] ;;!
    ret v).

Definition delete_versions (platforms : list string) : Py Z :=
  invalidating [Some APP_VERSIONS_ALL_CACHE] None false (
    match platforms with
    | [] => ret 0
    | _ =>
        let lower_platforms := lower <$> platforms in
        let! rows := db_write_on_read_pool (delete_version_rows lower_platforms) in
        let deleted_count := Z.of_nat (length rows) in
        when (deleted_count >? 0) (redis_del (APP_VERSION_CACHE <$> lower_platforms)) ;;!
        ret deleted_count
    end).

Definition update_version_info (p : string) (d : AppVersionUpdate) : Py (option AppVersion) :=
  invalidating [Some (APP_VERSION_CACHE p); Some APP_VERSIONS_ALL_CACHE] None false (
    let! t0 := gets now in
    db_write (update_version_row t0 p d)).

(** ** VersionService *)

(** The decision of [check_force_update] once the version info is known. *)
Definition force_update_decision (v : AppVersion) (build_num : Z) : option ForceUpdateResponse :=
  let msg fallback := match or_opt (update_message v) None with Some m => m | None => fallback end in
  if build_num <? min_build v then
    Some {| fu_update_required := true; fu_force := true; fu_message := msg "A critical update is required.";
            fu_latest_build := latest_build v; fu_min_build := min_build v;
            fu_update_url := update_url v |}
  else if build_num <? latest_build v then
    Some {| fu_update_required := true; fu_force := force_update v;
            fu_message := msg "A new version is available.";
            fu_latest_build := latest_build v; fu_min_build := min_build v;
            fu_update_url := update_url v |}
  else None.

Definition check_force_update (p : string) (build_num : option Z) : Py (option ForceUpdateResponse) :=
  match build_num with
  | None => ret None
  | Some b =>
      if truthy p then
        let! info := get_version_info p in
        ret (match info with Some v => force_update_decision v b | None => None end)
      else ret None
  end.
End app_config.
