(* ===== verification/Roles.v ===== *)
(** * Roles and permissions (src/api/apps/user/v0/dao/role.py, service/role.py)

    Role reads are cached in the hash [roles_cache]; every change of a role
    deletes the whole hash and moves the token version of the users that hold
    the role.  [update_role] is a sequence of separate statements, [delete_role]
    one transaction. *)

From Stdlib Require Import ZArith Lia Ascii String List Bool.
From stdpp Require Import base gmap strings sorting list pretty.
From S2P Require Import Prelude Schema Redis World Tokens Users Cache.
Local Open Scope string_scope.
Local Open Scope list_scope.
Local Open Scope Z_scope.

(** ** Serialised models *)

#[export] Instance permission_model : Model Permission.
Proof.
  refine {|
    model_dump := fun p => JObj [("name", JStr (p_name p)); ("description", of_opt JStr (p_description p));
      ("id", JStr (p_id p)); ("created_at", JNum (p_created_at p))];
    model_validate := fun j =>
      n ← as_str (jget "name" j); d ← as_opt as_str (jget "description" j);
      i ← as_str (jget "id" j); c ← as_num (jget "created_at" j);
      Some {| p_id := i; p_name := n; p_description := d; p_created_at := c |} |}.
  by intros [i n [d|] c].
Defined.

Definition permissions_of_json (j : option Json) : option (list Permission) :=
  match j with Some (JList l) => mapM model_validate l | _ => None end.

Definition permissions_to_json (l : list Permission) : Json := JList (model_dump <$> l).

Lemma permissions_json_roundtrip l : permissions_of_json (Some (permissions_to_json l)) = Some l.
Proof. exact (of_to_json (A := list Permission) l (JList (model_dump <$> l)) eq_refl). Qed.

#[export] Instance role_data_model : Model RoleData.
Proof.
  refine {|
    model_dump := fun r => JObj [("name", JStr (r_name (rd_role r)));
      ("description", of_opt JStr (r_description (rd_role r))); ("id", JStr (r_id (rd_role r)));
      ("created_at", JNum (r_created_at (rd_role r))); ("updated_at", JNum (r_updated_at (rd_role r)));
      ("permissions", permissions_to_json (rd_permissions r))];
    model_validate := fun j =>
      n ← as_str (jget "name" j); d ← as_opt as_str (jget "description" j);
      i ← as_str (jget "id" j); c ← as_num (jget "created_at" j); u ← as_num (jget "updated_at" j);
      ps ← permissions_of_json (jget "permissions" j);
      Some {| rd_role := {| r_id := i; r_name := n; r_description := d; r_created_at := c;
                            r_updated_at := u |}; rd_permissions := ps |} |}.
  intros [[i n [d|] c u] ps]; cbn -[permissions_to_json permissions_of_json];
    by rewrite permissions_json_roundtrip.
Defined.

Record RoleCreate := {
  rc_name : string;
  rc_description : option string;
  rc_permission_ids : list uuid;
}.

Record RoleUpdate := {
  ru_name : option string;
  ru_description : option string;
  ru_permission_ids : option (list uuid);
}.

Definition ROLES_CACHE : string := "roles_cache".
(** [str(None)] is ["None"]. *)
Definition ROLE_FIELD_ALL (limit : Z) (cursor : option uuid) : string :=
  "all:" +:+ pretty limit +:+ ":" +:+ default "None" cursor.

Definition role_matches (search : option string) (r : Role) : bool :=
  match search_pattern search with
  | Some p => ilike (r_name r) p || ilike_opt (r_description r) p
  | None => true
  end.

Definition newest_role_first (x y : Role) : Prop := r_created_at y <= r_created_at x.
#[export] Instance newest_role_first_dec : RelDecision newest_role_first.
Proof. intros x y. unfold newest_role_first. apply _. Defined.

(** ** Statements *)

Definition roles_page (limit : Z) (cursor : option uuid) (t : Tables) : list RoleData :=
  role_data t <$> take (Z.to_nat limit) (merge_sort (desc_by r_id)
    (filter (fun r => before_cursor cursor (r_id r) = true) (values (roles t)))).

Definition role_by_id (id : uuid) (t : Tables) : option RoleData := role_data t <$> roles t !! id.

Definition role_name_taken (id : uuid) (name : string) (t : Tables) : bool :=
  existsb (fun r => String.eqb (r_name r) name && negb (String.eqb (r_id r) id)) (values (roles t)).

Definition insert_role (id : uuid) (t0 : Z) (name : string) (descr : option string) (t : Tables)
  : outcome Exn (Role * Tables) :=
  if role_name_taken id name t then Err (UniqueViolation "roles_name_key")
  else
    let r := {| r_id := id; r_name := name; r_description := descr; r_created_at := t0;
                r_updated_at := t0 |} in
    Ok (r, set_roles (<[id := r]>) t).

(** INSERT INTO role_permissions SELECT * FROM UNNEST: no ON CONFLICT clause. *)
Definition insert_role_permissions (id : uuid) (pids : list uuid) (t : Tables)
  : outcome Exn (unit * Tables) :=
  if bool_decide (roles t !! id = None) then Err (ForeignKeyViolation "role_permissions_role_id_fkey")
  else if existsb (fun p => bool_decide (permissions t !! p = None)) pids
  then Err (ForeignKeyViolation "role_permissions_permission_id_fkey")
  else if negb (bool_decide (NoDup pids)) || existsb (fun p => bool_decide ((id, p) ∈ role_permissions t)) pids
  then Err (UniqueViolation "role_permissions_pkey")
  else Ok (tt, set_role_permissions (fun s => s ∪ list_to_set ((fun p => (id, p)) <$> pids)) t).

Definition update_role_row (t0 : Z) (id : uuid) (d : RoleUpdate) (t : Tables)
  : outcome Exn (unit * Tables) :=
  match roles t !! id with
  | None => Ok (tt, t)
  | Some r =>
      let name := default (r_name r) (ru_name d) in
      if role_name_taken id name t then Err (UniqueViolation "roles_name_key")
      else
        let r' := {| r_id := r_id r; r_name := name;
                     r_description := match ru_description d with Some x => Some x | None => r_description r end;
                     r_created_at := r_created_at r; r_updated_at := t0 |} in
        Ok (tt, set_roles (<[id := r']>) t)
  end.

Definition delete_role_permissions (id : uuid) (t : Tables) : outcome Exn (unit * Tables) :=
  Ok (tt, set_role_permissions (filter (fun '(r, _) => r <> id)) t).

(** The users that hold a role get a new token version. *)
Definition bump_role_users (id : uuid) (t : Tables) : outcome Exn (unit * Tables) :=
  Ok (tt, set_users (map_imap (fun u row =>
    Some (if bool_decide ((u, id) ∈ user_roles t) then bump_version row else row))) t).

(** DELETE FROM roles, with the cascades. *)
Definition delete_roles_rows (ids : list uuid) (t : Tables) : outcome Exn (list uuid * Tables) :=
  Ok (filter (fun i => is_Some (roles t !! i)) (remove_dups ids),
      set_roles (filter (fun '(i, _) => i ∉ ids))
     (set_role_permissions (filter (fun '(r, _) => r ∉ ids))
     (set_user_roles (filter (fun '(_, r) => r ∉ ids)) t))).

Section role_dao.
Context {R : Type} {RD : Redis R} {EX : Ext} {ST : Settings}.
Local Abbreviation Py := (PyM (R := R)).

(** ** RoleDAO *)

Definition dao_get_all_roles (limit : Z) (cursor : option uuid) : Py (list RoleData) :=
  cached (Some (ROLE_FIELD_ALL limit cursor)) (Some ROLES_CACHE) (Some 3600)
    (db_read (roles_page limit cursor)).

Definition get_roles_paginated (limit skip : Z) (search : option string) : Py (list RoleData) :=
  db_read (fun t => role_data t <$> page limit skip (merge_sort newest_role_first
    (filter (fun r => role_matches search r = true) (values (roles t))))).

Definition count_roles (search : option string) : Py Z :=
  db_read (fun t => Z.of_nat (length (filter (fun r => role_matches search r = true) (values (roles t))))).

Definition delete_roles (role_ids : list uuid) : Py Z :=
  invalidating [] (Some ROLES_CACHE) true (
    match role_ids with
    | [] => ret 0
    | _ => let! rows := db_write_on_read_pool (delete_roles_rows role_ids) in
           ret (Z.of_nat (length rows))
    end).

Definition _get_role_by_id (id : uuid) : Py (option RoleData) := db_read (role_by_id id).

Definition dao_get_role_by_id (id : uuid) : Py (option RoleData) :=
  cached (Some id) (Some ROLES_CACHE) (Some 3600) (_get_role_by_id id).

Definition roles_by_ids (pks : list uuid) : Py (list RoleData) :=
  match pks with
  | [] => ret []
  | _ => db_read (fun t => role_data t <$> merge_sort newest_role_first
           (filter (fun r => r_id r ∈ pks) (values (roles t))))
  end.

Definition get_role_by_name (name : string) : Py (option RoleData) :=
  db_read (fun t => role_data t <$> head (filter (fun r => r_name r = name) (values (roles t)))).

Definition dao_create_role (d : RoleCreate) : Py RoleData :=
  invalidating [] (Some ROLES_CACHE) true (
    let! n := draw in
    let! t0 := gets now in
    let! r := db_write (insert_role (uuid7 n) t0 (rc_name d) (rc_description d)) in
    match rc_permission_ids d with
    | [] => ret tt
    | pids => db_write (insert_role_permissions (r_id r) pids)
    end ;;!
    let! role := _get_role_by_id (r_id r) in
    match role with
    | Some role => ret role
    | None => raise (ValueErr "Failed to fetch created role")
    end).

Definition dao_update_role (id : uuid) (d : RoleUpdate) : Py (option RoleData) :=
  invalidating [] (Some ROLES_CACHE) true (
    let! t0 := gets now in
    when (bool_decide (is_Some (ru_name d)) || bool_decide (is_Some (ru_description d)))
      (db_write (update_role_row t0 id d)) ;;!
    match ru_permission_ids d with
    | None => ret tt
    | Some pids =>
        db_write (delete_role_permissions id) ;;!
        match pids with
        | [] => ret tt
        | _ => db_write (insert_role_permissions id pids)
        end
    end ;;!
    db_write (bump_role_users id) ;;!
    _get_role_by_id id).

(** One transaction on the primary. *)
Definition dao_delete_role (id : uuid) : Py unit :=
  invalidating [] (Some ROLES_CACHE) true (
    transaction (fun old new => set_db (fun _ => db old) new) (
      db_write (bump_role_users id) ;;!
      let! _ := db_write (delete_roles_rows [id]) in ret tt)).

Definition get_all_permissions (limit : Z) (cursor : option uuid) : Py (list Permission) :=
  db_read (fun t => take (Z.to_nat limit) (merge_sort (desc_by p_id)
    (filter (fun p => before_cursor cursor (p_id p) = true) (values (permissions t))))).

(** ** RoleService *)

Definition role_not_found : Exn := HTTPException 404 "role.not_found".

Definition get_all_roles (limit : Z) (cursor : option uuid) : Py (list RoleData) :=
  dao_get_all_roles limit cursor.

Definition get_role_by_id (id : uuid) : Py RoleData :=
  let! role := dao_get_role_by_id id in
  match role with Some r => ret r | None => raise role_not_found end.

Definition create_role (d : RoleCreate) : Py RoleData :=
  let! existing := get_role_by_name (rc_name d) in
  raise_if (bool_decide (is_Some existing)) (HTTPException 400 "role.exists") ;;!
  dao_create_role d.

Definition update_role (id : uuid) (d : RoleUpdate) : Py RoleData :=
  get_role_by_id id ;;!
  match or_opt (ru_name d) None with
  | None => ret tt
  | Some name =>
      let! existing := get_role_by_name name in
      raise_if (match existing with
                | Some r => negb (String.eqb (r_id (rd_role r)) id)
                | None => false
                end) (HTTPException 400 "role.exists")
  end ;;!
  let! updated := dao_update_role id d in
  match updated with Some r => ret r | None => raise role_not_found end.

Definition delete_role (id : uuid) : Py unit :=
  get_role_by_id id ;;!
  dao_delete_role id.
End role_dao.
