(* ===== verification/Totp.v ===== *)
(** * Two-factor codes (src/api/utils/totp.py) *)

From Stdlib Require Import ZArith Lia Ascii String List Bool.
From stdpp Require Import base gmap strings list.
From S2P Require Import Prelude Schema Redis World.
Local Open Scope string_scope.
Local Open Scope list_scope.
Local Open Scope Z_scope.

(** [s.replace(c, "")]. *)
Fixpoint remove_char (c : ascii) (s : string) : string :=
  match s with
  | EmptyString => EmptyString
  | String d s' => if Ascii.eqb d c then remove_char c s' else String d (remove_char c s')
  end.

Definition upper_ascii (c : ascii) : ascii :=
  let n := nat_of_ascii c in
  if ((97 <=? n) && (n <=? 122))%nat then ascii_of_nat (n - 32) else c.

Fixpoint upper (s : string) : string :=
  match s with
  | EmptyString => EmptyString
  | String c s' => String (upper_ascii c) (upper s')
  end.

(** [s.isdigit()] of ASCII text: the empty string is not. *)
Fixpoint all_digits (s : string) : bool :=
  match s with
  | EmptyString => true
  | String c s' => is_digit c && all_digits s'
  end.
Definition isdigit (s : string) : bool := truthy s && all_digits s.

Section totp.
Context {R : Type} {RD : Redis R} {EX : Ext} {ST : Settings}.
Local Abbreviation Py := (PyM (R := R)).

Definition encrypt_secret (secret : string) : Py string :=
  let! n := draw in ret (fernet_encrypt n secret).

Definition decrypt_secret (encrypted_secret : string) : Py string :=
  match fernet_decrypt encrypted_secret with
  | Some s => ret s
  | None => raise InvalidToken
  end.

Definition generate_totp_secret : Py string := let! n := draw in ret (random_base32 n).

(** [issuer_name or settings.TWO_FACTOR_ISSUER_NAME]. *)
Definition generate_provisioning_uri (secret name : string) (issuer_name : option string) : string :=
  provisioning_uri secret name (default TWO_FACTOR_ISSUER_NAME (or_opt issuer_name None)).

Definition generate_qr_code_svg (uri : string) : string := qr_svg uri.

(** The cleaned code of [verify_totp]. *)
Definition clean_code (code : string) : string := remove_char " " (strip code).

Definition verify_totp_at (t : Z) (secret code : string) (valid_window : Z) : bool :=
  let cleaned := clean_code code in
  if negb (isdigit cleaned) || negb (String.length cleaned =? 6)%nat then false
  else totp_verify secret cleaned t valid_window.

Definition verify_totp (secret code : string) : Py bool :=
  let! t := gets now in ret (verify_totp_at t secret code 1).

Definition hash_backup_code (code : string) : string := sha256 (upper (remove_char "-" (strip code))).

Fixpoint generate_backup_codes (count : nat) : Py (list string * list BackupCode) :=
  match count with
  | O => ret ([], [])
  | S count' =>
      let! n1 := draw in
      let! n2 := draw in
      let code := upper (token_hex2 n1) +:+ "-" +:+ upper (token_hex2 n2) in
      let! (codes, records) := generate_backup_codes count' in
      ret (code :: codes, {| code_hash := hash_backup_code code; used := false; used_at := None |} :: records)
  end.

(** The loop over the stored codes: the first unused match is marked used. *)
Fixpoint consume_code (t : Z) (candidate_hash : string) (codes : list BackupCode)
  : bool * list BackupCode :=
  match codes with
  | [] => (false, [])
  | item :: rest =>
      if String.eqb (code_hash item) candidate_hash && negb (used item)
      then (true, {| code_hash := code_hash item; used := true; used_at := Some t |} :: rest)
      else let '(ok, rest') := consume_code t candidate_hash rest in (ok, item :: rest')
  end.

Definition verify_and_consume_backup_code (codes : list BackupCode) (candidate : string)
  : Py (bool * list BackupCode) :=
  let! t := gets now in ret (consume_code t (hash_backup_code candidate) codes).
End totp.

(** ** Lemmas *)

Definition unused_with (h : string) (codes : list BackupCode) : nat :=
  length (filter (fun c => code_hash c = h /\ used c = false) codes).

Lemma consume_code_spec t h codes ok codes' :
  consume_code t h codes = (ok, codes') ->
  (ok = true <-> (0 < unused_with h codes)%nat) /\
  length codes' = length codes /\
  unused_with h codes' = (unused_with h codes - (if ok then 1 else 0))%nat /\
  (forall h', h' <> h -> unused_with h' codes' = unused_with h' codes) /\
  (ok = false -> codes' = codes).
Proof.
  revert ok codes'. unfold unused_with.
  induction codes as [|c codes IH]; simpl; intros ok codes'.
  { intros [= <- <-]. simpl. split; [lia|]. by repeat split. }
  setoid_rewrite filter_cons.
  destruct (String.eqb_spec (code_hash c) h) as [Hh|Hh]; simpl; [destruct (used c) eqn:Hu; simpl|].
  - destruct (consume_code t h codes) as [ok1 rest] eqn:E. intros [= <- <-].
    destruct (IH _ _ eq_refl) as (H1 & H2 & H3 & H4 & H5).
    rewrite !decide_False by (rewrite ?Hu; naive_solver). repeat split; try (by apply H1).
    + simpl. by rewrite H2.
    + rewrite filter_cons, decide_False by (rewrite Hu; naive_solver). exact H3.
    + intros h' Hne. rewrite filter_cons. by rewrite !decide_False by (rewrite ?Hu; naive_solver); apply H4.
    + intros Hf. by rewrite H5.
  - intros [= <- <-]. rewrite decide_True by done. simpl. split; [split; [lia|done]|].
    split; [done|]. rewrite filter_cons, decide_False by naive_solver. split; [lia|].
    split; [|done]. intros h' Hne. rewrite filter_cons, !decide_False by naive_solver. done.
  - destruct (consume_code t h codes) as [ok1 rest] eqn:E. intros [= <- <-].
    destruct (IH _ _ eq_refl) as (H1 & H2 & H3 & H4 & H5).
    rewrite decide_False by naive_solver. repeat split; try (by apply H1).
    + simpl. by rewrite H2.
    + rewrite filter_cons, decide_False by naive_solver. exact H3.
    + intros h' Hne. rewrite filter_cons. case_decide; simpl; by rewrite H4.
    + intros Hf. by rewrite H5.
Qed.
