(* ===== verification/TwoFactorRows.v ===== *)
(** * Backup codes as they are stored

    The other files keep the backup codes of a user as records.  In the program they are
    dicts, and the column [backup_codes] holds a JSON string of their text, because
    dao/user.py binds [json.dumps] of them through a codec that encodes again; the
    validator of [UserTwoFactorData] of schemas/user.py undoes both.  Here are the dicts, the
    column and the validator, and the lemmas that the records stand for them. *)

From Stdlib Require Import ZArith Lia Ascii String List Bool.
From stdpp Require Import base gmap strings list.
From S2P Require Import Prelude Redis Schema JsonText World Tokens Totp.
Local Open Scope string_scope.
Local Open Scope list_scope.
Local Open Scope Z_scope.

Abbreviation Dict := (list (string * Json)).

(** ** The dicts (utils/totp.py) *)

Section dicts.
(** [isoformat()] of a time. *)
Context (isoformat : Z -> string).

(** What [generate_backup_codes] makes and [verify_and_consume_backup_code] changes. *)
Definition code_dict (c : BackupCode) : Dict :=
  [("code_hash", JStr (code_hash c)); ("used", JBool (used c));
   ("used_at", match used_at c with Some t => JStr (isoformat t) | None => JNull end)].

(** [item.get(key, default)]. *)
Definition dict_get (key : string) (default_value : Json) (item : Dict) : Json := default default_value (fields_get item key).

Definition matches_code (candidate_hash : string) (item : Dict) : bool :=
  match dict_get "code_hash" JNull item with JStr h => String.eqb h candidate_hash | _ => false end &&
  falsy (dict_get "used" (JBool false) item).

Fixpoint consume_dict (t : Z) (candidate_hash : string) (codes : list Dict) : bool * list Dict :=
  match codes with
  | [] => (false, [])
  | item :: rest =>
      if matches_code candidate_hash item
      then (true, dict_set "used_at" (JStr (isoformat t)) (dict_set "used" (JBool true) item) :: rest)
      else let '(ok, rest') := consume_dict t candidate_hash rest in (ok, item :: rest')
  end.

(** [sum(1 for c in backup_codes if not c.get("used", False))]. *)
Definition remaining_dicts (codes : list Dict) : nat :=
  length (filter (fun c => falsy (dict_get "used" (JBool false) c) = true) codes).

(** ** The column *)

(** [json.dumps(backup_codes)] through the codec. *)
Definition backup_codes_column (codes : list Dict) : Json := JStr (dumps (JList (JObj <$> codes))).

(** The statement that disables the second factor writes an array. *)
Definition empty_column : Json := JList [].
End dicts.

(** ** [UserTwoFactorData] *)

(** [list(v)] of a decoded value; the characters of a text are taken as its bytes, and
    none of them is a dict. *)
Definition list_of (j : Json) : option (list Json) :=
  match j with
  | JList l => Some l
  | JObj fs => Some (JStr ∘ fst <$> fs)
  | JStr s => Some ((fun c => JStr (String c "")) <$> String.list_ascii_of_string s)
  | _ => None
  end.

(** The validator [parse_backup_codes]; [None] where it raises. *)
Definition parse_backup_codes (v : Json) : option (list Json) :=
  match v with
  | JStr s => match loads s with Some j => list_of j | None => None end
  | JList l => Some l
  | _ => Some []
  end.

(** The type of the field, [list[dict[str, Any]]]. *)
Definition dict_of (j : Json) : option Dict := match j with JObj fs => Some fs | _ => None end.

(** [model_post_init] of a field that was validated, so a list. *)
Definition model_post_init (backup_codes : list Json) : list Dict := omap dict_of backup_codes.

(** The codes of the model, of what the pool read; [None] where validation fails. *)
Definition validate_backup_codes (v : Json) : option (list Dict) :=
  match parse_backup_codes v with
  | Some l => match mapM dict_of l with Some ds => Some (model_post_init (JObj <$> ds)) | None => None end
  | None => None
  end.

(** ** The records stand for the dicts *)

Section refinement.
Context (isoformat : Z -> string).
Implicit Types (c : BackupCode) (codes : list BackupCode).

Lemma matches_code_dict h c : matches_code h (code_dict isoformat c) = String.eqb (code_hash c) h && negb (used c).
Proof. unfold matches_code, code_dict, dict_get. cbn. by destruct (used c). Qed.

Lemma spent_dict t c :
  dict_set "used_at" (JStr (isoformat t)) (dict_set "used" (JBool true) (code_dict isoformat c)) =
  code_dict isoformat {| code_hash := code_hash c; used := true; used_at := Some t |}.
Proof. done. Qed.

(** Spending a code on the dicts is spending it on the records. *)
Theorem consume_dict_refines t h codes :
  consume_dict isoformat t h (code_dict isoformat <$> codes) =
  let '(ok, codes') := consume_code t h codes in (ok, code_dict isoformat <$> codes').
Proof.
  induction codes as [|c codes IH]; [done|]. cbn [fmap list_fmap consume_dict consume_code].
  rewrite matches_code_dict. destruct (_ && _); [by rewrite spent_dict|].
  change (list_fmap _ _ (code_dict isoformat) codes) with (code_dict isoformat <$> codes). rewrite IH.
  by destruct (consume_code t h codes).
Qed.

Lemma free_dict c : falsy (dict_get "used" (JBool false) (code_dict isoformat c)) = negb (used c).
Proof. unfold dict_get, code_dict. cbn. by destruct (used c). Qed.

(** The count the status reports is the count on the dicts. *)
Theorem remaining_dicts_refines codes :
  remaining_dicts (code_dict isoformat <$> codes) = length (filter (fun c => used c = false) codes).
Proof.
  unfold remaining_dicts. induction codes as [|c codes IH]; [done|].
  change (code_dict isoformat <$> c :: codes) with (code_dict isoformat c :: (code_dict isoformat <$> codes)).
  rewrite !filter_cons, free_dict. destruct (used c); cbn [negb].
  - rewrite decide_False by done. by rewrite decide_False by done.
  - rewrite decide_True by done. rewrite decide_True by done. cbn [length]. by rewrite IH.
Qed.

Lemma dicts_typed (ds : list Dict) : mapM dict_of (JObj <$> ds) = Some ds.
Proof. apply mapM_Some. by induction ds; constructor. Qed.

Lemma dicts_kept (ds : list Dict) : model_post_init (JObj <$> ds) = ds.
Proof. unfold model_post_init. induction ds as [|d ds IH]; [done|]. cbn. by f_equal. Qed.

Lemma codes_json_ok codes : (forall t, utf8_valid (isoformat t) = true) ->
  Forall (fun c => utf8_valid (code_hash c) = true) codes -> json_ok (JList (JObj <$> (code_dict isoformat <$> codes))).
Proof.
  intros Ht Hc. apply json_ok_list, Forall_fmap, Forall_fmap. eapply Forall_impl; [exact Hc|]. intros c Hh. cbn.
  split; [repeat constructor; set_solver|]. split_and!; try done.
  destruct (used_at c); [apply Ht|done].
Qed.

(** What a write of the column leaves is read back. *)
Theorem backup_codes_read_back codes : (forall t, utf8_valid (isoformat t) = true) ->
  Forall (fun c => utf8_valid (code_hash c) = true) codes ->
  validate_backup_codes (backup_codes_column (code_dict isoformat <$> codes)) = Some (code_dict isoformat <$> codes).
Proof.
  intros Ht Hc. unfold validate_backup_codes, backup_codes_column, parse_backup_codes.
  rewrite loads_dumps by (by apply codes_json_ok). cbn [list_of]. by rewrite dicts_typed, dicts_kept.
Qed.

Lemma disabled_codes_read_back : validate_backup_codes empty_column = Some [].
Proof. done. Qed.
End refinement.
