(* ===== verification/Auth.v ===== *)
(** * Authentication

    The dependencies of src/api/core/dependencies.py, the service of
    src/api/apps/user/v0/service/auth.py and the routes of
    src/api/apps/user/v0/routes/auth.py and routes/user.py.  Details of
    exceptions are the i18n keys; the rate limiter is not modelled. *)

From Stdlib Require Import ZArith Lia Ascii String List Bool.
From stdpp Require Import base gmap strings list pretty.
From S2P Require Import Prelude Schema Redis World Tokens Users Cache AppConfig Totp.
Local Open Scope string_scope.
Local Open Scope list_scope.
Local Open Scope Z_scope.

(** ** Responses *)

Record Token := { access_token : string; refresh_token_str : string }.

Record LoginResponse := { lr_token : Token; lr_user : UserData }.

(** [LoginResponse | TwoFactorChallengeResponse]. *)
Inductive AuthResult :=
| LoggedIn (r : LoginResponse)
| ChallengeRequired (two_factor_token : string).

Record SudoTokenResponse := { sudo_token : string; expires_in : Z }.

Record TwoFactorStatus := { tf_enabled : bool; tf_codes_remaining : Z }.

Record TwoFactorSetup := { setup_secret : string; setup_qr_code : string; setup_otpauth_url : string }.

Record ImpersonationResponse := {
  im_token : Token;
  im_target_user : UserData;
  im_impersonator : uuid * string;
  im_expires_at : Z;
}.

(** ** Redis keys (src/api/shared/redis_keys.py) *)

Definition OAUTH_STATE_GOOGLE (state : string) : string := "oauth:state:google:" +:+ state.
Definition TWO_FACTOR_SETUP (user_id : uuid) : string := "2fa:setup:" +:+ user_id.
Definition TWO_FACTOR_CHALLENGE (tok : string) : string := "2fa:challenge:" +:+ tok.
Definition TWO_FACTOR_REPLAY (user_id : uuid) (slice : Z) : string :=
  "2fa:replay:" +:+ user_id +:+ ":" +:+ pretty slice.
Definition IMPERSONATION_SESSION (j : string) : string := "impersonation:session:" +:+ j.

(** ** Usernames *)

Definition is_slug_char (c : ascii) : bool :=
  let n := nat_of_ascii c in ((48 <=? n) && (n <=? 57) || (97 <=? n) && (n <=? 122))%nat.

(** [re.sub(r"[^a-z0-9]+", "-", s)]. *)
Fixpoint slug_sub (s : string) (in_gap : bool) : string :=
  match s with
  | EmptyString => EmptyString
  | String c s' =>
      if is_slug_char c then String c (slug_sub s' false)
      else if in_gap then slug_sub s' true else String "-" (slug_sub s' true)
  end.

Fixpoint lstrip_dash (s : string) : string :=
  match s with
  | String "-" s' => lstrip_dash s'
  | _ => s
  end.
Fixpoint rstrip_dash (s : string) : string :=
  match s with
  | EmptyString => EmptyString
  | String c s' =>
      match rstrip_dash s' with
      | EmptyString => if Ascii.eqb c "-" then EmptyString else String c EmptyString
      | t => String c t
      end
  end.

Definition slugify (base_name : string) : string :=
  let u := lstrip_dash (rstrip_dash (slug_sub (lower base_name) false)) in
  if truthy u then u else "user".

Definition alphabet : string := "abcdefghijklmnopqrstuvwxyz0123456789".

Section auth.
Context {R : Type} {RD : Redis R} {EX : Ext} {ST : Settings}.
Local Abbreviation Py := (PyM (R := R)).

(** ** Dependencies *)

Definition credentials_exception : Exn := HTTPException 401 "Could not validate credentials".

Fixpoint require_scopes (required granted : list string) : Py unit :=
  match required with
  | [] => ret tt
  | s :: rest =>
      raise_if (negb (mem s granted)) (HTTPException 403 "Not enough permissions") ;;!
      require_scopes rest granted
  end.

Definition get_current_user (scopes : list string) (tok : string) : Py UserData :=
  let! td := verify_token tok ACCESS in
  match t_id td with
  | None => raise credentials_exception
  | Some id =>
      require_scopes scopes (t_scopes td) ;;!
      let! user := get_user_by_id id in
      raise_if (negb (token_version (ud_user user) =? t_token_version td)) credentials_exception ;;!
      modify (set_actor (Some (u_id (ud_user user)))) ;;!
      modify (set_impersonator (if t_is_impersonation td then or_opt (t_impersonator_id td) None else None)) ;;!
      ret user
  end.

Definition get_sudo_user (tok : string) : Py UserData :=
  let! td := verify_token tok SUDO in
  match t_id td with
  | None => raise credentials_exception
  | Some id =>
      let! user := get_user_by_id id in
      raise_if (negb (token_version (ud_user user) =? t_token_version td)) credentials_exception ;;!
      raise_if (t_is_impersonation td)
        (HTTPException 403 "Sudo access cannot be performed during an active impersonation session.") ;;!
      raise_if (negb (String.eqb (t_type td) "sudo")) (HTTPException 403 "Sudo access required") ;;!
      modify (set_actor (Some (u_id (ud_user user)))) ;;!
      ret user
  end.

Definition disallow_impersonation (tok : string) : Py unit :=
  let! td := verify_token tok ACCESS in
  raise_if (t_is_impersonation td)
    (HTTPException 403 "This operation cannot be performed during an active impersonation session.").

(** ** AuthService *)

Definition check_mfa_enforcement (user_id : uuid) : Py unit :=
  let! config := get_config in
  when (enforce_mfa config) (
    let! tf := get_two_factor user_id in
    raise_if (match tf with Some f => negb (is_enabled f) | None => true end)
      (HTTPException 428 "auth.mfa_enforced")).

(** One random character of the suffix. *)
Definition random_char : Py string :=
  let! n := draw in
  ret (match String.get (rnd n mod 36) alphabet with
       | Some c => String c EmptyString
       | None => EmptyString
       end).

Definition random_suffix : Py string :=
  let! a := random_char in
  let! b := random_char in
  let! c := random_char in
  let! d := random_char in
  ret (a +:+ b +:+ c +:+ d).

(** The loop, with the attempts that are left of the 100. *)
Fixpoint username_attempts (left : nat) (name : string) : Py string :=
  match left with
  | O => raise (ValueErr "Could not generate a unique username after 100 attempts.")
  | S left' =>
      let! suffix := random_suffix in
      let new_username := name +:+ "-" +:+ suffix in
      let! existing := get_by_username new_username in
      match existing with
      | None => ret new_username
      | Some _ => username_attempts left' name
      end
  end.

Definition _generate_unique_username (base_name : string) : Py string :=
  let name := slugify base_name in
  let! existing := get_by_username name in
  match existing with
  | None => ret name
  | Some _ => username_attempts 100 name
  end.

Definition verify_access_token (tok : string) : Py TokenData := verify_token tok ACCESS.

(** The last step of [handle_google_oauth]: a new user and its identity. *)
Definition create_from_google (gi : UserInfo) : Py UserData :=
  let! base_name :=
    (match or_opt (gi_name gi) None with
     | Some n => ret n
     | None => match gi_email gi with
               | Some e => ret (default "" (head (split_on "@" e)))
               | None => raise (KeyErr "email")
               end
     end) in
  let! name := _generate_unique_username base_name in
  match gi_email gi with
  | None => raise (KeyErr "email")
  | Some mail =>
      create_user_oauth {| uc_email := mail; uc_username := name; uc_full_name := gi_name gi;
                           uc_is_active := true; uc_password := None |} gi
  end.

Definition handle_google_oauth (gi : UserInfo) : Py UserData :=
  let! by_sub := get_by_google_sub (gi_sub gi) in
  match by_sub with
  | Some user => ret user
  | None =>
      match or_opt (gi_email gi) None with
      | None => create_from_google gi
      | Some mail =>
          let! by_mail := get_by_email mail in
          match by_mail with
          | Some user =>
              if default false (gi_email_verified gi) then
                add_identity (u_id (ud_user user)) gi ;;! ret user
              else create_from_google gi
          | None => create_from_google gi
          end
      end
  end.

(** [list(set(...))] of the permission names. *)
Definition _get_user_scopes (rs : list RoleData) : list string :=
  elements (list_to_set (C := gset string) (concat ((fun r => p_name <$> rd_permissions r) <$> rs))).

Definition user_claims (user : UserData) : Claims :=
  payload_of (username (ud_user user)) (u_id (ud_user user)) (Some (_get_user_scopes (ud_roles user)))
    (Some (token_version (ud_user user))) None None.

Definition issue_tokens_and_session (user : UserData) (request : Request) : Py LoginResponse :=
  let token_data := user_claims user in
  let! access := create_access_token token_data in
  let! refresh := create_refresh_token token_data in
  let! t := gets now in
  upsert_user_session {| sc_jti := td_jti access; sc_user_id := u_id (ud_user user);
    sc_issued_at := t; sc_expires_at := expires_at access;
    sc_ip_address := rq_client_host request; sc_user_agent := rq_user_agent request |} ;;!
  ret {| lr_token := {| access_token := token access; refresh_token_str := refresh |};
         lr_user := user |}.

Definition authenticate_oauth_user (user : UserData) (request : Request) : Py LoginResponse :=
  issue_tokens_and_session user request.

Definition invalid_login : Exn := HTTPException 401 "auth.invalid_credentials".

(** [uuid4().hex]. *)
Definition new_uuid4_hex : Py string := let! u := new_uuid4 in ret (remove_char "-" u).

Definition authenticate_user (name password : string) (request : Request) : Py AuthResult :=
  let! user := get_by_username name in
  match user with
  | None => raise invalid_login
  | Some user =>
      raise_if (negb (verify_password password (hashed_password (ud_user user)))) invalid_login ;;!
      let! tf := get_two_factor (u_id (ud_user user)) in
      if match tf with Some f => is_enabled f | None => false end then
        let! challenge_token := new_uuid4_hex in
        redis_set (TWO_FACTOR_CHALLENGE challenge_token) (RText (u_id (ud_user user)))
          (Some (TWO_FACTOR_CHALLENGE_EXPIRE_MINUTES * 60)) ;;!
        ret (ChallengeRequired challenge_token)
      else
        let! r := issue_tokens_and_session user request in
        ret (LoggedIn r)
  end.

Definition refresh_token (tok : string) (request : Request) : Py LoginResponse :=
  let! td := verify_token tok REFRESH in
  match t_id td with
  | None => raise (HTTPException 401 "auth.invalid_token_data")
  | Some id =>
      let! user := get_by_id id in
      match user with
      | None => raise (HTTPException 401 "auth.invalid_refresh_user")
      | Some user =>
          raise_if (negb (token_version (ud_user user) =? t_token_version td))
            (HTTPException 401 "auth.token_version_mismatch") ;;!
          check_mfa_enforcement (u_id (ud_user user)) ;;!
          let new_token_data := user_claims user in
          let! access := create_access_token new_token_data in
          let! new_refresh := create_refresh_token new_token_data in
          let! t := gets now in
          upsert_user_session {| sc_jti := td_jti access; sc_user_id := u_id (ud_user user);
            sc_issued_at := t; sc_expires_at := expires_at access;
            sc_ip_address := rq_client_host request; sc_user_agent := rq_user_agent request |} ;;!
          ret {| lr_token := {| access_token := token access; refresh_token_str := new_refresh |};
                 lr_user := user |}
      end
  end.

(** The payload of a sudo token has no scopes and no token version. *)
Definition sudo_claims (user : User) : Claims :=
  payload_of (username user) (u_id user) None None None None.

Definition create_sudo_token_oauth (user : User) : Py SudoTokenResponse :=
  let! tok := create_sudo_token (sudo_claims user) in
  ret {| sudo_token := tok; expires_in := SUDO_TOKEN_EXPIRE_MINUTES * 60 |}.

Definition create_sudo_token_user (name password : string) : Py SudoTokenResponse :=
  let! user := get_by_username name in
  match user with
  | None => raise invalid_login
  | Some user =>
      raise_if (negb (verify_password password (hashed_password (ud_user user)))) invalid_login ;;!
      let! tok := create_sudo_token (sudo_claims (ud_user user)) in
      ret {| sudo_token := tok; expires_in := SUDO_TOKEN_EXPIRE_MINUTES * 60 |}
  end.

Definition revoke_session (user_id : uuid) (j : string) : Py unit :=
  let! ttl := dao_revoke_user_session user_id j in
  match ttl with
  | None => raise (HTTPException 404 "user.session_not_found")
  | Some n => blacklist_session j n
  end.

(** The payload most user events carry. *)
Definition user_payload (user : UserData) : list (string * Json) :=
  [("user_id", JStr (u_id (ud_user user))); ("email", JStr (email (ud_user user)));
   ("username", JStr (username (ud_user user)))].

Definition update_password (user_id : uuid) (password : string) : Py unit :=
  let! hp := get_password_hash password in
  update_password_row user_id hp ;;!
  let! user := get_by_id user_id in
  match user with
  | Some user => publish "user.password.changed" (user_payload user)
  | None => ret tt
  end.

Definition get_two_factor_status (user_id : uuid) : Py TwoFactorStatus :=
  let! record := get_two_factor user_id in
  ret (match record with
       | Some f => if is_enabled f
                   then {| tf_enabled := true;
                           tf_codes_remaining :=
                             Z.of_nat (length (filter (fun c => used c = false) (backup_codes f))) |}
                   else {| tf_enabled := false; tf_codes_remaining := 0 |}
       | None => {| tf_enabled := false; tf_codes_remaining := 0 |}
       end).

Definition initiate_two_factor_setup (user : UserData) : Py TwoFactorSetup :=
  let! secret := generate_totp_secret in
  let uri := generate_provisioning_uri secret (email (ud_user user)) (Some TWO_FACTOR_ISSUER_NAME) in
  let qr_code := generate_qr_code_svg uri in
  let! encrypted := encrypt_secret secret in
  redis_set (TWO_FACTOR_SETUP (u_id (ud_user user))) (RText encrypted) (Some 600) ;;!
  ret {| setup_secret := secret; setup_qr_code := qr_code; setup_otpauth_url := uri |}.

(** A text value that is not empty. *)
Definition truthy_text (v : option RVal) : option string :=
  match v with Some (RText s) => if truthy s then Some s else None | _ => None end.

Definition confirm_two_factor_setup (user : UserData) (code : string) : Py (list string) :=
  let setup_key := TWO_FACTOR_SETUP (u_id (ud_user user)) in
  let! encrypted := redis_get setup_key in
  match truthy_text encrypted with
  | None => raise (HTTPException 400 "auth.two_factor_setup_expired")
  | Some encrypted_secret =>
      let! secret := decrypt_secret encrypted_secret in
      let! ok := verify_totp secret code in
      raise_if (negb ok) (HTTPException 400 "auth.two_factor_invalid_code") ;;!
      let! (plaintext_codes, hashed_records) := generate_backup_codes 10 in
      upsert_two_factor (u_id (ud_user user)) encrypted_secret hashed_records true ;;!
      redis_del [setup_key] ;;!
      publish "user.2fa.enabled" (user_payload user) ;;!
      ret plaintext_codes
  end.

(** The check shared by disabling 2FA and regenerating the codes: the current
    code, or an unused backup code (which is not consumed here). *)
Definition check_code_or_backup (f : TwoFactor) (code : string) : Py unit :=
  let cleaned_code := strip code in
  let! secret := decrypt_secret (secret_encrypted f) in
  let! ok := verify_totp secret cleaned_code in
  when (negb ok) (
    let! (valid_backup, _) := verify_and_consume_backup_code (backup_codes f) cleaned_code in
    raise_if (negb valid_backup) (HTTPException 400 "auth.two_factor_invalid_code_or_backup")).

Definition not_enabled : Exn := HTTPException 400 "auth.two_factor_not_enabled".

Definition disable_two_factor (user : UserData) (code : string) : Py unit :=
  let! record := get_two_factor (u_id (ud_user user)) in
  match record with
  | None => raise not_enabled
  | Some f =>
      raise_if (negb (is_enabled f)) not_enabled ;;!
      check_code_or_backup f code ;;!
      dao_disable_two_factor (u_id (ud_user user)) ;;!
      publish "user.2fa.disabled" (user_payload user)
  end.

Definition regenerate_two_factor_backup_codes (user : UserData) (code : string) : Py (list string) :=
  let! record := get_two_factor (u_id (ud_user user)) in
  match record with
  | None => raise not_enabled
  | Some f =>
      raise_if (negb (is_enabled f)) not_enabled ;;!
      check_code_or_backup f code ;;!
      let! (plaintext_codes, hashed_records) := generate_backup_codes 10 in
      update_two_factor_backup_codes (u_id (ud_user user)) hashed_records ;;!
      ret plaintext_codes
  end.

Definition replay_detected : Exn := HTTPException 400 "auth.two_factor_replay_detected".

Definition _verify_2fa_code_or_backup (user_id : uuid) (f : TwoFactor) (cleaned_code : string) : Py unit :=
  let! secret := decrypt_secret (secret_encrypted f) in
  let! ok := verify_totp secret cleaned_code in
  if ok : bool then
    let! t := gets now in
    let replay_key := TWO_FACTOR_REPLAY user_id (t / 30) in
    let! seen := redis_get replay_key in
    raise_if (match seen with Some v => rval_truthy v | None => false end) replay_detected ;;!
    redis_set replay_key (RText "1") (Some 60)
  else
    let! (valid_backup, updated_codes) := verify_and_consume_backup_code (backup_codes f) cleaned_code in
    raise_if (negb valid_backup) (HTTPException 400 "auth.two_factor_invalid_code_or_backup") ;;!
    update_two_factor_backup_codes user_id updated_codes.

Definition verify_two_factor_challenge (two_factor_token code : string) (request : Request)
  : Py LoginResponse :=
  let challenge_key := TWO_FACTOR_CHALLENGE two_factor_token in
  let! user_id_raw := redis_get challenge_key in
  match truthy_text user_id_raw with
  | None => raise (HTTPException 401 "auth.two_factor_challenge_expired")
  | Some user_id =>
      let! tf := get_two_factor user_id in
      match tf with
      | None => raise not_enabled
      | Some f =>
          raise_if (negb (is_enabled f)) not_enabled ;;!
          _verify_2fa_code_or_backup user_id f (strip code) ;;!
          redis_del [challenge_key] ;;!
          let! user := get_by_id user_id in
          match user with
          | None => raise user_not_found
          | Some user => issue_tokens_and_session user request
          end
      end
  end.

Definition is_privileged (user : UserData) : bool :=
  existsb (fun r => mem (r_name (rd_role r)) ["Super Admin"; "Admin"]) (ud_roles user).

Definition session_meta (admin target : UserData) (reason : string) (issued expires : Z) : Json :=
  JObj [("admin_id", JStr (u_id (ud_user admin))); ("admin_username", JStr (username (ud_user admin)));
        ("target_user_id", JStr (u_id (ud_user target)));
        ("target_username", JStr (username (ud_user target))); ("reason", JStr reason);
        ("issued_at", JNum issued); ("expires_at", JNum expires)].

Definition impersonation_claims (admin target : UserData) : Claims :=
  payload_of (username (ud_user target)) (u_id (ud_user target))
    (Some (_get_user_scopes (ud_roles target))) (Some (token_version (ud_user target)))
    (Some true) (Some (Some (u_id (ud_user admin)), Some (username (ud_user admin)))).

Definition impersonate_user (admin : UserData) (target_user_id : uuid) (reason : string)
  (request : Request) (duration_minutes : Z) : Py ImpersonationResponse :=
  let! imp := gets ctx_impersonator in
  raise_if (bool_decide (is_Some (or_opt imp None))) (HTTPException 400 "auth.cannot_nest_impersonation") ;;!
  raise_if (String.eqb (u_id (ud_user admin)) target_user_id)
    (HTTPException 400 "auth.cannot_impersonate_self") ;;!
  let! target := get_by_id target_user_id in
  match target with
  | None => raise user_not_found
  | Some target =>
      raise_if (negb (is_active (ud_user target)))
        (HTTPException 400 "auth.cannot_impersonate_inactive_user") ;;!
      raise_if (is_privileged target) (HTTPException 403 "auth.cannot_impersonate_admin") ;;!
      let! details := create_impersonation_token (impersonation_claims admin target) duration_minutes in
      let! t := gets now in
      redis_set (IMPERSONATION_SESSION (td_jti details))
        (RJson (session_meta admin target reason t (expires_at details))) (Some (duration_minutes * 60)) ;;!
      audit_log "USER_IMPERSONATION_START" "user" (u_id (ud_user target))
        (Some (JObj [("reason", JStr reason); ("target_username", JStr (username (ud_user target)));
                     ("jti", JStr (td_jti details)); ("duration_minutes", JNum duration_minutes)]))
        (Some (u_id (ud_user admin))) (Some (u_id (ud_user admin))) (Some request) ;;!
      publish "user.impersonation.started"
        [("admin_id", JStr (u_id (ud_user admin))); ("target_user_id", JStr (u_id (ud_user target)));
         ("reason", JStr reason); ("jti", JStr (td_jti details))] ;;!
      ret {| im_token := {| access_token := token details; refresh_token_str := "" |};
             im_target_user := target;
             im_impersonator := (u_id (ud_user admin), username (ud_user admin));
             im_expires_at := expires_at details |}
  end.

Definition stop_impersonation (j : string) (admin_id : uuid) : Py unit :=
  redis_set (blacklist_key ACCESS j) (RText "1") (Some 3600) ;;!
  let session_key := IMPERSONATION_SESSION j in
  let! session_raw := redis_get session_key in
  let! target_id :=
    (match session_raw with
     | Some (RJson meta) =>
         redis_del [session_key] ;;! ret (as_str (jget "target_user_id" meta))
     | Some (RText s) => if truthy s then raise (ValueErr "Expecting value") else ret None
     | None => ret None
     end) in
  audit_log "USER_IMPERSONATION_STOP" "user" (default admin_id (or_opt target_id None))
    (Some (JObj [("jti", JStr j); ("target_user_id", jstr_opt target_id)]))
    (Some admin_id) (Some admin_id) None ;;!
  publish "user.impersonation.stopped"
    [("admin_id", JStr admin_id); ("target_user_id", jstr_opt target_id); ("jti", JStr j)].
End auth.
