(* ===== verification/Pagination.v ===== *)
(** * Cursor pagination (src/api/utils/pagination.py)

    Cursors are base64 texts.  A Python string is represented by its UTF-8
    bytes, one character per byte; [b64encode] and [b64decode] follow the
    standard library: the decoder skips characters outside the alphabet and
    stops at the padding that completes a group. *)

From Stdlib Require Import ZArith Lia Ascii String List Bool.
From stdpp Require Import base gmap strings sorting list.
From S2P Require Import Prelude Schema Redis JsonText World Tokens Users Cache Roles Totp AppConfig Auth.
Local Open Scope string_scope.
Local Open Scope list_scope.
Local Open Scope Z_scope.

(** ** Base64 *)

(** The digit of a six-bit value, and back. *)
Definition b64_char (v : Z) : ascii :=
  if v <? 26 then char_of (65 + v)
  else if v <? 52 then char_of (71 + v)
  else if v <? 62 then char_of (v - 4)
  else if v =? 62 then "+" else "/".

Definition b64_val (c : ascii) : option Z :=
  let n := byte_of c in
  if (65 <=? n) && (n <=? 90) then Some (n - 65)
  else if (97 <=? n) && (n <=? 122) then Some (n - 71)
  else if (48 <=? n) && (n <=? 57) then Some (n + 4)
  else if n =? 43 then Some 62
  else if n =? 47 then Some 63
  else None.

Fixpoint b64encode (s : string) : string :=
  match s with
  | EmptyString => EmptyString
  | String a EmptyString =>
      let x := byte_of a in
      String (b64_char (x / 4)) (String (b64_char (x mod 4 * 16)) "==")
  | String a (String b EmptyString) =>
      let x := byte_of a in let y := byte_of b in
      String (b64_char (x / 4)) (String (b64_char (x mod 4 * 16 + y / 16))
        (String (b64_char (y mod 16 * 4)) "="))
  | String a (String b (String c s')) =>
      let x := byte_of a in let y := byte_of b in let z := byte_of c in
      String (b64_char (x / 4)) (String (b64_char (x mod 4 * 16 + y / 16))
        (String (b64_char (y mod 16 * 4 + z / 64)) (String (b64_char (z mod 64)) (b64encode s'))))
  end.

(** The loop of [binascii.a2b_base64]: [quad] digits of the current group are
    read, [left] holds the bits carried over, [pads] counts the padding. *)
Fixpoint a2b_loop (s : string) (quad left pads : Z) : option string :=
  match s with
  | EmptyString => if quad =? 0 then Some EmptyString else None
  | String c s' =>
      if Ascii.eqb c "=" then
        if (2 <=? quad) && (4 <=? quad + (pads + 1)) then Some EmptyString
        else a2b_loop s' quad left (pads + 1)
      else match b64_val c with
      | None => a2b_loop s' quad left pads
      | Some v =>
          if quad =? 0 then a2b_loop s' 1 v 0
          else if quad =? 1 then
            String (char_of (left * 4 + v / 16)) <$> a2b_loop s' 2 (v mod 16) 0
          else if quad =? 2 then
            String (char_of (left * 16 + v / 4)) <$> a2b_loop s' 3 (v mod 4) 0
          else
            String (char_of (left * 64 + v)) <$> a2b_loop s' 0 0 0
      end
  end.

Definition b64decode (s : string) : option string := a2b_loop s 0 0 0.

Definition encode_cursor (value : string) : string := b64encode value.

(** [None]: [binascii.Error] or [UnicodeDecodeError]. *)
Definition decode_cursor (cursor : string) : option string :=
  match b64decode cursor with
  | Some s => if utf8_valid s then Some s else None
  | None => None
  end.

(** ** Pages *)

Record PaginationParams := {
  first : Z;
  after : option string;
}.

Record Page (A : Type) := {
  pg_items : list A;
  pg_total_count : option Z;
  pg_end_cursor : option string;
}.
Arguments Build_Page {A}.
Arguments pg_items {A}.
Arguments pg_total_count {A}.
Arguments pg_end_cursor {A}.

Section pagination.
Context {R : Type} {RD : Redis R} {EX : Ext} {ST : Settings}.
Local Abbreviation Py := (PyM (R := R)).

Definition apply_cursor_pagination {A} (fetch_func : Z -> option string -> Py (list A))
  (params : PaginationParams) (get_cursor_value : A -> string) (count_func : option (Py Z)) : Py (Page A) :=
  let cursor_value := match or_opt (after params) None with
                      | Some a => decode_cursor a
                      | None => None
                      end in
  let limit := first params + 1 in
  let! items := fetch_func limit cursor_value in
  let items := if Z.of_nat (length items) >? first params then py_take (first params) items else items in
  let end_cursor := (fun x => encode_cursor (get_cursor_value x)) <$> last items in
  let! total_count :=
    (match count_func with
     | Some count => let! n := count in ret (Some n)
     | None => ret None
     end) in
  ret {| pg_items := items; pg_total_count := total_count; pg_end_cursor := end_cursor |}.

(** ** The listings of routes/role.py *)

Definition get_permissions (tok : string) (params : PaginationParams) : Py (Page Permission) :=
  get_current_user ["roles:read"] tok ;;!
  apply_cursor_pagination get_all_permissions params p_id None.

Definition get_roles (tok : string) (params : PaginationParams) : Py (Page RoleData) :=
  get_current_user ["roles:read"] tok ;;!
  apply_cursor_pagination get_all_roles params (fun r => r_id (rd_role r)) None.
End pagination.
