(* ===== verification/DeadLetter.v ===== *)
(** * The dead letter queue

    src/api/apps/common/v0/dao/dead_letter_task.py, service/dead_letter_task.py,
    routes/dead_letter_task.py, src/api/tasks/dlq_tasks.py, and the failure
    signal of src/api/core/celery_app.py with src/api/utils/serialization.py.

    A worker that gives a task up stores it; an operator lists, edits, deletes or
    retriggers the stored tasks.  [args], [kwargs] and [headers] are written as
    the text of [json.dumps] through a codec that encodes JSON itself
    (core/database.py), so the column holds a JSON string ([jsonb_text]) and the
    response model decodes it on access.  The export is in [Exports]. *)

From Stdlib Require Import ZArith Lia Ascii String List Bool.
From stdpp Require Import base gmap strings sorting list pretty.
From S2P Require Import Prelude Redis Schema JsonText World Tokens Users Cache Roles Totp AppConfig Auth Pagination.
Local Open Scope string_scope.
Local Open Scope list_scope.
Local Open Scope Z_scope.

(** ** Serialisation *)

Section serialize.
Context (str_of : PyVal -> string).

Fixpoint json_serialize_safe (v : PyVal) : Json :=
  match v with
  | PNone => JNull
  | PBool b => JBool b
  | PInt n => JNum n
  | PFloat t => JFloat t
  | PStr s => JStr s
  | PSeq l => JList (map json_serialize_safe l)
  | PDict fs => JObj (fold_left (fun d '(k, v) => dict_set k v d)
                        (map (fun '(k, v) => (py_str str_of k, json_serialize_safe v)) fs) [])
  | PObj s => JStr s
  end.
End serialize.

(** A text bound to a jsonb parameter: the pool's codec encodes it once more. *)
Definition jsonb_text (s : string) : Json := JStr s.

(** jsonb [||]. *)
Definition jsonb_concat (a b : Json) : Json :=
  match a, b with
  | JObj x, JObj y => JObj (fold_left (fun d '(k, v) => dict_set k v d) y x)
  | _, _ => let items j := match j with JList l => l | _ => [j] end in JList (items a ++ items b)
  end.

(** ** Request models *)

Record DLQTaskFilter := {
  df_task_name : option string;
  df_exception_type : option string;
  df_search : option string;
  df_date_from : option Z;
  df_date_to : option Z;
}.

Record DLQTarget := {
  dt_task_ids : option (list uuid);
  dt_task_name : option string;
}.

Record DLQUpdatePayload := {
  du_target : DLQTarget;
  du_args : option (list Json);
  du_kwargs : option (list (string * Json));
  du_queue : option string;
  du_merge_kwargs : bool;
}.

Record DLQStats := {
  total_count : Z;
  by_task_name : list (string * Z);
  by_exception_type : list (string * Z);
}.

(** [DLQTaskResponse.__getattribute__] of [args] and of [task_kwargs]. *)
Definition decoded (empty : Json) (j : Json) : Json :=
  match j with JStr s => default empty (loads s) | _ => j end.
Definition response_args (d : DeadLetterTask) : Json := decoded (JList []) (d_args d).
Definition response_kwargs (d : DeadLetterTask) : Json := decoded (JObj []) (d_kwargs d).

(** ** Statements *)

(** [if x:] of an optional text, then an equality. *)
Definition eq_if (x : option string) (y : option string) : bool :=
  match or_opt x None with Some s => bool_decide (y = Some s) | None => true end.

(** The WHERE clause both listings build. *)
Definition dlq_matches (f : DLQTaskFilter) (d : DeadLetterTask) : bool :=
  eq_if (df_task_name f) (Some (d_task_name d)) &&
  eq_if (df_exception_type f) (d_exception_type d) &&
  match or_opt (df_search f) None with
  | Some q => let p := "%" +:+ q +:+ "%" in
      ilike (d_task_name d) p || ilike_opt (d_exception_message d) p || ilike_opt (d_traceback d) p
  | None => true
  end &&
  match df_date_from f with Some t => t <=? d_failed_at d | None => true end &&
  match df_date_to f with Some t => d_failed_at d <=? t | None => true end.

(** The rows an update or a retrigger is aimed at: by ids, else by name, else all. *)
Definition targeted (ids : list uuid) (name : option string) (d : DeadLetterTask) : bool :=
  match ids with
  | [] => match or_opt name None with Some n => String.eqb (d_task_name d) n | None => true end
  | _ => mem (d_id d) ids
  end.

Definition edit_task (t0 : Z) (args kwargs : option Json) (merge : bool) (queue : option string)
  (d : DeadLetterTask) : DeadLetterTask :=
  {| d_id := d_id d; d_task_id := d_task_id d; d_task_name := d_task_name d;
     d_queue := default (d_queue d) queue;
     d_args := default (d_args d) args;
     d_kwargs := match kwargs with
                 | Some k => if merge then jsonb_concat (d_kwargs d) k else k
                 | None => d_kwargs d
                 end;
     d_headers := d_headers d; d_exception_type := d_exception_type d;
     d_exception_message := d_exception_message d; d_traceback := d_traceback d;
     d_retry_count := d_retry_count d; d_failed_at := d_failed_at d;
     d_created_at := d_created_at d; d_updated_at := t0 |}.

Definition count_rows (P : DeadLetterTask -> bool) (t : Tables) : Z :=
  Z.of_nat (length (filter (fun d => P d = true) (values (dead_letter_tasks t)))).

(** UPDATE ... WHERE: the number of rows. *)
Definition update_dead_rows (P : DeadLetterTask -> bool) (f : DeadLetterTask -> DeadLetterTask) (t : Tables)
  : outcome Exn (Z * Tables) :=
  Ok (count_rows P t, set_dead_letter_tasks (fmap (fun d => if P d then f d else d)) t).

(** DELETE ... WHERE: the number of rows. *)
Definition delete_dead_rows (P : DeadLetterTask -> bool) (t : Tables) : outcome Exn (Z * Tables) :=
  Ok (count_rows P t, set_dead_letter_tasks (filter (fun '(_, d) => P d = false)) t).

(** DELETE ... WHERE ... RETURNING *. *)
Definition take_dead_rows (P : DeadLetterTask -> bool) (t : Tables) : outcome Exn (list DeadLetterTask * Tables) :=
  Ok (filter (fun d => P d = true) (values (dead_letter_tasks t)),
      set_dead_letter_tasks (filter (fun '(_, d) => P d = false)) t).

Definition insert_dead_row (id : uuid) (t0 : Z) (task_id task_name queue : string) (args kwargs headers : Json)
  (exc_type exc_message traceback : string) (retries : Z) (t : Tables) : outcome Exn (unit * Tables) :=
  Ok (tt, set_dead_letter_tasks (<[id :=
    {| d_id := id; d_task_id := task_id; d_task_name := task_name; d_queue := queue; d_args := args;
       d_kwargs := kwargs; d_headers := headers; d_exception_type := Some exc_type;
       d_exception_message := Some exc_message; d_traceback := Some traceback;
       d_retry_count := retries; d_failed_at := t0; d_created_at := t0; d_updated_at := t0 |}]>) t).

(** SELECT key, COUNT( * ) ... GROUP BY ... ORDER BY count DESC LIMIT 20; the order of
    equal counts is not specified. *)
Definition more_first (x y : option string * Z) : Prop := snd y <= snd x.
#[export] Instance more_first_dec : RelDecision more_first.
Proof. intros x y. unfold more_first. apply _. Defined.

Definition group_counts (keys : list (option string)) : list (option string * Z) :=
  take 20 (merge_sort more_first
    ((fun k => (k, Z.of_nat (length (filter (fun k' => k' = k) keys)))) <$> remove_dups keys)).

Fixpoint count_set (k : string) (n : Z) (d : list (string * Z)) : list (string * Z) :=
  match d with
  | [] => [(k, n)]
  | (k', n') :: d' => if String.eqb k' k then (k', n) :: d' else (k', n') :: count_set k n d'
  end.

(** ** The DAO *)

Module DeadLetterTaskDAO.
Section dao.
Context {R : Type} {RD : Redis R} {EX : Ext}.
Local Abbreviation Py := (PyM (R := R)).

Definition list_tasks (filters : DLQTaskFilter) (limit : option Z) (cursor : option uuid) (offset : Z)
  : Py (list DeadLetterTask) :=
  db_read (fun t =>
    let rows := merge_sort (desc_by d_id) (filter (fun d =>
      dlq_matches filters d = true /\ before_cursor cursor (d_id d) = true) (values (dead_letter_tasks t))) in
    let rows := if 0 <? offset then drop (Z.to_nat offset) rows else rows in
    match limit with
    | Some n => if 0 <? n then take (Z.to_nat n) rows else rows
    | None => rows
    end).

Definition count_tasks (filters : DLQTaskFilter) : Py Z := db_read (count_rows (dlq_matches filters)).

Definition get_task_by_id (task_id : uuid) : Py (option DeadLetterTask) :=
  db_read (fun t => dead_letter_tasks t !! task_id).

Definition update_task_payload (payload : DLQUpdatePayload) (task_id : option uuid) : Py Z :=
  let! t0 := gets now in
  let args := (fun a => jsonb_text (dumps (JList a))) <$> du_args payload in
  let kwargs := (fun k => jsonb_text (dumps (JObj k))) <$> du_kwargs payload in
  let merge := du_merge_kwargs payload && bool_decide (task_id = None) in
  let ids := match task_id with
             | Some i => [i]
             | None => default [] (dt_task_ids (du_target payload))
             end in
  db_write (update_dead_rows (targeted ids (dt_task_name (du_target payload)))
    (edit_task t0 args kwargs merge (du_queue payload))).

Definition delete_tasks (task_ids : option (list uuid)) (task_name : option string) : Py Z :=
  match default [] task_ids, or_opt task_name None with
  | [], None => ret 0
  | ids, name => db_write (delete_dead_rows (targeted ids name))
  end.

Definition fetch_and_delete_tasks (task_ids : option (list uuid)) (task_name : option string)
  : Py (list DeadLetterTask) :=
  db_write_on_read_pool (take_dead_rows (targeted (default [] task_ids) task_name)).

Definition delete_old_tasks (days : Z) : Py Z :=
  let! t0 := gets now in
  db_write (delete_dead_rows (fun d => d_failed_at d <? t0 - days * 86400)).

Definition get_statistics : Py DLQStats :=
  let! total := db_read (count_rows (fun _ => true)) in
  let! tasks := db_read (fun t => group_counts ((fun d => Some (d_task_name d)) <$> values (dead_letter_tasks t))) in
  let! excs := db_read (fun t => group_counts (d_exception_type <$> values (dead_letter_tasks t))) in
  let dict rows := fold_left (fun d '(k, n) => count_set (default "Unknown" k) n d) rows [] in
  ret {| total_count := total; by_task_name := dict tasks; by_exception_type := dict excs |}.
End dao.
End DeadLetterTaskDAO.

(** ** The service *)

Record DLQActionResponse := { message : string; affected_count : Z }.

Definition no_dead_task (id : uuid) (suffix : string) : Exn :=
  HTTPException 404 ("Dead letter task with ID '" +:+ id +:+ "' not found" +:+ suffix).

Module DeadLetterTaskService.
Section service.
Context {R : Type} {RD : Redis R} {EX : Ext}.
Local Abbreviation Py := (PyM (R := R)).

Definition get_task_by_id (task_id : uuid) : Py DeadLetterTask :=
  let! task := DeadLetterTaskDAO.get_task_by_id task_id in
  match task with Some d => ret d | None => raise (no_dead_task task_id ".") end.

Definition update_task_payload (payload : DLQUpdatePayload) (task_id : option uuid) : Py DLQActionResponse :=
  let! count := DeadLetterTaskDAO.update_task_payload payload task_id in
  ret {| message := "Successfully updated " +:+ pretty count +:+ " task(s)."; affected_count := count |}.

(** The message for one stored task. *)
Definition retriggered (d : DeadLetterTask) : CeleryTask :=
  {| ct_name := d_task_name d; ct_args := response_args d; ct_kwargs := response_kwargs d;
     ct_queue := Some (d_queue d) |}.

(** The loop over the tasks: [retriggered_count]. *)
Fixpoint send_all (tasks : list DeadLetterTask) (count : Z) : Py Z :=
  match tasks with
  | [] => ret count
  | d :: rest => send_task (retriggered d) ;;! send_all rest (count + 1)
  end.

Definition retrigger_tasks (request : option DLQTarget) (task_id : option uuid) : Py DLQActionResponse :=
  let task_ids := match task_id with
                  | Some i => Some [i]
                  | None => match request with Some r => dt_task_ids r | None => None end
                  end in
  let task_name := match request with Some r => dt_task_name r | None => None end in
  let! tasks := DeadLetterTaskDAO.fetch_and_delete_tasks task_ids task_name in
  match tasks with
  | [] =>
      match task_id with
      | Some i => raise (no_dead_task i " or already deleted.")
      | None => ret {| message := "No matching tasks found to retrigger"; affected_count := 0 |}
      end
  | _ =>
      let! count := send_all tasks 0 in
      ret {| message := "Successfully retriggered " +:+ pretty count +:+ " task(s)."; affected_count := count |}
  end.

(** [task_ids or request.task_ids]: an empty list counts as none. *)
Definition delete_tasks (request : option DLQTarget) (task_id : option uuid) (task_ids : option (list uuid))
  : Py DLQActionResponse :=
  let ids := match task_id, task_ids with
             | Some i, _ => Some [i]
             | None, Some (i :: l) => Some (i :: l)
             | None, _ => match request with Some r => dt_task_ids r | None => None end
             end in
  let! count := DeadLetterTaskDAO.delete_tasks ids (match request with Some r => dt_task_name r | None => None end) in
  ret {| message := "Successfully deleted " +:+ pretty count +:+ " task record(s)."; affected_count := count |}.
End service.
End DeadLetterTaskService.

(** ** The failure signal and the retention task *)

Definition EXCLUDED_TASKS : list string :=
  ["celery.ping"; "celery.backend_cleanup"; "celery.chain"; "celery.group"; "celery.chord";
   "dlq_tasks.clean_old_dlq_tasks"].
Definition DEFAULT_RETENTION_DAYS : Z := 30.

(** The sender of the signal with what is read of its request. *)
Record Sender := {
  se_name : string;
  se_queue : option string;
  se_headers : option (list (PyVal * PyVal));
  se_retries : Z;
}.

Record TaskFailure := {
  tf_sender : option Sender;
  tf_task_id : option string;
  tf_exception : option (string * string);        (* the name of its type, its [str] *)
  tf_args : list PyVal;
  tf_kwargs : list (PyVal * PyVal);
  tf_einfo_traceback : option string;             (* [einfo.traceback] *)
  tf_traceback : option string;                   (* [format_tb(traceback)] *)
  tf_exception_text : string;                     (* [format_exception(...)] *)
}.

Definition _format_task_traceback (f : TaskFailure) : string :=
  match tf_einfo_traceback f, tf_traceback f, tf_exception f with
  | Some s, _, _ => s
  | None, Some s, _ => s
  | None, None, Some _ => tf_exception_text f
  | None, None, None => ""
  end.

Section worker.
Context {R : Type} {RD : Redis R} {EX : Ext} (str_of : PyVal -> string).
Local Abbreviation Py := (PyM (R := R)).

(** [db_error]: what the database raises at the insert; any exception is logged. *)
Definition _save_dead_letter_task (db_error : option Exn) (task_id task_name queue : string) (args : list PyVal)
  (kwargs headers : list (PyVal * PyVal)) (exc_type exc_message traceback : string) (retries : Z) : Py unit :=
  let text v := jsonb_text (dumps (json_serialize_safe str_of v)) in
  try_catch (
    match db_error with
    | Some e => raise e
    | None =>
        let! n := draw in
        let! t0 := gets now in
        db_write (insert_dead_row (uuid4 n) t0 task_id task_name queue
          (text (PSeq args)) (text (PDict kwargs)) (text (PDict headers)) exc_type exc_message traceback retries)
    end)
    (fun _ => ret tt).

(** [db_ready]: the worker's [db_instance] is set. *)
Definition handle_task_failure (db_ready : bool) (db_error : option Exn) (f : TaskFailure) : Py unit :=
  match tf_sender f, or_opt (tf_task_id f) None with
  | Some sender, Some task_id =>
      if mem (se_name sender) EXCLUDED_TASKS then ret tt
      else if negb db_ready then ret tt
      else
        _save_dead_letter_task db_error task_id (se_name sender) (default "default" (or_opt (se_queue sender) None))
          (tf_args f) (tf_kwargs f) (default [] (se_headers sender))
          (match tf_exception f with Some (n, _) => n | None => "UnknownException" end)
          (match tf_exception f with Some (_, m) => m | None => "Task failed without exception message" end)
          (_format_task_traceback f) (se_retries sender)
  | _, _ => ret tt
  end.

Definition clean_old_dlq_tasks (days : Z) : Py unit :=
  DeadLetterTaskDAO.delete_old_tasks days ;;! ret tt.
End worker.

(** ** The routes *)

Section routes.
Context {R : Type} {RD : Redis R} {EX : Ext} {ST : Settings}.
Local Abbreviation Py := (PyM (R := R)).

Definition list_dlq_tasks (tok : string) (pagination : PaginationParams) (filters : DLQTaskFilter)
  : Py (Page DeadLetterTask) :=
  get_current_user ["dlq:read"] tok ;;!
  apply_cursor_pagination (fun limit cursor => DeadLetterTaskDAO.list_tasks filters (Some limit) cursor 0)
    pagination d_id (Some (DeadLetterTaskDAO.count_tasks filters)).

Definition get_dlq_stats (tok : string) : Py DLQStats :=
  get_current_user ["dlq:read"] tok ;;! DeadLetterTaskDAO.get_statistics.

Definition get_dlq_task (tok : string) (task_id : uuid) : Py DeadLetterTask :=
  get_current_user ["dlq:read"] tok ;;! DeadLetterTaskService.get_task_by_id task_id.

Definition update_dlq_task (tok : string) (payload : DLQUpdatePayload) : Py DLQActionResponse :=
  get_current_user ["dlq:update"] tok ;;! DeadLetterTaskService.update_task_payload payload None.

Definition target_json (p : DLQTarget) : Json :=
  JObj [("task_ids", of_opt (fun l => JList (JStr <$> l)) (dt_task_ids p));
        ("task_name", of_opt JStr (dt_task_name p))].
Definition action_json (r : DLQActionResponse) : Json :=
  JObj [("message", JStr (message r)); ("affected_count", JNum (affected_count r))].

Definition retrigger_dlq_tasks (tok : string) (request : Request) (payload : DLQTarget) : Py DLQActionResponse :=
  get_current_user ["dlq:retrigger"] tok ;;!
  let! res := DeadLetterTaskService.retrigger_tasks (Some payload) None in
  let resource_id := match default [] (dt_task_ids payload) with
                     | [] => default "all" (or_opt (dt_task_name payload) None)
                     | ids => join "," ids
                     end in
  audit_log "DLQ_TASK_TRIGGER" "dlq_task" resource_id
    (Some (JObj [("request", target_json payload); ("result", action_json res)])) None None (Some request) ;;!
  ret res.

Definition delete_dlq_tasks (tok : string) (request : option DLQTarget) (task_ids : option (list uuid))
  : Py DLQActionResponse :=
  get_current_user ["dlq:delete"] tok ;;!
  DeadLetterTaskService.delete_tasks request None task_ids.
End routes.
