(* ===== verification/PeriodicTasks.v ===== *)
(** * Periodic tasks and the beat scheduler

    src/api/apps/common/v0/dao/periodic_task.py, service/periodic_task.py,
    routes/periodic_task.py, schemas/periodic_task.py and
    src/api/core/celery_scheduler.py.

    An operator keeps schedules in [periodic_tasks]; each change drops the cached
    schedule and bumps a version in Redis, and the beat process reloads when the
    version it sees is not the one it recorded.  The service writes [args] and
    [kwargs] as texts through the pool's codec ([jsonb_text], as in [DeadLetter]);
    the beat process reads them over a plain connection, whose jsonb values are
    texts that it decodes once.  Celery's registry of tasks and its check of
    crontab fields are parameters; [Scheduler.tick] of Celery is not modelled. *)

From Stdlib Require Import ZArith Lia Ascii String List Bool.
From stdpp Require Import base gmap strings sorting list pretty.
From S2P Require Import Prelude Redis Schema JsonText World Tokens Users Cache Roles Totp AppConfig Auth DeadLetter.
Local Open Scope string_scope.
Local Open Scope list_scope.
Local Open Scope Z_scope.

Class Celery := {
  (** [celery_app.tasks] once the default modules are imported. *)
  celery_tasks : list string;
  (** [crontab(minute, hour, day_of_week, day_of_month, month_of_year)] raises nothing. *)
  crontab_ok : PyVal -> PyVal -> PyVal -> PyVal -> PyVal -> bool;
}.

Definition SCHEDULE_DATA : string := "celery:beat_schedule_data".
Definition SCHEDULE_VERSION : string := "celery:schedule_version".

#[export] Instance schedule_type_eq_dec : EqDecision ScheduleType.
Proof. solve_decision. Defined.
#[export] Instance interval_period_eq_dec : EqDecision IntervalPeriod.
Proof. solve_decision. Defined.

Definition type_text (t : ScheduleType) : string :=
  match t with CRONTAB => "crontab" | INTERVAL => "interval" end.
Definition period_text (p : IntervalPeriod) : string :=
  match p with SECONDS => "seconds" | MINUTES => "minutes" | HOURS => "hours" | DAYS => "days" end.

(** ** Request models *)

Record PeriodicTaskCreate := {
  ptc_name : string;
  ptc_task : string;
  ptc_schedule_type : ScheduleType;
  ptc_cron_minute : option string;
  ptc_cron_hour : option string;
  ptc_cron_day_of_week : option string;
  ptc_cron_day_of_month : option string;
  ptc_cron_month_of_year : option string;
  ptc_interval_every : option Z;
  ptc_interval_period : option IntervalPeriod;
  ptc_args : list Json;
  ptc_kwargs : list (string * Json);
  ptc_enabled : bool;
}.

Record PeriodicTaskUpdate := {
  ptu_name : option string;
  ptu_task : option string;
  ptu_schedule_type : option ScheduleType;
  ptu_cron_minute : option string;
  ptu_cron_hour : option string;
  ptu_cron_day_of_week : option string;
  ptu_cron_day_of_month : option string;
  ptu_cron_month_of_year : option string;
  ptu_interval_every : option Z;
  ptu_interval_period : option IntervalPeriod;
  ptu_args : option (list Json);
  ptu_kwargs : option (list (string * Json));
  ptu_enabled : option bool;
}.

Definition positive_opt (o : option Z) : bool := match o with Some n => 0 <? n | None => true end.

Section validate.
Context {CE : Celery}.

(** [v or "*"] of an optional text. *)
Definition or_star (o : option string) : PyVal := PStr (default "*" (or_opt o None)).

Definition crontab_fields_ok (mi h dw dm my : option string) : bool :=
  crontab_ok (or_star mi) (or_star h) (or_star dw) (or_star dm) (or_star my).

(** The field constraint and [validate_schedule_fields]. *)
Definition create_valid (c : PeriodicTaskCreate) : bool :=
  positive_opt (ptc_interval_every c) &&
  match ptc_schedule_type c with
  | INTERVAL => bool_decide (is_Some (ptc_interval_every c)) && bool_decide (is_Some (ptc_interval_period c))
  | CRONTAB => crontab_fields_ok (ptc_cron_minute c) (ptc_cron_hour c) (ptc_cron_day_of_week c)
                 (ptc_cron_day_of_month c) (ptc_cron_month_of_year c)
  end.

(** [validate_update_schedule_fields]. *)
Definition update_valid (u : PeriodicTaskUpdate) : bool :=
  positive_opt (ptu_interval_every u) &&
  (if bool_decide (Exists is_Some [ptu_cron_minute u; ptu_cron_hour u; ptu_cron_day_of_week u;
                                   ptu_cron_day_of_month u; ptu_cron_month_of_year u])
   then crontab_fields_ok (ptu_cron_minute u) (ptu_cron_hour u) (ptu_cron_day_of_week u)
          (ptu_cron_day_of_month u) (ptu_cron_month_of_year u)
   else true).
End validate.

(** ** Statements *)

Definition newest_first (x y : PeriodicTask) : Prop := pt_created_at y <= pt_created_at x.
#[export] Instance newest_first_dec : RelDecision newest_first.
Proof. intros x y. unfold newest_first. apply _. Defined.

Definition task_name_taken (t : Tables) (id : uuid) (name : string) : bool :=
  existsb (fun p => String.eqb (pt_name p) name && negb (String.eqb (pt_id p) id)) (values (periodic_tasks t)).

Definition name_violation : Exn := UniqueViolation "periodic_tasks_name_key".

Definition insert_periodic_row (id : uuid) (t0 : Z) (c : PeriodicTaskCreate) (t : Tables)
  : outcome Exn (PeriodicTask * Tables) :=
  let p := {| pt_id := id; pt_name := ptc_name c; pt_task := ptc_task c;
              pt_schedule_type := ptc_schedule_type c; pt_cron_minute := ptc_cron_minute c;
              pt_cron_hour := ptc_cron_hour c; pt_cron_day_of_week := ptc_cron_day_of_week c;
              pt_cron_day_of_month := ptc_cron_day_of_month c;
              pt_cron_month_of_year := ptc_cron_month_of_year c;
              pt_interval_every := ptc_interval_every c; pt_interval_period := ptc_interval_period c;
              pt_args := jsonb_text (dumps (JList (ptc_args c)));
              pt_kwargs := jsonb_text (dumps (JObj (ptc_kwargs c)));
              pt_enabled := ptc_enabled c; pt_created_at := t0; pt_updated_at := t0 |} in
  if task_name_taken t id (ptc_name c) then Err name_violation
  else Ok (p, set_periodic_tasks (<[id := p]>) t).

(** [COALESCE($i, column)] of an optional column. *)
Definition coalesce {A} (a b : option A) : option A := match a with Some _ => a | None => b end.

Definition updated_task (t0 : Z) (u : PeriodicTaskUpdate) (p : PeriodicTask) : PeriodicTask :=
  {| pt_id := pt_id p; pt_name := default (pt_name p) (ptu_name u);
     pt_task := default (pt_task p) (ptu_task u);
     pt_schedule_type := default (pt_schedule_type p) (ptu_schedule_type u);
     pt_cron_minute := coalesce (ptu_cron_minute u) (pt_cron_minute p);
     pt_cron_hour := coalesce (ptu_cron_hour u) (pt_cron_hour p);
     pt_cron_day_of_week := coalesce (ptu_cron_day_of_week u) (pt_cron_day_of_week p);
     pt_cron_day_of_month := coalesce (ptu_cron_day_of_month u) (pt_cron_day_of_month p);
     pt_cron_month_of_year := coalesce (ptu_cron_month_of_year u) (pt_cron_month_of_year p);
     pt_interval_every := coalesce (ptu_interval_every u) (pt_interval_every p);
     pt_interval_period := coalesce (ptu_interval_period u) (pt_interval_period p);
     pt_args := from_option (fun l => jsonb_text (dumps (JList l))) (pt_args p) (ptu_args u);
     pt_kwargs := from_option (fun l => jsonb_text (dumps (JObj l))) (pt_kwargs p) (ptu_kwargs u);
     pt_enabled := default (pt_enabled p) (ptu_enabled u);
     pt_created_at := pt_created_at p; pt_updated_at := t0 |}.

Definition update_periodic_row (t0 : Z) (id : uuid) (u : PeriodicTaskUpdate) (t : Tables)
  : outcome Exn (option PeriodicTask * Tables) :=
  match periodic_tasks t !! id with
  | None => Ok (None, t)
  | Some p =>
      let p' := updated_task t0 u p in
      if task_name_taken t id (pt_name p') then Err name_violation
      else Ok (Some p', set_periodic_tasks (<[id := p']>) t)
  end.

(** DELETE ... RETURNING id: the number of rows. *)
Definition delete_periodic_rows (ids : list uuid) (t : Tables) : outcome Exn (Z * Tables) :=
  Ok (Z.of_nat (length (filter (fun p => pt_id p ∈ ids) (values (periodic_tasks t)))),
      set_periodic_tasks (filter (fun '(_, p) => pt_id p ∉ ids)) t).

(** ** The DAO *)

Module PeriodicTaskDAO.
Section dao.
Context {R : Type} {RD : Redis R} {EX : Ext}.
Local Abbreviation Py := (PyM (R := R)).

Definition search_of (search : option string) (p : PeriodicTask) : bool :=
  match search_pattern search with
  | Some q => ilike (pt_name p) q || ilike (pt_task p) q
  | None => true
  end.

Definition list_tasks : Py (list PeriodicTask) :=
  db_read (fun t => merge_sort newest_first (values (periodic_tasks t))).

Definition list_tasks_paginated (limit skip : Z) (search : option string) : Py (list PeriodicTask) :=
  db_read (fun t => take (Z.to_nat limit) (drop (Z.to_nat skip)
    (merge_sort newest_first (filter (fun p => search_of search p = true) (values (periodic_tasks t)))))).

Definition count_tasks (search : option string) : Py Z :=
  db_read (fun t => Z.of_nat (length (filter (fun p => search_of search p = true) (values (periodic_tasks t))))).

Definition get_by_ids (task_ids : list uuid) : Py (list PeriodicTask) :=
  match task_ids with
  | [] => ret []
  | _ => db_read (fun t => merge_sort newest_first
           (filter (fun p => pt_id p ∈ task_ids) (values (periodic_tasks t))))
  end.

Definition delete_tasks (task_ids : list uuid) : Py Z :=
  match task_ids with
  | [] => ret 0
  | _ => db_write_on_read_pool (delete_periodic_rows task_ids)
  end.

Definition get_task_by_id (task_id : uuid) : Py (option PeriodicTask) :=
  db_read (fun t => periodic_tasks t !! task_id).

Definition get_task_by_name (name : string) : Py (option PeriodicTask) :=
  db_read (fun t => head (filter (fun p => pt_name p = name) (values (periodic_tasks t)))).

Definition create_task (task_in : PeriodicTaskCreate) : Py PeriodicTask :=
  let! n := draw in
  let! t0 := gets now in
  db_write_on_read_pool (insert_periodic_row (uuid4 n) t0 task_in).

Definition update_task (task_id : uuid) (task_in : PeriodicTaskUpdate) : Py (option PeriodicTask) :=
  let! t0 := gets now in
  db_write_on_read_pool (update_periodic_row t0 task_id task_in).

Definition delete_task (task_id : uuid) : Py bool :=
  let! n := db_write_on_read_pool (delete_periodic_rows [task_id]) in ret (0 <? n).
End dao.
End PeriodicTaskDAO.

(** ** The service *)

Module PeriodicTaskService.
Section service.
Context {R : Type} {RD : Redis R} {EX : Ext} {CE : Celery}.
Local Abbreviation Py := (PyM (R := R)).

Definition _validate_task_exists (task_name : string) : Py unit :=
  raise_if (negb (mem task_name celery_tasks))
    (HTTPException 400 ("Task '" +:+ task_name +:+ "' is not a registered Celery task")).

Definition _notify_schedule_changed : Py unit := redis_del_incr SCHEDULE_DATA SCHEDULE_VERSION.

Definition list_registered_celery_tasks : Py (list string) :=
  ret (merge_sort String.le (filter (fun n => startswith n "celery." = false) celery_tasks)).

Definition not_found : Exn := HTTPException 404 "Periodic task not found".

Definition get_task (task_id : uuid) : Py PeriodicTask :=
  let! task := PeriodicTaskDAO.get_task_by_id task_id in
  match task with Some p => ret p | None => raise not_found end.

Definition create_task (task_in : PeriodicTaskCreate) : Py PeriodicTask :=
  _validate_task_exists (ptc_task task_in) ;;!
  let! existing := PeriodicTaskDAO.get_task_by_name (ptc_name task_in) in
  raise_if (bool_decide (is_Some existing))
    (HTTPException 400 ("Periodic task with name '" +:+ ptc_name task_in +:+ "' already exists")) ;;!
  let! task := PeriodicTaskDAO.create_task task_in in
  _notify_schedule_changed ;;!
  ret task.

Definition update_task (task_id : uuid) (task_in : PeriodicTaskUpdate) : Py PeriodicTask :=
  match ptu_task task_in with Some name => _validate_task_exists name | None => ret tt end ;;!
  let! task := PeriodicTaskDAO.update_task task_id task_in in
  match task with
  | None => raise not_found
  | Some p => _notify_schedule_changed ;;! ret p
  end.

Definition delete_task (task_id : uuid) : Py bool :=
  let! deleted := PeriodicTaskDAO.delete_task task_id in
  raise_if (negb deleted) not_found ;;!
  _notify_schedule_changed ;;!
  ret true.

(** The answer is the identifier Celery draws for the message. *)
Definition trigger_task_manually (task_name : string) (args kwargs : Json) : Py string :=
  _validate_task_exists task_name ;;!
  let! id := new_uuid4 in
  send_task {| ct_name := task_name; ct_args := args; ct_kwargs := kwargs; ct_queue := None |} ;;!
  ret id.
End service.
End PeriodicTaskService.

(** ** The routes *)

Record ManualTaskTriggerResponse := {
  mt_message : string;
  mt_task_id : string;
  mt_task_name : string;
}.

Section routes.
Context {R : Type} {RD : Redis R} {EX : Ext} {ST : Settings} {CE : Celery}.
Local Abbreviation Py := (PyM (R := R)).

Definition list_registered_celery_tasks (tok : string) : Py (list string) :=
  get_current_user ["periodic_tasks:read"] tok ;;! PeriodicTaskService.list_registered_celery_tasks.

Definition list_periodic_tasks (tok : string) : Py (list PeriodicTask) :=
  get_current_user ["periodic_tasks:read"] tok ;;! PeriodicTaskDAO.list_tasks.

Definition create_periodic_task (tok : string) (task_in : PeriodicTaskCreate) : Py PeriodicTask :=
  get_current_user ["periodic_tasks:create"] tok ;;!
  raise_if (negb (create_valid task_in)) ValidationErr ;;!
  PeriodicTaskService.create_task task_in.

Definition get_periodic_task (tok : string) (task_id : uuid) : Py PeriodicTask :=
  get_current_user ["periodic_tasks:read"] tok ;;! PeriodicTaskService.get_task task_id.

Definition update_periodic_task (tok : string) (task_id : uuid) (task_in : PeriodicTaskUpdate) : Py PeriodicTask :=
  get_current_user ["periodic_tasks:update"] tok ;;!
  raise_if (negb (update_valid task_in)) ValidationErr ;;!
  PeriodicTaskService.update_task task_id task_in.

Definition delete_periodic_task (tok : string) (task_id : uuid) : Py unit :=
  get_current_user ["periodic_tasks:delete"] tok ;;! PeriodicTaskService.delete_task task_id ;;! ret tt.

Definition trigger_details (id name : string) : Json :=
  JObj [("celery_task_id", JStr id); ("task_name", JStr name)].

Definition trigger_periodic_task_manually (tok : string) (request : Request) (task_id : uuid)
  : Py ManualTaskTriggerResponse :=
  get_current_user ["periodic_tasks:trigger"] tok ;;!
  let! p := PeriodicTaskService.get_task task_id in
  let! id := PeriodicTaskService.trigger_task_manually (pt_task p) (pt_args p) (pt_kwargs p) in
  audit_log "PERIODIC_TASK_TRIGGER" "periodic_task" task_id (Some (trigger_details id (pt_task p)))
    None None (Some request) ;;!
  ret {| mt_message := "Task '" +:+ pt_name p +:+ "' dispatched successfully"; mt_task_id := id;
         mt_task_name := pt_task p |}.

Definition trigger_task_by_name (tok : string) (request : Request) (task_name : string)
  (args : list Json) (kwargs : list (string * Json)) : Py ManualTaskTriggerResponse :=
  get_current_user ["periodic_tasks:trigger"] tok ;;!
  let! id := PeriodicTaskService.trigger_task_manually task_name (JList args) (JObj kwargs) in
  audit_log "PERIODIC_TASK_TRIGGER" "periodic_task" task_name (Some (trigger_details id task_name))
    None None (Some request) ;;!
  ret {| mt_message := "Task '" +:+ task_name +:+ "' dispatched successfully"; mt_task_id := id;
         mt_task_name := task_name |}.
End routes.
