(* ===== verification/BeatScheduler.v ===== *)
(** * The database scheduler of Celery beat

    src/api/core/celery_scheduler.py: [parse_schedule] and the class
    [DatabaseBeatScheduler].  The rows are the dicts the plain connection gives;
    a value that is no JSON (UUID, datetime) is a [PObj].  The scheduler's own
    state is [Beat]; it shares Redis and the primary database with the service
    ([PeriodicTasks]).  [db_up] says whether a connection to the database
    succeeds.  The names of the cached rows are texts. *)

From Stdlib Require Import ZArith Lia Ascii String List Bool.
From stdpp Require Import base gmap strings sorting list pretty.
From S2P Require Import Prelude Redis Schema JsonText World DeadLetter PeriodicTasks.
Local Open Scope string_scope.
Local Open Scope list_scope.
Local Open Scope Z_scope.

(** [d.get(k)] on a dict. *)
Fixpoint dict_get (k : string) (fs : list (PyVal * PyVal)) : option PyVal :=
  match fs with
  | [] => None
  | (PStr k', v) :: fs' => if String.eqb k' k then Some v else dict_get k fs'
  | _ :: fs' => dict_get k fs'
  end.

(** [d.get(k) or v]. *)
Definition get_or (k : string) (v : PyVal) (fs : list (PyVal * PyVal)) : PyVal :=
  match dict_get k fs with Some x => if py_truthy x then x else v | None => v end.

Inductive Schedule :=
| run_every (seconds : Z)
| crontab (minute hour day_of_week day_of_month month_of_year : PyVal).

(** [timedelta(seconds=s)]: its days fit nine digits. *)
Definition timedelta (s : Z) : outcome Exn Z :=
  if Z.abs (s / 86400) <=? 999999999 then Ok s else Err (ValueErr "OverflowError").

Record ScheduleEntry := {
  en_name : string;
  en_task : PyVal;
  en_schedule : Schedule;
  en_args : PyVal;
  en_kwargs : PyVal;
}.

Record Beat := {
  _last_version : option string;
  schedule : gmap string ScheduleEntry;
}.

Section scheduler.
Context {R : Type} {RD : Redis R} {EX : Ext} {CE : Celery} (str_of : PyVal -> string).
Local Abbreviation Py := (PyM (R := R)).

Definition seconds_multiplier (period : string) : Z :=
  if String.eqb period "seconds" then 1
  else if String.eqb period "minutes" then 60
  else if String.eqb period "hours" then 3600
  else if String.eqb period "days" then 86400
  else 60.

Definition parse_schedule (task_row : list (PyVal * PyVal)) : outcome Exn Schedule :=
  let schedule_type := py_str str_of (default (PStr "crontab") (dict_get "schedule_type" task_row)) in
  if String.eqb schedule_type "interval" then
    match py_int (get_or "interval_every" (PInt 60) task_row) with
    | None => Err (ValueErr "interval_every")
    | Some every =>
        let period := py_str str_of (default (PStr "seconds") (dict_get "interval_period" task_row)) in
        obind (timedelta (every * seconds_multiplier period)) (fun s => Ok (run_every s))
    end
  else
    let field k := get_or k (PStr "*") task_row in
    let mi := field "cron_minute" in let h := field "cron_hour" in let dw := field "cron_day_of_week" in
    let dm := field "cron_day_of_month" in let my := field "cron_month_of_year" in
    if crontab_ok mi h dw dm my then Ok (crontab mi h dw dm my) else Err (ValueErr "crontab").

(** [dict(row)] with [args] and [kwargs] decoded from the text of the column. *)
Definition row_dict (p : PeriodicTask) : list (PyVal * PyVal) :=
  let text o := from_option PStr PNone o in
  let json empty j := match j with JNull => empty | _ => of_json_value j end in
  [(PStr "id", PObj (pt_id p));
   (PStr "name", PStr (pt_name p));
   (PStr "task", PStr (pt_task p));
   (PStr "schedule_type", PStr (type_text (pt_schedule_type p)));
   (PStr "cron_minute", text (pt_cron_minute p));
   (PStr "cron_hour", text (pt_cron_hour p));
   (PStr "cron_day_of_week", text (pt_cron_day_of_week p));
   (PStr "cron_day_of_month", text (pt_cron_day_of_month p));
   (PStr "cron_month_of_year", text (pt_cron_month_of_year p));
   (PStr "interval_every", from_option PInt PNone (pt_interval_every p));
   (PStr "interval_period", text (period_text <$> pt_interval_period p));
   (PStr "args", json (PSeq []) (pt_args p));
   (PStr "kwargs", json (PDict []) (pt_kwargs p));
   (PStr "enabled", PBool (pt_enabled p));
   (PStr "last_run_at", PNone);
   (PStr "total_run_count", PInt 0);
   (PStr "created_at", PObj (pretty (pt_created_at p)));
   (PStr "updated_at", PObj (pretty (pt_updated_at p)))].

(** A connection that fails gives no rows. *)
Definition fetch_tasks_from_db (db_up : bool) : Py (list PyVal) :=
  gets (fun w => if db_up
    then (fun p => PDict (row_dict p)) <$> filter (fun p => pt_enabled p = true) (values (periodic_tasks (db w)))
    else []).

(** What a loop over [json.loads(cached_json)] goes through, after its [len]. *)
Definition cached_tasks (v : RVal) : outcome Exn (list PyVal) :=
  match (match v with RText s => loads s | RJson j => Some j end) with
  | None => Err (ValueErr "JSONDecodeError")
  | Some (JList l) => Ok (map of_json_value l)
  | Some (JObj fs) => Ok (map (fun p => PStr (fst p)) fs)
  | Some (JStr s) => Ok (map (fun c => PStr (String c EmptyString)) (list_ascii_of_string s))
  | Some _ => Err (TypeErr "len")
  end.

(** One turn of the loop over the rows; an exception of a row is logged, one of
    [task_info["name"]] is not. *)
Definition entry_of (row : list (PyVal * PyVal)) (name : string) : outcome Exn ScheduleEntry :=
  obind (parse_schedule row) (fun s =>
    match dict_get "task" row with
    | None => Err (KeyErr "task")
    | Some task => Ok {| en_name := name; en_task := task; en_schedule := s;
                         en_args := get_or "args" (PSeq []) row;
                         en_kwargs := get_or "kwargs" (PDict []) row |}
    end).

Fixpoint new_schedule (tasks : list PyVal) (acc : gmap string ScheduleEntry)
  : outcome Exn (gmap string ScheduleEntry) :=
  match tasks with
  | [] => Ok acc
  | PDict row :: rest =>
      match dict_get "name" row with
      | None => Err (KeyErr "name")
      | Some (PStr name) =>
          new_schedule rest (match entry_of row name with Ok e => <[name := e]> acc | Err _ => acc end)
      | Some _ => Err (TypeErr "name")
      end
  | _ :: _ => Err (TypeErr "indices")
  end.

Definition rval_text (v : RVal) : string := match v with RText s => s | RJson j => dumps j end.

(** The rows of the cached schedule, or of the database; [json.dumps] of rows that
    hold a UUID raises after the database was read. *)
Definition rows_for (db_up : bool) (cached_json : option RVal) : Py (list PyVal) :=
  match (match cached_json with Some v => if rval_truthy v then Some v else None | None => None end) with
  | Some v => lift (cached_tasks v)
  | None =>
      let! tasks := fetch_tasks_from_db db_up in
      match tasks with
      | [] => ret tasks
      | _ => match json_of_value (PSeq tasks) with
             | None => raise (TypeErr "not JSON serializable")
             | Some j => redis_set SCHEDULE_DATA (RText (dumps j)) (Some 3600) ;;! ret tasks
             end
      end
  end.

(** The guarded part: the rows, and the version read after them. *)
Definition load_tasks (db_up : bool) : Py (list PyVal * option string) :=
  let! cached_json := redis_get SCHEDULE_DATA in
  let! tasks := rows_for db_up cached_json in
  let! raw_ver := redis_get SCHEDULE_VERSION in
  ret (tasks, rval_text <$> raw_ver).

(** The scheduler afterwards, and what the method raised: an exception of the last
    loop leaves the schedule and comes after the version was recorded. *)
Definition reload_schedule (db_up : bool) (b : Beat) : Py (Beat * outcome Exn unit) :=
  let! loaded :=
    try_catch (load_tasks db_up)
      (fun _ => let! tasks := fetch_tasks_from_db db_up in ret (tasks, _last_version b)) in
  ret (match new_schedule (fst loaded) ∅ with
       | Ok entries => ({| _last_version := snd loaded; schedule := entries |}, Ok tt)
       | Err e => ({| _last_version := snd loaded; schedule := schedule b |}, Err e)
       end).

(** [install_default_entries], whose entries [reload_schedule] clears. *)
Definition setup_schedule (db_up : bool) (default_entries : gmap string ScheduleEntry)
  : Py (Beat * outcome Exn unit) :=
  reload_schedule db_up {| _last_version := None; schedule := default_entries |}.

(** The check before [Scheduler.tick]: any exception is logged. *)
Definition tick (db_up : bool) (b : Beat) : Py Beat :=
  try_catch (
    let! current_version := redis_get SCHEDULE_VERSION in
    if bool_decide (rval_text <$> current_version = _last_version b) then ret b
    else let! r := reload_schedule db_up b in ret (fst r))
    (fun _ => ret b).
End scheduler.
