(* ===== verification/ApiKeys.v ===== *)
(** * API keys

    src/api/apps/common/v0/dao/api_key.py, service/api_key.py, routes/api_key.py,
    the key functions of src/api/apps/common/utils.py and [get_api_key] of
    src/api/core/dependencies.py.

    A key is kept as its hash.  A lookup by hash is cached for thirty days, and
    the service drops the entry when it changes the key; the cached copy leaves
    the hash out.  The service reaches Redis through the attribute [client] of
    what [get_redis] injects (core/redis.py), which is the redis.asyncio client
    itself: there [client] is a method, and no command is found on it.  The
    statement that records the last use names a column no migration creates. *)

From Stdlib Require Import ZArith Lia Ascii String List Bool.
From stdpp Require Import base gmap strings sorting list pretty.
From S2P Require Import Prelude Redis Schema World Tokens Users Cache Roles Totp AppConfig Auth Pagination.
Local Open Scope string_scope.
Local Open Scope list_scope.
Local Open Scope Z_scope.

Definition API_KEY_CACHE_TTL_SECONDS : Z := 30 * 24 * 3600.
Definition API_KEY_LAST_USED_THROTTLE_SECONDS : Z := 300.
Definition API_KEY_CACHE (hashed_key : string) : string := "api_key:cache:" +:+ hashed_key.
Definition last_used_lock (id : uuid) : string := "api_key:last_used_lock:" +:+ id.

(** ** Models *)

Record ApiKeyCreate := {
  ac_name : string;
  ac_scopes : list string;
  ac_rate_limit : option Z;
  ac_expires_at : option Z;
}.

Record ApiKeyUpdate := {
  au_name : option string;
  au_scopes : option (list string);
  au_rate_limit : option Z;
  au_expires_at : option Z;
  au_is_active : option bool;
}.

Definition name_ok (s : string) : bool := (1 <=? String.length s)%nat && (String.length s <=? 100)%nat.
Definition rate_ok (n : Z) : bool := 1 <=? n.
Definition ApiKeyCreate_valid (c : ApiKeyCreate) : bool :=
  name_ok (ac_name c) && from_option rate_ok true (ac_rate_limit c).
Definition ApiKeyUpdate_valid (u : ApiKeyUpdate) : bool :=
  from_option name_ok true (au_name u) && from_option rate_ok true (au_rate_limit u).

Record ApiKeyData := {
  kd_id : uuid;
  kd_created_by : option uuid;
  kd_name : string;
  kd_prefix : string;
  kd_hashed_key : option string;
  kd_scopes : list string;
  kd_rate_limit : option Z;
  kd_expires_at : option Z;
  kd_last_used_at : option Z;
  kd_is_active : bool;
  kd_created_at : Z;
  kd_updated_at : Z;
}.

Definition key_data (k : ApiKey) : ApiKeyData :=
  {| kd_id := k_id k; kd_created_by := k_created_by k; kd_name := k_name k; kd_prefix := k_prefix k;
     kd_hashed_key := Some (k_hashed_key k); kd_scopes := k_scopes k; kd_rate_limit := k_rate_limit k;
     kd_expires_at := k_expires_at k; kd_last_used_at := k_last_used_at k; kd_is_active := k_is_active k;
     kd_created_at := k_created_at k; kd_updated_at := k_updated_at k |}.

(** [hashed_key] is excluded from every dump. *)
Definition without_hash (d : ApiKeyData) : ApiKeyData :=
  {| kd_id := kd_id d; kd_created_by := kd_created_by d; kd_name := kd_name d; kd_prefix := kd_prefix d;
     kd_hashed_key := None; kd_scopes := kd_scopes d; kd_rate_limit := kd_rate_limit d;
     kd_expires_at := kd_expires_at d; kd_last_used_at := kd_last_used_at d; kd_is_active := kd_is_active d;
     kd_created_at := kd_created_at d; kd_updated_at := kd_updated_at d |}.

Definition text_item (j : Json) : option string := as_str (Some j).
Definition texts (j : option Json) : option (list string) :=
  match j with Some (JList l) => mapM text_item l | _ => None end.

#[export] Instance cacheable_api_key : Cacheable (option ApiKeyData) := {|
  to_json := fun o => (fun d => JObj [
    ("id", JStr (kd_id d)); ("created_by", of_opt JStr (kd_created_by d)); ("name", JStr (kd_name d));
    ("prefix", JStr (kd_prefix d)); ("scopes", JList (JStr <$> kd_scopes d));
    ("rate_limit", of_opt JNum (kd_rate_limit d)); ("expires_at", of_opt JNum (kd_expires_at d));
    ("last_used_at", of_opt JNum (kd_last_used_at d)); ("is_active", JBool (kd_is_active d));
    ("created_at", JNum (kd_created_at d)); ("updated_at", JNum (kd_updated_at d))]) <$> o;
  of_json := fun j =>
    i ← as_str (jget "id" j); cb ← as_opt as_str (jget "created_by" j);
    n ← as_str (jget "name" j); p ← as_str (jget "prefix" j); s ← texts (jget "scopes" j);
    r ← as_opt as_num (jget "rate_limit" j); e ← as_opt as_num (jget "expires_at" j);
    l ← as_opt as_num (jget "last_used_at" j); a ← as_bool (jget "is_active" j);
    c ← as_num (jget "created_at" j); u ← as_num (jget "updated_at" j);
    Some (Some {| kd_id := i; kd_created_by := cb; kd_name := n; kd_prefix := p;
                  kd_hashed_key := as_str (jget "hashed_key" j); kd_scopes := s; kd_rate_limit := r;
                  kd_expires_at := e; kd_last_used_at := l; kd_is_active := a; kd_created_at := c;
                  kd_updated_at := u |})
|}.

Lemma mapM_texts (l : list string) : mapM text_item (JStr <$> l) = Some l.
Proof. induction l as [|s l IH]; [done|]. rewrite fmap_cons. cbn [mapM]. by rewrite IH. Qed.

(** The cached copy of a key is the key without its hash. *)
Lemma cached_api_key d j : to_json (Some d) = Some j -> of_json j = Some (Some (without_hash d)).
Proof.
  intros [= <-]. cbn [of_json cacheable_api_key jget fields_get as_str as_num as_bool String.eqb Ascii.eqb Bool.eqb texts].
  cbn [mbind option_bind]. rewrite mapM_texts. by destruct d as [? [] ? ? ? ? [] [] [] ? ? ?].
Qed.

(** ** Keys and hashes (utils.py) *)

Section keys.
Context {R : Type} {RD : Redis R} {EX : Ext}.

Definition hash_api_key (raw_key : string) : string := sha256 raw_key.

(** raw key, prefix, hash. *)
Definition generate_api_key : PyM (R := R) (string * string * string) :=
  let! n := draw in
  let raw_key := "ak_live_" +:+ token_urlsafe32 n in
  ret (raw_key, String.substring 0 16 raw_key, sha256 raw_key).
End keys.

(** ** Statements *)

Definition hash_taken (t : Tables) (id : uuid) (h : string) : bool :=
  existsb (fun k => String.eqb (k_hashed_key k) h && negb (String.eqb (k_id k) id)) (values (api_keys t)).

Definition insert_api_key (id : uuid) (t0 : Z) (c : ApiKeyCreate) (prefix hashed_key : string)
  (created_by : option uuid) (active : bool) (t : Tables) : outcome Exn (ApiKeyData * Tables) :=
  let k := {| k_id := id; k_created_by := created_by; k_name := ac_name c; k_prefix := prefix;
              k_hashed_key := hashed_key; k_scopes := ac_scopes c; k_rate_limit := ac_rate_limit c;
              k_expires_at := ac_expires_at c; k_last_used_at := None; k_is_active := active;
              k_created_at := t0; k_updated_at := t0 |} in
  if hash_taken t id hashed_key then Err (UniqueViolation "api_keys_hashed_key_key")
  else if from_option (fun u => negb (bool_decide (is_Some (users t !! u)))) false created_by
  then Err (ForeignKeyViolation "api_keys_created_by_fkey")
  else Ok (key_data k, set_api_keys (<[id := k]>) t).

Definition updated_key (t0 : Z) (u : ApiKeyUpdate) (k : ApiKey) : ApiKey :=
  {| k_id := k_id k; k_created_by := k_created_by k; k_name := default (k_name k) (au_name u);
     k_prefix := k_prefix k; k_hashed_key := k_hashed_key k; k_scopes := default (k_scopes k) (au_scopes u);
     k_rate_limit := match au_rate_limit u with Some r => Some r | None => k_rate_limit k end;
     k_expires_at := match au_expires_at u with Some e => Some e | None => k_expires_at k end;
     k_last_used_at := k_last_used_at k; k_is_active := default (k_is_active k) (au_is_active u);
     k_created_at := k_created_at k; k_updated_at := t0 |}.

Definition rotated_key (t0 : Z) (prefix hashed_key : string) (k : ApiKey) : ApiKey :=
  {| k_id := k_id k; k_created_by := k_created_by k; k_name := k_name k; k_prefix := prefix;
     k_hashed_key := hashed_key; k_scopes := k_scopes k; k_rate_limit := k_rate_limit k;
     k_expires_at := k_expires_at k; k_last_used_at := k_last_used_at k; k_is_active := k_is_active k;
     k_created_at := k_created_at k; k_updated_at := t0 |}.

(** UPDATE api_keys ... WHERE id = $1 RETURNING *. *)
Definition update_key_row (id : uuid) (f : ApiKey -> ApiKey) (t : Tables)
  : outcome Exn (option ApiKeyData * Tables) :=
  match api_keys t !! id with
  | None => Ok (None, t)
  | Some k =>
      if hash_taken t id (k_hashed_key (f k)) then Err (UniqueViolation "api_keys_hashed_key_key")
      else Ok (Some (key_data (f k)), set_api_keys (<[id := f k]>) t)
  end.

Definition delete_key_rows (ids : list uuid) (t : Tables) : outcome Exn (Z * Tables) :=
  Ok (Z.of_nat (length (filter (fun k => k_id k ∈ ids) (values (api_keys t)))),
      set_api_keys (filter (fun '(_, k) => k_id k ∉ ids)) t).

(** ** The DAO *)

Module ApiKeyDAO.
Section dao.
Context {R : Type} {RD : Redis R} {EX : Ext}.
Local Abbreviation Py := (PyM (R := R)).

Definition create_api_key (c : ApiKeyCreate) (prefix hashed_key : string) (created_by : option uuid)
  (active : bool) : Py ApiKeyData :=
  let! n := draw in
  let! t0 := gets now in
  db_write (insert_api_key (uuid7 n) t0 c prefix hashed_key created_by active).

Definition by_hash (hashed_key : string) (t : Tables) : option ApiKeyData :=
  key_data <$> head (filter (fun k => k_hashed_key k = hashed_key) (values (api_keys t))).

Definition get_api_key_by_hash (hashed_key : string) : Py (option ApiKeyData) :=
  cached (Some (API_KEY_CACHE hashed_key)) None (Some API_KEY_CACHE_TTL_SECONDS) (db_read (by_hash hashed_key)).

Definition get_api_key_by_id (key_id : uuid) : Py (option ApiKeyData) :=
  db_read (fun t => key_data <$> api_keys t !! key_id).

Definition list_api_keys (limit : Z) (cursor : option string) : Py (list ApiKeyData) :=
  db_read (fun t => take (Z.to_nat limit) (merge_sort (desc_by kd_id)
    (filter (fun d => before_cursor cursor (kd_id d) = true) (key_data <$> values (api_keys t))))).

Definition update_api_key (key_id : uuid) (update_data : ApiKeyUpdate) : Py (option ApiKeyData) :=
  let! t0 := gets now in
  db_write (update_key_row key_id (updated_key t0 update_data)).

Definition rotate_api_key (key_id : uuid) (new_prefix new_hashed_key : string) : Py (option ApiKeyData) :=
  let! t0 := gets now in
  db_write (update_key_row key_id (rotated_key t0 new_prefix new_hashed_key)).

(** The statement sets [last_used_ip]: the table has no such column. *)
Definition update_last_used (key_id : uuid) (ip_address : option string) : Py unit :=
  db_write (fun _ => Err (UndefinedColumn "last_used_ip")).

Definition delete_api_key (key_id : uuid) : Py bool :=
  let! n := db_write (delete_key_rows [key_id]) in ret (negb (n =? 0)).

Definition delete_api_keys (key_ids : list uuid) : Py Z :=
  match key_ids with
  | [] => ret 0
  | _ =>
      let! hashes := db_read (fun t =>
        k_hashed_key <$> filter (fun k => k_id k ∈ key_ids) (values (api_keys t))) in
      let! deleted_count := db_write_on_read_pool (delete_key_rows key_ids) in
      (if (0 <? deleted_count) then
         match filter (fun h => truthy h = true) hashes with
         | [] => ret tt
         | hs => try_catch (redis_del (API_KEY_CACHE <$> hs)) (fun _ => ret tt)
         end
       else ret tt) ;;!
      ret deleted_count
  end.
End dao.
End ApiKeyDAO.

(** ** The service *)

Module ApiKeyService.
Section service.
Context {R : Type} {RD : Redis R} {EX : Ext}.
Local Abbreviation Py := (PyM (R := R)).

(** [self.redis.client.<command>(...)] with the client that is injected: the look-up
    of the command raises, and the call [m] is not made. *)
Definition through_client {A} (command : string) (m : Py A) : Py A := raise (AttributeErr command).

Definition no_key (key_id : uuid) : Exn :=
  HTTPException 404 ("API Key with ID '" +:+ key_id +:+ "' not found.").

(** The created data with the raw key. *)
Definition create_api_key (key_in : ApiKeyCreate) (created_by : option uuid) : Py (ApiKeyData * string) :=
  let! (raw_key, prefix, hashed_key) := generate_api_key in
  let! data := ApiKeyDAO.create_api_key key_in prefix hashed_key created_by true in
  ret (without_hash data, raw_key).

Definition verify_api_key (raw_key : string) (ip_address : option string) : Py (option ApiKeyData) :=
  if negb (truthy raw_key) then ret None
  else
    let! data := ApiKeyDAO.get_api_key_by_hash (hash_api_key raw_key) in
    match data with
    | None => ret None
    | Some d =>
        if negb (kd_is_active d) then ret None
        else
          let! t0 := gets now in
          if from_option (fun e => e <? t0) false (kd_expires_at d) then ret None
          else
            let! acquired := through_client "set"
              (redis_set_nx (last_used_lock (kd_id d)) (RText "1") API_KEY_LAST_USED_THROTTLE_SECONDS) in
            when acquired (ApiKeyDAO.update_last_used (kd_id d) ip_address) ;;!
            ret (Some d)
    end.

Definition get_api_key (key_id : uuid) : Py ApiKeyData :=
  let! key := ApiKeyDAO.get_api_key_by_id key_id in
  match key with Some k => ret k | None => raise (no_key key_id) end.

Definition _evict_cache (hashed_key : option string) : Py unit :=
  match or_opt hashed_key None with
  | Some h => through_client "delete" (redis_del [API_KEY_CACHE h])
  | None => ret tt
  end.

Definition update_api_key (key_id : uuid) (update_in : ApiKeyUpdate) : Py ApiKeyData :=
  let! existing := get_api_key key_id in
  let! updated := ApiKeyDAO.update_api_key key_id update_in in
  match updated with
  | None => raise (no_key key_id)
  | Some u => _evict_cache (kd_hashed_key existing) ;;! ret u
  end.

Definition rotate_api_key (key_id : uuid) : Py (ApiKeyData * string) :=
  let! existing := get_api_key key_id in
  let! (raw_key, prefix, new_hashed_key) := generate_api_key in
  let! updated := ApiKeyDAO.rotate_api_key key_id prefix new_hashed_key in
  match updated with
  | None => raise (HTTPException 404 ("Failed to rotate API Key '" +:+ key_id +:+ "'."))
  | Some u => _evict_cache (kd_hashed_key existing) ;;! ret (without_hash u, raw_key)
  end.

Definition delete_api_key (key_id : uuid) : Py unit :=
  let! existing := get_api_key key_id in
  let! deleted := ApiKeyDAO.delete_api_key key_id in
  raise_if (negb deleted) (HTTPException 404 ("Failed to delete API Key '" +:+ key_id +:+ "'.")) ;;!
  _evict_cache (kd_hashed_key existing).
End service.
End ApiKeyService.

(** ** The dependency and the routes *)

Section routes.
Context {R : Type} {RD : Redis R} {EX : Ext} {ST : Settings}.
Local Abbreviation Py := (PyM (R := R)).

Fixpoint require_key_scopes (scopes granted : list string) : Py unit :=
  match scopes with
  | [] => ret tt
  | s :: rest =>
      raise_if (negb (mem s granted))
        (HTTPException 403 ("Not enough permissions: scope '" +:+ s +:+ "' required")) ;;!
      require_key_scopes rest granted
  end.

(** The dependency on the X-API-Key header. *)
Definition get_api_key (scopes : list string) (raw_key : option string) : Py ApiKeyData :=
  match or_opt raw_key None with
  | None => raise (HTTPException 401 "Missing API Key header (X-API-Key)")
  | Some raw_key =>
      let! api_key_data := ApiKeyService.verify_api_key raw_key None in
      match api_key_data with
      | None => raise (HTTPException 401 "Invalid, expired, or inactive API key")
      | Some d =>
          require_key_scopes scopes (kd_scopes d) ;;!
          modify (set_actor (Some (default (kd_id d) (kd_created_by d)))) ;;!
          ret d
      end
  end.

Definition route_create_api_key (tok : string) (key_in : ApiKeyCreate) : Py (ApiKeyData * string) :=
  let! user := get_current_user ["api_keys:create"] tok in
  raise_if (negb (ApiKeyCreate_valid key_in)) ValidationErr ;;!
  ApiKeyService.create_api_key key_in (Some (u_id (ud_user user))).

Definition list_api_keys (tok : string) (pagination : PaginationParams) : Py (Page ApiKeyData) :=
  get_current_user ["api_keys:read"] tok ;;!
  apply_cursor_pagination ApiKeyDAO.list_api_keys pagination kd_id None.

Definition route_get_api_key (tok : string) (key_id : uuid) : Py ApiKeyData :=
  get_current_user ["api_keys:read"] tok ;;! ApiKeyService.get_api_key key_id.

Definition route_update_api_key (tok : string) (key_id : uuid) (update_in : ApiKeyUpdate) : Py ApiKeyData :=
  get_current_user ["api_keys:update"] tok ;;!
  raise_if (negb (ApiKeyUpdate_valid update_in)) ValidationErr ;;!
  ApiKeyService.update_api_key key_id update_in.

Definition route_delete_api_key (tok : string) (key_id : uuid) : Py unit :=
  get_current_user ["api_keys:delete"] tok ;;! ApiKeyService.delete_api_key key_id.

Definition route_rotate_api_key (tok : string) (key_id : uuid) : Py (ApiKeyData * string) :=
  get_current_user ["api_keys:update"] tok ;;! ApiKeyService.rotate_api_key key_id.
End routes.
