(* ===== verification/EventBus.v ===== *)
(** * The event bus (src/api/core/events/bus.py)

    Publishing appends to the Redis stream ([World.publish]).  A worker reads
    new entries of its consumer group in batches, processes each and
    acknowledges it.  The stream group is the position after the last delivered
    entry and the entries delivered but not acknowledged.  Handlers are numbers
    with an interpretation [run]; starting and stopping the listener are in [Startup].
    Logging and the trimming of old entries are not modelled. *)

From Stdlib Require Import ZArith Lia Ascii String List Bool.
From stdpp Require Import base gmap strings list.
From S2P Require Import Prelude Schema Redis World.
Local Open Scope string_scope.
Local Open Scope list_scope.
Local Open Scope Z_scope.

(** ** Subscriptions: [self._subscribers] *)

Abbreviation Subscribers := (gmap string (list nat)).

Definition subscribe (event_name : string) (handler : nat) (subs : Subscribers) : Subscribers :=
  let hs := default [] (subs !! event_name) in
  <[event_name := if mem handler hs then hs else hs ++ [handler]]> subs.

(** The decorators of the imported listener modules, in order. *)
Definition autodiscover (modules : list (option (list (string * nat)))) (subs : Subscribers) : Subscribers :=
  foldl (fun subs m => match m with
                       | None => subs                      (* the import failed *)
                       | Some regs => foldl (fun s '(n, h) => subscribe n h s) subs regs
                       end) subs modules.

(** ** The consumer group *)

Record Group := {
  last_delivered : nat;       (* how many entries were delivered to the group *)
  pending : list nat;         (* delivered, not acknowledged *)
}.

Section bus.
Context {R : Type} {RD : Redis R} {EX : Ext}.

Definition BusM := M (World R * Group) Exn.

Definition lift_py {A} (m : PyM (R := R) A) : BusM A :=
  fun '(w, g) => let '(o, w') := m w in (o, (w', g)).

(** XGROUP CREATE with id "$": a new group starts at the end of the stream; an
    existing one is kept. *)
Definition start (existing : option Group) : BusM unit :=
  fun '(w, _) =>
    match redis_command (gets stream) w with
    | (Ok entries, w') =>
        (Ok tt, (w', match existing with
                     | Some g => g
                     | None => {| last_delivered := length entries; pending := [] |}
                     end))
    | (Err e, w') => (Err e, (w', default {| last_delivered := 0; pending := [] |} existing))
    end.

Definition batch_size : nat := 10.

(** XREADGROUP with ">" and COUNT 10: the entries after the last delivered one. *)
Definition xreadgroup : BusM (list (nat * Event)) :=
  fun '(w, g) =>
    match redis_command (gets stream) w with
    | (Ok entries, w') =>
        let new := take batch_size (drop (last_delivered g) entries) in
        let ids := seq (last_delivered g) (length new) in
        (Ok (zip ids new),
         (w', {| last_delivered := last_delivered g + length new; pending := pending g ++ ids |}))
    | (Err e, w') => (Err e, (w', g))
    end.

Definition xack (id : nat) : BusM unit :=
  fun '(w, g) =>
    match redis_command (ret tt) w with
    | (Ok _, w') => (Ok tt, (w', {| last_delivered := last_delivered g;
                                    pending := filter (fun i => i <> id) (pending g) |}))
    | (Err e, w') => (Err e, (w', g))
    end.

(** ** Processing *)

Context (run : nat -> Event -> PyM (R := R) unit).

Definition event_lock (e : Event) : string := "event_bus:lock:" +:+ event_id e.

(** Each handler runs; its exception is logged. *)
Fixpoint run_handlers (hs : list nat) (e : Event) : PyM (R := R) unit :=
  match hs with
  | [] => ret tt
  | h :: hs' => try_catch (run h e) (fun _ => ret tt) ;;! run_handlers hs' e
  end.

Definition _process_remote_event (subs : Subscribers) (e : Event) : PyM (R := R) unit :=
  try_catch (
    match default [] (subs !! event_name e) with
    | [] => ret tt
    | handlers =>
        let! acquired := redis_set_nx (event_lock e) (RText "1") 60 in
        if acquired : bool then run_handlers handlers e else ret tt
    end)
    (fun _ => ret tt).

(** The messages of a batch. *)
Fixpoint process_batch (subs : Subscribers) (messages : list (nat * Event)) : BusM unit :=
  match messages with
  | [] => ret tt
  | (id, e) :: rest =>
      lift_py (_process_remote_event subs e) ;;!
      xack id ;;!
      process_batch subs rest
  end.

(** One turn of the loop of [_redis_listener]: an exception is logged and the
    loop goes on. *)
Definition listener_turn (subs : Subscribers) : BusM unit :=
  try_catch (
    let! entries := xreadgroup in
    process_batch subs entries)
    (fun _ => ret tt).

(** [n] turns of the loop. *)
Fixpoint _redis_listener (n : nat) (subs : Subscribers) : BusM unit :=
  match n with
  | O => ret tt
  | S n' => listener_turn subs ;;! _redis_listener n' subs
  end.
End bus.
