(* ===== verification/WebhookUtils.v ===== *)
(** * Webhook utilities

    The webhook functions of src/api/apps/common/utils.py: signatures, the check
    of a target URL and the parser of header fields, with what they use of the
    Standard Library ([urllib.parse.urlparse], the IPv4 ranges of [ipaddress]).
    HMAC, name resolution and the check of a bracketed host are parameters. *)

From Stdlib Require Import ZArith Lia Ascii String List Bool.
From stdpp Require Import base gmap strings sorting list pretty.
From S2P Require Import Prelude Redis JsonText World.
Local Open Scope string_scope.
Local Open Scope list_scope.
Local Open Scope Z_scope.

Class WebhookExt := {
  (** [hmac.new(secret, message, sha256).hexdigest()]. *)
  hmac_sha256 : string -> string -> string;
  (** [socket.gethostbyname]: an IPv4 address as a number, or [gaierror]. *)
  gethostbyname : string -> option Z;
  (** [urllib.parse._check_bracketed_host] raises nothing. *)
  bracketed_ok : string -> bool;
  (** [settings.ENV]. *)
  ENV : string;
  (** [token_urlsafe(24)] of a draw. *)
  token_urlsafe24 : nat -> string;
}.

Definition hex_char (c : ascii) : bool :=
  let n := byte_of c in ((48 <=? n) && (n <=? 57)) || ((97 <=? n) && (n <=? 102)).

(** A digest is a non-empty text of hexadecimal digits. *)
Class WebhookLaws {WX : WebhookExt} : Prop := {
  hmac_hex : forall k m, all_chars hex_char (hmac_sha256 k m) = true;
  hmac_nonempty : forall k m, hmac_sha256 k m <> "";
}.

(** ** Text *)

(** [s.partition(c)] for one character: before, found, after. *)
Fixpoint partition (c : ascii) (s : string) : string * bool * string :=
  match s with
  | EmptyString => (EmptyString, false, EmptyString)
  | String d s' =>
      if Ascii.eqb d c then (EmptyString, true, s')
      else let '(a, f, b) := partition c s' in (String d a, f, b)
  end.

(** [s.rpartition(c)[2]]. *)
Fixpoint after_last (c : ascii) (s : string) : string :=
  match s with
  | EmptyString => EmptyString
  | String d s' =>
      if Ascii.eqb d c then after_last c s'
      else if snd (fst (partition c s')) then after_last c s' else s
  end.

Fixpoint filter_chars (P : ascii -> bool) (s : string) : string :=
  match s with
  | EmptyString => EmptyString
  | String c s' => if P c then String c (filter_chars P s') else filter_chars P s'
  end.

(** The part of a text before the first character of a set. *)
Fixpoint until (P : ascii -> bool) (s : string) : string :=
  match s with
  | EmptyString => EmptyString
  | String c s' => if P c then EmptyString else String c (until P s')
  end.

Fixpoint lstrip_chars (P : ascii -> bool) (s : string) : string :=
  match s with
  | EmptyString => EmptyString
  | String c s' => if P c then lstrip_chars P s' else s
  end.

(** [d[k] = v] on an insertion-ordered dict of texts. *)
Fixpoint put (k v : string) (d : list (string * string)) : list (string * string) :=
  match d with
  | [] => [(k, v)]
  | (k', v') :: d' => if String.eqb k' k then (k', v) :: d' else (k', v') :: put k v d'
  end.

Fixpoint get_text (k : string) (d : list (string * string)) : option string :=
  match d with
  | [] => None
  | (k', v) :: d' => if String.eqb k' k then Some v else get_text k d'
  end.

(** ** Signatures *)

Section signatures.
Context {WX : WebhookExt}.

Definition generate_webhook_signature (secret timestamp payload : string) : string :=
  hmac_sha256 secret (timestamp +:+ "." +:+ payload).

(** The fields of the header: [k=v] parts between commas, the last of a name wins. *)
Definition header_elements (signature_header : string) : list (string * string) :=
  fold_left (fun d part =>
    let '(k, found, v) := partition "=" part in
    if found : bool then put (strip k) (strip v) d else d)
    (split_on "," signature_header) [].

(** At the second [t0]; [compare_digest] of texts raises on what is not ASCII. *)
Definition verify_webhook_signature (secret signature_header payload : string) (tolerance_seconds t0 : Z)
  : outcome Exn bool :=
  if negb (truthy signature_header) || negb (truthy secret) then Ok false
  else
    let elements := header_elements signature_header in
    match or_opt (get_text "t" elements) None, or_opt (get_text "v1" elements) None with
    | Some timestamp_str, Some received_sig =>
        match int_of_text timestamp_str with
        | None => Ok false
        | Some timestamp_int =>
            if tolerance_seconds <? Z.abs (t0 - timestamp_int) then Ok false
            else
              let expected_sig := generate_webhook_signature secret timestamp_str payload in
              if all_chars (fun c => byte_of c <? 128) received_sig
              then Ok (String.eqb expected_sig received_sig)
              else Err (TypeErr "compare_digest")
        end
    | _, _ => Ok false
    end.

(** The header that a delivery sends. *)
Definition signature_header (secret timestamp payload : string) : string :=
  "t=" +:+ timestamp +:+ ",v1=" +:+ generate_webhook_signature secret timestamp payload.
End signatures.

(** ** Header fields *)

Section headers.
Context (str_of : PyVal -> string).

(** A line [Key: Value] or [key=value]; blank lines and comments are skipped. *)
Definition header_line (d : list (string * string)) (line : string) : list (string * string) :=
  let line := strip line in
  if negb (truthy line) || startswith line "#" then d
  else
    match partition ":" line with
    | (k, true, v) => put (strip k) (strip v) d
    | _ => match partition "=" line with
           | (k, true, v) => put (strip k) (strip v) d
           | _ => d
           end
    end.

(** [{str(k): str(v) for k, v in d.items()}]. *)
Definition text_items (l : list (PyVal * PyVal)) : list (string * string) :=
  fold_left (fun d '(k, v) => put (py_str str_of k) (py_str str_of v) d) l [].

Definition parse_headers (raw : PyVal) : list (string * string) :=
  if negb (py_truthy raw) then []
  else match raw with
       | PDict l => text_items l
       | PStr s =>
           let text := strip s in
           if negb (truthy text) || String.eqb text "{}" then []
           else match loads text with
                | Some (JObj fs) => text_items (map (fun '(k, v) => (PStr k, of_json_value v)) fs)
                | _ => fold_left header_line (splitlines text) []
                end
       | _ => []
       end.
End headers.

(** ** URLs *)

Definition is_alpha (c : ascii) : bool :=
  let n := byte_of (lower_ascii c) in (97 <=? n) && (n <=? 122).
Definition scheme_char (c : ascii) : bool :=
  is_alpha c || is_digit c || Ascii.eqb c "+" || Ascii.eqb c "-" || Ascii.eqb c ".".

(** The scheme and the rest. *)
Definition split_scheme (url : string) : string * string :=
  match partition ":" url with
  | (String c s, true, rest) =>
      if is_alpha c && all_chars scheme_char (String c s) then (lower (String c s), rest) else (EmptyString, url)
  | _ => (EmptyString, url)
  end.

Definition has_char (c : ascii) (s : string) : bool := snd (fst (partition c s)).

Section urls.
Context {WX : WebhookExt}.

(** [urlparse(url)]: the scheme and the network location. *)
Definition urlparse (url : string) : outcome Exn (string * string) :=
  let url := filter_chars (fun c => negb ((byte_of c =? 9) || (byte_of c =? 10) || (byte_of c =? 13)))
               (lstrip_chars (fun c => byte_of c <=? 32) url) in
  let '(scheme, rest) := split_scheme url in
  if startswith rest "//" then
    let netloc := until (fun c => Ascii.eqb c "/" || Ascii.eqb c "?" || Ascii.eqb c "#")
                    (String.substring 2 (String.length rest - 2) rest) in
    let opened := has_char "[" netloc in
    let closed := has_char "]" netloc in
    if negb (eqb opened closed) then Err (ValueErr "Invalid IPv6 URL")
    else if opened && negb (bracketed_ok (fst (fst (partition "]" (snd (partition "[" netloc))))))
    then Err (ValueErr "Invalid bracketed host")
    else Ok (scheme, netloc)
  else Ok (scheme, EmptyString).

(** [parsed.hostname]. *)
Definition hostname (netloc : string) : option string :=
  let hostinfo := after_last "@" netloc in
  let host := match partition "[" hostinfo with
              | (_, true, bracketed) => fst (fst (partition "]" bracketed))
              | _ => fst (fst (partition ":" hostinfo))
              end in
  if truthy host then
    match partition "%" host with
    | (h, true, zone) => Some (lower h +:+ "%" +:+ zone)
    | (h, false, _) => Some (lower h)
    end
  else None.

(** The address [a.b.c.d/n]. *)
Definition ip (a b c d : Z) : Z := ((a * 256 + b) * 256 + c) * 256 + d.
Definition in_net (net bits n : Z) : bool := Z.shiftr n (32 - bits) =? Z.shiftr net (32 - bits).

(** [IPv4Address.is_private] with its exceptions, and the other properties. *)
Definition is_private (n : Z) : bool :=
  existsb (fun '(net, bits) => in_net net bits n)
    [(ip 0 0 0 0, 8); (ip 10 0 0 0, 8); (ip 127 0 0 0, 8); (ip 169 254 0 0, 16); (ip 172 16 0 0, 12);
     (ip 192 0 0 0, 24); (ip 192 0 0 170, 31); (ip 192 0 2 0, 24); (ip 192 168 0 0, 16); (ip 198 18 0 0, 15);
     (ip 198 51 100 0, 24); (ip 203 0 113 0, 24); (ip 240 0 0 0, 4); (ip 255 255 255 255, 32)] &&
  negb ((n =? ip 192 0 0 9) || (n =? ip 192 0 0 10)).
Definition is_loopback (n : Z) : bool := in_net (ip 127 0 0 0) 8 n.
Definition is_link_local (n : Z) : bool := in_net (ip 169 254 0 0) 16 n.
Definition is_reserved (n : Z) : bool := in_net (ip 240 0 0 0) 4 n.
Definition is_unspecified (n : Z) : bool := n =? 0.

Definition bad_request (detail : string) : Exn := HTTPException 400 detail.

Definition validate_webhook_url (url : string) : outcome Exn unit :=
  obind (urlparse url) (fun '(scheme, netloc) =>
    if negb (String.eqb scheme "http" || String.eqb scheme "https")
    then Err (bad_request "Webhook URL must use HTTP or HTTPS scheme.")
    else if String.eqb ENV "dev" || String.eqb ENV "test" then Ok tt
    else match hostname netloc with
         | None => Err (bad_request "Invalid hostname in webhook URL.")
         | Some h =>
             match gethostbyname h with
             | None => Err (bad_request "Could not resolve webhook hostname.")
             | Some a =>
                 if is_private a || is_loopback a || is_link_local a || is_reserved a || is_unspecified a
                 then Err (bad_request "Webhook URL points to a forbidden private or local network address.")
                 else Ok tt
             end
         end).
End urls.
