(* ===== verification/Webhooks.v ===== *)
(** * Webhooks

    src/api/apps/common/v0/dao/webhook.py, dao/webhook_log.py, service/webhook.py,
    service/webhook_log.py, routes/webhook.py, adapters/, factories/webhook.py,
    listeners/webhook_dispatcher.py, schemas/webhook.py, and the delivery task of
    src/api/apps/common/tasks.py.

    Endpoints subscribe to event names.  The dispatcher turns each event of the
    bus into a Celery task; the task signs the payload, posts it to every active
    endpoint of the event and logs each attempt.  [headers], [payload] and the
    other jsonb columns are written as texts ([jsonb_text]), as in [DeadLetter].
    The HTTP client is a parameter.  Deliveries of one event run concurrently in
    the code and here in the order of the endpoints: they share no row.  Times of
    execution and the column [execution_time_ms] are not modelled. *)

From Stdlib Require Import ZArith Lia Ascii String List Bool.
From stdpp Require Import base gmap strings sorting list pretty.
From S2P Require Import Prelude Redis Schema JsonText World Tokens Users Cache Roles Totp AppConfig Auth Pagination.
From S2P Require Import DeadLetter EventBus WebhookUtils.
Local Open Scope string_scope.
Local Open Scope list_scope.
Local Open Scope Z_scope.

(** A response, or the text of an [httpx.HTTPError] or [OSError]. *)
Record HttpResponse := {
  status_code : Z;
  response_headers : list (string * string);
  response_text : string;
}.

Class HttpClient := {
  (** [client.post(url, content, headers)]. *)
  http_post : string -> string -> list (string * string) -> HttpResponse + string;
}.

Definition is_success (r : HttpResponse) : bool := (200 <=? status_code r) && (status_code r <=? 299).

(** ** Models *)

Definition WebhookEvents : list string := ["user.created"; "user.updated"; "user.deleted"].

(** core/events/constants.py. *)
Definition EventNames : list string :=
  ["user.created"; "user.password.changed"; "user.role.assigned"; "user.2fa.enabled"; "user.2fa.disabled";
   "user.impersonation.started"; "user.impersonation.stopped"].

Record WebhookEndpointCreate := {
  wc_url : string;
  wc_description : option string;
  wc_event_types : list string;
  wc_headers : list (string * string);
  wc_secret : option string;
}.

Record WebhookEndpointUpdate := {
  wu_url : option string;
  wu_description : option string;
  wu_event_types : option (list string);
  wu_headers : option (list (string * string));
  wu_secret : option string;
  wu_is_active : option bool;
}.

Definition between (lo hi : nat) (s : string) : bool :=
  (lo <=? String.length s)%nat && (String.length s <=? hi)%nat.

(** [empty_secret_to_none]. *)
Definition secret_field (s : option string) : option string :=
  match s with Some x => if truthy (strip x) then Some x else None | None => None end.

(** [validate_event_types]; the order of [list(set(v))] is not specified. *)
Definition event_types_field (v : list string) : option (list string) :=
  if forallb (fun e => mem e WebhookEvents) v then Some (remove_dups v) else None.

Definition WebhookEndpointCreate_validate (c : WebhookEndpointCreate) : option WebhookEndpointCreate :=
  types ← (match wc_event_types c with [] => None | v => event_types_field v end);
  if between 7 2048 (wc_url c) && from_option (between 0 255) true (wc_description c) &&
     from_option (between 16 64) true (secret_field (wc_secret c))
  then Some {| wc_url := wc_url c; wc_description := wc_description c; wc_event_types := types;
               wc_headers := wc_headers c; wc_secret := secret_field (wc_secret c) |}
  else None.

Definition WebhookEndpointUpdate_validate (u : WebhookEndpointUpdate) : option WebhookEndpointUpdate :=
  types ← (match wu_event_types u with
           | None => Some None
           | Some [] => None
           | Some v => Some <$> event_types_field v
           end);
  if from_option (between 7 2048) true (wu_url u) && from_option (between 0 255) true (wu_description u) &&
     from_option (between 16 64) true (secret_field (wu_secret u))
  then Some {| wu_url := wu_url u; wu_description := wu_description u; wu_event_types := types;
               wu_headers := wu_headers u; wu_secret := secret_field (wu_secret u);
               wu_is_active := wu_is_active u |}
  else None.

Record WebhookLogCreate := {
  lc_direction : WebhookDirection;
  lc_endpoint_id : option uuid;
  lc_source : string;
  lc_event_name : string;
  lc_url : string;
  lc_status : WebhookStatus;
  lc_status_code : option Z;
  lc_payload : Json;
  lc_request_headers : option Json;
  lc_response_headers : option Json;
  lc_response_body : option string;
  lc_error_message : option string;
  lc_ip_address : option string;
}.

(** The field constraints: the payload is an object. *)
Definition WebhookLogCreate_valid (l : WebhookLogCreate) : bool :=
  between 0 100 (lc_source l) && between 0 100 (lc_event_name l) &&
  from_option (between 0 45) true (lc_ip_address l) &&
  match lc_payload l with JObj _ => true | _ => false end.

Definition text_dict (d : list (string * string)) : Json := JObj (map (fun '(k, v) => (k, JStr v)) d).

(** ** Statements *)

Definition insert_endpoint (id : uuid) (t0 : Z) (c : WebhookEndpointCreate) (secret : string)
  (created_by : option uuid) (t : Tables) : outcome Exn (WebhookEndpoint * Tables) :=
  let e := {| we_id := id; we_created_by := created_by; we_url := wc_url c; we_secret := secret;
              we_description := wc_description c; we_event_types := wc_event_types c;
              we_headers := jsonb_text (dumps (text_dict (wc_headers c))); we_is_active := true;
              we_created_at := t0; we_updated_at := t0 |} in
  if from_option (fun u => negb (bool_decide (is_Some (users t !! u)))) false created_by
  then Err (ForeignKeyViolation "webhook_endpoints_created_by_fkey")
  else Ok (e, set_webhook_endpoints (<[id := e]>) t).

Definition updated_endpoint (t0 : Z) (u : WebhookEndpointUpdate) (e : WebhookEndpoint) : WebhookEndpoint :=
  {| we_id := we_id e; we_created_by := we_created_by e; we_url := default (we_url e) (wu_url u);
     we_secret := default (we_secret e) (wu_secret u);
     we_description := match wu_description u with Some d => Some d | None => we_description e end;
     we_event_types := default (we_event_types e) (wu_event_types u);
     we_headers := from_option (fun h => jsonb_text (dumps (text_dict h))) (we_headers e) (wu_headers u);
     we_is_active := default (we_is_active e) (wu_is_active u);
     we_created_at := we_created_at e; we_updated_at := t0 |}.

Definition update_endpoint_row (t0 : Z) (id : uuid) (u : WebhookEndpointUpdate) (t : Tables)
  : outcome Exn (option WebhookEndpoint * Tables) :=
  match webhook_endpoints t !! id with
  | None => Ok (None, t)
  | Some e => Ok (Some (updated_endpoint t0 u e), set_webhook_endpoints (<[id := updated_endpoint t0 u e]>) t)
  end.

(** ON DELETE SET NULL of webhook_logs.endpoint_id. *)
Definition forget_endpoints (ids : list uuid) (l : WebhookLog) : WebhookLog :=
  {| wl_id := wl_id l; wl_direction := wl_direction l;
     wl_endpoint_id := match wl_endpoint_id l with Some e => if mem e ids then None else Some e | None => None end;
     wl_source := wl_source l; wl_event_name := wl_event_name l; wl_url := wl_url l; wl_status := wl_status l;
     wl_status_code := wl_status_code l; wl_payload := wl_payload l; wl_request_headers := wl_request_headers l;
     wl_response_headers := wl_response_headers l; wl_response_body := wl_response_body l;
     wl_error_message := wl_error_message l; wl_ip_address := wl_ip_address l; wl_created_at := wl_created_at l |}.

Definition delete_endpoint_rows (ids : list uuid) (t : Tables) : outcome Exn (Z * Tables) :=
  Ok (Z.of_nat (length (filter (fun e => we_id e ∈ ids) (values (webhook_endpoints t)))),
      set_webhook_endpoints (filter (fun '(_, e) => we_id e ∉ ids))
        (set_webhook_logs (fmap (forget_endpoints ids)) t)).

Definition insert_log (id : uuid) (t0 : Z) (l : WebhookLogCreate) (t : Tables) : outcome Exn (WebhookLog * Tables) :=
  let text := from_option (fun j => jsonb_text (dumps j)) JNull in
  let row :=
    {| wl_id := id; wl_direction := lc_direction l; wl_endpoint_id := lc_endpoint_id l; wl_source := lc_source l;
       wl_event_name := lc_event_name l; wl_url := lc_url l; wl_status := lc_status l;
       wl_status_code := lc_status_code l; wl_payload := jsonb_text (dumps (lc_payload l));
       wl_request_headers := text (lc_request_headers l); wl_response_headers := text (lc_response_headers l);
       wl_response_body := String.substring 0 2048 <$> or_opt (lc_response_body l) None;
       wl_error_message := lc_error_message l; wl_ip_address := lc_ip_address l; wl_created_at := t0 |} in
  if from_option (fun e => negb (bool_decide (is_Some (webhook_endpoints t !! e)))) false (lc_endpoint_id l)
  then Err (ForeignKeyViolation "webhook_logs_endpoint_id_fkey")
  else Ok (row, set_webhook_logs (fun ls => ls ++ [row]) t).

(** ORDER BY created_at. *)
Definition oldest_first (x y : WebhookEndpoint) : Prop := we_created_at x <= we_created_at y.
#[export] Instance oldest_first_dec : RelDecision oldest_first.
Proof. intros x y. unfold oldest_first. apply _. Defined.
Definition latest_log_first (x y : WebhookLog) : Prop := wl_created_at y <= wl_created_at x.
#[export] Instance latest_log_first_dec : RelDecision latest_log_first.
Proof. intros x y. unfold latest_log_first. apply _. Defined.

(** ** The DAOs *)

Module WebhookDAO.
Section dao.
Context {R : Type} {RD : Redis R} {EX : Ext}.
Local Abbreviation Py := (PyM (R := R)).

Definition create_endpoint (c : WebhookEndpointCreate) (secret : string) (created_by : option uuid) : Py WebhookEndpoint :=
  let! n := draw in
  let! t0 := gets now in
  db_write (insert_endpoint (uuid7 n) t0 c secret created_by).

Definition get_endpoint_by_id (endpoint_id : uuid) : Py (option WebhookEndpoint) :=
  db_read (fun t => webhook_endpoints t !! endpoint_id).

Definition list_endpoints (limit : Z) (cursor : option string) (is_active : option bool) : Py (list WebhookEndpoint) :=
  db_read (fun t => take (Z.to_nat limit) (merge_sort (desc_by we_id) (filter (fun e =>
    from_option (eqb (we_is_active e)) true is_active = true /\ before_cursor cursor (we_id e) = true)
    (values (webhook_endpoints t))))).

Definition subscribed (event_name : string) (t : Tables) : list WebhookEndpoint :=
  merge_sort oldest_first (filter (fun e => we_is_active e = true /\ event_name ∈ we_event_types e)
    (values (webhook_endpoints t))).

Definition list_active_endpoints_for_event (event_name : string) : Py (list WebhookEndpoint) :=
  db_read (subscribed event_name).

Definition update_endpoint (endpoint_id : uuid) (update_data : WebhookEndpointUpdate) : Py (option WebhookEndpoint) :=
  let! t0 := gets now in
  db_write (update_endpoint_row t0 endpoint_id update_data).

Definition delete_endpoint (endpoint_id : uuid) : Py bool :=
  let! n := db_write (delete_endpoint_rows [endpoint_id]) in ret (negb (n =? 0)).

Definition delete_endpoints (endpoint_ids : list uuid) : Py Z :=
  match endpoint_ids with
  | [] => ret 0
  | _ => db_write_on_read_pool (delete_endpoint_rows endpoint_ids)
  end.
End dao.
End WebhookDAO.

Record WebhookLogFilterParams := {
  lf_direction : option WebhookDirection;
  lf_status : option WebhookStatus;
  lf_event_name : option string;
  lf_source : option string;
  lf_endpoint_id : option uuid;
  lf_from_date : option Z;
  lf_to_date : option Z;
}.

#[export] Instance direction_eq_dec : EqDecision WebhookDirection.
Proof. solve_decision. Defined.
#[export] Instance status_eq_dec : EqDecision WebhookStatus.
Proof. solve_decision. Defined.

Definition log_matches (f : WebhookLogFilterParams) (l : WebhookLog) : bool :=
  from_option (fun d => bool_decide (wl_direction l = d)) true (lf_direction f) &&
  from_option (fun s => bool_decide (wl_status l = s)) true (lf_status f) &&
  eq_if (lf_source f) (Some (wl_source l)) && eq_if (lf_event_name f) (Some (wl_event_name l)) &&
  from_option (fun e => bool_decide (wl_endpoint_id l = Some e)) true (lf_endpoint_id f) &&
  from_option (fun t => t <=? wl_created_at l) true (lf_from_date f) &&
  from_option (fun t => wl_created_at l <=? t) true (lf_to_date f).

Module WebhookLogDAO.
Section dao.
Context {R : Type} {RD : Redis R} {EX : Ext}.
Local Abbreviation Py := (PyM (R := R)).

Definition create_log (log_in : WebhookLogCreate) : Py WebhookLog :=
  let! n := draw in
  let! t0 := gets now in
  db_write (insert_log (uuid4 n) t0 log_in).

Definition get_log_by_id (log_id : uuid) (created_at : option Z) : Py (option WebhookLog) :=
  db_read (fun t =>
    let rows := filter (fun l => wl_id l = log_id) (webhook_logs t) in
    match created_at with
    | Some c => head (filter (fun l => wl_created_at l = c) rows)
    | None => head (merge_sort latest_log_first rows)
    end).

(** [cursor]: a time. *)
Definition list_logs (limit : Z) (cursor : option Z) (filter_params : option WebhookLogFilterParams)
  : Py (list WebhookLog) :=
  db_read (fun t => take (Z.to_nat limit) (merge_sort latest_log_first (filter (fun l =>
    from_option (fun f => log_matches f l) true filter_params = true /\
    from_option (fun c => wl_created_at l <? c) true cursor = true) (webhook_logs t)))).
End dao.
End WebhookLogDAO.

(** ** The services *)

Module WebhookService.
Section service.
Context {R : Type} {RD : Redis R} {EX : Ext} {WX : WebhookExt}.
Local Abbreviation Py := (PyM (R := R)).

Definition no_endpoint (id : uuid) : Exn := HTTPException 404 ("Webhook endpoint '" +:+ id +:+ "' not found.").

Definition create_endpoint (endpoint_in : WebhookEndpointCreate) (created_by : option uuid) : Py WebhookEndpoint :=
  lift (validate_webhook_url (wc_url endpoint_in)) ;;!
  let! secret := (match or_opt (wc_secret endpoint_in) None with
                  | Some s => ret s
                  | None => let! n := draw in ret ("whsec_" +:+ token_urlsafe24 n)
                  end) in
  WebhookDAO.create_endpoint endpoint_in secret created_by.

Definition get_endpoint (endpoint_id : uuid) : Py WebhookEndpoint :=
  let! endpoint := WebhookDAO.get_endpoint_by_id endpoint_id in
  match endpoint with Some e => ret e | None => raise (no_endpoint endpoint_id) end.

Definition update_endpoint (endpoint_id : uuid) (update_in : WebhookEndpointUpdate) : Py WebhookEndpoint :=
  (match or_opt (wu_url update_in) None with
   | Some url => lift (validate_webhook_url url)
   | None => ret tt
   end) ;;!
  get_endpoint endpoint_id ;;!
  let! updated := WebhookDAO.update_endpoint endpoint_id update_in in
  match updated with Some e => ret e | None => raise (no_endpoint endpoint_id) end.

Definition delete_endpoint (endpoint_id : uuid) : Py unit :=
  get_endpoint endpoint_id ;;!
  let! deleted := WebhookDAO.delete_endpoint endpoint_id in
  raise_if (negb deleted) (HTTPException 404 ("Failed to delete webhook endpoint '" +:+ endpoint_id +:+ "'.")).

Definition dispatch_event_to_endpoints (event_name : string) (payload : list (string * Json)) (event_id : string) : Py bool :=
  send_task {| ct_name := "common.send_webhook_event";
               ct_args := JList [JStr event_name; JObj payload; JStr event_id];
               ct_kwargs := JNull; ct_queue := None |} ;;!
  ret true.
End service.
End WebhookService.

Section log_service.
Context {R : Type} {RD : Redis R} {EX : Ext}.
Local Abbreviation Py := (PyM (R := R)).

Definition get_log (log_id : uuid) (created_at : option Z) : Py WebhookLog :=
  let! log_entry := WebhookLogDAO.get_log_by_id log_id created_at in
  match log_entry with
  | Some l => ret l
  | None => raise (HTTPException 404 ("Webhook log entry '" +:+ log_id +:+ "' not found."))
  end.

(** The listener: the same handler for every event name. *)
Definition handle_application_event (e : Event) : Py unit :=
  WebhookService.dispatch_event_to_endpoints (event_name e) (payload e) (event_id e) ;;! ret tt.

Definition subscribe_dispatcher (handler : nat) (subs : Subscribers) : Subscribers :=
  foldl (fun s n => subscribe n handler s) subs EventNames.
End log_service.

(** ** Delivery: the Celery task *)

Section delivery.
Context {R : Type} {RD : Redis R} {EX : Ext} {WX : WebhookExt} {HC : HttpClient}.
Local Abbreviation Py := (PyM (R := R)).

(** One element of the sequence that [dict.update] takes: a pair of texts. *)
Definition pair_of_json (j : Json) : option (string * string) :=
  match j with
  | JList [JStr k; JStr v] => Some (k, v)
  | JStr (String a (String b EmptyString)) => Some (String a EmptyString, String b EmptyString)
  | _ => None
  end.

Definition char_items (s : string) : list Json := map (fun c => JStr (String c EmptyString)) (list_ascii_of_string s).

(** [headers.update(v)] of a JSON value that is truthy, with the check of httpx
    that header values are texts. *)
Definition update_headers (headers : list (string * string)) (v : Json) : outcome Exn (list (string * string)) :=
  let add l := fold_left (fun d '(k, x) => put k x d) l headers in
  match v with
  | JObj fs =>
      match mapM (fun '(k, x) => match x with JStr s => Some (k, s) | _ => None end) fs with
      | Some l => Ok (add l)
      | None => Err (TypeErr "Header value must be str or bytes")
      end
  | JStr s =>
      match mapM pair_of_json (char_items s) with
      | Some l => Ok (add l)
      | None => Err (ValueErr "dictionary update sequence element")
      end
  | JList l =>
      match mapM pair_of_json l with
      | Some l => Ok (add l)
      | None => Err (ValueErr "dictionary update sequence element")
      end
  | _ => Err (TypeErr "object is not iterable")
  end.

Definition delivery_headers (endpoint : WebhookEndpoint) (event_name event_id timestamp body : string)
  : outcome Exn (list (string * string)) :=
  let headers :=
    [("Content-Type", "application/json"); ("User-Agent", "FastAPI-Template-Webhook/1.0");
     ("X-Webhook-ID", event_id); ("X-Webhook-Event", event_name); ("X-Webhook-Timestamp", timestamp);
     ("X-Webhook-Signature", signature_header (we_secret endpoint) timestamp body)] in
  if falsy (we_headers endpoint) then Ok headers else update_headers headers (we_headers endpoint).

(** The entry of an attempt. *)
Definition delivery_log (endpoint : WebhookEndpoint) (event_name : string) (payload : list (string * Json))
  (headers : list (string * string)) (r : HttpResponse + string) : WebhookLogCreate :=
  {| lc_direction := OUTBOUND; lc_endpoint_id := Some (we_id endpoint); lc_source := "system";
     lc_event_name := event_name; lc_url := we_url endpoint;
     lc_status := match r with inl r => if is_success r then SUCCESS else FAILED | inr _ => FAILED end;
     lc_status_code := match r with inl r => Some (status_code r) | inr _ => None end;
     lc_payload := JObj payload; lc_request_headers := Some (text_dict headers);
     lc_response_headers := match r with inl r => Some (text_dict (response_headers r)) | inr _ => None end;
     lc_response_body := match r with inl r => Some (response_text r) | inr _ => None end;
     lc_error_message := match r with
                         | inl r => if is_success r then None
                                    else Some ("Received non-2xx status code: " +:+ pretty (status_code r))
                         | inr e => Some e
                         end;
     lc_ip_address := None |}.

Definition _deliver_to_endpoint (event_name event_id : string) (payload : list (string * Json))
  (timestamp body : string) (endpoint : WebhookEndpoint) : Py unit :=
  let! headers := lift (delivery_headers endpoint event_name event_id timestamp body) in
  let log := delivery_log endpoint event_name payload headers (http_post (we_url endpoint) body headers) in
  raise_if (negb (WebhookLogCreate_valid log)) ValidationErr ;;!
  WebhookLogDAO.create_log log ;;!
  ret tt.

(** [gather(..., return_exceptions=True)]. *)
Fixpoint deliver_all (deliver : WebhookEndpoint -> Py unit) (endpoints : list WebhookEndpoint) : Py unit :=
  match endpoints with
  | [] => ret tt
  | e :: rest => try_catch (deliver e) (fun _ => ret tt) ;;! deliver_all deliver rest
  end.

Definition send_webhook_event (event_name : string) (payload : list (string * Json)) (event_id : string) : Py unit :=
  let! endpoints := WebhookDAO.list_active_endpoints_for_event event_name in
  match endpoints with
  | [] => ret tt
  | _ =>
      let! t0 := gets now in
      deliver_all (_deliver_to_endpoint event_name event_id payload (pretty t0) (dumps_compact (JObj payload))) endpoints
  end.
End delivery.

(** ** Inbound webhooks *)

(** What the route reads of a request; [ib_replaced] is the body decoded with
    [errors="replace"].  Bodies in UTF-16 or UTF-32 are not modelled. *)
Record Inbound := {
  ib_path : string;
  ib_headers : list (string * string);
  ib_body : string;
  ib_replaced : string;
  ib_client : option string;
}.

Record NormalizedWebhookEvent := {
  nw_source : string;
  nw_event_id : string;
  nw_event_name : string;
  nw_resource_id : option string;
  nw_payload : Json;
}.

Section inbound.
Context {R : Type} {RD : Redis R} {EX : Ext} (str_of : PyVal -> string).
Local Abbreviation Py := (PyM (R := R)).

(** [BaseWebhookAdapter]. *)
Record WebhookAdapter := {
  verify_signature : Inbound -> bool;
  normalize : Inbound -> Json -> Py NormalizedWebhookEvent;
  get_success_response : list (PyVal * PyVal);
}.

(** [payload.get(k)], when it is truthy. *)
Definition truthy_field (fs : list (string * Json)) (k : string) : option Json :=
  match fields_get fs k with Some j => if falsy j then None else Some j | None => None end.

Definition py_text (j : Json) : string := py_str str_of (of_json_value j).

Definition GenericWebhookAdapter : WebhookAdapter := {|
  verify_signature := fun _ => true;
  normalize := fun _ payload =>
    match payload with
    | JObj fs =>
        let! event_id := (match truthy_field fs "id", truthy_field fs "event_id" with
                          | Some j, _ | None, Some j => ret (py_text j)
                          | None, None => let! u := new_uuid4_hex in ret ("gen_" +:+ u)
                          end) in
        ret {| nw_source := "generic"; nw_event_id := event_id;
               nw_event_name := match truthy_field fs "event", truthy_field fs "type" with
                                | Some j, _ | None, Some j => py_text j
                                | None, None => "generic.event"
                                end;
               nw_resource_id := py_text <$> truthy_field fs "resource_id";
               nw_payload := payload |}
    | _ => raise (AttributeErr "get")
    end;
  get_success_response := [(PStr "status", PStr "received"); (PStr "source", PStr "generic")];
|}.

(** The registry has one vendor, which is also the fallback. *)
Definition get_adapter (source : string) : WebhookAdapter :=
  match (if String.eqb (lower source) "generic" then Some GenericWebhookAdapter else None) with
  | Some a => a
  | None => GenericWebhookAdapter
  end.

(** event name, status, code, response, error. *)
Definition _process_inbound_adapter (source : string) (request : Inbound) (payload : Json)
  : Py (string * WebhookStatus * Z * PyVal * option string) :=
  let adapter := get_adapter source in
  let failed code err := (source +:+ ".event", FAILED, code, PDict [(PStr "error", PStr err)], Some err) in
  if negb (verify_signature adapter request) then
    ret (failed 401 ("Invalid signature for " +:+ source +:+ " webhook."))
  else
    try_catch (
      let! e := normalize adapter request payload in
      ret (nw_event_name e, SUCCESS, 200, PDict (get_success_response adapter), None))
      (fun exc => match exc with
                  | HTTPException code detail => ret (failed code detail)
                  | KeyErr m | ValueErr m | TypeErr m => ret (failed 400 m)
                  | e => raise e
                  end).

Definition handle_inbound_webhook (source : string) (request : Inbound) : Py PyVal :=
  let payload := match (if utf8_valid (ib_body request) then loads (ib_body request) else None) with
                 | Some j => j
                 | None => JObj [("raw", JStr (ib_replaced request))]
                 end in
  let! (event_name, status, code, response_data, error_message) := _process_inbound_adapter source request payload in
  let log := {| lc_direction := INBOUND; lc_endpoint_id := None; lc_source := source; lc_event_name := event_name;
                lc_url := ib_path request; lc_status := status; lc_status_code := Some code; lc_payload := payload;
                lc_request_headers := Some (text_dict (ib_headers request));
                lc_response_headers := Some (text_dict [("content-type", "application/json")]);
                lc_response_body := Some (py_str str_of response_data);
                lc_error_message := error_message; lc_ip_address := ib_client request |} in
  raise_if (negb (WebhookLogCreate_valid log)) ValidationErr ;;!
  WebhookLogDAO.create_log log ;;!
  raise_if (bool_decide (status = FAILED)) (HTTPException code (default "" error_message)) ;;!
  ret response_data.
End inbound.

(** ** The routes *)

Section routes.
Context {R : Type} {RD : Redis R} {EX : Ext} {ST : Settings} {WX : WebhookExt}.
Local Abbreviation Py := (PyM (R := R)).

Definition validated {A} (o : option A) : Py A := match o with Some a => ret a | None => raise ValidationErr end.

Definition create_webhook_endpoint (tok : string) (endpoint_in : WebhookEndpointCreate) : Py WebhookEndpoint :=
  let! user := get_current_user ["webhooks:create"] tok in
  let! endpoint_in := validated (WebhookEndpointCreate_validate endpoint_in) in
  WebhookService.create_endpoint endpoint_in (Some (u_id (ud_user user))).

Definition list_available_webhook_events (tok : string) : Py (list string) :=
  get_current_user ["webhooks:read"] tok ;;! ret WebhookEvents.

Definition list_webhook_endpoints (tok : string) (pagination : PaginationParams) : Py (Page WebhookEndpoint) :=
  get_current_user ["webhooks:read"] tok ;;!
  apply_cursor_pagination (fun limit cursor => WebhookDAO.list_endpoints limit cursor None) pagination we_id None.

Definition get_webhook_endpoint (tok : string) (endpoint_id : uuid) : Py WebhookEndpoint :=
  get_current_user ["webhooks:read"] tok ;;! WebhookService.get_endpoint endpoint_id.

Definition update_webhook_endpoint (tok : string) (endpoint_id : uuid) (update_in : WebhookEndpointUpdate) : Py WebhookEndpoint :=
  get_current_user ["webhooks:update"] tok ;;!
  let! update_in := validated (WebhookEndpointUpdate_validate update_in) in
  WebhookService.update_endpoint endpoint_id update_in.

Definition delete_webhook_endpoint (tok : string) (endpoint_id : uuid) : Py unit :=
  get_current_user ["webhooks:delete"] tok ;;! WebhookService.delete_endpoint endpoint_id.
End routes.
