(* ===== verification/Notifications.v ===== *)
(** * Notifications

    src/api/apps/notification: the registry of push devices (v0/dao/device.py),
    the channels (v0/channels), the service with its stream of server-sent events
    (v0/service.py), the Celery tasks (tasks.py, workers.py), the listeners on the
    event bus (v0/listeners) and the routes (v0/routes.py).

    What lies outside the repository is a parameter: [NotifyExt] (the dump of the
    pydantic model, the Jinja environment, the reading of UUID texts, settings),
    [PushClient] (Firebase) and [MailClient] (SendGrid).  Redis pub/sub is the log
    [published] of the world; a subscription is a position in it. *)

From Stdlib Require Import ZArith Lia Ascii String List Bool.
From stdpp Require Import base gmap strings sorting list pretty.
From S2P Require Import Prelude Redis Schema JsonText World Tokens Users Cache AppConfig Roles Totp Auth EventBus.
Local Open Scope string_scope.
Local Open Scope list_scope.
Local Open Scope Z_scope.

(** ** Schemas (v0/schemas.py) *)

Inductive NotificationType := N_INFO | N_WARNING | N_ERROR | N_SUCCESS.

Definition notification_type_value (t : NotificationType) : string :=
  match t with N_INFO => "INFO" | N_WARNING => "WARNING" | N_ERROR => "ERROR" | N_SUCCESS => "SUCCESS" end.

(** [NotificationType(s)]. *)
Definition notification_type_of (s : string) : outcome Exn NotificationType :=
  if String.eqb s "INFO" then Ok N_INFO
  else if String.eqb s "WARNING" then Ok N_WARNING
  else if String.eqb s "ERROR" then Ok N_ERROR
  else if String.eqb s "SUCCESS" then Ok N_SUCCESS
  else Err (ValueErr "NotificationType").

Record NotificationSchema := {
  nt_type : NotificationType;
  nt_message : string;
  nt_subject : option string;
  nt_metadata : list (string * Json);
  nt_template_path : string;
  nt_action_url : option string;
}.

Record DeviceRegisterRequest := {
  dr_fcm_token : string;
  dr_platform : string;
  dr_device_name : option string;
}.

Definition platform_ok (p : string) : bool := mem p ["ios"; "android"; "web"].

Definition DeviceRegisterRequest_valid (r : DeviceRegisterRequest) : bool :=
  (10 <=? String.length (dr_fcm_token r))%nat && (String.length (dr_fcm_token r) <=? 500)%nat &&
  platform_ok (dr_platform r) &&
  from_option (fun n => String.length n <=? 100)%nat true (dr_device_name r).

Record DeviceResponse := {
  dv_id : uuid;
  dv_user_id : uuid;
  dv_fcm_token : string;
  dv_platform : string;
  dv_device_name : option string;
  dv_is_active : bool;
  dv_created_at : Z;
  dv_last_used_at : Z;
}.

Definition device_response (d : UserDevice) : DeviceResponse :=
  {| dv_id := ud_id d; dv_user_id := ud_user_id d; dv_fcm_token := ud_fcm_token d;
     dv_platform := ud_platform d; dv_device_name := ud_device_name d; dv_is_active := ud_is_active d;
     dv_created_at := ud_created_at d; dv_last_used_at := ud_last_used_at d |}.

(** ** Statements on user_devices *)

(** The row a token has. *)
Definition device_of_token (tok : string) (t : Tables) : option UserDevice :=
  head (filter (fun d => ud_fcm_token d = tok) (values (user_devices t))).

(** INSERT ... ON CONFLICT (fcm_token) DO UPDATE. *)
Definition upsert_device (id : uuid) (t0 : Z) (uid : uuid) (tok platform : string)
  (name : option string) (t : Tables) : outcome Exn (DeviceResponse * Tables) :=
  let d :=
    match device_of_token tok t with
    | Some o => {| ud_id := ud_id o; ud_user_id := uid; ud_fcm_token := ud_fcm_token o;
                   ud_platform := platform;
                   ud_device_name := match name with Some n => Some n | None => ud_device_name o end;
                   ud_is_active := true; ud_last_used_at := t0; ud_created_at := ud_created_at o;
                   ud_updated_at := t0 |}
    | None => {| ud_id := id; ud_user_id := uid; ud_fcm_token := tok; ud_platform := platform;
                 ud_device_name := name; ud_is_active := true; ud_last_used_at := t0;
                 ud_created_at := t0; ud_updated_at := t0 |}
    end in
  if negb (platform_ok platform) then Err (CheckViolation "user_devices_platform_check")
  else if bool_decide (users t !! uid = None) then Err (ForeignKeyViolation "user_devices_user_id_fkey")
  else Ok (device_response d, set_user_devices (<[ud_id d := d]>) t).

Definition deactivated (t0 : Z) (d : UserDevice) : UserDevice :=
  {| ud_id := ud_id d; ud_user_id := ud_user_id d; ud_fcm_token := ud_fcm_token d;
     ud_platform := ud_platform d; ud_device_name := ud_device_name d; ud_is_active := false;
     ud_last_used_at := ud_last_used_at d; ud_created_at := ud_created_at d; ud_updated_at := t0 |}.

(** UPDATE user_devices SET is_active = FALSE ... WHERE. *)
Definition deactivate_devices (P : UserDevice -> bool) (t0 : Z) (t : Tables) : outcome Exn (unit * Tables) :=
  Ok (tt, set_user_devices (fmap (fun d => if P d then deactivated t0 d else d)) t).

Definition recent_first (a b : UserDevice) : Prop := ud_last_used_at b <= ud_last_used_at a.
#[export] Instance recent_first_dec : RelDecision recent_first.
Proof. intros a b. unfold recent_first. apply _. Defined.

Definition active_devices (uid : uuid) (t : Tables) : list UserDevice :=
  merge_sort recent_first
    (filter (fun d => ud_user_id d = uid /\ ud_is_active d = true) (values (user_devices t))).

Definition active_tokens (t : Tables) : list string :=
  ud_fcm_token <$> filter (fun d => ud_is_active d = true) (values (user_devices t)).

(** ** The DAO (v0/dao/device.py) *)

Module DeviceDAO.
Section dao.
Context {R : Type} {RD : Redis R} {EX : Ext}.
Local Abbreviation Py := (PyM (R := R)).

Definition register_device (user_id : uuid) (fcm_token platform : string) (device_name : option string)
  : Py DeviceResponse :=
  let! n := draw in
  let! t0 := gets now in
  db_write (upsert_device (uuid7 n) t0 user_id fcm_token platform device_name).

Definition unregister_device (user_id : uuid) (fcm_token : string) : Py unit :=
  let! t0 := gets now in
  db_write (deactivate_devices
    (fun d => String.eqb (ud_user_id d) user_id && String.eqb (ud_fcm_token d) fcm_token) t0).

Definition get_active_devices_by_user (user_id : uuid) : Py (list DeviceResponse) :=
  db_read (fun t => device_response <$> active_devices user_id t).

Definition deactivate_tokens (tokens : list string) : Py unit :=
  match tokens with
  | [] => ret tt
  | _ =>
      let! t0 := gets now in
      db_write (deactivate_devices (fun d => mem (ud_fcm_token d) tokens) t0)
  end.

Definition get_all_active_tokens : Py (list string) := db_read active_tokens.
End dao.
End DeviceDAO.

(** ** Outside the repository *)

Class NotifyExt := {
  (** [UUID(s)]: the canonical text, [None] for [ValueError]. *)
  parse_uuid : string -> option uuid;
  (** [notification.model_dump_json()]. *)
  model_dump_json : NotificationSchema -> string;
  (** [template_env.get_template(path).render] of a context. *)
  render_template : string -> list (string * Json) -> outcome Exn string;
  (** [datetime.now().year]. *)
  year_of : Z -> Z;
  PROJECT_NAME : string;
  FRONTEND_URL : string;
}.

(** What the dump keeps: the fields of the model. *)
Definition notification_json (n : NotificationSchema) : Json :=
  JObj [("type", JStr (notification_type_value (nt_type n))); ("message", JStr (nt_message n));
        ("subject", of_opt JStr (nt_subject n)); ("metadata", JObj (nt_metadata n));
        ("template_path", JStr (nt_template_path n)); ("action_url", of_opt JStr (nt_action_url n))].

Definition one_line (s : string) : Prop :=
  all_chars (fun c => negb (Ascii.eqb c LF) && negb (Ascii.eqb c CR)) s = true.

Class NotifyLaws {NX : NotifyExt} : Prop := {
  (** A JSON text has no raw line break, and reads back as the fields. *)
  dump_one_line : forall n, json_ok (notification_json n) -> one_line (model_dump_json n);
  dump_loads : forall n, json_ok (notification_json n) ->
    loads (model_dump_json n) = Some (notification_json n);
}.

(** ** Channels (v0/channels) *)

Definition SSE : string := "sse".
Definition EMAIL : string := "email".
Definition FCM : string := "fcm".

Definition NOTIFICATION_USER_CHANNEL (user_id : uuid) : string := "notifications:user:" +:+ user_id.
Definition NOTIFICATION_BROADCAST_CHANNEL : string := "notifications:broadcast".

Section channels.
Context {R : Type} {RD : Redis R} {EX : Ext} {NX : NotifyExt}.
Local Abbreviation Py := (PyM (R := R)).

(** [task.delay] with keyword arguments. *)
Definition delay (name : string) (kwargs : list (string * Json)) : Py unit :=
  send_task {| ct_name := name; ct_args := JList []; ct_kwargs := JObj kwargs; ct_queue := None |}.

(** [BaseNotificationChannel]. *)
Record Channel := {
  channel_send : uuid -> NotificationSchema -> Py unit;
  channel_broadcast : NotificationSchema -> Py unit;
}.

Definition sse_channel : Channel := {|
  channel_send := fun user_id n => redis_publish (NOTIFICATION_USER_CHANNEL user_id) (model_dump_json n);
  channel_broadcast := fun n => redis_publish NOTIFICATION_BROADCAST_CHANNEL (model_dump_json n);
|}.

Definition get_email_context : list (string * Json) := [
  ("bg_color", JStr "#f6f9fc"); ("card_bg", JStr "#ffffff"); ("text_color", JStr "#525f7f");
  ("primary_color", JStr "#3b82f6"); ("secondary_color", JStr "#8898aa");
  ("heading_color", JStr "#32325d"); ("divider_color", JStr "#f0f0f0");
  ("footer_text_color", JStr "#8898aa"); ("container_radius", JStr "8px");
  ("container_shadow", JStr "0 4px 6px rgba(0, 0, 0, 0.05)");
  ("font_family", JStr "-apple-system, BlinkMacSystemFont, 'Segoe UI', Roboto, Helvetica, Arial, sans-serif")].

(** [context.update(d)]. *)
Definition dict_update (context d : list (string * Json)) : list (string * Json) :=
  foldl (fun c '(k, v) => dict_set k v c) context d.

Definition email_context (t0 : Z) (n : NotificationSchema) : list (string * Json) :=
  dict_update (dict_update
    [("subject", of_opt JStr (nt_subject n)); ("message", JStr (nt_message n));
     ("action_url", of_opt JStr (nt_action_url n)); ("project_name", JStr PROJECT_NAME);
     ("current_year", JNum (year_of t0))]
    get_email_context) (nt_metadata n).

Definition _render_template (n : NotificationSchema) : Py string :=
  let! t0 := gets now in
  lift (render_template (nt_template_path n) (email_context t0 n)).

Definition meta (k : string) (d : Json) (n : NotificationSchema) : Json :=
  default d (fields_get (nt_metadata n) k).

Definition email_task_kwargs (n : NotificationSchema) (html : string) : list (string * Json) :=
  [("to_email", meta "email" JNull n);
   ("subject", JStr (default "New Notification" (or_opt (nt_subject n) None)));
   ("html_content", JStr html); ("cc_emails", meta "cc" (JList []) n);
   ("bcc_emails", meta "bcc" (JList []) n); ("attachments", meta "attachments" (JList []) n)].

Definition email_channel : Channel := {|
  channel_send := fun user_id n =>
    if falsy (meta "email" JNull n) then ret tt
    else
      let! html_body := _render_template n in
      delay "send_email_worker_task" (email_task_kwargs n html_body);
  channel_broadcast := fun _ => ret tt;
|}.

Definition push_kwargs (tokens : list string) (n : NotificationSchema) : list (string * Json) :=
  [("tokens", JList (JStr <$> tokens)); ("title", of_opt JStr (nt_subject n));
   ("body", JStr (nt_message n)); ("data", JObj (nt_metadata n))].

Definition fcm_channel : Channel := {|
  channel_send := fun user_id n =>
    let! devices := DeviceDAO.get_active_devices_by_user user_id in
    match devices with
    | [] => ret tt
    | _ => delay "send_fcm_push_worker_task" (push_kwargs (dv_fcm_token <$> devices) n)
    end;
  channel_broadcast := fun n =>
    let! tokens := DeviceDAO.get_all_active_tokens in
    match tokens with
    | [] => ret tt
    | _ => delay "send_fcm_push_worker_task" (push_kwargs tokens n)
    end;
|}.
End channels.
Arguments Channel R : clear implicits.

(** ** The service (v0/service.py) *)

Module NotificationService.
Section service.
Context {R : Type} {RD : Redis R} {EX : Ext} {NX : NotifyExt}.
Local Abbreviation Py := (PyM (R := R)).

(** [register_channel]: a name that is taken keeps its channel. *)
Definition register_channel (name : string) (c : Channel R) (channels : list (string * Channel R))
  : list (string * Channel R) :=
  if existsb (fun '(n, _) => String.eqb n name) channels then channels else channels ++ [(name, c)].

(** The channels of a new service. *)
Definition channels : list (string * Channel R) :=
  register_channel FCM fcm_channel (register_channel EMAIL email_channel (register_channel SSE sse_channel [])).

Fixpoint channel_named (l : list (string * Channel R)) (name : string) : option (Channel R) :=
  match l with
  | [] => None
  | (n, c) :: l' => if String.eqb n name then Some c else channel_named l' name
  end.

Definition target_channels (names : option (list string)) : list (Channel R) :=
  match names with
  | None => snd <$> channels
  | Some names => omap (channel_named channels) names
  end.

(** Each channel in turn; its exception is logged. *)
Fixpoint each_channel (f : Channel R -> Py unit) (l : list (Channel R)) : Py unit :=
  match l with
  | [] => ret tt
  | c :: l' => try_catch (f c) (fun _ => ret tt) ;;! each_channel f l'
  end.

Definition notification (message : string) (ty : NotificationType) (subject : option string)
  (metadata : option (list (string * Json))) (action_url : option string) (template_path : string)
  : NotificationSchema :=
  {| nt_type := ty; nt_message := message; nt_subject := subject; nt_metadata := default [] metadata;
     nt_template_path := template_path; nt_action_url := action_url |}.

Definition notify (user_id : uuid) (n : NotificationSchema) (names : option (list string)) : Py unit :=
  each_channel (fun c => channel_send c user_id n) (target_channels names).

Definition broadcast_all (n : NotificationSchema) (names : option (list string)) : Py unit :=
  each_channel (fun c => channel_broadcast c n) (target_channels names).

Definition register_device := DeviceDAO.register_device (R := R).
Definition unregister_device := DeviceDAO.unregister_device (R := R).
Definition get_user_devices := DeviceDAO.get_active_devices_by_user (R := R).
End service.
End NotificationService.

(** ** The stream of server-sent events ([stream_sse]) *)

(** A pub/sub connection: its channels, and the position of the next message. *)
Record Subscription := {
  sub_channels : list string;
  sub_next : nat;
}.

(** What happens in the life of a stream: other requests run, the generator's
    loop takes a turn, and finds a message or not ([ready]: 15 seconds have not
    passed before one was there; a subscription confirmation is no message), the
    generator is cancelled, the client is found disconnected. *)
Inductive Turn (R : Type) :=
| Meanwhile (f : World R -> World R)
| Poll (ready : bool)
| Cancelled
| Disconnected.
Arguments Meanwhile {R} f.
Arguments Poll {R} ready.
Arguments Cancelled {R}.
Arguments Disconnected {R}.

Inductive StreamEnd :=
| Open (s : Subscription)
| Closed
| Broken (e : Exn).

Definition LF1 : string := String LF EmptyString.

(** [f"event: notification\ndata: {data}\n\n"] and [": ping\n\n"]. *)
Definition event_frame (data : string) : string :=
  "event: notification" +:+ LF1 +:+ "data: " +:+ data +:+ LF1 +:+ LF1.
Definition ping_frame : string := ": ping" +:+ LF1 +:+ LF1.

(** The first message of the channels in a log, and the position after it. *)
Fixpoint next_message (chs : list string) (pos : nat) (l : list (string * string)) : option (string * nat) :=
  match l with
  | [] => None
  | (c, data) :: l' => if mem c chs then Some (data, S pos) else next_message chs (S pos) l'
  end.

Section stream.
Context {R : Type} {RD : Redis R} {EX : Ext}.
Local Abbreviation Py := (PyM (R := R)).

(** The [finally] clause: UNSUBSCRIBE. *)
Definition close_stream (e : StreamEnd) (w : World R) : StreamEnd * World R :=
  match redis_command (ret tt : Py unit) w with
  | (Ok _, w') => (e, w')
  | (Err x, w') => (Broken x, w')
  end.

Fixpoint stream_loop (s : Subscription) (turns : list (Turn R)) (w : World R)
  : list string * (StreamEnd * World R) :=
  match turns with
  | [] => ([], (Open s, w))
  | Meanwhile f :: ts => stream_loop s ts (f w)
  | Cancelled :: _ | Disconnected :: _ => ([], close_stream Closed w)
  | Poll ready :: ts =>
      match redis_command (gets published : Py _) w with
      | (Err e, w') => ([], close_stream (Broken e) w')
      | (Ok log, w') =>
          match (if ready then next_message (sub_channels s) (sub_next s) (drop (sub_next s) log) else None) with
          | Some (data, next) =>
              let '(frames, r) := stream_loop {| sub_channels := sub_channels s; sub_next := next |} ts w' in
              (event_frame data :: frames, r)
          | None =>
              let '(frames, r) := stream_loop s ts w' in (ping_frame :: frames, r)
          end
      end
  end.

Definition stream_channels (user_id : uuid) : list string :=
  [NOTIFICATION_USER_CHANNEL user_id; NOTIFICATION_BROADCAST_CHANNEL].

(** SUBSCRIBE, then the loop: the frames it yields and how it stands. *)
Definition stream_sse (user_id : uuid) (turns : list (Turn R)) (w : World R)
  : list string * (StreamEnd * World R) :=
  match redis_command (gets (fun w => length (published w)) : Py nat) w with
  | (Err e, w') => ([], (Broken e, w'))
  | (Ok n, w') => stream_loop {| sub_channels := stream_channels user_id; sub_next := n |} turns w'
  end.
End stream.

(** ** The tasks (tasks.py) *)

Section tasks.
Context {R : Type} {RD : Redis R} {EX : Ext} {NX : NotifyExt}.
Local Abbreviation Py := (PyM (R := R)).

(** [UUID(s)]. *)
Definition uuid_of (s : string) : outcome Exn uuid :=
  match parse_uuid s with Some u => Ok u | None => Err (ValueErr "badly formed hexadecimal UUID string") end.

(** The exceptions the tasks log: OSError, RuntimeError, ValueError, TypeError, KeyError. *)
Definition task_catches (e : Exn) : bool :=
  match e with ValueErr _ | TypeErr _ | KeyErr _ | ValidationErr => true | _ => false end.

Definition logging_errors (m : Py unit) : Py unit :=
  try_catch m (fun e => if task_catches e then ret tt else raise e).

Definition send_notification_task (user_id_str message notification_type : string) (subject : option string)
  (metadata : option (list (string * Json))) (channels : option (list string)) : Py unit :=
  let! user_id := lift (uuid_of user_id_str) in
  let! type_enum := lift (notification_type_of notification_type) in
  logging_errors (NotificationService.notify user_id
    (NotificationService.notification message type_enum subject metadata None "email/notification.html") channels).

Definition broadcast_notification_task (message notification_type : string) (subject : option string)
  (metadata : option (list (string * Json))) (channels : option (list string)) : Py unit :=
  let! type_enum := lift (notification_type_of notification_type) in
  logging_errors (NotificationService.broadcast_all
    (NotificationService.notification message type_enum subject metadata None "email/notification.html") channels).
End tasks.

(** ** The workers (workers.py) *)

Record SendResponse := {
  sr_success : bool;
  sr_code : option string;  (* [exception.code]; [None]: no exception *)
}.

Class PushClient := {
  (** [get_firebase_app] found an app. *)
  firebase_app : bool;
  (** [MulticastMessage(tokens, Notification(title, body), data)] and
      [send_each_for_multicast]: the responses. *)
  send_each_for_multicast : list string -> string -> string -> list (string * string) ->
    outcome Exn (list SendResponse);
}.

Record Attachment := {
  at_content : Json;
  at_type : Json;
  at_filename : Json;
  at_disposition : Json;
}.

Record Mail := {
  m_from : string * string;
  m_to : list string;
  m_subject : string;
  m_html : string;
  m_cc : list string;
  m_bcc : list string;
  m_attachments : list Attachment;
}.

Class MailClient := {
  SENDGRID_API_KEY : option string;
  EMAILS_FROM_EMAIL : option string;
  EMAILS_FROM_NAME : option string;
  (** [SendGridAPIClient(key).send(message)]: the status code. *)
  sendgrid_send : string -> Mail -> outcome Exn Z;
}.

Section workers.
Context {R : Type} {RD : Redis R} {EX : Ext}.
Local Abbreviation Py := (PyM (R := R)).

Definition _deactivate_tokens (tokens : list string) : Py unit := DeviceDAO.deactivate_tokens tokens.

(** The helpers of sendgrid take any value; an item that is no dict has no
    [get], and the handler that logs this calls [get] again. *)
Definition attachment_of (att : Json) : outcome Exn Attachment :=
  match att with
  | JObj fs =>
      let get k d := default d (fields_get fs k) in
      Ok {| at_content := get "content" JNull; at_type := get "type" (JStr "application/octet-stream");
            at_filename := get "filename" (JStr "attachment");
            at_disposition := get "disposition" (JStr "attachment") |}
  | _ => Err (AttributeErr "get")
  end.

Fixpoint attachments_of (l : list Json) : outcome Exn (list Attachment) :=
  match l with
  | [] => Ok []
  | a :: l' => obind (attachment_of a) (fun x => obind (attachments_of l') (fun xs => Ok (x :: xs)))
  end.

Definition send_email_worker_task {MC : MailClient} (to_email : string + list string)
  (subject html_content : string) (cc_emails bcc_emails : option (list string))
  (attachments : option (list Json)) : Py unit :=
  match or_opt SENDGRID_API_KEY None, or_opt EMAILS_FROM_EMAIL None with
  | Some key, Some from =>
      let to_list := match to_email with inl a => [a] | inr l => l end in
      let! sg_attachments := lift (attachments_of (default [] attachments)) in
      let message := {| m_from := (from, default "FastAPI Template" (or_opt EMAILS_FROM_NAME None));
                        m_to := to_list; m_subject := subject; m_html := html_content;
                        m_cc := default [] cc_emails; m_bcc := default [] bcc_emails;
                        m_attachments := sg_attachments |} in
      lift (sendgrid_send key message) ;;! ret tt
  | _, _ => ret tt
  end.

Definition prune_codes : list string := ["NOT_FOUND"; "UNREGISTERED"; "INVALID_ARGUMENT"].

Definition dead_response (r : SendResponse) : bool :=
  negb (sr_success r) && from_option (fun c => mem c prune_codes) false (sr_code r).

(** [dead_tokens.append(tokens[idx])]. *)
Fixpoint dead_tokens (tokens : list string) (idx : nat) (responses : list SendResponse)
  : outcome Exn (list string) :=
  match responses with
  | [] => Ok []
  | r :: rest =>
      if dead_response r then
        match tokens !! idx with
        | Some t => obind (dead_tokens tokens (S idx) rest) (fun l => Ok (t :: l))
        | None => Err (IndexErr "list index out of range")
        end
      else dead_tokens tokens (S idx) rest
  end.

(** [{str(k): str(v) for k, v in data.items()}]. *)
Definition str_data (str_of : PyVal -> string) (data : option (list (string * Json))) : list (string * string) :=
  map (fun '(k, v) => (k, py_str str_of (of_json_value v))) (default [] data).

Definition send_fcm_push_worker_task {PC : PushClient} (str_of : PyVal -> string) (tokens : list string)
  (title : option string) (body : string) (data : option (list (string * Json))) : Py unit :=
  match tokens with
  | [] => ret tt
  | _ =>
      if negb firebase_app then ret tt
      else
        let! responses := lift (send_each_for_multicast tokens
          (default "New Notification" (or_opt title None)) body (str_data str_of data)) in
        let! dead := lift (dead_tokens tokens 0 responses) in
        match dead with
        | [] => ret tt
        | _ => _deactivate_tokens dead
        end
  end.
End workers.

(** ** The listeners (v0/listeners) *)

Section listeners.
Context {R : Type} {RD : Redis R} {EX : Ext} {NX : NotifyExt}.
Local Abbreviation Py := (PyM (R := R)).

Definition payload_get (e : Event) (k : string) : Json := default JNull (fields_get (payload e) k).

Definition dispatch_user_notification (e : Event) (ty : NotificationType)
  (subject message template_path action_url : string) (channels : option (list string)) : Py unit :=
  let user_id_str := payload_get e "user_id" in
  let mail := payload_get e "email" in
  let name := payload_get e "username" in
  if falsy user_id_str || falsy mail || falsy name then ret tt
  else
    match user_id_str with
    | JStr s =>
        match parse_uuid s with
        | None => ret tt
        | Some user_id =>
            let selected_channels := match channels with Some (c :: cs) => c :: cs | _ => [EMAIL; SSE; FCM] end in
            NotificationService.notify user_id
              (NotificationService.notification message ty (Some subject)
                 (Some [("email", mail); ("username", name)]) (Some action_url) template_path)
              (Some selected_channels)
        end
    | _ => raise (AttributeErr "replace")
    end.

Definition on_password_changed (e : Event) : Py unit :=
  dispatch_user_notification e N_WARNING "Security Alert: Password Changed"
    "Your password was successfully updated. If you did not make this change, please contact support immediately."
    "email/notification.html" FRONTEND_URL (Some [EMAIL; SSE; FCM]).

Definition on_role_assigned (e : Event) : Py unit :=
  dispatch_user_notification e N_INFO "Account Access Updated"
    "An administrator has updated the roles assigned to your account."
    "email/notification.html" (FRONTEND_URL +:+ "/dashboard") (Some [EMAIL; SSE; FCM]).

Definition on_two_factor_enabled (e : Event) : Py unit :=
  dispatch_user_notification e N_SUCCESS "Security Alert: Two-Factor Authentication Enabled"
    "Two-Factor Authentication (2FA) was successfully enabled on your account. If you did not make this change, please contact support immediately."
    "email/notification.html" FRONTEND_URL (Some [EMAIL; SSE; FCM]).

Definition on_two_factor_disabled (e : Event) : Py unit :=
  dispatch_user_notification e N_WARNING "Security Alert: Two-Factor Authentication Disabled"
    "Two-Factor Authentication (2FA) was disabled on your account. If you did not make this change, please contact support immediately."
    "email/notification.html" FRONTEND_URL (Some [EMAIL; SSE; FCM]).

Definition on_user_created (e : Event) : Py unit :=
  dispatch_user_notification e N_INFO "Welcome to FastAPI Template!" "Your registration was successful."
    "email/welcome.html" FRONTEND_URL (Some [EMAIL]).

(** The registrations of the listener modules, and what each number runs. *)
Definition notification_listeners : list (option (list (string * nat))) :=
  [Some [("user.password.changed", 1%nat)]; Some [("user.role.assigned", 2%nat)];
   Some [("user.2fa.enabled", 3%nat); ("user.2fa.disabled", 4%nat)]; Some [("user.created", 5%nat)]].

Definition run_listener (h : nat) (e : Event) : Py unit :=
  match h with
  | 1%nat => on_password_changed e
  | 2%nat => on_role_assigned e
  | 3%nat => on_two_factor_enabled e
  | 4%nat => on_two_factor_disabled e
  | 5%nat => on_user_created e
  | _ => ret tt
  end.
End listeners.

(** ** The routes (v0/routes.py) *)

Section routes.
Context {R : Type} {RD : Redis R} {EX : Ext} {ST : Settings}.
Local Abbreviation Py := (PyM (R := R)).

(** The user whose stream is opened: [stream_sse] runs when the response is sent. *)
Definition sse_notifications (tok : string) : Py uuid :=
  let! token_data := verify_token tok ACCESS in
  match or_opt (t_id token_data) None with
  | None => raise (HTTPException 401 "Invalid token")
  | Some id =>
      let! user := get_by_id id in
      match user with
      | Some u => if is_active (ud_user u) then ret (u_id (ud_user u))
                  else raise (HTTPException 401 "Inactive or non-existent user")
      | None => raise (HTTPException 401 "Inactive or non-existent user")
      end
  end.

Definition register_device (tok : string) (payload : DeviceRegisterRequest) : Py DeviceResponse :=
  let! current_user := get_current_user [] tok in
  raise_if (negb (DeviceRegisterRequest_valid payload)) ValidationErr ;;!
  NotificationService.register_device (u_id (ud_user current_user)) (dr_fcm_token payload)
    (dr_platform payload) (dr_device_name payload).

Definition unregister_device (tok device_token : string) : Py unit :=
  let! current_user := get_current_user [] tok in
  NotificationService.unregister_device (u_id (ud_user current_user)) device_token.

Definition list_devices (tok : string) : Py (list DeviceResponse) :=
  let! current_user := get_current_user [] tok in
  NotificationService.get_user_devices (u_id (ud_user current_user)).
End routes.
