(* ===== verification/Http.v ===== *)
(** * The HTTP shell: middlewares, translations, exception handlers, health

    src/api/middlewares (region_middleware.py, client_info_middleware.py),
    src/api/core/i18n.py, core/exception_handlers.py, core/rate_limit.py, the filter of
    core/logging_config.py, and [log_requests], [profiling_middleware] and [health_check] of main.py.  A
    middleware maps the application it wraps to an application; both run in the
    context variables [Ctx] of core/context.py and may write to the log.  The locale
    files are the parameter [Locales], the middlewares of libraries that main.py adds
    the parameter [Libraries]. *)

From Stdlib Require Import ZArith Lia Ascii String List Bool.
From stdpp Require Import base gmap strings list pretty.
From S2P Require Import Prelude Redis Schema JsonText World.
From S2P Require Database.
Local Open Scope string_scope.
Local Open Scope list_scope.
Local Open Scope Z_scope.

(** ** Context variables (core/context.py, i18n.py) *)

Record Ctx := {
  APP_BUILD : option Z;
  APP_VERSION : option string;
  PLATFORM : option string;
  DEVICE_ID : option string;
  CLIENT_REGION : option string;
  CLIENT_IP : option string;
  locale_ctx : string;
}.

Definition set_region (r : option string) (c : Ctx) : Ctx :=
  {| APP_BUILD := APP_BUILD c; APP_VERSION := APP_VERSION c; PLATFORM := PLATFORM c; DEVICE_ID := DEVICE_ID c;
     CLIENT_REGION := r; CLIENT_IP := CLIENT_IP c; locale_ctx := locale_ctx c |}.

Definition set_client (b : option Z) (v p d ip : option string) (c : Ctx) : Ctx :=
  {| APP_BUILD := b; APP_VERSION := v; PLATFORM := p; DEVICE_ID := d; CLIENT_REGION := CLIENT_REGION c;
     CLIENT_IP := ip; locale_ctx := locale_ctx c |}.

Definition set_locale (l : string) (c : Ctx) : Ctx :=
  {| APP_BUILD := APP_BUILD c; APP_VERSION := APP_VERSION c; PLATFORM := PLATFORM c; DEVICE_ID := DEVICE_ID c;
     CLIENT_REGION := CLIENT_REGION c; CLIENT_IP := CLIENT_IP c; locale_ctx := l |}.

(** A request as the middlewares see it: header names and values as bytes, the
    peer, and the method, URL and query parameters; a response. *)
Record HttpRequest := {
  h_headers : list (string * string);
  h_client : option string;
  h_method : string;
  h_url : string;
  h_query : list (string * string);
}.

Record HttpResponse := {
  h_status : Z;
  h_response_headers : list (string * string);
  h_detail : string;
}.

(** The lines of the request log, without the times. *)
Inductive LogLine :=
| L_request (method url : string) (params : list (string * string)) (request_id version build platform device : string)
| L_completed (status : Z) (phrase : string)
| L_failed (status : Z) (phrase : string)
| L_profiling (url : string).

Definition ShellM : Type -> Type := M (Ctx * list LogLine) Exn.
Definition App : Type := HttpRequest -> ShellM HttpResponse.

Definition get_ctx : ShellM Ctx := gets fst.
Definition on_ctx (f : Ctx -> Ctx) : ShellM unit := modify (fun s => (f (fst s), snd s)).
Definition write_log (line : LogLine) : ShellM unit := modify (fun s => (fst s, snd s ++ [line])).

(** [request.headers.get(name)] of starlette: the first of the name, in any case. *)
Fixpoint header (name : string) (hs : list (string * string)) : option string :=
  match hs with
  | [] => None
  | (k, v) :: hs' => if String.eqb (lower k) (lower name) then Some v else header name hs'
  end.

Definition same_name (name : string) (h : string * string) : Prop := lower (fst h) = lower name.
#[export] Instance same_name_dec name h : Decision (same_name name h).
Proof. unfold same_name. apply _. Defined.

(** [response.headers[name] = value] of starlette: the first header of the name gets
    the value and the others go, or one is added at the end. *)
Fixpoint set_header_in (name value : string) (hs : list (string * string)) : list (string * string) :=
  match hs with
  | [] => [(lower name, value)]
  | h :: hs' => if decide (same_name name h) then (lower name, value) :: filter (fun x => ~ same_name name x) hs'
                else h :: set_header_in name value hs'
  end.

Definition set_header (name value : string) (r : HttpResponse) : HttpResponse :=
  {| h_status := h_status r; h_response_headers := set_header_in name value (h_response_headers r);
     h_detail := h_detail r |}.

(** ** RegionASGIMiddleware *)

Definition DEFAULT_REGION_MAP : list (string * string) :=
  [("in", "ap-south"); ("india", "ap-south"); ("us", "us-east"); ("gb", "eu-west"); ("uk", "eu-west"); ("eu", "eu-west")].

Definition header_names : list string := ["x-geo-region"; "x-cloud-region"; "x-country"].

(** [_WHITELIST_RE.match(v)] of a text without line breaks. *)
Definition region_char (c : ascii) : bool :=
  let n := nat_of_ascii c in
  ((97 <=? n) && (n <=? 122) || (48 <=? n) && (n <=? 57))%nat || Ascii.eqb c "-" || Ascii.eqb c "_".
Definition whitelisted (v : string) : bool := truthy v && all_chars region_char v.

Fixpoint map_get (m : list (string * string)) (k : string) : option string :=
  match m with
  | [] => None
  | (k', v) :: m' => if String.eqb k' k then Some v else map_get m' k
  end.

(** [bytes.decode()]. *)
Definition decode_utf8 (s : string) : outcome Exn string :=
  if utf8_valid s then Ok s else Err (ValueErr "UnicodeDecodeError").

(** Every header of the request is decoded. *)
Fixpoint _headers_dict (hs : list (string * string)) (d : gmap string string) : outcome Exn (gmap string string) :=
  match hs with
  | [] => Ok d
  | (k, v) :: hs' =>
      obind (decode_utf8 k) (fun k =>
      obind (decode_utf8 v) (fun v => _headers_dict hs' (<[lower k := v]> d)))
  end.

Definition _normalize_map (mapping : list (string * string)) (raw : string) : option string :=
  if negb (truthy raw) then None
  else
    let v := lower (strip raw) in
    if whitelisted v then Some (default v (map_get mapping v)) else None.

Fixpoint choose_raw (names : list string) (d : gmap string string) : option string :=
  match names with
  | [] => None
  | h :: names' =>
      match d !! h with
      | Some v => if truthy v && truthy (strip v) then Some v else choose_raw names' d
      | None => choose_raw names' d
      end
  end.

Definition region_of (mapping : list (string * string)) (d : gmap string string) : option string :=
  match choose_raw header_names d with
  | Some raw => _normalize_map mapping raw
  | None => None
  end.

Definition region_middleware (mapping : list (string * string)) (app : App) : App := fun rq =>
  let! headers := lift (_headers_dict (h_headers rq) ∅) in
  let! old := get_ctx in
  on_ctx (set_region (region_of mapping headers)) ;;!
  finally (app rq) (on_ctx (set_region (CLIENT_REGION old))).

(** ** ClientInfoMiddleware *)

(** [int(raw)] of a header that is there; its [ValueError] is caught. *)
Definition app_build_of (raw : option string) : option Z := or_opt raw None ≫= int_of_text.

Definition add_build (b : option Z) (r : HttpResponse) : HttpResponse :=
  match b with
  | Some n => if n =? 0 then r else set_header "X-Server-Processed-Build" (pretty n) r
  | None => r
  end.

Definition client_info_middleware (app : App) : App := fun rq =>
  let from name := header name (h_headers rq) in
  let app_build := app_build_of (from "X-App-Build") in
  let! old := get_ctx in
  on_ctx (set_client app_build (from "X-App-Version") (from "X-Platform") (from "X-Device-Id") (h_client rq)) ;;!
  finally
    (let! response := app rq in ret (add_build app_build response))
    (on_ctx (set_client (APP_BUILD old) (APP_VERSION old) (PLATFORM old) (DEVICE_ID old) (CLIENT_IP old))).

(** ** I18nMiddleware and translations (core/i18n.py) *)

(** The files under the working directory. *)
Class Locales := {
  cwd : string;
  path_exists : string -> bool;
  (** [json.load(open(path))]; [None]: an exception. *)
  load_json : string -> option Json;
}.

(** [os.path.join(a, b)]. *)
Definition path_join (a b : string) : string :=
  if startswith b "/" then b
  else if negb (truthy a) || endswith a "/" then a +:+ b
  else a +:+ "/" +:+ b.

Definition first_part (sep : ascii) (s : string) : string := default "" (head (split_on sep s)).

(** [accept_language.split(",")[0].split(";")[0].strip()]. *)
Definition locale_of_header (default_locale : string) (accept_language : option string) : string :=
  match or_opt accept_language None with
  | Some a => strip (first_part ";" (first_part "," a))
  | None => default_locale
  end.

Definition i18n_middleware (default_locale : string) (app : App) : App := fun rq =>
  on_ctx (set_locale (locale_of_header default_locale (header "Accept-Language" (h_headers rq)))) ;;!
  app rq.

(** ** Request log and profiling (main.py) *)

(** [HTTPStatus(code).phrase] of Python 3.14; [None]: the code has no member. *)
Definition phrases : list (Z * string) :=
  [(100, "Continue"); (101, "Switching Protocols"); (102, "Processing"); (103, "Early Hints");
   (200, "OK"); (201, "Created"); (202, "Accepted"); (203, "Non-Authoritative Information"); (204, "No Content");
   (205, "Reset Content"); (206, "Partial Content"); (207, "Multi-Status"); (208, "Already Reported"); (226, "IM Used");
   (300, "Multiple Choices"); (301, "Moved Permanently"); (302, "Found"); (303, "See Other"); (304, "Not Modified");
   (305, "Use Proxy"); (307, "Temporary Redirect"); (308, "Permanent Redirect");
   (400, "Bad Request"); (401, "Unauthorized"); (402, "Payment Required"); (403, "Forbidden"); (404, "Not Found");
   (405, "Method Not Allowed"); (406, "Not Acceptable"); (407, "Proxy Authentication Required"); (408, "Request Timeout");
   (409, "Conflict"); (410, "Gone"); (411, "Length Required"); (412, "Precondition Failed"); (413, "Content Too Large");
   (414, "URI Too Long"); (415, "Unsupported Media Type"); (416, "Range Not Satisfiable"); (417, "Expectation Failed");
   (418, "I'm a Teapot"); (421, "Misdirected Request"); (422, "Unprocessable Content"); (423, "Locked");
   (424, "Failed Dependency"); (425, "Too Early"); (426, "Upgrade Required"); (428, "Precondition Required");
   (429, "Too Many Requests"); (431, "Request Header Fields Too Large"); (451, "Unavailable For Legal Reasons");
   (500, "Internal Server Error"); (501, "Not Implemented"); (502, "Bad Gateway"); (503, "Service Unavailable");
   (504, "Gateway Timeout"); (505, "HTTP Version Not Supported"); (506, "Variant Also Negotiates");
   (507, "Insufficient Storage"); (508, "Loop Detected"); (510, "Not Extended"); (511, "Network Authentication Required")].
Definition phrase (code : Z) : option string := snd <$> List.find (fun p => fst p =? code) phrases.

Definition hex_digit (d : Z) : ascii := char_of (if d <? 10 then 48 + d else 87 + d).

(** [f"{n:032x}"] of a number of 128 bits. *)
Fixpoint hex_digits (k : nat) (n : Z) : string :=
  match k with
  | O => EmptyString
  | S k' => String (hex_digit (n / 16 ^ Z.of_nat k' mod 16)) (hex_digits k' n)
  end.

Definition or_na (o : option string) : string := default "N/A" (or_opt o None).

(** [APP_BUILD.get() or "N/A"]. *)
Definition build_text (b : option Z) : string :=
  match b with Some n => if n =? 0 then "N/A" else pretty n | None => "N/A" end.

(** [dict(request.query_params)]: a name stands where it came first, with its last value. *)
Fixpoint param_set (p : string * string) (d : list (string * string)) : list (string * string) :=
  match d with
  | [] => [p]
  | x :: d' => if String.eqb (fst x) (fst p) then p :: d' else x :: param_set p d'
  end.

Definition query_dict (q : list (string * string)) : list (string * string) := fold_left (fun d p => param_set p d) q [].

Definition request_line (c : Ctx) (request_id : string) (rq : HttpRequest) : LogLine :=
  L_request (h_method rq) (h_url rq) (query_dict (h_query rq)) request_id (or_na (APP_VERSION c)) (build_text (APP_BUILD c))
    (or_na (PLATFORM c)) (or_na (DEVICE_ID c)).

(** [ContextualFilter.filter] (core/logging_config.py): what each record of the log carries. *)
Record LogContext := {
  lc_app_version : string; lc_app_build : string; lc_platform : string; lc_device_id : string;
  lc_client_region : string;
}.

Definition contextual_filter (c : Ctx) : LogContext :=
  {| lc_app_version := or_na (APP_VERSION c); lc_app_build := build_text (APP_BUILD c);
     lc_platform := or_na (PLATFORM c); lc_device_id := or_na (DEVICE_ID c);
     lc_client_region := or_na (CLIENT_REGION c) |}.

Definition request_id_of (new_id : string) (rq : HttpRequest) : string :=
  default new_id (or_opt (header "X-Request-ID" (h_headers rq)) None).

Definition completion_line (status : Z) (text : string) : LogLine :=
  if status <? 400 then L_completed status text else L_failed status text.

(** [new_id] is the text of the fresh UUID, [span] the trace of the current span. *)
Definition log_requests (new_id : string) (span : option Z) (app : App) : App := fun rq =>
  let request_id := request_id_of new_id rq in
  let! c := get_ctx in
  write_log (request_line c request_id rq) ;;!
  let! response := app rq in
  let response := set_header "X-Request-ID" request_id response in
  let response := match span with Some t => set_header "X-Trace-ID" (hex_digits 32 t) response | None => response end in
  match phrase (h_status response) with
  | Some text => write_log (completion_line (h_status response) text) ;;! ret response
  | None => raise (ValueErr (pretty (h_status response) +:+ " is not a valid HTTPStatus"))
  end.

(** [request.query_params.get(name)]: the last value counts. *)
Definition query_get (name : string) (q : list (string * string)) : option string :=
  snd <$> last (filter (fun p => fst p = name) q).

Definition profiled (env : string) (rq : HttpRequest) : bool :=
  negb (mem env ["prod"; "staging"]) && bool_decide (query_get "profile" (h_query rq) = Some "1").

Definition html_response (content : string) : HttpResponse :=
  {| h_status := 200; h_detail := content;
     h_response_headers := [("content-length", pretty (String.length content)); ("content-type", "text/html; charset=utf-8")] |}.

(** The answer of the application is thrown away for the report [html]. *)
Definition profiling_middleware (env html : string) (app : App) : App := fun rq =>
  if profiled env rq then
    write_log (L_profiling (h_url rq)) ;;!
    app rq ;;!
    ret (html_response html)
  else app rq.

(** A middleware of a library: it answers a request itself, or passes one on and edits
    the answer. *)
Inductive Passing :=
| Answered (r : HttpResponse)
| Passed_on (rq : HttpRequest) (edit : HttpResponse -> HttpResponse).
Definition Layer : Type := HttpRequest -> Passing.

Definition through (l : Layer) (app : App) : App := fun rq =>
  match l rq with
  | Answered r => ret r
  | Passed_on rq' edit => let! r := app rq' in ret (edit r)
  end.

(** Those main.py adds around the middlewares of the repository, starlette's
    HTTPSRedirectMiddleware, SessionMiddleware, GZipMiddleware and CORSMiddleware and
    uvicorn's ProxyHeadersMiddleware: what they do is a parameter. *)
Record Libraries := {
  https_redirect : Layer;
  session_cookies : Layer;
  proxy_headers : Layer;
  compression : Layer;
  cors : Layer;
}.

Definition outer_layers (libs : Libraries) (env : string) : list Layer :=
  (if mem env ["prod"; "staging"] then [https_redirect libs] else []) ++ [session_cookies libs; proxy_headers libs].

(** All in the order of main.py: the last added is the outermost.  [app] is the rest:
    the limits, the instrumentation and the routes. *)
Definition middlewares (libs : Libraries) (new_id : string) (span : option Z) (env html : string) (app : App) : App :=
  foldr through (i18n_middleware "en" (region_middleware DEFAULT_REGION_MAP (client_info_middleware
    (through (compression libs) (through (cors libs)
      (log_requests new_id span (profiling_middleware env html app)))))))
    (outer_layers libs env).

(** [docs_url], [redoc_url] and [openapi_url]. *)
Definition docs_urls (env : string) : list (option string) :=
  (fun path => if String.eqb env "prod" then None else Some path) <$> ["/docs"; "/redoc"; "/openapi.json"].

(** [traces_sampler]: whether a request is traced at the configured rate. *)
Definition traces_sampler (path : string) : bool := negb (mem path ["/health"; "/metrics"]).

(** ** The key of the rate limits (core/rate_limit.py) *)

Section rate_limit.
Context {EX : Ext}.

(** [get_remote_address] of slowapi. *)
Definition get_remote_address (rq : HttpRequest) : string := default "127.0.0.1" (or_opt (h_client rq) None).

Definition get_real_user_key (rq : HttpRequest) : string :=
  match header "Authorization" (h_headers rq) with
  | Some auth_header =>
      if startswith auth_header "Bearer "
      then "token:" +:+ sha256 (String.substring 7 (String.length auth_header - 7) auth_header)
      else get_remote_address rq
  | None => get_remote_address rq
  end.
End rate_limit.

Section translations.
Context {LO : Locales}.

(** [_translations_cache]. *)
Abbreviation Cache := (gmap string Json).
Abbreviation TransM := (M Cache Exn).

Definition locale_file (name : string) : string :=
  path_join (path_join cwd "api/locales") (name +:+ ".json").

(** The file a locale is read from; "en-US" falls back to "en". *)
Definition file_of_locale (locale : string) : option string :=
  let file_path := locale_file locale in
  let file_path :=
    if negb (path_exists file_path) && contains locale "-" then locale_file (first_part "-" locale) else file_path in
  if path_exists file_path then Some file_path else None.

Definition load_translations (locale : string) : TransM Json :=
  let! cache := Prelude.get in
  match cache !! locale with
  | Some d => ret d
  | None =>
      match file_of_locale locale with
      | None => ret (JObj [])
      | Some file_path =>
          match load_json file_path with
          | Some d => modify (<[locale := d]>) ;;! ret d
          | None => ret (JObj [])
          end
      end
  end.

(** The loop over the keys: [None] is Python's None. *)
Fixpoint lookup_keys (keys : list string) (value : option Json) : option Json :=
  match keys with
  | [] => value
  | k :: keys' =>
      match value with
      | Some (JObj fs) => lookup_keys keys' (match fields_get fs k with Some JNull => None | v => v end)
      | _ => None
      end
  end.

Definition translated (str_of : PyVal -> string) (translations : Json) (message : string) : string :=
  match lookup_keys (split_on "." message) (Some translations) with
  | Some v => py_str str_of (of_json_value v)
  | None => message
  end.

(** [str.format] of keyword arguments, for fields that are a plain name:
    [inl] of the name of a missing one, [None] what the format language refuses or
    what is more than a name. *)
Fixpoint format_fields (s : string) (args : list (string * string)) (name : option string)
  : option (string + string) :=
  match s, name with
  | EmptyString, None => Some (inr EmptyString)
  | EmptyString, Some _ => None
  | String "{" (String "{" s'), None =>
      (fun r => match r with inr t => inr (String "{" t) | e => e end) <$> format_fields s' args None
  | String "}" (String "}" s'), None =>
      (fun r => match r with inr t => inr (String "}" t) | e => e end) <$> format_fields s' args None
  | String "{" s', None => format_fields s' args (Some EmptyString)
  | String "}" _, None => None
  | String "}" s', Some n =>
      match map_get args n with
      | Some v => (fun r => match r with inr t => inr (v +:+ t) | e => e end) <$> format_fields s' args None
      | None => Some (inl n)
      end
  | String c s', None =>
      (fun r => match r with inr t => inr (String c t) | e => e end) <$> format_fields s' args None
  | String c s', Some n =>
      if Ascii.eqb c "{" || Ascii.eqb c ":" || Ascii.eqb c "!" || Ascii.eqb c "." || Ascii.eqb c "[" then None
      else format_fields s' args (Some (n +:+ String c EmptyString))
  end.

(** A missing argument leaves the text as it is. *)
Definition formatted (text : string) (kwargs : list (string * string)) : outcome Exn string :=
  match kwargs with
  | [] => Ok text
  | _ => match format_fields text kwargs None with
         | Some (inr s) => Ok s
         | Some (inl _) => Ok text
         | None => Err (ValueErr "format string")
         end
  end.

Definition trans (str_of : PyVal -> string) (locale_code message : string) (kwargs : list (string * string)) : TransM string :=
  let! translations := load_translations locale_code in
  let! translations :=
    if falsy translations && negb (String.eqb locale_code "en") then load_translations "en" else ret translations in
  lift (formatted (translated str_of translations message) kwargs).
End translations.
Arguments trans {LO} str_of locale_code message kwargs.

(** ** Exception handlers (core/exception_handlers.py) *)

(** One item of [exc.errors()]: the last element of [loc] as text, and [msg]. *)
Record ErrorItem := {
  err_field : string;
  err_msg : string;
}.

(** The detail of an exception: validation errors, a text, or another value with
    its [str]. *)
Inductive Detail :=
| D_errors (l : list ErrorItem)
| D_text (s : string)
| D_other (str : string).

Definition upper_ascii (c : ascii) : ascii :=
  let n := nat_of_ascii c in
  if ((97 <=? n) && (n <=? 122))%nat then ascii_of_nat (n - 32) else c.

(** [s.capitalize()]. *)
Definition capitalize (s : string) : string :=
  match s with EmptyString => EmptyString | String c s' => String (upper_ascii c) (lower s') end.

(** [s.replace("_", " ")]. *)
Fixpoint unscore (s : string) : string :=
  match s with
  | EmptyString => EmptyString
  | String c s' => String (if Ascii.eqb c "_" then " "%char else c) (unscore s')
  end.

Definition format_detail (d : Detail) : string :=
  match d with
  | D_errors [] => "[]"
  | D_errors l => join "; " (map (fun e => capitalize (unscore (err_field e)) +:+ ": " +:+ err_msg e) l)
  | D_text s => s
  | D_other s => s
  end.

(** The text up to the first [mark] on this line, and what follows it. *)
Fixpoint until (mark s : string) : option (string * string) :=
  if String.prefix mark s
  then Some (EmptyString, String.substring (String.length mark) (String.length s - String.length mark) s)
  else match s with
       | EmptyString => None
       | String c s' => if Ascii.eqb c LF then None
                        else '(a, b) ← until mark s'; Some (String c a, b)
       end.

(** [re.search(r"Key \((.*?)\)=\((.*?)\)", detail)]: the two groups. *)
Fixpoint search_key (s : string) : option (string * string) :=
  let here :=
    if String.prefix "Key (" s then
      '(fields, rest) ← until ")=(" (String.substring 5 (String.length s - 5) s);
      '(values, _) ← until ")" rest;
      Some (fields, values)
    else None in
  match here with
  | Some r => Some r
  | None => match s with EmptyString => None | String _ s' => search_key s' end
  end.

Definition stripped_parts (s : string) : list string := map strip (split_on "," s).

Definition unique_violation_detail (detail : option string) : string :=
  match or_opt detail None ≫= search_key with
  | Some (f, v) =>
      "A record with " +:+
      join ", " (map (fun '(f, v) => f +:+ "='" +:+ v +:+ "'") (zip (stripped_parts f) (stripped_parts v))) +:+
      " already exists."
  | None => "A record with the same value already exists."
  end.

(** What reaches the handlers. *)
Inductive HttpError :=
| E_validation (l : list ErrorItem)
| E_unique (detail : option string)
| E_http (status_code : Z) (detail : Detail)
| E_permission (text : string)
| E_not_implemented (text : string)
| E_other (text : string).

Definition handle_exception (e : HttpError) : Z * string :=
  match e with
  | E_validation l => (422, format_detail (D_errors l))
  | E_unique d => (400, unique_violation_detail d)
  | E_http c d => (c, format_detail d)
  | E_permission s => (403, if truthy s then s else "Permission denied.")
  | E_not_implemented s => (501, if truthy s then s else "Not implemented.")
  | E_other s => (500, "Internal server error")
  end.

(** ** Health (main.py) *)

Section health.
Import Database.

Record HealthResponse := {
  hr_db_status : string;
  hr_regions : list (string * RegionHealth);
  hr_redis_status : string;
}.

Definition db_status (db_health : list (string * RegionHealth)) : string :=
  let total_healthy := list_sum (map (fun '(_, h) => healthy_pools h) db_health) in
  let total_pools := list_sum (map (fun '(_, h) => total_pools h) db_health) in
  if (total_healthy =? 0)%nat && (0 <? total_pools)%nat then "down"
  else if (total_healthy <? total_pools)%nat then "degraded" else "up".

Definition health_check_response (db_health : list (string * RegionHealth)) (redis_up : bool) : HealthResponse :=
  {| hr_db_status := db_status db_health; hr_regions := db_health;
     hr_redis_status := if redis_up then "up" else "down" |}.
End health.
