(* ===== verification/Admin.v ===== *)
(** * The admin portal: sessions and the base view

    src/api/core/admin.py (signing in, the session) and src/api/utils/admin_view.py
    (the base view).  The portal is starlette-admin: it finds the session in a
    signed cookie, parses the submitted forms, calls the methods of the views
    ([AdminViews]) and renders what they return. *)

From Stdlib Require Import ZArith Lia Ascii String List Bool.
From stdpp Require Import base gmap strings sorting list pretty.
From S2P Require Import Prelude Redis Schema JsonText World Tokens Users Notifications.
Local Open Scope string_scope.
Local Open Scope list_scope.
Local Open Scope Z_scope.

(** ** The session *)

Record AdminData := {
  ad_id : string;
  ad_email : string;
  ad_username : string;
  ad_full_name : option string;
}.

(** [request.session]: the signed-in admin and the queued flash messages. *)
Record Session := {
  admin_user : option AdminData;
  flashes : list (string * string);
}.

Definition empty_session : Session := {| admin_user := None; flashes := [] |}.

(** A computation with the world and the session of the request. *)
Definition AdM (R : Type) (A : Type) : Type := M (World R * Session) Exn A.

(** What the portal takes from outside. *)
Class AdminExt := {
  (** [str(exc)]. *)
  str_exn : Exn -> string;
}.

Section session.
Context {R : Type} {RD : Redis R} {EX : Ext} {NX : NotifyExt}.
Local Abbreviation Ad := (AdM R).

(** A computation that does not touch the session. *)
Definition srv {A} (m : PyM (R := R) A) : Ad A :=
  fun '(w, s) => let '(o, w') := m w in (o, (w', s)).

Definition session : Ad Session := gets snd.
Definition set_session (f : Session -> Session) : Ad unit := modify (fun '(w, s) => (w, f s)).

(** [flash(request, message, category)]. *)
Definition flash (message category : string) : Ad unit :=
  set_session (fun s => {| admin_user := admin_user s; flashes := flashes s ++ [(message, category)] |}).

(** [UUID(str(pk))] of one key and of a list. *)
Definition pk_of (pk : string) : Ad uuid := lift (uuid_of pk).

Fixpoint uuids_of (pks : list string) : outcome Exn (list uuid) :=
  match pks with
  | [] => Ok []
  | pk :: pks' => obind (uuid_of pk) (fun u => obind (uuids_of pks') (fun us => Ok (u :: us)))
  end.

(** [data[key]]. *)
Definition required {A} (key : string) (v : option A) : Ad A :=
  match v with Some a => ret a | None => raise (KeyErr key) end.

Definition checked {A} (v : option A) : Ad A :=
  match v with Some a => ret a | None => raise ValidationErr end.

(** [get_current_admin_user_id]. *)
Definition get_current_admin_user_id : Ad (option uuid) :=
  let! s := session in
  ret (match admin_user s with
       | Some a => if truthy (ad_id a) then parse_uuid (ad_id a) else None
       | None => None
       end).

(** What [AuditLogger.log] reads of the request. *)
Definition audit_request (rq : Request) : Ad Request :=
  let! s := session in
  ret {| rq_admin_id := ad_id <$> admin_user s; rq_forwarded_for := rq_forwarded_for rq;
         rq_client_host := rq_client_host rq; rq_user_agent := rq_user_agent rq |}.

(** ** AdminAuthProvider (core/admin.py) *)

Definition login_failed : Exn := LoginFailed "Invalid username/email or password".

Definition admin_login (name password : string) : Ad unit :=
  let! user := srv (get_by_email name) in
  let! user := match user with Some u => ret (Some u) | None => srv (get_by_username name) end in
  match user with
  | None => raise login_failed
  | Some u =>
      let row := ud_user u in
      raise_if (bool_decide (or_opt (hashed_password row) None = None)) login_failed ;;!
      raise_if (negb (verify_password password (hashed_password row))) login_failed ;;!
      raise_if (negb (is_active row)) (LoginFailed "User account is inactive") ;;!
      raise_if (negb (existsb (fun r => String.eqb (r_name (rd_role r)) "Super Admin") (ud_roles u)))
        (LoginFailed "Access denied: Super Admin role required") ;;!
      set_session (fun s => {| admin_user := Some {| ad_id := u_id row; ad_email := email row;
                                                     ad_username := username row; ad_full_name := full_name row |};
                               flashes := flashes s |})
  end.

Definition admin_logout : Ad unit := set_session (fun _ => empty_session).

(** The name of the admin a session belongs to. *)
Definition authenticate : Ad (option string) :=
  let! s := session in
  match admin_user s with
  | None => ret None
  | Some a =>
      (if truthy (ad_id a) then srv (modify (set_actor (Some (ad_id a)))) else ret tt) ;;!
      ret (Some (default "Admin" (or_opt (ad_full_name a) (or_opt (Some (ad_username a))
             (or_opt (Some (ad_email a)) None)))))
  end.

(** A request to the portal.  The dispatch is starlette-admin's, whose documentation says
    so: it runs the handler when [authenticate] gives a user, and sends the client to the
    login page otherwise. *)
Definition admin_request {A} (handler : Ad A) : Ad (option A) :=
  let! who := authenticate in
  match who with
  | Some _ => let! a := handler in ret (Some a)
  | None => ret None
  end.
End session.

(** ** BaseAppAdminView (utils/admin_view.py) *)

Record View := {
  v_display_name : option string;
  v_name : option string;
  v_label : option string;
  v_identity : option string;
  v_key : option string;
  v_pk_attr : string;
}.

Definition DEFAULT_DISPLAY_KEYS : list string := ["name"; "title"; "label"; "username"; "email"; "task_name"].

Module BaseAppAdminView.
(** [x and x.strip()]. *)
Definition non_blank (o : option string) : option string :=
  match o with Some s => or_opt (Some (strip s)) None | None => None end.

Definition display_name (v : View) : string :=
  match or_opt (v_display_name v) None, non_blank (v_name v), non_blank (v_label v), non_blank (v_identity v) with
  | Some s, _, _, _ | None, Some s, _, _ | None, None, Some s, _ | None, None, None, Some s => s
  | None, None, None, None => default "Item" (or_opt (v_key v) None)
  end.

(** [obj.get(pk_attr, obj.get("id"))]. *)
Definition get_pk_value (v : View) (obj : list (string * Json)) : Json :=
  match fields_get obj (v_pk_attr v) with Some j => j | None => default JNull (fields_get obj "id") end.

Definition str_json (str_of : PyVal -> string) (j : Json) : string := py_str str_of (of_json_value j).

(** [is not None] and [str(val).strip()]. *)
Fixpoint first_shown (str_of : PyVal -> string) (keys : list string) (obj : list (string * Json)) : option string :=
  match keys with
  | [] => None
  | k :: keys' =>
      match fields_get obj k with
      | Some JNull | None => first_shown str_of keys' obj
      | Some j => if truthy (strip (str_json str_of j)) then Some (str_json str_of j)
                  else first_shown str_of keys' obj
      end
  end.

Definition repr (str_of : PyVal -> string) (v : View) (obj : list (string * Json)) : string :=
  match first_shown str_of DEFAULT_DISPLAY_KEYS obj with
  | Some s => s
  | None => default "Item" (or_opt (v_name v) (or_opt (v_identity v) None)) +:+ " (" +:+
            str_json str_of (get_pk_value v obj) +:+ ")"
  end.

(** The methods a view does not override. *)
Definition view_label (v : View) : string :=
  default "This model" (or_opt (v_name v) (or_opt (v_label v) (or_opt (v_identity v) None))).
Definition create_error (v : View) : Exn :=
  ActionFailed ("Direct creation is not supported for " +:+ view_label v +:+ ".").
Definition edit_error (v : View) : Exn := ActionFailed ("Editing is not supported for " +:+ view_label v +:+ ".").
Definition delete_error (v : View) : Exn := ActionFailed ("Deletion is not supported for " +:+ view_label v +:+ ".").
End BaseAppAdminView.
