(* ===== verification/AdminViews.v ===== *)
(** * The admin portal: the views

    src/api/apps/user/admin_views and src/api/apps/common/admin_views, one module
    per view (the audit log and the webhook log are in [AdminQueries]).  A form is
    a record of what [data.get] yields; a primary key is the text of the URL. *)

From Stdlib Require Import ZArith Lia Ascii String List Bool.
From stdpp Require Import base gmap strings sorting list pretty.
From S2P Require Import Prelude Redis Schema JsonText World Tokens Users Cache AppConfig Roles Totp Auth Notifications Admin.
From S2P Require WebhookUtils DeadLetter PeriodicTasks ApiKeys Webhooks.
Local Open Scope string_scope.
Local Open Scope list_scope.
Local Open Scope Z_scope.

(** ** Users *)

Record UserForm := {
  uf_full_name : option string;
  uf_email : option string;
  uf_username : option string;
  uf_is_active : option bool;
  uf_is_superuser : option bool;
}.

Module UserAdminView.
Section view.
Context {R : Type} {RD : Redis R} {EX : Ext} {ST : Settings} {NX : NotifyExt}.
Local Abbreviation Ad := (AdM R).

(** The dump, with the names of the roles. *)
Definition _to_admin_object (u : UserData) : User * list string :=
  (ud_user u, (fun r => r_name (rd_role r)) <$> ud_roles u).

Definition find_all (skip limit : Z) (q : option string) : Ad (list (User * list string)) :=
  let! users := srv (get_all_paginated limit skip q) in ret (_to_admin_object <$> users).

Definition count (q : option string) : Ad Z := srv (count_users q).

Definition find_by_pk (pk : string) : Ad (option (User * list string)) :=
  let! user_id := pk_of pk in
  let! user := srv (get_by_id user_id) in ret (_to_admin_object <$> user).

Definition find_by_pks (pks : list string) : Ad (list (User * list string)) :=
  match pks with
  | [] => ret []
  | _ => let! uuid_pks := lift (uuids_of pks) in
         let! users := srv (get_by_ids uuid_pks) in ret (_to_admin_object <$> users)
  end.

Definition create : Ad unit := raise (OtherErr "NotImplementedError").

Definition not_found (pk : string) : Exn := ValueErr ("User with ID " +:+ pk +:+ " not found").

(** UPDATE users SET is_active = ..., is_superuser = ...: no migration adds the
    column is_superuser. *)
Definition set_flags (user_id : uuid) (active superuser : option bool) : Ad unit :=
  srv (db_write (fun _ => Err (UndefinedColumn "is_superuser"))).

Definition edit (pk : string) (data : UserForm) : Ad (User * list string) :=
  let! user_id := pk_of pk in
  raise_if (negb (from_option email_valid true (uf_email data))) ValidationErr ;;!
  let! user := srv (update_user user_id
    {| uu_full_name := uf_full_name data; uu_email := uf_email data; uu_username := uf_username data |}) in
  match user with
  | None => raise (not_found pk)
  | Some user =>
      if bool_decide (is_Some (uf_is_active data)) || bool_decide (is_Some (uf_is_superuser data)) then
        set_flags user_id (uf_is_active data) (uf_is_superuser data) ;;!
        let! user := srv (get_by_id user_id) in
        match user with
        | None => raise (not_found pk)
        | Some user => ret (_to_admin_object user)
        end
      else ret (_to_admin_object user)
  end.

Definition delete (pks : list string) : Ad Z :=
  match pks with
  | [] => ret 0
  | _ => let! ids := lift (uuids_of pks) in srv (delete_users ids)
  end.

(** [UserUpdate(is_active=...)]: the model has no such field, and drops it. *)
Definition active_update (new_status : bool) : UserUpdate :=
  {| uu_full_name := None; uu_email := None; uu_username := None |}.

Definition toggle_active_action (pk : string) : Ad string :=
  let! user_id := pk_of pk in
  let! user := srv (get_by_id user_id) in
  match user with
  | None => raise (ValueErr "User not found")
  | Some user =>
      let new_status := negb (is_active (ud_user user)) in
      srv (update_user user_id (active_update new_status)) ;;!
      ret ("User '" +:+ email (ud_user user) +:+ "' has been successfully " +:+
           (if new_status then "activated" else "deactivated") +:+ ".")
  end.

Definition impersonate_action (rq : Request) (pk : string) : Ad string :=
  let! s := session in
  match (a ← admin_user s; or_opt (Some (ad_id a)) None) with
  | None => raise (ValueErr "Admin session invalid or expired.")
  | Some id =>
      let! admin_id := pk_of id in
      let! admin := srv (get_by_id admin_id) in
      match admin with
      | None => raise (ValueErr "Admin user not found.")
      | Some admin =>
          let! target_id := pk_of pk in
          let! rq := audit_request rq in
          let! impersonation := srv (impersonate_user admin target_id "Admin portal row action impersonation" rq 30) in
          ret ("Impersonation token generated for '" +:+ username (ud_user (im_target_user impersonation)) +:+
               "'. Token: Bearer " +:+ access_token (im_token impersonation))
      end
  end.
End view.
End UserAdminView.

(** ** Roles *)

Record RoleForm := {
  rf_name : option string;
  rf_description : option string;
  rf_permissions : option (list string);
}.

Module RoleAdminView.
Section view.
Context {R : Type} {RD : Redis R} {EX : Ext} {NX : NotifyExt}.
Local Abbreviation Ad := (AdM R).

Definition _to_admin_object (r : RoleData) : Role * list string := (rd_role r, p_name <$> rd_permissions r).

Definition find_all (skip limit : Z) (q : option string) : Ad (list (Role * list string)) :=
  let! roles := srv (get_roles_paginated limit skip q) in ret (_to_admin_object <$> roles).

Definition count (q : option string) : Ad Z := srv (count_roles q).

Definition find_by_pk (pk : string) : Ad (option (Role * list string)) :=
  let! role_id := pk_of pk in
  let! role := srv (dao_get_role_by_id role_id) in ret (_to_admin_object <$> role).

Definition find_by_pks (pks : list string) : Ad (list (Role * list string)) :=
  match pks with
  | [] => ret []
  | _ => let! uuid_pks := lift (uuids_of pks) in
         let! roles := srv (roles_by_ids uuid_pks) in ret (_to_admin_object <$> roles)
  end.

(** [perm_map.get(name)]: a later permission of a name replaces an earlier one. *)
Definition perm_map (perms : list Permission) (name : string) : option uuid :=
  p_id <$> last (filter (fun p => p_name p = name) perms).

(** The ids of the named permissions among the first page of
    [get_all_permissions], whose default limit is 20; other names are dropped. *)
Definition permission_ids_of (names : list string) : Ad (list uuid) :=
  let! all_perms := srv (get_all_permissions 20 None) in
  ret (omap (perm_map all_perms) names).

Definition create (data : RoleForm) : Ad (Role * list string) :=
  let! permission_ids := permission_ids_of (default [] (rf_permissions data)) in
  let! name := required "name" (rf_name data) in
  let! role := srv (dao_create_role {| rc_name := name; rc_description := rf_description data;
                                       rc_permission_ids := permission_ids |}) in
  ret (_to_admin_object role).

Definition edit (pk : string) (data : RoleForm) : Ad (Role * list string) :=
  let! role_id := pk_of pk in
  let! permission_ids := match rf_permissions data with
                         | None => ret None
                         | Some names => let! ids := permission_ids_of names in ret (Some ids)
                         end in
  let! role := srv (dao_update_role role_id {| ru_name := rf_name data; ru_description := rf_description data;
                                               ru_permission_ids := permission_ids |}) in
  match role with
  | None => raise (ValueErr ("Role with ID " +:+ pk +:+ " not found"))
  | Some role => ret (_to_admin_object role)
  end.

Definition delete (pks : list string) : Ad Z :=
  match pks with
  | [] => ret 0
  | _ => let! ids := lift (uuids_of pks) in srv (delete_roles ids)
  end.
End view.
End RoleAdminView.

(** ** App versions and system configuration *)

Record VersionForm := {
  vf_platform : option string;
  vf_min_build : option Z;
  vf_latest_build : option Z;
  vf_force_update : option bool;
  vf_update_message : option string;
  vf_update_url : option string;
}.

Module AppVersionAdminView.
Section view.
Context {R : Type} {RD : Redis R} {EX : Ext}.
Local Abbreviation Ad := (AdM R).

Definition find_all (skip limit : Z) (q : option string) : Ad (list AppVersion) := srv (list_versions limit skip q).

Definition count (q : option string) : Ad Z := srv (count_versions q).

Definition find_by_pk (pk : string) : Ad (option AppVersion) := srv (get_version_info (lower pk)).

Definition find_by_pks (pks : list string) : Ad (list AppVersion) :=
  match pks with [] => ret [] | _ => srv (get_by_platforms (lower <$> pks)) end.

Definition create (data : VersionForm) : Ad AppVersion :=
  let! platform := required "platform" (vf_platform data) in
  let! min_build := required "min_build" (vf_min_build data) in
  let! latest_build := required "latest_build" (vf_latest_build data) in
  srv (create_version {| cv_platform := platform; cv_min_build := min_build; cv_latest_build := latest_build;
                         cv_force_update := default false (vf_force_update data);
                         cv_update_message := vf_update_message data; cv_update_url := vf_update_url data |}).

(** The platform of the form, if it has one, else the primary key. *)
Definition edit (pk : string) (data : VersionForm) : Ad AppVersion :=
  let platform := lower (default pk (or_opt (vf_platform data) None)) in
  let! version := srv (update_version_info platform
    {| av_min_build := vf_min_build data; av_latest_build := vf_latest_build data;
       av_force_update := vf_force_update data; av_update_message := vf_update_message data;
       av_update_url := vf_update_url data |}) in
  match version with
  | None => raise (ValueErr ("App version for platform " +:+ platform +:+ " not found"))
  | Some v => ret v
  end.

Definition delete (pks : list string) : Ad Z :=
  match pks with [] => ret 0 | _ => srv (delete_versions (lower <$> pks)) end.
End view.
End AppVersionAdminView.

Module SystemConfigAdminView.
Section view.
Context {R : Type} {RD : Redis R} {EX : Ext} {NX : NotifyExt} {AX : AdminExt}.
Local Abbreviation Ad := (AdM R).

Definition _to_admin_object (c : SystemConfig) : bool * Z * string :=
  (enforce_mfa c, sc_updated_at c, default "-" (or_opt (sc_updated_by c) None)).

Definition find_all : Ad (list (bool * Z * string)) :=
  let! config := srv get_config in ret [_to_admin_object config].

Definition count : Ad Z := ret 1.

Definition find_by_pk (pk : string) : Ad (bool * Z * string) :=
  let! config := srv get_config in ret (_to_admin_object config).

Definition find_by_pks (pks : list string) : Ad (list (bool * Z * string)) :=
  match pks with [] => ret [] | _ => find_all end.

Definition create : Ad unit :=
  raise (ActionFailed "Creating new system configuration is not allowed (singleton row).").
Definition delete : Ad unit := raise (ActionFailed "Deleting system configuration is not allowed.").

(** [state_user_id]: the [id] of [request.state.user], where it has one. *)
Definition edit (state_user_id : option string) (new_mfa : option bool) : Ad (bool * Z * string) :=
  try_catch
    (let! updated := srv (dao_update_config new_mfa (state_user_id ≫= parse_uuid)) in
     match updated with
     | Some c => ret (_to_admin_object c)
     | None => raise (AttributeErr "id")
     end)
    (fun e => raise (ActionFailed ("Failed to update system config: " +:+ str_exn e))).
End view.
End SystemConfigAdminView.

(** ** Periodic tasks *)

Record PeriodicForm := {
  pf_name : option string;
  pf_task : option string;
  pf_schedule_type : option string;
  pf_cron_minute : option string;
  pf_cron_hour : option string;
  pf_cron_day_of_week : option string;
  pf_cron_day_of_month : option string;
  pf_cron_month_of_year : option string;
  pf_interval_every : option Z;
  pf_interval_period : option string;
  pf_args : Json;
  pf_kwargs : Json;
  pf_enabled : option bool;
}.

(** pydantic's reading of the enumerations, of a list and of a dict. *)
Definition schedule_type_of (s : string) : option ScheduleType :=
  if String.eqb s "crontab" then Some CRONTAB else if String.eqb s "interval" then Some INTERVAL else None.
Definition period_of (s : string) : option IntervalPeriod :=
  if String.eqb s "seconds" then Some SECONDS else if String.eqb s "minutes" then Some MINUTES
  else if String.eqb s "hours" then Some HOURS else if String.eqb s "days" then Some DAYS else None.
Definition list_of (j : Json) : option (list Json) := match j with JList l => Some l | _ => None end.
Definition dict_of (j : Json) : option (list (string * Json)) := match j with JObj fs => Some fs | _ => None end.

(** An optional field: [None] stays [None], another value must be read. *)
Definition opt_field {A B} (f : A -> option B) (o : option A) : option (option B) :=
  match o with None => Some None | Some a => Some <$> f a end.
Definition json_field {B} (f : Json -> option B) (j : Json) : option (option B) :=
  match j with JNull => Some None | _ => Some <$> f j end.

Module PeriodicTaskAdminView.
Import PeriodicTasks.
Section view.
Context {R : Type} {RD : Redis R} {EX : Ext} {NX : NotifyExt} {CE : Celery}.
Local Abbreviation Ad := (AdM R).

Definition find_all (skip limit : Z) (q : option string) : Ad (list PeriodicTask) :=
  srv (PeriodicTaskDAO.list_tasks_paginated limit skip q).

Definition count (q : option string) : Ad Z := srv (PeriodicTaskDAO.count_tasks q).

Definition find_by_pk (pk : string) : Ad (option PeriodicTask) :=
  let! task_id := pk_of pk in srv (PeriodicTaskDAO.get_task_by_id task_id).

Definition find_by_pks (pks : list string) : Ad (list PeriodicTask) :=
  match pks with
  | [] => ret []
  | _ => let! task_ids := lift (uuids_of pks) in srv (PeriodicTaskDAO.get_by_ids task_ids)
  end.

(** [v or "*"]. *)
Definition star (o : option string) : option string := Some (default "*" (or_opt o None)).

Definition create_model (name task ty : string) (data : PeriodicForm) : option PeriodicTaskCreate :=
  ty ← schedule_type_of ty;
  period ← opt_field period_of (pf_interval_period data);
  args ← list_of (if falsy (pf_args data) then JList [] else pf_args data);
  kwargs ← dict_of (if falsy (pf_kwargs data) then JObj [] else pf_kwargs data);
  let c := {| ptc_name := name; ptc_task := task; ptc_schedule_type := ty;
              ptc_cron_minute := star (pf_cron_minute data); ptc_cron_hour := star (pf_cron_hour data);
              ptc_cron_day_of_week := star (pf_cron_day_of_week data);
              ptc_cron_day_of_month := star (pf_cron_day_of_month data);
              ptc_cron_month_of_year := star (pf_cron_month_of_year data);
              ptc_interval_every := pf_interval_every data; ptc_interval_period := period;
              ptc_args := args; ptc_kwargs := kwargs; ptc_enabled := default true (pf_enabled data) |} in
  if create_valid c then Some c else None.

Definition create (data : PeriodicForm) : Ad PeriodicTask :=
  let! name := required "name" (pf_name data) in
  let! task := required "task" (pf_task data) in
  let! ty := required "schedule_type" (pf_schedule_type data) in
  let! task_create := checked (create_model name task ty data) in
  srv (PeriodicTaskDAO.create_task task_create).

Definition update_model (data : PeriodicForm) : option PeriodicTaskUpdate :=
  ty ← opt_field schedule_type_of (pf_schedule_type data);
  period ← opt_field period_of (pf_interval_period data);
  args ← json_field list_of (pf_args data);
  kwargs ← json_field dict_of (pf_kwargs data);
  let u := {| ptu_name := pf_name data; ptu_task := pf_task data; ptu_schedule_type := ty;
              ptu_cron_minute := pf_cron_minute data; ptu_cron_hour := pf_cron_hour data;
              ptu_cron_day_of_week := pf_cron_day_of_week data;
              ptu_cron_day_of_month := pf_cron_day_of_month data;
              ptu_cron_month_of_year := pf_cron_month_of_year data;
              ptu_interval_every := pf_interval_every data; ptu_interval_period := period;
              ptu_args := args; ptu_kwargs := kwargs; ptu_enabled := pf_enabled data |} in
  if update_valid u then Some u else None.

Definition edit (pk : string) (data : PeriodicForm) : Ad PeriodicTask :=
  let! task_id := pk_of pk in
  let! task_update := checked (update_model data) in
  let! task := srv (PeriodicTaskDAO.update_task task_id task_update) in
  match task with
  | None => raise (ValueErr ("Periodic task with ID " +:+ pk +:+ " not found"))
  | Some t => ret t
  end.

Definition delete (pks : list string) : Ad Z :=
  match pks with
  | [] => ret 0
  | _ => let! task_ids := lift (uuids_of pks) in srv (PeriodicTaskDAO.delete_tasks task_ids)
  end.

Definition no_task : Exn := ValueErr "Periodic task not found".

(** [result.id] is drawn by Celery. *)
Definition trigger_now_action (rq : Request) (pk : string) : Ad string :=
  let! task_id := pk_of pk in
  let! task := srv (PeriodicTaskDAO.get_task_by_id task_id) in
  match task with
  | None => raise no_task
  | Some t =>
      let! id := srv new_uuid4 in
      srv (send_task {| ct_name := pt_task t; ct_args := pt_args t; ct_kwargs := pt_kwargs t; ct_queue := None |}) ;;!
      let! rq := audit_request rq in
      srv (audit_log "PERIODIC_TASK_TRIGGER" "periodic_task" pk (Some (trigger_details id (pt_task t)))
             None None (Some rq)) ;;!
      ret ("Task '" +:+ pt_name t +:+ "' (" +:+ pt_task t +:+ ") triggered successfully. Celery Task ID: " +:+ id)
  end.

(** [PeriodicTaskUpdate(enabled=b)]. *)
Definition enabled_update (b : bool) : PeriodicTaskUpdate :=
  {| ptu_name := None; ptu_task := None; ptu_schedule_type := None; ptu_cron_minute := None;
     ptu_cron_hour := None; ptu_cron_day_of_week := None; ptu_cron_day_of_month := None;
     ptu_cron_month_of_year := None; ptu_interval_every := None; ptu_interval_period := None;
     ptu_args := None; ptu_kwargs := None; ptu_enabled := Some b |}.

Definition toggle_enabled_action (pk : string) : Ad string :=
  let! task_id := pk_of pk in
  let! task := srv (PeriodicTaskDAO.get_task_by_id task_id) in
  match task with
  | None => raise no_task
  | Some t =>
      let new_enabled := negb (pt_enabled t) in
      srv (PeriodicTaskDAO.update_task task_id (enabled_update new_enabled)) ;;!
      ret ("Periodic task '" +:+ pt_name t +:+ "' is now " +:+ (if new_enabled then "enabled" else "disabled") +:+ ".")
  end.

(** The loop of the batch actions: [count]. *)
Fixpoint set_enabled (b : bool) (pks : list string) (count : Z) : Ad Z :=
  match pks with
  | [] => ret count
  | pk :: pks' =>
      let! task_id := pk_of pk in
      srv (PeriodicTaskDAO.update_task task_id (enabled_update b)) ;;!
      set_enabled b pks' (count + 1)
  end.

Definition enable_selected_action (pks : list string) : Ad string :=
  let! count := set_enabled true pks 0 in
  ret ("Successfully enabled " +:+ pretty count +:+ " periodic tasks.").

Definition disable_selected_action (pks : list string) : Ad string :=
  let! count := set_enabled false pks 0 in
  ret ("Successfully disabled " +:+ pretty count +:+ " periodic tasks.").
End view.
End PeriodicTaskAdminView.

(** ** API keys *)

(** [COALESCE(NULLIF(u.full_name, ''), u.username, 'System')] of the joined user. *)
Definition created_by_name (uid : option uuid) (t : Tables) : string :=
  match (i ← uid; users t !! i) with
  | Some u => default (username u) (or_opt (full_name u) None)
  | None => "System"
  end.

(** A TagsField: a text of items with commas, or a list. *)
Inductive Tags := TagsText (s : string) | TagsList (l : list string).

Definition scopes_of (t : Tags) : list string :=
  match t with
  | TagsText s => filter (fun x => truthy x = true) (strip <$> split_on "," s)
  | TagsList l => l
  end.

Record ApiKeyForm := {
  kf_name : option string;
  kf_scopes : option Tags;
  kf_rate_limit : option Z;
  kf_expires_at : option Z;
  kf_is_active : option bool;
}.

Module ApiKeyAdminView.
Import ApiKeys.
Section view.
Context {R : Type} {RD : Redis R} {EX : Ext} {NX : NotifyExt}.
Local Abbreviation Ad := (AdM R).

(** A row with the name of its creator. *)
Definition KeyRow : Type := ApiKey * string.
Definition key_row (t : Tables) (k : ApiKey) : KeyRow := (k, created_by_name (k_created_by k) t).

Definition newest_key_first (x y : ApiKey) : Prop := k_created_at y <= k_created_at x.
#[export] Instance newest_key_first_dec : RelDecision newest_key_first.
Proof. intros x y. unfold newest_key_first. apply _. Defined.

(** [k.name ILIKE $1 OR k.prefix ILIKE $1 OR u.email ILIKE $1]. *)
Definition key_matches (t : Tables) (q : option string) (k : ApiKey) : bool :=
  match search_pattern q with
  | Some p => ilike (k_name k) p || ilike (k_prefix k) p ||
              ilike_opt (email <$> (i ← k_created_by k; users t !! i)) p
  | None => true
  end.

Definition matching (t : Tables) (q : option string) : list ApiKey :=
  filter (fun k => key_matches t q k = true) (values (api_keys t)).

Definition find_all (skip limit : Z) (q : option string) : Ad (list KeyRow) :=
  srv (db_read (fun t => key_row t <$> page limit skip (merge_sort newest_key_first (matching t q)))).

Definition count (q : option string) : Ad Z := srv (db_read (fun t => Z.of_nat (length (matching t q)))).

Definition find_by_pk (pk : string) : Ad (option KeyRow) :=
  let! id := pk_of pk in srv (db_read (fun t => key_row t <$> api_keys t !! id)).

Definition find_by_pks (pks : list string) : Ad (list KeyRow) :=
  match pks with
  | [] => ret []
  | _ => let! ids := lift (uuids_of pks) in
         srv (db_read (fun t => key_row t <$> merge_sort newest_key_first
           (filter (fun k => k_id k ∈ ids) (values (api_keys t)))))
  end.

Definition create (data : ApiKeyForm) : Ad (option KeyRow) :=
  let! (raw_key, prefix, hashed_key) := srv generate_api_key in
  let! created_by := get_current_admin_user_id in
  let! name := required "name" (kf_name data) in
  let internal := {| ac_name := name; ac_scopes := from_option scopes_of [] (kf_scopes data);
                     ac_rate_limit := kf_rate_limit data; ac_expires_at := kf_expires_at data |} in
  raise_if (negb (ApiKeyCreate_valid internal)) ValidationErr ;;!
  let! created := srv (ApiKeyDAO.create_api_key internal prefix hashed_key created_by
                         (default true (kf_is_active data))) in
  flash ("API Key '" +:+ kd_name created +:+ "' created successfully! Raw secret key: " +:+ raw_key +:+
         " (Store this securely! It will not be shown again).") "success" ;;!
  find_by_pk (kd_id created).

(** [if existing and existing.hashed_key]: through a client with commands. *)
Definition evict (existing : option ApiKeyData) : Ad unit :=
  match (d ← existing; or_opt (kd_hashed_key d) None) with
  | Some h => srv (redis_del [API_KEY_CACHE h])
  | None => ret tt
  end.

Definition edit (pk : string) (data : ApiKeyForm) : Ad (option KeyRow) :=
  let! key_id := pk_of pk in
  let! existing := srv (ApiKeyDAO.get_api_key_by_id key_id) in
  let update_data := {| au_name := kf_name data; au_scopes := scopes_of <$> kf_scopes data;
                        au_rate_limit := kf_rate_limit data; au_expires_at := kf_expires_at data;
                        au_is_active := kf_is_active data |} in
  raise_if (negb (ApiKeyUpdate_valid update_data)) ValidationErr ;;!
  srv (ApiKeyDAO.update_api_key key_id update_data) ;;!
  evict existing ;;!
  find_by_pk pk.

Definition delete (pks : list string) : Ad Z :=
  match pks with
  | [] => ret 0
  | _ => let! ids := lift (uuids_of pks) in srv (ApiKeyDAO.delete_api_keys ids)
  end.

Definition rotate_action (pk : string) : Ad string :=
  let! key_id := pk_of pk in
  let! existing := srv (ApiKeyDAO.get_api_key_by_id key_id) in
  match existing with
  | None => raise (ActionFailed "API Key not found.")
  | Some d =>
      let! (raw_key, prefix, new_hashed_key) := srv generate_api_key in
      srv (ApiKeyDAO.rotate_api_key key_id prefix new_hashed_key) ;;!
      evict (Some d) ;;!
      flash ("API Key '" +:+ kd_name d +:+ "' rotated successfully! New secret key: " +:+ raw_key +:+
             " (Store this securely! It will not be shown again).") "warning" ;;!
      ret ("API Key rotated. New raw key: " +:+ raw_key)
  end.

(** [ApiKeyUpdate(is_active=b)]. *)
Definition active_update (b : bool) : ApiKeyUpdate :=
  {| au_name := None; au_scopes := None; au_rate_limit := None; au_expires_at := None; au_is_active := Some b |}.

Definition set_active (b : bool) (word category pk : string) : Ad string :=
  let! key_id := pk_of pk in
  let! existing := srv (ApiKeyDAO.get_api_key_by_id key_id) in
  srv (ApiKeyDAO.update_api_key key_id (active_update b)) ;;!
  evict existing ;;!
  let message := "API Key '" +:+ from_option kd_name pk existing +:+ "' successfully " +:+ word +:+ "." in
  flash message category ;;!
  ret message.

Definition deactivate_action (pk : string) : Ad string := set_active false "deactivated" "info" pk.
Definition activate_action (pk : string) : Ad string := set_active true "activated" "success" pk.
End view.
End ApiKeyAdminView.

(** ** Dead letters *)

Record DeadForm := {
  df_args : Json;
  df_kwargs : Json;
  df_queue : option string;
}.

Module DeadLetterTaskAdminView.
Import DeadLetter.
Section view.
Context {R : Type} {RD : Redis R} {EX : Ext} {NX : NotifyExt} {AX : AdminExt}.
Local Abbreviation Ad := (AdM R).

Definition searching (q : option string) : DLQTaskFilter :=
  {| df_task_name := None; df_exception_type := None; df_search := q; df_date_from := None; df_date_to := None |}.

Definition find_all (skip limit : Z) (q : option string) : Ad (list DeadLetterTask) :=
  srv (DeadLetterTaskDAO.list_tasks (searching q) (if 0 <? limit then Some limit else None) None skip).

Definition count (q : option string) : Ad Z := srv (DeadLetterTaskDAO.count_tasks (searching q)).

Definition find_by_pk (pk : string) : Ad (option DeadLetterTask) :=
  let! task_uuid := pk_of pk in srv (DeadLetterTaskDAO.get_task_by_id task_uuid).

(** One statement for each key. *)
Definition find_by_pks (pks : list string) : Ad (list DeadLetterTask) :=
  let! items := map_m find_by_pk pks in ret (omap id items).

Definition create : Ad unit := raise (OtherErr "NotImplementedError").

Definition repr (task_name : option string) (pk : string) : string :=
  match or_opt task_name None with
  | Some n => n +:+ " (" +:+ pk +:+ ")"
  | None => "DLQ Task (" +:+ pk +:+ ")"
  end.

(** The validators of [DLQUpdatePayload]: a text is read as JSON. *)
Definition args_field (j : Json) : option (option (list Json)) :=
  match j with
  | JStr s => if truthy (strip s) then
                match loads (strip s) with
                | Some (JList l) => Some (Some l)
                | Some x => Some (Some [x])
                | None => None
                end
              else Some None
  | _ => json_field list_of j
  end.

Definition kwargs_field (j : Json) : option (option (list (string * Json))) :=
  match j with
  | JStr s => if truthy (strip s) then
                match loads (strip s) with
                | Some (JObj fs) => Some (Some fs)
                | Some _ => Some (Some [])
                | None => None
                end
              else Some None
  | _ => json_field dict_of j
  end.

Definition payload_of (data : DeadForm) : option DLQUpdatePayload :=
  args ← args_field (df_args data);
  kwargs ← kwargs_field (df_kwargs data);
  Some {| du_target := {| dt_task_ids := None; dt_task_name := None |}; du_args := args; du_kwargs := kwargs;
          du_queue := df_queue data; du_merge_kwargs := true |}.

Definition edit (pk : string) (data : DeadForm) : Ad (option DeadLetterTask) :=
  let! task_id := pk_of pk in
  let! payload := checked (payload_of data) in
  let! count := srv (DeadLetterTaskDAO.update_task_payload payload (Some task_id)) in
  raise_if (count =? 0) (ValueErr ("DLQ task with ID '" +:+ pk +:+ "' not found.")) ;;!
  srv (DeadLetterTaskDAO.get_task_by_id task_id).

Definition delete (pks : list string) : Ad Z :=
  let! task_uuids := lift (uuids_of pks) in srv (DeadLetterTaskDAO.delete_tasks (Some task_uuids) None).

Definition retrigger_selected_action (rq : Request) (pks : list string) : Ad string :=
  let! task_uuids := lift (uuids_of pks) in
  let! res := srv (DeadLetterTaskService.retrigger_tasks
                     (Some {| dt_task_ids := Some task_uuids; dt_task_name := None |}) None) in
  let! rq := audit_request rq in
  srv (audit_log "DLQ_TASK_TRIGGER" "dlq_task" (join "," pks)
         (Some (JObj [("task_ids", JList (JStr <$> pks)); ("message", JStr (message res))])) None None (Some rq)) ;;!
  flash (message res) "success" ;;!
  ret (message res).

Definition retrigger_single_row_action (rq : Request) (pk : string) : Ad string :=
  try_catch
    (let! task_uuid := pk_of pk in
     let! res := srv (DeadLetterTaskService.retrigger_tasks None (Some task_uuid)) in
     let! rq := audit_request rq in
     srv (audit_log "DLQ_TASK_TRIGGER" "dlq_task" pk
            (Some (JObj [("task_id", JStr pk); ("message", JStr (message res))])) None None (Some rq)) ;;!
     flash (message res) "success" ;;!
     ret (message res))
    (fun e => flash ("Failed to retrigger task: " +:+ str_exn e) "danger" ;;! raise (ActionFailed (str_exn e))).
End view.
End DeadLetterTaskAdminView.

(** ** Webhook endpoints *)

(** [json.dumps(v, indent=2)]. *)
Definition new_line (level : nat) : string :=
  String LF (Nat.iter level (fun s => String " " (String " " s)) EmptyString).

Fixpoint dumps_indent (level : nat) (j : Json) : string :=
  let items l := join ("," +:+ new_line (S level)) l in
  match j with
  | JList (_ :: _ as l) =>
      "[" +:+ new_line (S level) +:+ items (map (dumps_indent (S level)) l) +:+ new_line level +:+ "]"
  | JObj (_ :: _ as fs) =>
      "{" +:+ new_line (S level) +:+
      items (map (fun '(k, v) => quote k +:+ ": " +:+ dumps_indent (S level) v) fs) +:+ new_line level +:+ "}"
  | _ => dumps j
  end.

Record EndpointForm := {
  ef_url : option string;
  ef_secret : option string;
  ef_description : option string;
  ef_event_types : option Tags;
  (** [None]: the form has no such field. *)
  ef_headers : option PyVal;
  ef_is_active : option bool;
}.

Module WebhookEndpointAdminView.
Import WebhookUtils Webhooks.
Section view.
Context {R : Type} {RD : Redis R} {EX : Ext} {WX : WebhookExt} {NX : NotifyExt}.
Context (str_of : PyVal -> string).
Local Abbreviation Ad := (AdM R).

Definition shown_headers (j : Json) : Json :=
  if falsy j then JStr ""
  else match j with JObj _ | JList _ => JStr (dumps_indent 0 j) | _ => j end.

(** The row with its headers as shown, and the name of its creator. *)
Definition EndpointRow : Type := WebhookEndpoint * Json * string.
Definition endpoint_row (t : Tables) (e : WebhookEndpoint) : EndpointRow :=
  (e, shown_headers (we_headers e), created_by_name (we_created_by e) t).

Definition newest_endpoint_first (x y : WebhookEndpoint) : Prop := we_created_at y <= we_created_at x.
#[export] Instance newest_endpoint_first_dec : RelDecision newest_endpoint_first.
Proof. intros x y. unfold newest_endpoint_first. apply _. Defined.

Definition endpoint_matches (q : option string) (e : WebhookEndpoint) : bool :=
  match search_pattern q with
  | Some p => ilike (we_url e) p || ilike_opt (we_description e) p
  | None => true
  end.

Definition matching (q : option string) (t : Tables) : list WebhookEndpoint :=
  filter (fun e => endpoint_matches q e = true) (values (webhook_endpoints t)).

Definition find_all (skip limit : Z) (q : option string) : Ad (list EndpointRow) :=
  srv (db_read (fun t => endpoint_row t <$> page limit skip (merge_sort newest_endpoint_first (matching q t)))).

Definition count (q : option string) : Ad Z := srv (db_read (fun t => Z.of_nat (length (matching q t)))).

Definition find_by_pk (pk : string) : Ad (option EndpointRow) :=
  let! id := pk_of pk in srv (db_read (fun t => endpoint_row t <$> webhook_endpoints t !! id)).

Definition find_by_pks (pks : list string) : Ad (list EndpointRow) :=
  match pks with
  | [] => ret []
  | _ => let! ids := lift (uuids_of pks) in
         srv (db_read (fun t => endpoint_row t <$> merge_sort newest_endpoint_first
           (filter (fun e => we_id e ∈ ids) (values (webhook_endpoints t)))))
  end.

(** A text is one event. *)
Definition event_types_of (t : Tags) : list string :=
  match t with TagsText s => [s] | TagsList l => l end.

Definition create (data : EndpointForm) : Ad (option EndpointRow) :=
  let! secret := match BaseAppAdminView.non_blank (ef_secret data), ef_secret data with
                 | Some _, Some s => ret s
                 | _, _ => let! n := srv draw in ret ("whsec_" +:+ token_urlsafe24 n)
                 end in
  let event_types := match ef_event_types data with
                     | Some (TagsText "") | None => []
                     | Some t => event_types_of t
                     end in
  let! created_by := get_current_admin_user_id in
  let headers := parse_headers str_of (default PNone (ef_headers data)) in
  let! url := required "url" (ef_url data) in
  let! endpoint_in := checked (WebhookEndpointCreate_validate
    {| wc_url := url; wc_description := ef_description data; wc_event_types := event_types;
       wc_headers := headers; wc_secret := Some secret |}) in
  let! res := srv (WebhookDAO.create_endpoint endpoint_in (default secret (wc_secret endpoint_in)) created_by) in
  flash ("Webhook endpoint created successfully! Signing secret: " +:+ secret +:+ " (Store this safely).") "success" ;;!
  find_by_pk (we_id res).

Definition edit (pk : string) (data : EndpointForm) : Ad (option EndpointRow) :=
  let! endpoint_id := pk_of pk in
  let secret := match BaseAppAdminView.non_blank (ef_secret data) with Some _ => ef_secret data | None => None end in
  let! update_data := checked (WebhookEndpointUpdate_validate
    {| wu_url := ef_url data; wu_description := ef_description data;
       wu_event_types := event_types_of <$> ef_event_types data;
       wu_headers := parse_headers str_of <$> ef_headers data;
       wu_secret := secret; wu_is_active := ef_is_active data |}) in
  srv (WebhookDAO.update_endpoint endpoint_id update_data) ;;!
  flash "Webhook endpoint updated successfully." "success" ;;!
  find_by_pk pk.

Definition delete (pks : list string) : Ad Z :=
  match pks with
  | [] => ret 0
  | _ => let! ids := lift (uuids_of pks) in srv (WebhookDAO.delete_endpoints ids)
  end.
End view.
End WebhookEndpointAdminView.

(** ** The dashboard *)

Module DashboardView.
Section view.
Context {R : Type} {RD : Redis R} {EX : Ext}.
Local Abbreviation Ad := (AdM R).

Definition rows {A} (m : gmap uuid A) : Z := Z.of_nat (size m).

Definition _get_total_users : Ad Z := srv (db_read (fun t => rows (users t))).
Definition _get_active_users : Ad Z := srv (db_read (fun t => rows (filter (fun '(_, u) => is_active u = true) (users t)))).
Definition _get_total_roles : Ad Z := srv (db_read (fun t => rows (roles t))).
Definition _get_total_permissions : Ad Z := srv (db_read (fun t => rows (permissions t))).

(** The cells of the latest five roles; times are formatted outside. *)
Definition _get_recent_roles_table (strftime : Z -> string) : Ad (list (list string)) :=
  srv (db_read (fun t =>
    (fun r => [r_name r; default "-" (or_opt (r_description r) None); strftime (r_created_at r)])
    <$> take 5 (merge_sort newest_role_first (values (roles t))))).
End view.
End DashboardView.
