(* ===== verification/AdminQueries.v ===== *)
(** * The admin portal: filters and log queries

    src/api/utils/admin_filters.py and the views of the webhook log and of the audit
    log (src/api/apps/common/admin_views/webhook_log.py and audit_log.py).  The
    approximate count of a table is a parameter here ([Database] models it).

    A view builds the text of a query with numbered placeholders and the list of
    its parameters.  A condition is kept as a [Cond], which has a text and a
    meaning.  [datetime.fromisoformat] is a parameter; times are whole seconds. *)

From Stdlib Require Import ZArith Lia Ascii String List Bool.
From stdpp Require Import base gmap strings sorting list pretty.
From S2P Require Import Prelude Redis Schema JsonText World Tokens Users Notifications Admin.
From S2P Require Webhooks.
Local Open Scope string_scope.
Local Open Scope list_scope.
Local Open Scope Z_scope.

Class DateExt := {
  (** The instant of [datetime.fromisoformat(s)], a naive time taken as UTC; [None]: ValueError. *)
  fromisoformat : string -> option Z;
  (** [str] of a datetime. *)
  str_time : Z -> string;
}.

(** ** Filter rules of starlette-admin *)

Inductive FilterValue := V_none | V_text (s : string) | V_time (t : Z).

Record FilterRule := {
  fr_field : string;
  fr_filter : string;
  fr_value : FilterValue;
  fr_value2 : FilterValue;
}.

(** An element of [FilterGroup.rules]: a rule or a nested group. *)
Inductive FilterItem := F_rule (r : FilterRule) | F_group (l : list FilterItem).

Definition value_truthy (v : FilterValue) : bool :=
  match v with V_none => false | V_text s => truthy s | V_time _ => true end.

(** ** admin_filters.py *)

Section filters.
Context {DX : DateExt}.

Definition str_value (v : FilterValue) : string :=
  match v with V_none => "None" | V_text s => s | V_time t => str_time t end.

Definition parse_admin_datetime (val : FilterValue) (is_end : bool) : outcome Exn Z :=
  match val with
  | V_time t => Ok t
  | _ =>
      let s := strip (str_value val) in
      match fromisoformat s with
      | None => Err (ValueErr "Invalid isoformat string")
      | Some t =>
          if (String.length s =? 10)%nat && negb (contains s "T") && negb (contains s " ") then
            let day := t - t mod 86400 in Ok (if is_end then day + 86399 else day)
          else Ok t
      end
  end.

Definition parsed (v : FilterValue) (is_end : bool) : outcome Exn (option Z) :=
  if value_truthy v then obind (parse_admin_datetime v is_end) (fun t => Ok (Some t)) else Ok None.

Definition extract_date_range (rule : FilterRule) : outcome Exn (option Z * option Z) :=
  let pair a b := obind a (fun start => obind b (fun finish => Ok (start, finish))) in
  if mem (fr_filter rule) ["gte"; "gt"] && value_truthy (fr_value rule) then
    pair (parsed (fr_value rule) false) (Ok None)
  else if mem (fr_filter rule) ["lte"; "lt"] && value_truthy (fr_value rule) then
    pair (Ok None) (parsed (fr_value rule) true)
  else if String.eqb (fr_filter rule) "between" then
    pair (parsed (fr_value rule) false) (parsed (fr_value2 rule) true)
  else if String.eqb (fr_filter rule) "eq" && value_truthy (fr_value rule) then
    pair (parsed (fr_value rule) false) (parsed (fr_value rule) true)
  else Ok (None, None).

(** [start or from_date]. *)
Definition or_time (a b : option Z) : option Z := match a with Some _ => a | None => b end.
End filters.

(** ** Conditions and parameters *)

Inductive Param := P_value (v : FilterValue) | P_text (s : string) | P_time (t : Z) | P_uuid (u : uuid) | P_int (n : Z).

(** Placeholders are numbered from 1. *)
Inductive Cond :=
| C_true
| C_eq (column : string) (i : nat)
| C_uuid (column : string) (i : nat)
| C_from (column : string) (i : nat)
| C_to (column : string) (i : nat)
| C_ilike (column : string) (i : nat)
| C_all (l : list Cond)
| C_any (l : list Cond).

Definition ph (i : nat) : string := "$" +:+ pretty (Z.of_nat i).

Fixpoint render (c : Cond) : string :=
  match c with
  | C_true => "1=1"
  | C_eq col i => col +:+ " = " +:+ ph i
  | C_uuid col i => col +:+ " = " +:+ ph i +:+ "::uuid"
  | C_from col i => col +:+ " >= " +:+ ph i
  | C_to col i => col +:+ " <= " +:+ ph i
  | C_ilike col i => col +:+ " ILIKE " +:+ ph i
  | C_all l => join " AND " (map render l)
  | C_any l => "(" +:+ join " OR " (map render l) +:+ ")"
  end.

Definition where_clause (conditions : list Cond) : string := join " AND " (map render conditions).

(** A value of a column. *)
Inductive Col := Col_text (s : option string) | Col_time (t : Z) | Col_uuid (u : uuid).

Definition param (params : list Param) (i : nat) : option Param := params !! pred i.

(** The meaning on a row; NULL is no match. *)
Fixpoint cond_holds (row : string -> Col) (params : list Param) (c : Cond) : bool :=
  match c with
  | C_true => true
  | C_eq col i =>
      match row col, param params i with
      | Col_text (Some s), Some (P_value (V_text v)) => String.eqb s v
      | _, _ => false
      end
  | C_uuid col i =>
      match row col, param params i with Col_uuid u, Some (P_uuid v) => String.eqb u v | _, _ => false end
  | C_from col i =>
      match row col, param params i with Col_time t, Some (P_time t0) => t0 <=? t | _, _ => false end
  | C_to col i =>
      match row col, param params i with Col_time t, Some (P_time t0) => t <=? t0 | _, _ => false end
  | C_ilike col i =>
      match row col, param params i with Col_text s, Some (P_text p) => ilike_opt s p | _, _ => false end
  | C_all l => forallb (cond_holds row params) l
  | C_any l => existsb (cond_holds row params) l
  end.

(** asyncpg refuses a datetime for a text parameter. *)
Definition param_ok (p : Param) : bool := match p with P_value (V_time _) => false | _ => true end.
Definition data_error : Exn := OtherErr "DataError".

(** [s.split(mark, 1)]: what precedes and what follows the first [mark]. *)
Fixpoint split_once (mark s : string) : option (string * string) :=
  if String.prefix mark s
  then Some (EmptyString, String.substring (String.length mark) (String.length s - String.length mark) s)
  else match s with
       | EmptyString => None
       | String c s' => '(a, b) ← split_once mark s'; Some (String c a, b)
       end.

(** [query.split("WHERE", 1)[1].split("ORDER BY", 1)[0].strip()]. *)
Definition where_of (query : string) : outcome Exn string :=
  match split_once "WHERE" query with
  | None => Err (IndexErr "list index out of range")
  | Some (_, rest) => Ok (strip (match split_once "ORDER BY" rest with Some (a, _) => a | None => rest end))
  end.

(** [if q and q.strip()]. *)
Definition searching (q : option string) : option string := from_option (fun s => or_opt (Some (strip s)) None) None q.

(** The rules of a filter group that are no nested group. *)
Definition rules_of (filters : option (list FilterItem)) : list FilterRule :=
  omap (fun i => match i with F_rule r => Some r | F_group _ => None end) (default [] filters).

Definition has_rules (filters : option (list FilterItem)) : bool :=
  match filters with Some (_ :: _) => true | _ => false end.

(** What a view finds out about the time range of its rules. *)
Section range.
Context {DX : DateExt}.

Fixpoint date_bounds (rules : list FilterRule) (from to : option Z) : outcome Exn (option Z * option Z) :=
  match rules with
  | [] => Ok (from, to)
  | r :: rules' =>
      if String.eqb (fr_field r) "created_at" then
        obind (extract_date_range r) (fun '(start, finish) => date_bounds rules' (or_time start from) (or_time finish to))
      else date_bounds rules' from to
  end.

(** The default: until now, and from 30 days before. *)
Definition default_range (now : Z) (b : option Z * option Z) : Z * Z :=
  let to := default now (snd b) in (default (to - 30 * 86400) (fst b), to).
End range.

(** ** Webhook logs (webhook_log.py) *)

Definition direction_text (d : WebhookDirection) : string := match d with INBOUND => "INBOUND" | OUTBOUND => "OUTBOUND" end.
Definition status_text (s : WebhookStatus) : string :=
  match s with SUCCESS => "SUCCESS" | FAILED => "FAILED" | RETRYING => "RETRYING" end.

Definition log_column (l : WebhookLog) (column : string) : Col :=
  if String.eqb column "direction" then Col_text (Some (direction_text (wl_direction l)))
  else if String.eqb column "status" then Col_text (Some (status_text (wl_status l)))
  else if String.eqb column "source" then Col_text (Some (wl_source l))
  else if String.eqb column "event_name" then Col_text (Some (wl_event_name l))
  else if String.eqb column "url" then Col_text (Some (wl_url l))
  else if String.eqb column "error_message" then Col_text (wl_error_message l)
  else if String.eqb column "created_at" then Col_time (wl_created_at l)
  else Col_text None.

Module WebhookLogAdminView.
Import Webhooks.
Section view.
Context {R : Type} {RD : Redis R} {EX : Ext} {NX : NotifyExt} {DX : DateExt}.
Local Abbreviation Ad := (AdM R).

Definition _extract_date_bounds (now : Z) (filters : option (list FilterItem)) : outcome Exn (Z * Z) :=
  obind (date_bounds (rules_of filters) None None) (fun b => Ok (default_range now b)).

(** The loop over the rules: a condition for each field that is asked for. *)
Fixpoint rule_conditions (rules : list FilterRule) (conditions : list Cond) (params : list Param)
  : list Cond * list Param :=
  match rules with
  | [] => (conditions, params)
  | r :: rules' =>
      if mem (fr_field r) ["direction"; "status"; "source"; "event_name"] && value_truthy (fr_value r) then
        rule_conditions rules' (conditions ++ [C_eq (fr_field r) (S (length params))]) (params ++ [P_value (fr_value r)])
      else rule_conditions rules' conditions params
  end.

Definition search_columns : list string := ["event_name"; "source"; "url"; "error_message"].

(** Everything but LIMIT and OFFSET. *)
Definition filter_conditions (now : Z) (filters : option (list FilterItem)) (q : option string)
  : outcome Exn (list Cond * list Param) :=
  let '(conditions, params) := rule_conditions (rules_of filters) [C_true] [] in
  obind (_extract_date_bounds now filters) (fun '(from_date, to_date) =>
  let params := params ++ [P_time from_date; P_time to_date] in
  let n := length params in
  let conditions := conditions ++ [C_all [C_from "created_at" (n - 1); C_to "created_at" n]] in
  Ok (match searching q with
      | Some s =>
          (conditions ++ [C_any (map (fun c => C_ilike c (S n)) search_columns)],
           params ++ [P_text ("%" +:+ s +:+ "%")])
      | None => (conditions, params)
      end)).

Definition _build_filter_query (now : Z) (filters : option (list FilterItem)) (limit skip : Z) (q : option string)
  : outcome Exn (string * list Param) :=
  obind (filter_conditions now filters q) (fun '(conditions, params) =>
  let params := params ++ [P_int limit; P_int skip] in
  let n := length params in
  Ok (join " " ["SELECT * FROM webhook_logs WHERE"; where_clause conditions; "ORDER BY created_at DESC LIMIT";
                ph (n - 1); "OFFSET"; ph n +:+ ";"], params)).

(** The rows the conditions select. *)
Definition selected (conditions : list Cond) (params : list Param) (t : Tables) : list WebhookLog :=
  filter (fun l => forallb (cond_holds (log_column l) params) conditions = true) (webhook_logs t).

Definition find_all (skip limit : Z) (q : option string) (filters : option (list FilterItem)) : Ad (list WebhookLog) :=
  let! t0 := srv (gets now) in
  let! (conditions, params) := lift (filter_conditions t0 filters q) in
  raise_if (negb (forallb param_ok params)) data_error ;;!
  srv (db_read (fun t => page limit skip (merge_sort latest_log_first (selected conditions params t)))).

(** [approximate]: [get_table_approximate_count]. *)
Definition count (approximate : string -> Ad Z) (q : option string) (filters : option (list FilterItem)) : Ad Z :=
  if bool_decide (is_Some (searching q)) || has_rules filters then
    try_catch
      (let! t0 := srv (gets now) in
       let! (conditions, params) := lift (filter_conditions t0 filters q) in
       raise_if (negb (forallb param_ok params)) data_error ;;!
       srv (db_read (fun t => Z.of_nat (length (selected conditions params t)))))
      (fun _ => approximate "webhook_logs")
  else approximate "webhook_logs".

Definition find_by_pk (pk : string) : Ad (option WebhookLog) :=
  let! id := pk_of pk in
  srv (db_read (fun t => head (merge_sort latest_log_first (filter (fun l => wl_id l = id) (webhook_logs t))))).

Definition find_by_pks (pks : list string) : Ad (list WebhookLog) :=
  match pks with
  | [] => ret []
  | _ => let! ids := lift (uuids_of pks) in
         srv (db_read (fun t => merge_sort latest_log_first (filter (fun l => wl_id l ∈ ids) (webhook_logs t))))
  end.

Definition create : Ad unit := raise (ActionFailed "Webhook logs are immutable and cannot be created via admin UI.").
Definition edit : Ad unit := raise (ActionFailed "Webhook logs are immutable and cannot be edited via admin UI.").
Definition delete : Ad unit := raise (ActionFailed "Webhook logs are immutable and cannot be deleted via admin UI.").
End view.
End WebhookLogAdminView.

(** ** Audit logs (audit_log.py) *)

(** A row of audit_logs (006); they are written by the audit logger and by the
    triggers of the tables. *)
Record AuditRow := {
  ar_id : uuid;
  ar_actor_id : uuid;
  ar_action : string;
  ar_resource : string;
  ar_resource_id : string;
  ar_details : Json;
  ar_ip_address : option string;
  ar_created_at : Z;
}.

Record AuditLogQueryFilters := {
  aq_from_date : Z;
  aq_to_date : Z;
  aq_actor_id : option uuid;
  aq_actor_name : option string;
  aq_resource : option string;
  aq_action : option string;
}.

(** [LEFT JOIN users u ON a.actor_id = u.id]. *)
Definition audit_column (t : Tables) (a : AuditRow) (column : string) : Col :=
  let u := users t !! ar_actor_id a in
  if String.eqb column "a.id" then Col_uuid (ar_id a)
  else if String.eqb column "a.actor_id" then Col_uuid (ar_actor_id a)
  else if String.eqb column "a.action" then Col_text (Some (ar_action a))
  else if String.eqb column "a.resource" then Col_text (Some (ar_resource a))
  else if String.eqb column "a.resource_id" then Col_text (Some (ar_resource_id a))
  else if String.eqb column "a.ip_address" then Col_text (ar_ip_address a)
  else if String.eqb column "a.created_at" then Col_time (ar_created_at a)
  else if String.eqb column "u.full_name" then Col_text (u ≫= full_name)
  else if String.eqb column "u.username" then Col_text (username <$> u)
  else if String.eqb column "u.email" then Col_text (email <$> u)
  else Col_text None.

(** What the list shows of a row: the actor's name, username and e-mail, and the
    details, read if they are a text. *)
Record AuditView := {
  av_row : AuditRow;
  av_actor_name : string;
  av_actor_username : option string;
  av_actor_email : option string;
  av_details : Json;
}.

Definition audit_view (t : Tables) (a : AuditRow) : AuditView :=
  let u := users t !! ar_actor_id a in
  {| av_row := a;
     av_actor_name := match u with Some u => default (username u) (or_opt (full_name u) None) | None => "Unknown" end;
     av_actor_username := username <$> u; av_actor_email := email <$> u;
     av_details := match ar_details a with JStr s => default (JStr s) (loads s) | j => j end |}.

Definition latest_audit_first (x y : AuditRow) : Prop := ar_created_at y <= ar_created_at x.
#[export] Instance latest_audit_first_dec : RelDecision latest_audit_first.
Proof. intros x y. unfold latest_audit_first. apply _. Defined.

Module AuditLogAdminView.
Section view.
Context {R : Type} {RD : Redis R} {EX : Ext} {NX : NotifyExt} {DX : DateExt}.
Context (audit_logs : World R -> list AuditRow).
Local Abbreviation Ad := (AdM R).

(** The loop over the rules; a later rule on a field replaces an earlier one. *)
Fixpoint actor_of (rules : list FilterRule) (acc : option uuid) : outcome Exn (option uuid) :=
  match rules with
  | [] => Ok acc
  | r :: rules' =>
      if String.eqb (fr_field r) "actor_id" && value_truthy (fr_value r) then
        obind (uuid_of (str_value (fr_value r))) (fun u => actor_of rules' (Some u))
      else actor_of rules' acc
  end.

Definition text_of_field (field : string) (rules : list FilterRule) : option string :=
  last (omap (fun r => if String.eqb (fr_field r) field && value_truthy (fr_value r)
                       then Some (str_value (fr_value r)) else None) rules).

Definition _extract_query_filters (now : Z) (filters : option (list FilterItem)) : outcome Exn AuditLogQueryFilters :=
  let rules := rules_of filters in
  obind (date_bounds rules None None) (fun b =>
  obind (actor_of rules None) (fun actor_id =>
  let '(from_date, to_date) := default_range now b in
  Ok {| aq_from_date := from_date; aq_to_date := to_date; aq_actor_id := actor_id;
        aq_actor_name := text_of_field "actor_name" rules; aq_resource := text_of_field "resource" rules;
        aq_action := text_of_field "action" rules |})).

(** A condition and its parameter, where a value is asked for. *)
Definition with_param {A} (v : option A) (p : A -> Param) (c : nat -> Cond) (s : list Cond * list Param)
  : list Cond * list Param :=
  match v with
  | Some a => let '(conditions, params) := s in (conditions ++ [c (S (length params))], params ++ [p a])
  | None => s
  end.

Definition pattern (s : string) : Param := P_text ("%" +:+ s +:+ "%").

Definition search_columns : list string :=
  ["u.full_name"; "u.username"; "u.email"; "a.action"; "a.resource"; "a.resource_id"; "a.ip_address"].

(** A text that is a UUID is also compared with the two identifiers. *)
Definition _build_search_clause (q : option string) (s : list Cond * list Param) : list Cond * list Param :=
  match searching q with
  | None => s
  | Some text =>
      let '(conditions, params) := s in
      let s_idx := S (length params) in
      let texts := map (fun c => C_ilike c s_idx) search_columns in
      match parse_uuid text with
      | Some u => (conditions ++ [C_any (texts ++ [C_uuid "a.id" (S s_idx); C_uuid "a.actor_id" (S s_idx)])],
                   params ++ [pattern text; P_uuid u])
      | None => (conditions ++ [C_any texts], params ++ [pattern text])
      end
  end.

Definition filter_conditions (now : Z) (filters : option (list FilterItem)) (q : option string)
  : outcome Exn (list Cond * list Param) :=
  obind (_extract_query_filters now filters) (fun f =>
  Ok (_build_search_clause q
     (with_param (or_opt (aq_action f) None) pattern (C_ilike "a.action")
     (with_param (or_opt (aq_resource f) None) pattern (C_ilike "a.resource")
     (with_param (or_opt (aq_actor_name f) None) pattern
        (fun i => C_any [C_ilike "u.full_name" i; C_ilike "u.username" i])
     (with_param (aq_actor_id f) P_uuid (C_uuid "a.actor_id")
        ([C_from "a.created_at" 1; C_to "a.created_at" 2], [P_time (aq_from_date f); P_time (aq_to_date f)]))))))).

(** The text in front of the conditions; its line breaks and indentation are spaces here. *)
Definition SELECT_AUDIT : string :=
  " SELECT a.id, a.actor_id, COALESCE(NULLIF(u.full_name, ''), u.username, 'Unknown') AS actor_name, " +:+
  "u.username AS actor_username, u.email AS actor_email, a.action, a.resource, a.resource_id, a.details, " +:+
  "a.ip_address, a.created_at FROM audit_logs a LEFT JOIN users u ON a.actor_id = u.id WHERE ".

Definition _build_filter_query (now : Z) (filters : option (list FilterItem)) (limit skip : Z) (q : option string)
  : outcome Exn (string * list Param) :=
  obind (filter_conditions now filters q) (fun '(conditions, params) =>
  let params := params ++ [P_int limit; P_int skip] in
  let n := length params in
  Ok (join " " [SELECT_AUDIT; where_clause conditions; "ORDER BY a.created_at DESC LIMIT"; ph (n - 1); "OFFSET";
                ph n +:+ ";"], params)).

Definition selected (conditions : list Cond) (params : list Param) (rows : list AuditRow) (t : Tables) : list AuditRow :=
  filter (fun a => forallb (cond_holds (audit_column t a) params) conditions = true) rows.

Definition read {A} (f : list AuditRow -> Tables -> A) : Ad A :=
  srv (gets (fun w => f (audit_logs w) (read_view w))).

Definition find_all (skip limit : Z) (q : option string) (filters : option (list FilterItem)) : Ad (list AuditView) :=
  let! t0 := srv (gets now) in
  let! (conditions, params) := lift (filter_conditions t0 filters q) in
  read (fun rows t => audit_view t <$> page limit skip (merge_sort latest_audit_first (selected conditions params rows t))).

Definition count (approximate : string -> Ad Z) (q : option string) (filters : option (list FilterItem)) : Ad Z :=
  if bool_decide (is_Some (searching q)) || has_rules filters then
    try_catch
      (let! t0 := srv (gets now) in
       let! (conditions, params) := lift (filter_conditions t0 filters q) in
       read (fun rows t => Z.of_nat (length (selected conditions params rows t))))
      (fun _ => approximate "audit_logs")
  else approximate "audit_logs".

Definition find_by_pk (pk : string) : Ad (option AuditView) :=
  let! id := pk_of pk in
  read (fun rows t => audit_view t <$> head (filter (fun a => ar_id a = id) rows)).

Definition find_by_pks (pks : list string) : Ad (list AuditView) :=
  match pks with
  | [] => ret []
  | _ => let! ids := lift (uuids_of pks) in
         read (fun rows t => audit_view t <$> merge_sort latest_audit_first (filter (fun a => ar_id a ∈ ids) rows))
  end.

Definition create : Ad unit := raise (ActionFailed "Audit logs cannot be created via admin UI.").
Definition edit : Ad unit := raise (ActionFailed "Audit logs cannot be edited via admin UI.").
Definition delete : Ad unit := raise (ActionFailed "Audit logs cannot be deleted via admin UI.").
End view.
End AuditLogAdminView.
