(* ===== verification/WebSockets.v ===== *)
(** * WebSocket connections

    src/api/apps/notification/v0/channels/websocket.py and [listen_to_pubsub] of
    src/api/core/redis.py: the connections of one worker and the channels of Redis
    pub/sub it listens to.

    A coroutine gives up control at an [await]; the only one that matters here is
    the subscription to the broadcast channel in [_ensure_listener], which stands
    between the entry of a connection and the look at how many there are.  So
    [connect] is two pieces, [connect_begin] and [connect_resume], which other
    coroutines may come between; every other operation is one piece. *)

From Stdlib Require Import ZArith Lia Ascii String List Bool.
From stdpp Require Import base gmap strings list.
From S2P Require Import Prelude Redis Schema World Notifications.
Local Open Scope string_scope.
Local Open Scope list_scope.

(** A WebSocket, by its identity. *)
Definition Socket : Type := nat.

Record ConnectionManager := {
  (** In the order of the dict. *)
  active_connections : list (uuid * list Socket);
  (** The channels the PubSub object is subscribed to; [None]: no such object. *)
  pubsub : option (list string);
  (** [listener_task] is there and not done. *)
  listening : bool;
}.

Definition new_manager : ConnectionManager :=
  {| active_connections := []; pubsub := None; listening := false |}.

(** The manager and what is around it: the texts the sockets got, the sockets whose
    other end is gone, and whether each next command to Redis fails. *)
Record Worker := {
  manager : ConnectionManager;
  texts : list (Socket * string);
  gone_sockets : list Socket;
  command_faults : list bool;
}.

Definition WsM (A : Type) : Type := M Worker Exn A.

(** ** The dict of connections *)

Definition connections (u : uuid) (l : list (uuid * list Socket)) : option (list Socket) :=
  snd <$> List.find (fun p => String.eqb (fst p) u) l.

(** [d[u] = cs]. *)
Fixpoint set_connections (u : uuid) (cs : list Socket) (l : list (uuid * list Socket)) : list (uuid * list Socket) :=
  match l with
  | [] => [(u, cs)]
  | (v, ds) :: l' => if String.eqb v u then (u, cs) :: l' else (v, ds) :: set_connections u cs l'
  end.

(** [del d[u]]. *)
Definition del_connections (u : uuid) (l : list (uuid * list Socket)) : list (uuid * list Socket) :=
  filter (fun p => fst p <> u) l.

(** [l.remove(x)]: the first occurrence. *)
Fixpoint remove_first (x : Socket) (l : list Socket) : list Socket :=
  match l with
  | [] => []
  | y :: l' => if (x =? y)%nat then l' else y :: remove_first x l'
  end.

Section manager.
Context {NX : NotifyExt}.

(** The text of a channel of a user is [notifications:user:<id>] here too. *)
Definition BROADCAST : string := "notifications:broadcast".
Definition user_channel (u : uuid) : string := "notifications:user:" +:+ u.

Definition set_manager (m : ConnectionManager) (w : Worker) : Worker :=
  {| manager := m; texts := texts w; gone_sockets := gone_sockets w; command_faults := command_faults w |}.

Definition set_active (l : list (uuid * list Socket)) (w : Worker) : Worker :=
  set_manager {| active_connections := l; pubsub := pubsub (manager w); listening := listening (manager w) |} w.
Definition set_pubsub (p : option (list string)) (w : Worker) : Worker :=
  set_manager {| active_connections := active_connections (manager w); pubsub := p; listening := listening (manager w) |} w.
Definition set_listening (b : bool) (w : Worker) : Worker :=
  set_manager {| active_connections := active_connections (manager w); pubsub := pubsub (manager w); listening := b |} w.
Definition add_text (s : Socket) (text : string) (w : Worker) : Worker :=
  {| manager := manager w; texts := texts w ++ [(s, text)]; gone_sockets := gone_sockets w;
     command_faults := command_faults w |}.

(** A command to Redis. *)
Definition command (f : Worker -> Worker) : WsM unit :=
  fun w => match command_faults w with
           | [] => (Ok tt, f w)
           | b :: l =>
               let w' := {| manager := manager w; texts := texts w; gone_sockets := gone_sockets w; command_faults := l |} in
               if b then (Err RedisError, w') else (Ok tt, f w')
           end.

Definition subscribe (channel : string) : WsM unit :=
  command (fun w => set_pubsub ((fun l => if mem channel l then l else l ++ [channel]) <$> pubsub (manager w)) w).
Definition unsubscribe (channel : string) : WsM unit :=
  command (fun w => set_pubsub (filter (fun c => c <> channel) <$> pubsub (manager w)) w).

(** [if self.pubsub is not None]. *)
Definition with_pubsub (m : WsM unit) : WsM unit :=
  let! p := gets (fun w => pubsub (manager w)) in
  match p with Some _ => m | None => ret tt end.

(** The end of [connect]: the first connection of a user subscribes to its channel. *)
Definition subscribe_first (u : uuid) : WsM unit :=
  let! l := gets (fun w => active_connections (manager w)) in
  match connections u l with
  | Some cs => if (length cs =? 1)%nat then with_pubsub (subscribe (user_channel u)) else ret tt
  | None => raise (KeyErr u)
  end.

(** [accept], the entry in the dict and the first part of [_ensure_listener]: true if
    the coroutine waits for the answer to the subscription. *)
Definition connect_begin (s : Socket) (u : uuid) : WsM bool :=
  modify (fun w => let l := active_connections (manager w) in
                   set_active (set_connections u (default [] (connections u l) ++ [s]) l) w) ;;!
  let! running := gets (fun w => listening (manager w)) in
  if running then subscribe_first u ;;! ret false
  else
    modify (fun w => set_pubsub (Some (default [] (pubsub (manager w)))) w) ;;!
    subscribe BROADCAST ;;!
    ret true.

(** What follows the answer: the listener task, and the end of [connect]. *)
Definition connect_resume (u : uuid) : WsM unit :=
  modify (set_listening true) ;;!
  subscribe_first u.

(** Without anything in between. *)
Definition connect (s : Socket) (u : uuid) : WsM unit :=
  let! waits := connect_begin s u in
  if waits then connect_resume u else ret tt.

Definition disconnect (s : Socket) (u : uuid) : WsM unit :=
  let! l := gets (fun w => active_connections (manager w)) in
  match connections u l with
  | None => ret tt
  | Some cs =>
      match remove_first s cs with
      | [] =>
          modify (set_active (del_connections u l)) ;;!
          with_pubsub (unsubscribe (user_channel u))
      | cs' => modify (set_active (set_connections u cs' l))
      end
  end.

(** [websocket.send_text]. *)
Definition send_text (s : Socket) (text : string) : WsM unit :=
  let! gone := gets gone_sockets in
  if bool_decide (s ∈ gone) then raise (OtherErr "WebSocketDisconnect") else modify (add_text s text).

(** The loop over a copy of the list. *)
Fixpoint send_each (u : uuid) (text : string) (cs : list Socket) : WsM unit :=
  match cs with
  | [] => ret tt
  | s :: cs' =>
      try_catch (send_text s text) (fun _ => disconnect s u) ;;!
      send_each u text cs'
  end.

Definition _local_send (text : string) (u : uuid) : WsM unit :=
  let! l := gets (fun w => active_connections (manager w)) in
  match connections u l with Some cs => send_each u text cs | None => ret tt end.

Fixpoint each_user (text : string) (us : list uuid) : WsM unit :=
  match us with [] => ret tt | u :: us' => _local_send text u ;;! each_user text us' end.

Definition _local_broadcast (text : string) : WsM unit :=
  let! l := gets (fun w => active_connections (manager w)) in each_user text (fst <$> l).

(** [channel.split(":")[-1]]. *)
Definition last_part (channel : string) : string := default "" (last (split_on ":" channel)).

(** The body of the loop of [_redis_listener]. *)
Definition dispatch (channel data : string) : WsM unit :=
  if String.eqb channel BROADCAST then _local_broadcast data
  else if startswith channel "notifications:user:" then
    match parse_uuid (last_part channel) with
    | Some u => _local_send data u
    | None => ret tt
    end
  else ret tt.

(** A message published on a channel: the listener gets it if it runs and the
    channel is subscribed; an exception ends the listener. *)
Definition _redis_listener (channel data : string) : WsM unit :=
  let! m := gets manager in
  if listening m && bool_decide (channel ∈ default [] (pubsub m)) then
    try_catch (dispatch channel data) (fun _ => modify (set_listening false))
  else ret tt.

(** [stop]: unsubscribes, closes the object and cancels the task. *)
Definition stop : WsM unit :=
  with_pubsub (unsubscribe BROADCAST ;;! modify (set_pubsub (Some []))) ;;!
  modify (set_listening false).
End manager.

(** ** The channel *)

Section channel.
Context {R : Type} {RD : Redis R} {EX : Ext} {NX : NotifyExt}.

Definition send_personal_message (text : string) (u : uuid) : PyM (R := R) unit := redis_publish (user_channel u) text.
Definition broadcast (text : string) : PyM (R := R) unit := redis_publish BROADCAST text.

Definition websocket_channel : Channel R := {|
  channel_send := fun u n => send_personal_message (model_dump_json n) u;
  channel_broadcast := fun n => broadcast (model_dump_json n);
|}.
End channel.
