(* ===== verification/Exports.v ===== *)
(** * The export of dead letters

    [DeadLetterTaskService.export_tasks] and its route
    (src/api/apps/common/v0/service/dead_letter_task.py, routes/dead_letter_task.py):
    the matching rows as CSV or as JSON.  [csv.writer] is modelled in its default
    dialect; the texts of times are a parameter. *)

From Stdlib Require Import ZArith Lia Ascii String List Bool.
From stdpp Require Import base gmap strings list pretty.
From S2P Require Import Prelude Redis Schema JsonText World Tokens Users Roles Auth DeadLetter AdminViews.
Local Open Scope string_scope.
Local Open Scope list_scope.
Local Open Scope Z_scope.

(** ** csv.writer *)

Definition DQUOTE : ascii := "034"%char.

(** What makes [QUOTE_MINIMAL] quote a field. *)
Definition csv_special (c : ascii) : bool :=
  Ascii.eqb c "," || Ascii.eqb c DQUOTE || Ascii.eqb c CR || Ascii.eqb c LF.

Fixpoint double_quotes (s : string) : string :=
  match s with
  | EmptyString => EmptyString
  | String c s' => if Ascii.eqb c DQUOTE then String DQUOTE (String DQUOTE (double_quotes s'))
                   else String c (double_quotes s')
  end.

Definition csv_field (s : string) : string :=
  if all_chars (fun c => negb (csv_special c)) s then s
  else String DQUOTE (double_quotes s +:+ String DQUOTE EmptyString).

Definition CRLF : string := String CR (String LF EmptyString).

(** [writer.writerow], of more than one field. *)
Definition writerow (fields : list string) : string := join "," (csv_field <$> fields) +:+ CRLF.

Definition csv_text (rows : list (list string)) : string := join "" (writerow <$> rows).

(** ** The export *)

Inductive ExportFormat := CSV | JSON.

Definition EXPORT_LIMIT : Z := 5000.

Definition csv_header : list string :=
  ["ID"; "Celery Task ID"; "Task Name"; "Queue"; "Exception Type"; "Exception Message"; "Retry Count"; "Failed At"].

Section export.
(** [isoformat()] of a time, and its text in a JSON dump. *)
Context (isoformat : Z -> string) (json_time : Z -> string).

(** None is written as nothing. *)
Definition csv_fields (t : DeadLetterTask) : list string :=
  [d_id t; d_task_id t; d_task_name t; d_queue t; default "" (d_exception_type t);
   default "" (d_exception_message t); pretty (d_retry_count t); isoformat (d_failed_at t)].

Definition csv_export (tasks : list DeadLetterTask) : string := csv_text (csv_header :: (csv_fields <$> tasks)).

(** [t.model_dump(mode=json)], by field names: the rows are models built by
    [model_construct], and the dump reads their attributes as they are stored, so the
    JSON columns are the texts the pool reads, not the values they hold. *)
Definition response_json (t : DeadLetterTask) : Json :=
  let text o := match o with Some s => JStr s | None => JNull end in
  JObj [("task_name", JStr (d_task_name t)); ("queue", JStr (d_queue t)); ("args", d_args t);
        ("task_kwargs", d_kwargs t); ("headers", d_headers t); ("id", JStr (d_id t));
        ("task_id", JStr (d_task_id t)); ("exception_type", text (d_exception_type t));
        ("exception_message", text (d_exception_message t)); ("traceback", text (d_traceback t));
        ("retry_count", JNum (d_retry_count t)); ("failed_at", JStr (json_time (d_failed_at t)));
        ("created_at", JStr (json_time (d_created_at t))); ("updated_at", JStr (json_time (d_updated_at t)))].

Definition json_export (tasks : list DeadLetterTask) : string := dumps_indent 0 (JList (response_json <$> tasks)).

(** The body and its media type. *)
Record Download := { body : string; media_type : string; content_disposition : string }.

Section service.
Context {R : Type} {RD : Redis R} {EX : Ext} {ST : Settings}.
Local Abbreviation Py := (PyM (R := R)).

Definition export_tasks (filters : DLQTaskFilter) (fmt : ExportFormat) : Py Download :=
  let! tasks := DeadLetterTaskDAO.list_tasks filters (Some EXPORT_LIMIT) None 0 in
  ret (match fmt with
       | CSV => {| body := csv_export tasks; media_type := "text/csv";
                   content_disposition := "attachment; filename=dlq_export.csv" |}
       | JSON => {| body := json_export tasks; media_type := "application/json";
                    content_disposition := "attachment; filename=dlq_export.json" |}
       end).

Definition export_dlq_tasks (tok : string) (filters : DLQTaskFilter) (fmt : ExportFormat) : Py Download :=
  get_current_user ["dlq:read"] tok ;;! export_tasks filters fmt.
End service.
End export.
