(* ===== verification/Storage.v ===== *)
(** * Object storage

    src/api/apps/common/v0/service/s3.py, routes/s3.py and src/api/utils/pydantic_utils.py.
    The client of botocore is a parameter: what it answers to each call, [None] for a
    [ClientError].  The state holds the calls made to it. *)

From Stdlib Require Import ZArith Lia Ascii String List Bool.
From stdpp Require Import base gmap strings list.
From S2P Require Import Prelude Redis Schema JsonText World Tokens Users Roles Auth.
Local Open Scope string_scope.
Local Open Scope list_scope.
Local Open Scope Z_scope.

Record PostRequest := {
  pr_bucket : string;
  pr_key : string;
  pr_fields : list (string * string);
  pr_conditions : list Json;
  pr_expires : Z;
}.

Inductive S3Call :=
| Presigned_post (r : PostRequest)
| Presigned_get (bucket key : string) (expires : Z)
| Delete_object (bucket key : string).

(** The settings and the client. *)
Class S3Ext := {
  ALLOWED_CONTENT_TYPES : list string;
  AWS_BUCKET_NAME : string;
  S3_REGION_NAME : string;
  S3_ENDPOINT_URL : string;
  (** [mimetypes.guess_type(filename)[0]]. *)
  guess_type : string -> option string;
  s3_presigned_post : PostRequest -> option (string * list (string * string));
  s3_presigned_get : string -> string -> Z -> option string;
  s3_delete : string -> string -> bool;
}.

Definition S3M (R : Type) (A : Type) : Type := M (World R * list S3Call) Exn A.

Definition ClientError : Exn := OtherErr "ClientError".

Section storage.
Context {R : Type} {RD : Redis R} {EX : Ext} {ST : Settings} {SX : S3Ext}.

(** A computation that makes no call. *)
Definition local {A} (m : PyM (R := R) A) : S3M R A := fun '(w, l) => let '(o, w') := m w in (o, (w', l)).

(** A call, and the answer to it. *)
Definition s3_call {A} (c : S3Call) (answer : option A) : S3M R A :=
  modify (fun '(w, l) => (w, l ++ [c])) ;;!
  match answer with Some a => ret a | None => raise ClientError end.

(** ** S3Service *)

Record S3UploadUrlResponse := {
  upload_url : string;
  fields : list (string * string);
  key : string;
  expires_in : Z;
}.

Definition upload_conditions (content_type : string) : list Json :=
  [JList [JStr "content-length-range"; JNum 0; JNum 5242880];
   JObj [("Content-Type", JStr content_type)];
   JObj [("x-amz-tagging", JStr "status=temporary")]].

Definition generate_presigned_url (filename : string) (content_type : option string) (expiration : Z)
  : S3M R S3UploadUrlResponse :=
  let! id := local new_uuid4 in
  let key := id +:+ "/" +:+ filename in
  let content_type := match or_opt content_type None with Some t => Some t | None => guess_type filename end in
  match content_type with
  | Some t =>
      raise_if (negb (mem t ALLOWED_CONTENT_TYPES)) (ValueErr ("Content-Type " +:+ t +:+ " is not allowed.")) ;;!
      let req := {| pr_bucket := AWS_BUCKET_NAME; pr_key := key;
                    pr_fields := [("Content-Type", t); ("x-amz-tagging", "status=temporary")];
                    pr_conditions := upload_conditions t; pr_expires := expiration |} in
      let! (url, fs) := s3_call (Presigned_post req) (s3_presigned_post req) in
      ret {| upload_url := url; fields := fs; key := key; expires_in := expiration |}
  | None => raise (ValueErr "Content-Type None is not allowed.")
  end.

Definition s3_delete_file (key : string) : S3M R unit :=
  s3_call (Delete_object AWS_BUCKET_NAME key) (if s3_delete AWS_BUCKET_NAME key then Some tt else None).

(** A client error of the presigned kind gives the empty text. *)
Definition get_file_url (key : string) (presigned : bool) (expiration : Z) : S3M R string :=
  if presigned then
    try_catch (s3_call (Presigned_get AWS_BUCKET_NAME key expiration) (s3_presigned_get AWS_BUCKET_NAME key expiration))
      (fun _ => ret "")
  else if contains S3_ENDPOINT_URL "localhost" then ret (S3_ENDPOINT_URL +:+ "/" +:+ AWS_BUCKET_NAME +:+ "/" +:+ key)
  else ret ("https://" +:+ AWS_BUCKET_NAME +:+ ".s3." +:+ S3_REGION_NAME +:+ ".amazonaws.com/" +:+ key).

(** ** The routes *)

(** [except (ClientError, ValueError)]. *)
Definition s3_catches (e : Exn) : bool :=
  match e with ValueErr _ => true | OtherErr what => String.eqb what "ClientError" | _ => false end.

Definition or_500 {A} (detail : string) (m : S3M R A) : S3M R A :=
  try_catch m (fun e => if s3_catches e then raise (HTTPException 500 detail) else raise e).

Definition generate_upload_url (tok filename : string) (content_type : option string) : S3M R S3UploadUrlResponse :=
  local (get_current_user [] tok) ;;!
  or_500 "s3.upload_url_failed" (generate_presigned_url filename content_type 300).

Definition delete_file (tok key : string) : S3M R unit :=
  local (get_current_user [] tok) ;;! or_500 "s3.delete_failed" (s3_delete_file key).

(** No user is asked for. *)
Definition get_file (key : string) : S3M R string :=
  or_500 "s3.get_failed" (get_file_url key true 3600).

(** ** pydantic_utils.py *)

Definition generate_file_url (key : option string) (presigned : bool) : S3M R (option string) :=
  match or_opt key None with
  | None => ret None
  | Some k => let! url := get_file_url k presigned 3600 in ret (Some url)
  end.
End storage.

(** The number of code points of a UTF-8 text. *)
Fixpoint code_points (s : string) : nat :=
  match s with
  | EmptyString => O
  | String c s' => if (byte_of c / 64 =? 2) then code_points s' else S (code_points s')
  end.

Definition has_char (P : ascii -> bool) (s : string) : bool := negb (all_chars (fun c => negb (P c)) s).
Definition char_in (set : string) (c : ascii) : bool := has_char (Ascii.eqb c) set.
Definition between (lo hi : Z) (c : ascii) : bool := (lo <=? byte_of c) && (byte_of c <=? hi).

(** [validate_password_strength] of a text of ASCII digits; [None]: accepted. *)
Definition validate_password_strength (v : string) : option string :=
  if (code_points v <? 8)%nat then Some "Password must be at least 8 characters long"
  else if negb (has_char (between 97 122) v) then Some "Password must contain a lowercase letter"
  else if negb (has_char (between 65 90) v) then Some "Password must contain an uppercase letter"
  else if negb (has_char is_digit v) then Some "Password must contain a number"
  else if negb (has_char (char_in "@$!%*?&") v)
       then Some "Password must contain a special character (@$!%*?&)"
  else None.
