(* ===== verification/Jobs.v ===== *)
(** * Scripts and jobs

    src/scripts/create_default_admin.py, src/api/tasks/delete_old_logs.py and the parts
    of src/api/core/celery_app.py around the tasks: the discovery of their modules and
    the resources of a worker process. *)

From Stdlib Require Import ZArith Lia Ascii String List Bool.
From stdpp Require Import base gmap strings list.
From S2P Require Import Prelude Redis Schema World Tokens Users Cache Roles.
Local Open Scope string_scope.
Local Open Scope list_scope.
Local Open Scope Z_scope.

(** ** The default admin *)

Section default_admin.
Context {R : Type} {RD : Redis R} {EX : Ext}.
Local Abbreviation Py := (PyM (R := R)).

Definition default_admin_role : string := "Super Admin".
Definition default_admin_email : string := "admin@example.com".
Definition default_admin_password : string := "AdminPassword123!".

Definition default_admin : UserCreate :=
  {| uc_email := default_admin_email; uc_username := "admin"; uc_full_name := Some "System Administrator";
     uc_is_active := true; uc_password := Some default_admin_password |}.

(** The body of the [try]: [get_all_permissions] is called without a limit, which
    means its default of 20. *)
Definition install_default_admin : Py unit :=
  let! permissions := get_all_permissions 20 None in
  let permission_ids := p_id <$> permissions in
  let! existing_role := get_role_by_name default_admin_role in
  let! role_id := match existing_role with
                  | Some r =>
                      dao_update_role (r_id (rd_role r))
                        {| ru_name := None; ru_description := None; ru_permission_ids := Some permission_ids |} ;;!
                      ret (r_id (rd_role r))
                  | None =>
                      let! new_role := dao_create_role
                        {| rc_name := default_admin_role; rc_description := Some "Administrator with all permissions";
                           rc_permission_ids := permission_ids |} in
                      ret (r_id (rd_role new_role))
                  end in
  let! existing_user := get_by_email default_admin_email in
  let! user_id := match existing_user with
                  | Some u => ret (u_id (ud_user u))
                  | None =>
                      let! hashed_password := get_password_hash default_admin_password in
                      let! new_user := create_user_row default_admin (Some hashed_password) in
                      ret (u_id new_user)
                  end in
  assign_roles user_id [role_id].

(** Any exception is printed. *)
Definition create_default_admin : Py unit := try_catch install_default_admin (fun _ => ret tt).
End default_admin.

(** ** Old log files *)

Section logs.
(** [datetime.strptime(s, format)] for year-month-day, and whether [os.remove] succeeds. *)
Context (strptime : string -> option Z) (removable : string -> bool).

(** [s.split(mark)[-1]], with fuel. *)
Fixpoint after_last (fuel : nat) (mark s : string) : string :=
  match fuel with
  | O => s
  | S fuel' =>
      if String.prefix mark s then after_last fuel' mark (String.substring (String.length mark) (String.length s) s)
      else match s with
           | EmptyString => EmptyString
           | String c s' =>
               (* the rest has the mark, or this is the last part *)
               if contains s mark then after_last fuel' mark s' else s
           end
  end.

Definition log_prefix : string := "fastapi.log.".

(** The date of a rotated file; [None]: the file is left alone. *)
Definition log_date (name : string) : option Z :=
  if String.eqb name "fastapi.log" then None
  else if startswith name log_prefix then strptime (strip (after_last (S (String.length name)) log_prefix name))
  else None.

Definition too_old (now : Z) (name : string) : bool :=
  match log_date name with Some t => t <? now - 30 * 86400 | None => false end.

(** The loop over the names of the directory: the files that are left, and the error
    of [os.remove] that ends it, if any. *)
Fixpoint delete_each (now : Z) (names : list string) : list string * option Exn :=
  match names with
  | [] => ([], None)
  | name :: names' =>
      if too_old now name then
        if removable name then delete_each now names'
        else (name :: names', Some (OtherErr "OSError"))
      else let '(kept, e) := delete_each now names' in (name :: kept, e)
  end.

(** [None]: there is no such directory. *)
Definition delete_old_logs (now : Z) (dir : option (list string)) : option (list string) * option Exn :=
  match dir with
  | None => (None, None)
  | Some names => let '(kept, e) := delete_each now names in (Some kept, e)
  end.
End logs.

(** ** Task modules *)

(** An entry of api/apps: its name, whether it is a directory, and whether it holds a
    tasks.py. *)
Record AppEntry := { ae_name : string; ae_is_dir : bool; ae_has_tasks : bool }.

Definition drop_end (n : nat) (s : string) : string := String.substring 0 (String.length s - n) s.

(** [None]: no such directory. *)
Definition autodiscover_tasks (apps : option (list AppEntry)) (shared : option (list string)) : list string :=
  (omap (fun a => if ae_is_dir a && ae_has_tasks a then Some ("api.apps." +:+ ae_name a +:+ ".tasks") else None)
     (default [] apps)) ++
  (omap (fun f => if endswith f ".py" && negb (startswith f "__") then Some ("api.tasks." +:+ drop_end 3 f) else None)
     (default [] shared)).

(** ** The resources of a worker process *)

(** The attributes of the Celery application. *)
Record WorkerApp := {
  main_loop : bool;
  db_instance : bool;
  redis_instance : bool;
  app_container : bool;
}.

Definition fresh_app : WorkerApp :=
  {| main_loop := false; db_instance := false; redis_instance := false; app_container := false |}.

(** Whether PostgreSQL and Redis answer. *)
Definition init_worker_process (pg_up redis_up : bool) : M WorkerApp Exn unit :=
  modify (fun a => {| main_loop := true; db_instance := db_instance a; redis_instance := redis_instance a;
                      app_container := app_container a |}) ;;!
  raise_if (negb pg_up) (OtherErr "create_pool") ;;!
  modify (fun a => {| main_loop := main_loop a; db_instance := true; redis_instance := redis_instance a;
                      app_container := app_container a |}) ;;!
  raise_if (negb redis_up) (OtherErr "RuntimeError") ;;!
  modify (fun a => {| main_loop := main_loop a; db_instance := db_instance a; redis_instance := true;
                      app_container := true |}).

(** The properties of [AsyncBaseTask]. *)
Definition initialized (what : string) (b : WorkerApp -> bool) : M WorkerApp Exn unit :=
  let! a := gets b in raise_if (negb a) (OtherErr (what +:+ " not initialized for worker process.")).

Definition task_loop : M WorkerApp Exn unit := initialized "Event loop" main_loop.
Definition task_db : M WorkerApp Exn unit := initialized "Database instance" db_instance.
Definition task_redis : M WorkerApp Exn unit := initialized "Redis instance" redis_instance.
Definition task_container : M WorkerApp Exn unit := initialized "TaskContainer" app_container.

(** What the shutdown closes: the pool and the client. *)
Definition shutdown_worker_process (a : WorkerApp) : bool * bool :=
  (main_loop a && db_instance a, main_loop a && redis_instance a).
