(* ===== verification/Startup.v ===== *)
(** * The application process: start-up, shutdown, infrastructure

    [lifespan] of src/api/main.py over the components it starts and stops: the pools
    (Database.v), the three Redis clients of core/redis.py, the event bus (EventBus.v),
    the check of the migrations (Migrations.v), the connections (WebSockets.v) and the
    monitor of core/event_loop_monitor.py; and core/feature_flags.py. *)

From Stdlib Require Import ZArith Lia Ascii String List Bool.
From stdpp Require Import base gmap strings list.
From S2P Require Import Prelude Redis Schema World EventBus WebSockets.
From S2P Require Database Migrations.
Local Open Scope string_scope.
Local Open Scope list_scope.
Local Open Scope Z_scope.

(** What can leave a step of the start or the stop. *)
Inductive Failure :=
| F_db (e : Database.DbError)
| F_py (e : Exn)
| F_migration (e : Migrations.MigrationError).

(** A computation on a part of the state. *)
Definition zoom {S T E A} (get : T -> S) (put : S -> T -> T) (inj : E -> Failure) (m : M S E A) : M T Failure A :=
  fun t => let '(o, s) := m (get t) in (match o with Ok a => Ok a | Err e => Err (inj e) end, put s t).

(** ** Redis clients (core/redis.py) *)

(** [redis_client], [redis_socket], [redis_event_bus]. *)
Inductive RedisClient := redis_client | redis_socket | redis_event_bus.

#[export] Instance RedisClient_eq_dec : EqDecision RedisClient.
Proof. solve_decision. Defined.

(** [connect], by the outcome of PING: its own error is raised inside the [try]. *)
Definition client_connect (pong : outcome Exn bool) : outcome Exn unit :=
  match pong with
  | Ok true => Ok tt
  | Ok false | Err _ => Err (OtherErr "Redis connection failed")
  end.

Definition client_health_check (pong : outcome Exn bool) : bool :=
  match pong with Ok b => b | Err _ => false end.

(** [listen_to_pubsub]: what is passed on of the messages of a subscription. *)
Record PubSubMessage := { m_type : string; m_channel : string; m_data : string }.

Definition listen_to_pubsub (pubsub : option (list PubSubMessage)) : list (string * string) :=
  match pubsub with
  | None => []
  | Some messages => (fun m => (m_channel m, m_data m)) <$> filter (fun m => m_type m = "message") messages
  end.

(** ** The monitor of the event loop *)

(** One turn of the loop: the times before and after the sleep and the number of
    tasks, an exception, or a cancellation of the sleep; after an exception the monitor
    sleeps again, and a cancellation of that sleep leaves the coroutine. *)
Inductive MonitorTurn :=
| Woke (start_time end_time : Z) (active_tasks : nat)
| Failed_turn (cancelled_in_handler : bool)
| Cancelled_turn.

Inductive MonitorEnd := Running | Stopped | Raised_cancelled.

Record Gauges := { EVENT_LOOP_LAG_SECONDS : Z; ASYNCIO_ACTIVE_TASKS : nat }.

(** Times in microseconds. *)
Fixpoint monitor_event_loop (interval : Z) (turns : list MonitorTurn) (g : Gauges) : Gauges * MonitorEnd :=
  match turns with
  | [] => (g, Running)
  | Woke start_time end_time active_tasks :: turns' =>
      let actual_elapsed := end_time - start_time in
      monitor_event_loop interval turns'
        {| EVENT_LOOP_LAG_SECONDS := Z.max 0 (actual_elapsed - interval); ASYNCIO_ACTIVE_TASKS := active_tasks |}
  | Failed_turn false :: turns' => monitor_event_loop interval turns' g
  | Failed_turn true :: _ => (g, Raised_cancelled)
  | Cancelled_turn :: _ => (g, Stopped)
  end.

(** ** Feature flags (core/feature_flags.py) *)

(** What the client of Flagsmith answers: the flags of the environment, or of an
    identity with traits; each may raise. *)
Record FlagClient := {
  get_environment_flags : outcome Exn (string -> outcome Exn bool);
  get_identity_flags : string -> list (string * string) -> outcome Exn (string -> outcome Exn bool);
}.

Definition flag_client (environment_key : string) (make : string -> FlagClient) : option FlagClient :=
  if truthy environment_key then Some (make environment_key) else None.

Definition is_enabled (client : option FlagClient) (feature_name : string) (identity : option string)
  (traits : list (string * string)) : bool :=
  match client with
  | None => false
  | Some c =>
      let flags := match or_opt identity None with
                   | Some i => get_identity_flags c i traits
                   | None => get_environment_flags c
                   end in
      match obind flags (fun is_feature_enabled => is_feature_enabled feature_name) with
      | Ok b => b
      | Err _ => false
      end
  end.

(** ** The process *)

Section process.
Context {R : Type} {RD : Redis R} {EX : Ext}.
Context {Schema : Type} {ME : Migrations.MigrationEnv Schema}.

(** The event-bus object: its registry, [_running], and whether there is a listener
    task and it runs. *)
Record Bus := {
  _subscribers : Subscribers;
  _running : bool;
  listener_task : option bool;
}.

Record Process := {
  database_instance : Database.DataBase;
  pools_closed : list Database.PoolId;
  clients_closed : list RedisClient;
  event_bus : Bus;
  bus_redis : World R * Group;
  migrations : Migrations.MigrationDB Schema;
  connection_manager : Worker;
  monitor_task : option bool;
}.

Definition set_database (x : Database.DataBase * list Database.PoolId) (p : Process) : Process :=
  {| database_instance := x.1; pools_closed := x.2; clients_closed := clients_closed p; event_bus := event_bus p;
     bus_redis := bus_redis p; migrations := migrations p; connection_manager := connection_manager p;
     monitor_task := monitor_task p |}.
Definition set_clients_closed (l : list RedisClient) (p : Process) : Process :=
  {| database_instance := database_instance p; pools_closed := pools_closed p; clients_closed := l;
     event_bus := event_bus p; bus_redis := bus_redis p; migrations := migrations p;
     connection_manager := connection_manager p; monitor_task := monitor_task p |}.
Definition set_bus (b : Bus) (p : Process) : Process :=
  {| database_instance := database_instance p; pools_closed := pools_closed p; clients_closed := clients_closed p;
     event_bus := b; bus_redis := bus_redis p; migrations := migrations p;
     connection_manager := connection_manager p; monitor_task := monitor_task p |}.
Definition set_bus_redis (x : World R * Group) (p : Process) : Process :=
  {| database_instance := database_instance p; pools_closed := pools_closed p; clients_closed := clients_closed p;
     event_bus := event_bus p; bus_redis := x; migrations := migrations p;
     connection_manager := connection_manager p; monitor_task := monitor_task p |}.
Definition set_migrations (m : Migrations.MigrationDB Schema) (p : Process) : Process :=
  {| database_instance := database_instance p; pools_closed := pools_closed p; clients_closed := clients_closed p;
     event_bus := event_bus p; bus_redis := bus_redis p; migrations := m;
     connection_manager := connection_manager p; monitor_task := monitor_task p |}.
Definition set_sockets (w : Worker) (p : Process) : Process :=
  {| database_instance := database_instance p; pools_closed := pools_closed p; clients_closed := clients_closed p;
     event_bus := event_bus p; bus_redis := bus_redis p; migrations := migrations p;
     connection_manager := w; monitor_task := monitor_task p |}.
Definition set_monitor (b : option bool) (p : Process) : Process :=
  {| database_instance := database_instance p; pools_closed := pools_closed p; clients_closed := clients_closed p;
     event_bus := event_bus p; bus_redis := bus_redis p; migrations := migrations p;
     connection_manager := connection_manager p; monitor_task := b |}.

Abbreviation ProcM := (M Process Failure).

(** What is around the process: the servers, the files, the settings, the listener
    modules that can be imported, and the consumer group that is there. *)
Record Surroundings := {
  pg_connect : string -> outcome Database.DbError Database.PoolId;
  pg_close : Database.PoolId -> outcome Database.DbError unit;
  pool_settings : Database.PoolSettings;
  PRIMARY_DATABASE_URL : string;
  REPLICA_DATABASE_URL : string;
  ping : RedisClient -> outcome Exn bool;
  aclose : RedisClient -> outcome Exn unit;
  listener_modules : list (option (list (string * nat)));
  existing_group : option Group;
  file_system : Migrations.FileSystem;
  script_dir : string;
  check_pool : Migrations.CheckPool;
}.

Context (env : Surroundings).

(** [event_bus.start]: an error of Redis that is no answer of it leaves the method
    with [_running] set and no task. *)
Definition bus_start : ProcM unit :=
  modify (fun p => set_bus {| _subscribers := _subscribers (event_bus p); _running := true;
                              listener_task := listener_task (event_bus p) |} p) ;;!
  zoom bus_redis set_bus_redis F_py (EventBus.start (existing_group env)) ;;!
  modify (fun p => set_bus {| _subscribers := _subscribers (event_bus p); _running := _running (event_bus p);
                              listener_task := Some true |} p).

(** [event_bus.stop]: whatever the cancelled task raises is dropped. *)
Definition bus_stop : ProcM unit :=
  modify (fun p => set_bus {| _subscribers := _subscribers (event_bus p); _running := false;
                              listener_task := (fun _ => false) <$> listener_task (event_bus p) |} p).

Definition bus_autodiscover : ProcM unit :=
  modify (fun p => set_bus {| _subscribers := EventBus.autodiscover (listener_modules env) (_subscribers (event_bus p));
                              _running := _running (event_bus p); listener_task := listener_task (event_bus p) |} p).

Definition connect_redis (c : RedisClient) : ProcM unit :=
  fun p => (match client_connect (ping env c) with Ok _ => Ok tt | Err e => Err (F_py e) end, p).

Definition close_redis (c : RedisClient) : ProcM unit :=
  fun p => match aclose env c with
           | Ok _ => (Ok tt, set_clients_closed (clients_closed p ++ [c]) p)
           | Err e => (Err (F_py e), p)
           end.

Definition create_pools : ProcM unit :=
  zoom database_instance (fun c p => set_database (c, pools_closed p) p) F_db
    (Database.create_pool (pg_connect env) (pool_settings env) (PRIMARY_DATABASE_URL env)
       [("global", Database.ManyUris [Some (REPLICA_DATABASE_URL env)])]).

Definition close_pools : ProcM unit :=
  zoom (fun p => (database_instance p, pools_closed p)) set_database F_db (Database.close_pool (pg_close env)).

Definition check_migrations : ProcM bool :=
  zoom migrations set_migrations F_migration
    (Migrations.check_all_migrations_applied (file_system env) (script_dir env) (check_pool env)).

Definition pending_migrations : Failure := F_py (OtherErr "You have pending migrations").

(** [lifespan] up to its [yield]. *)
Definition lifespan_start : ProcM unit :=
  create_pools ;;!
  connect_redis redis_client ;;!
  connect_redis redis_socket ;;!
  connect_redis redis_event_bus ;;!
  bus_autodiscover ;;!
  bus_start ;;!
  let! all_migrations_applied_check := check_migrations in
  raise_if (negb all_migrations_applied_check) pending_migrations ;;!
  modify (set_monitor (Some true)).

(** [lifespan] from its [yield] on. *)
Definition lifespan_stop : ProcM unit :=
  modify (fun p => set_monitor ((fun _ => false) <$> monitor_task p) p) ;;!
  bus_stop ;;!
  zoom connection_manager set_sockets F_py WebSockets.stop ;;!
  close_pools ;;!
  close_redis redis_client ;;!
  close_redis redis_socket ;;!
  close_redis redis_event_bus.

(** The life of a process; there is no [finally] around the [yield]. *)
Definition lifespan (serve : ProcM unit) : ProcM unit :=
  lifespan_start ;;!
  serve ;;!
  lifespan_stop.
End process.
