(* ===== verification/Concurrent.v ===== *)
(** * Requests that run at the same time

    [verify_two_factor_challenge] of src/api/apps/user/v0/service/auth.py, the decorators
    of core/cache.py and the system configuration cut at their awaits: other requests
    may run between the look at the challenge, the read of the user's row, the look at
    the replay key and the writes, or between a cache miss, the read of the database
    and the store.  Auth.v, Cache.v and AppConfig.v have the same operations without
    anything in between. *)

From Stdlib Require Import ZArith Lia Ascii String List Bool.
From stdpp Require Import base gmap strings list relations.
From S2P Require Import Prelude Schema Redis World Tokens Users Cache AppConfig Roles Totp Auth Coroutines.
Local Open Scope string_scope.
Local Open Scope list_scope.
Local Open Scope Z_scope.

Section steps.
Context {R : Type} {RD : Redis R} {EX : Ext} {ST : Settings}.
Local Abbreviation Step := (Co (World R) Exn).

Definition issue_tokens_steps (user : UserData) (request : Request) : Step LoginResponse :=
  let token_data := user_claims user in
  let* access := atomic (create_access_token token_data) in
  let* refresh := atomic (create_refresh_token token_data) in
  let* t := atomic (gets now) in
  atomic (upsert_user_session {| sc_jti := td_jti access; sc_user_id := u_id (ud_user user);
    sc_issued_at := t; sc_expires_at := expires_at access;
    sc_ip_address := rq_client_host request; sc_user_agent := rq_user_agent request |}) ;;*
  Fin (Ok {| lr_token := {| access_token := token access; refresh_token_str := refresh |}; lr_user := user |}).

Definition verify_code_steps (user_id : uuid) (f : TwoFactor) (cleaned_code : string) : Step unit :=
  let* secret := atomic (decrypt_secret (secret_encrypted f)) in
  let* ok := atomic (verify_totp secret cleaned_code) in
  if ok : bool then
    let* t := atomic (gets now) in
    let replay_key := TWO_FACTOR_REPLAY user_id (t / 30) in
    let* seen := atomic (redis_get replay_key) in
    if match seen with Some v => rval_truthy v | None => false end then Fin (Err replay_detected)
    else atomic (redis_set replay_key (RText "1") (Some 60))
  else
    let* (valid_backup, updated_codes) := atomic (verify_and_consume_backup_code (backup_codes f) cleaned_code) in
    if negb valid_backup then Fin (Err (HTTPException 400 "auth.two_factor_invalid_code_or_backup"))
    else atomic (update_two_factor_backup_codes user_id updated_codes).

Definition challenge_steps (two_factor_token code : string) (request : Request) : Step LoginResponse :=
  let challenge_key := TWO_FACTOR_CHALLENGE two_factor_token in
  let* user_id_raw := atomic (redis_get challenge_key) in
  match truthy_text user_id_raw with
  | None => Fin (Err (HTTPException 401 "auth.two_factor_challenge_expired"))
  | Some user_id =>
      let* tf := atomic (get_two_factor user_id) in
      match tf with
      | None => Fin (Err not_enabled)
      | Some f =>
          if negb (is_enabled f) then Fin (Err not_enabled)
          else
            verify_code_steps user_id f (strip code) ;;*
            atomic (redis_del [challenge_key]) ;;*
            let* user := atomic (get_by_id user_id) in
            match user with
            | None => Fin (Err user_not_found)
            | Some user => issue_tokens_steps user request
            end
      end
  end.

(** ** The cache decorators *)

Definition cached_steps {A} `{!Cacheable A} (key : option string) (hash_key : option string) (expire : option Z)
  (func : Step A) : Step A :=
  match key with
  | None => func
  | Some key =>
      let* cached_result := atomic (_get_from_cache key hash_key) in
      match cached_result with
      | Some a => Fin (Ok a)
      | None =>
          let* result := func in
          atomic (_save_to_cache key hash_key result expire) ;;*
          Fin (Ok result)
      end
  end.

(** The deletion is the decorator around nothing. *)
Definition invalidating_steps {A} (keys : list (option string)) (hash_key : option string) (invalidate_hash : bool)
  (func : Step A) : Step A :=
  let* result := func in
  atomic (invalidating keys hash_key invalidate_hash (ret tt)) ;;*
  Fin (Ok result).

(** ** The system configuration *)

Definition get_config_steps : Step SystemConfig :=
  cached_steps (Some SYSTEM_CONFIG_CACHE) None (Some 86400) (
    let* res := atomic (db_read system_configurations) in
    match res with
    | Some c => Fin (Ok c)
    | None => atomic (let! t0 := gets now in db_write (seed_config_row t0))
    end).

Definition update_config_steps (new_mfa : option bool) (user_id : option uuid) : Step (option SystemConfig) :=
  let* updated := invalidating_steps [Some SYSTEM_CONFIG_CACHE] None false (atomic (update_config_row new_mfa user_id)) in
  atomic (publish "system_config.updated" [("updated_by", jstr_opt user_id)]) ;;*
  Fin (Ok updated).

(** Time passes between the pieces. *)
Definition later (w w' : World R) : Prop := exists t, now w <= t /\ w' = set_now t w.

(** Requests that answer one challenge, each with a code of its own. *)
Definition answers (two_factor_token : string) (l : list (string * Request)) (w : World R)
  : Pool (World R) Exn LoginResponse :=
  {| members := (fun '(code, request) => challenge_steps two_factor_token code request) <$> l; common := w |}.
End steps.
