(* ===== verification/Routes.v ===== *)
(** * Routes

    The handlers of src/api/apps/user/v0/routes (auth.py, user.py, role.py) and
    of src/api/apps/common/v0/routes (version.py, system_config.py): the
    dependencies in the order FastAPI resolves them, then the service call.
    [tok] is the bearer token of the request.  The rate limiter, the parsing of
    the request and the serialisation of the response are not modelled. *)

From Stdlib Require Import ZArith Lia Ascii String List Bool.
From stdpp Require Import base gmap strings list.
From S2P Require Import Prelude Schema Redis World Tokens Users Cache AppConfig Roles Totp Auth.
Local Open Scope string_scope.
Local Open Scope list_scope.
Local Open Scope Z_scope.

(** What the two Google endpoints answer: [None] for a status other than 200;
    a token response may lack the access token. *)
Class Google := {
  google_token : string -> option (option string);
  google_userinfo : string -> option UserInfo;
}.

Section routes.
Context {R : Type} {RD : Redis R} {EX : Ext} {ST : Settings} {GO : Google}.
Local Abbreviation Py := (PyM (R := R)).

(** ** routes/auth.py *)

(** The state of the redirect to the consent screen. *)
Definition google_login : Py string :=
  let! state := new_uuid4_hex in
  redis_set (OAUTH_STATE_GOOGLE state) (RText "1") (Some 300) ;;!
  ret state.

Definition google_callback (code state : option string) (request : Request) : Py LoginResponse :=
  match or_opt code None, or_opt state None with
  | Some code, Some state =>
      let state_key := OAUTH_STATE_GOOGLE state in
      let! stored := redis_get state_key in
      raise_if (negb (match stored with Some v => rval_truthy v | None => false end))
        (HTTPException 400 "auth.invalid_state") ;;!
      redis_del [state_key] ;;!
      match google_token code with
      | None => raise (HTTPException 400 "auth.token_exchange_failed")
      | Some access =>
          match or_opt access None with
          | None => raise (HTTPException 400 "auth.no_access_token")
          | Some access =>
              match google_userinfo access with
              | None => raise (HTTPException 400 "auth.userinfo_failed")
              | Some user_info =>
                  let! user := handle_google_oauth user_info in
                  authenticate_oauth_user user request
              end
          end
      end
  | _, _ => raise (HTTPException 400 "auth.missing_callback_params")
  end.

Definition login (name password : string) (request : Request) : Py AuthResult :=
  authenticate_user name password request.

Definition route_two_factor_status (tok : string) : Py TwoFactorStatus :=
  let! user := get_current_user [] tok in
  get_two_factor_status (u_id (ud_user user)).

Definition setup_two_factor (tok : string) : Py TwoFactorSetup :=
  let! user := get_current_user [] tok in
  disallow_impersonation tok ;;!
  initiate_two_factor_setup user.

Definition confirm_two_factor (tok code : string) : Py (list string) :=
  let! user := get_current_user [] tok in
  disallow_impersonation tok ;;!
  confirm_two_factor_setup user code.

Definition verify_two_factor (two_factor_token code : string) (request : Request) : Py LoginResponse :=
  verify_two_factor_challenge two_factor_token code request.

Definition route_disable_two_factor (tok code : string) : Py unit :=
  let! user := get_sudo_user tok in
  disable_two_factor user code.

Definition regenerate_backup_codes (tok code : string) : Py (list string) :=
  let! user := get_sudo_user tok in
  regenerate_two_factor_backup_codes user code.

Definition refresh_access_token (refresh : string) (request : Request) : Py LoginResponse :=
  refresh_token refresh request.

Definition route_create_sudo_token (name password : string) : Py SudoTokenResponse :=
  create_sudo_token_user name password.

(** The user built of the token data has the empty e-mail address, which
    pydantic checks; the handler turns what the [try] raises into a 401. *)
Definition google_sudo_user (td : TokenData) (t0 : Z) : Py User :=
  match t_id td with
  | Some id =>
      if email_valid "" then
        ret {| u_id := id; username := t_username td; email := ""; hashed_password := None;
               full_name := None; is_active := true; profile_picture_url := None;
               u_created_at := t0; token_version := 1 |}
      else raise ValidationErr
  | None => raise ValidationErr
  end.

Definition caught_by_google_sudo (e : Exn) : bool :=
  match e with
  | HTTPException _ _ | ValueErr _ | TypeErr _ | ValidationErr => true
  | _ => false
  end.

Definition google_sudo_token (tok access : string) : Py SudoTokenResponse :=
  disallow_impersonation tok ;;!
  let! user :=
    try_catch (
      let! td := verify_access_token access in
      let! t0 := gets now in
      google_sudo_user td t0)
    (fun e => raise (if caught_by_google_sudo e then HTTPException 401 "auth.invalid_access_token" else e)) in
  create_sudo_token_oauth user.

Definition route_update_password (tok password : string) : Py unit :=
  let! user := get_sudo_user tok in
  update_password (u_id (ud_user user)) password.

(** ** routes/user.py *)

Definition register_user (d : UserCreate) : Py UserData := create_user d.

Definition me (tok : string) : Py UserData := get_current_user [] tok.

Definition route_update_user (tok : string) (d : UserUpdate) : Py UserData :=
  let! user := get_current_user [] tok in
  svc_update_user (u_id (ud_user user)) d.

Definition route_revoke_session (tok j : string) : Py unit :=
  let! user := get_current_user [] tok in
  disallow_impersonation tok ;;!
  revoke_user_session (u_id (ud_user user)) j.

Definition revoke_all_sessions (tok : string) : Py unit :=
  let! user := get_current_user [] tok in
  disallow_impersonation tok ;;!
  revoke_all_user_sessions (u_id (ud_user user)).

(** [limit] is validated to lie in 1..100 before the handler runs. *)
Definition get_sessions (tok : string) (limit : Z) (cursor : option uuid) : Py (CursorPage UserSession) :=
  let! user := get_current_user [] tok in
  get_user_sessions (u_id (ud_user user)) limit cursor.

Definition route_assign_roles (tok : string) (user_id : uuid) (role_ids : list uuid) : Py unit :=
  get_current_user ["users:update"] tok ;;!
  disallow_impersonation tok ;;!
  assign_roles_to_user user_id role_ids.

(** The default duration of the service: 30 minutes. *)
Definition route_impersonate_user (tok : string) (user_id : uuid) (reason : string) (request : Request)
  : Py ImpersonationResponse :=
  let! admin := get_current_user ["users:impersonate"] tok in
  disallow_impersonation tok ;;!
  impersonate_user admin user_id reason request 30.

Definition route_stop_impersonation (tok : string) : Py unit :=
  let! td := verify_token tok ACCESS in
  match t_is_impersonation td, or_opt (t_impersonator_id td) None with
  | true, Some admin_id => stop_impersonation (t_jti td) admin_id
  | _, _ => raise (HTTPException 400 "Session is not an active impersonation session.")
  end.

(** ** routes/role.py (the listings are in the pagination file) *)

Definition get_role (tok : string) (role_id : uuid) : Py RoleData :=
  get_current_user ["roles:read"] tok ;;!
  get_role_by_id role_id.

Definition route_create_role (tok : string) (d : RoleCreate) : Py RoleData :=
  get_current_user ["roles:create"] tok ;;!
  create_role d.

Definition route_update_role (tok : string) (role_id : uuid) (d : RoleUpdate) : Py RoleData :=
  get_current_user ["roles:update"] tok ;;!
  update_role role_id d.

Definition route_delete_role (tok : string) (role_id : uuid) : Py unit :=
  get_current_user ["roles:delete"] tok ;;!
  delete_role role_id.

(** ** routes/version.py *)

(** The status of the response and its body. *)
Definition check_version (p : string) (build : Z) : Py (Z * option ForceUpdateResponse) :=
  let! info := check_force_update p (Some build) in
  ret (match info with
       | Some i => (if fu_force i then 426 else 200, Some i)
       | None => (200, None)
       end).

Definition get_all_version_configs (tok : string) : Py (list AppVersion) :=
  get_current_user ["app:read"] tok ;;!
  get_all_versions.

Definition update_version_config (tok p : string) (d : AppVersionUpdate) : Py AppVersion :=
  get_current_user ["app:update"] tok ;;!
  let! info := update_version_info p d in
  match info with
  | Some v => ret v
  | None => raise (HTTPException 404 "Platform configuration not found")
  end.

(** ** routes/system_config.py *)

Definition get_system_config (tok : string) : Py SystemConfig :=
  get_current_user ["system_config:read"] tok ;;!
  get_config.

Definition update_system_config (tok : string) (new_mfa : option bool) : Py (option SystemConfig) :=
  let! user := get_current_user ["system_config:update"] tok in
  update_config new_mfa (Some (u_id (ud_user user))).
End routes.
