(* ===== verification/Invariants.v ===== *)
(** * Well-formed tables

    The keys, uniqueness constraints and foreign keys of the migrations, as a
    predicate [wf] on the tables, and the interface [TableInv] of the predicates
    that every SQL statement of the modelled DAOs keeps.  [wf] with fresh
    identifiers is one of them; that no statement lowers a token version is
    another. *)

From Stdlib Require Import ZArith Lia String List Bool.
From stdpp Require Import base gmap strings list.
From S2P Require Import Prelude Schema Redis World Tokens Users Cache AppConfig Roles.
Local Open Scope string_scope.
Local Open Scope list_scope.
Local Open Scope Z_scope.

(** ** Keys and uniqueness *)

(** [id] is the primary key of the rows. *)
Definition keyed {A} (id : A -> string) (m : gmap string A) : Prop :=
  forall k x, m !! k = Some x -> id x = k.

(** Two rows with the same (non-NULL) [f] are the same row. *)
Definition unique_on {A B} (f : A -> option B) (m : gmap string A) : Prop :=
  forall k k' x x' b, m !! k = Some x -> m !! k' = Some x' -> f x = Some b -> f x' = Some b -> k = k'.

(** Every row of [m'] was in [m], with the same [f]. *)
Definition shrinks {A B} (f : A -> B) (m m' : gmap string A) : Prop :=
  forall k x', m' !! k = Some x' -> exists x, m !! k = Some x /\ f x = f x'.

Section keys.
Context {A B : Type}.
Implicit Types m : gmap string A.

Lemma keyed_insert (id : A -> string) k x m : keyed id m -> id x = k -> keyed id (<[k := x]> m).
Proof. intros Hm Hx k' x' [[-> <-]|[Hne Hk]]%lookup_insert_Some; [done|by apply Hm]. Qed.

Lemma keyed_shrinks (id : A -> string) m m' : shrinks id m m' -> keyed id m -> keyed id m'.
Proof. intros Hs Hm k x' (x & Hx & <-)%Hs. by apply Hm. Qed.

Lemma unique_insert (f : A -> option B) k x m :
  unique_on f m ->
  (forall k' x' b, k' <> k -> m !! k' = Some x' -> f x' = Some b -> f x = Some b -> False) ->
  unique_on f (<[k := x]> m).
Proof.
  intros Hm Hx k1 k2 x1 x2 b [[<- <-]|[Hn1 H1]]%lookup_insert_Some
    [[<- <-]|[Hn2 H2]]%lookup_insert_Some Hb1 Hb2; [done| | |by eapply Hm].
  - by destruct (Hx k2 x2 b).
  - by destruct (Hx k1 x1 b).
Qed.

Lemma unique_shrinks (f : A -> option B) m m' : shrinks f m m' -> unique_on f m -> unique_on f m'.
Proof.
  intros Hs Hm k k' x x' b (y & Hy & <-)%Hs (y' & Hy' & <-)%Hs. by eapply Hm.
Qed.

Lemma shrinks_filter (f : A -> B) (P : string * A -> Prop) `{!forall x, Decision (P x)} m :
  shrinks f m (filter P m).
Proof. intros k x [Hx _]%map_lookup_filter_Some. eauto. Qed.

Lemma shrinks_delete (f : A -> B) k m : shrinks f m (delete k m).
Proof. intros k' x [_ Hx]%lookup_delete_Some. eauto. Qed.

Lemma shrinks_alter (f : A -> B) g k m : (forall x, f (g x) = f x) -> shrinks f m (alter g k m).
Proof.
  intros Hg k' x' [(<- & x & Hx & ->)|[_ Hx]]%lookup_alter_Some; eauto.
Qed.

Lemma shrinks_imap (f : A -> B) g m :
  (forall k x x', g k x = Some x' -> f x = f x') -> shrinks f m (map_imap g m).
Proof.
  intros Hg k x'. rewrite map_lookup_imap. destruct (m !! k) as [x|] eqn:E; [|done].
  simpl. intros Hx. exists x. split; [done|by eapply Hg].
Qed.
End keys.
#[export] Hint Resolve shrinks_filter shrinks_delete : py.

(** No other row has the value: the check the statements make. *)
Lemma existsb_values {A} (P : A -> bool) (m : gmap string A) :
  existsb P (values m) = false -> forall k x, m !! k = Some x -> P x = false.
Proof.
  intros H k x Hx. destruct (P x) eqn:E; [|done]. rewrite <- H. symmetry. apply existsb_exists.
  exists x. split; [|done]. apply list_elem_of_In, elem_of_values. eauto.
Qed.

(** ** Well-formedness *)

Record users_wf (m : gmap uuid User) : Prop := {
  users_keyed : keyed u_id m;
  users_username : unique_on (fun u => Some (username u)) m;
  users_email : unique_on (fun u => Some (email u)) m;
  users_version : forall k u, m !! k = Some u -> 1 <= token_version u;
}.

(** UNIQUE (user_id, user_agent): a NULL agent is not constrained. *)
Definition session_key (s : UserSession) : option (uuid * string) :=
  (fun a => (s_user_id s, a)) <$> user_agent s.

Record sessions_wf (m : gmap uuid UserSession) : Prop := {
  sessions_keyed : keyed s_id m;
  sessions_jti : unique_on (fun s => Some (jti s)) m;
  sessions_agent : unique_on session_key m;
}.

Record identities_wf (l : list Identity) : Prop := {
  identities_sub : NoDup ((fun i => (provider i, provider_user_id i)) <$> l);
  identities_user : NoDup ((fun i => (provider i, i_user_id i)) <$> l);
}.

Record roles_wf (m : gmap uuid Role) : Prop := {
  roles_keyed : keyed r_id m;
  roles_name : unique_on (fun r => Some (r_name r)) m;
}.

Record refs_wf (t : Tables) : Prop := {
  ref_session : forall k s, user_sessions t !! k = Some s -> is_Some (users t !! s_user_id s);
  ref_identity : forall i, i ∈ user_identities t -> is_Some (users t !! i_user_id i);
  ref_user_roles : forall u r, (u, r) ∈ user_roles t -> is_Some (users t !! u) /\ is_Some (roles t !! r);
  ref_role_permissions : forall r p, (r, p) ∈ role_permissions t ->
    is_Some (roles t !! r) /\ is_Some (permissions t !! p);
  ref_two_factor : forall u f, user_two_factor t !! u = Some f -> is_Some (users t !! u);
  ref_config : forall c u, system_configurations t = Some c -> sc_updated_by c = Some u ->
    is_Some (users t !! u);
  ref_api_key : forall k a u, api_keys t !! k = Some a -> k_created_by a = Some u ->
    is_Some (users t !! u);
}.

Record wf (t : Tables) : Prop := {
  wf_users : users_wf (users t);
  wf_sessions : sessions_wf (user_sessions t);
  wf_identities : identities_wf (user_identities t);
  wf_roles : roles_wf (roles t);
  wf_versions : keyed platform (app_versions t);
  wf_refs : refs_wf t;
}.

(** ** The interface *)

(** A statement keeps [Q]; one that inserts a row under a drawn identifier keeps
    it across the draw. *)
Definition keeps {A} (Q : Tables -> nat -> Prop) (f : Tables -> outcome Exn (A * Tables)) : Prop :=
  forall t n a t', Q t n -> f t = Ok (a, t') -> Q t' n.

Class TableInv {EX : Ext} (Q : Tables -> nat -> Prop) : Prop := {
  ti_draw : forall t n, Q t n -> Q t (S n);
  ti_insert_user : forall t n t0 d hp u t', Q t n ->
    insert_user (uuid7 n) t0 d hp t = Ok (u, t') -> Q t' (S n);
  ti_upsert_session : forall t n t0 d u t', Q t n ->
    upsert_session (uuid7 n) t0 d t = Ok (u, t') -> Q t' (S n);
  ti_insert_role : forall t n t0 name descr r t', Q t n ->
    insert_role (uuid7 n) t0 name descr t = Ok (r, t') -> Q t' (S n);
  ti_update_user : forall id d, keeps Q (update_user_row id d);
  ti_password : forall id hp, keeps Q (alter_user id (with_password hp));
  ti_bump : forall id, keeps Q (alter_user id bump_version);
  ti_identity : forall uid gi, keeps Q (insert_identity uid gi);
  ti_delete_session : forall t0 uid j, keeps Q (delete_session t0 uid j);
  ti_delete_sessions : forall t0 uid, keeps Q (delete_sessions_of t0 uid);
  ti_delete_users : forall ids, keeps Q (delete_users_rows ids);
  ti_user_roles : forall uid rs, keeps Q (insert_user_roles uid rs);
  ti_two_factor : forall uid s cs b, keeps Q (upsert_two_factor_row uid s cs b);
  ti_disable_two_factor : forall uid, keeps Q (disable_two_factor_row uid);
  ti_codes : forall uid cs, keeps Q (update_codes_row uid cs);
  ti_seed_config : forall t0, keeps Q (seed_config_row t0);
  ti_set_config : forall t0 b u, keeps Q (set_config_row t0 b u);
  ti_insert_version : forall t0 d, keeps Q (insert_version t0 d);
  ti_delete_versions : forall ps, keeps Q (delete_version_rows ps);
  ti_update_version : forall t0 p d, keeps Q (update_version_row t0 p d);
  ti_role_permissions : forall id ps, keeps Q (insert_role_permissions id ps);
  ti_update_role : forall t0 id d, keeps Q (update_role_row t0 id d);
  ti_delete_role_permissions : forall id, keeps Q (delete_role_permissions id);
  ti_bump_role_users : forall id, keeps Q (bump_role_users id);
  ti_delete_roles : forall ids, keeps Q (delete_roles_rows ids);
}.

(** ** [wf] with fresh identifiers is kept *)

Definition wf_fresh {EX : Ext} (t : Tables) (n : nat) : Prop :=
  wf t /\ forall i, (n <= i)%nat ->
    users t !! uuid7 i = None /\ user_sessions t !! uuid7 i = None /\ roles t !! uuid7 i = None.

(** Inverts a statement's result. *)
Ltac stmt_inv H :=
  repeat (match type of H with
          | context [obind ?o _] => destruct o as [[]|] eqn:?; simpl in H
          | context [if ?b then _ else _] => destruct b eqn:?
          | context [match ?x with _ => _ end] => destruct x eqn:?
          end; try discriminate H);
  try (injection H as <- <-).

Section wf_lemmas.

(** Adding or changing rows of [users] without removing one keeps the references. *)
Lemma refs_set_users t f :
  (forall k, is_Some (users t !! k) -> is_Some (f (users t) !! k)) ->
  refs_wf t -> refs_wf (set_users f t).
Proof. intros Hf [H1 H2 H3 H4 H5 H6 H7]. split; simpl; naive_solver. Qed.

Lemma check_user_unique_ok u t :
  check_user_unique u t = Ok tt -> forall k v, users t !! k = Some v -> u_id v <> u_id u ->
  username v <> username u /\ email v <> email u.
Proof.
  unfold check_user_unique, username_taken, email_taken. intros H k v Hv Hne.
  destruct (existsb _ _) eqn:E1 in H; [done|]. destruct (existsb _ _) eqn:E2 in H; [done|].
  apply (existsb_values _ _) with (k := k) (x := v) in E1, E2; try done.
  rewrite andb_false_iff, negb_false_iff, String.eqb_eq, String.eqb_neq in E1, E2. naive_solver.
Qed.

Lemma users_wf_insert u t :
  users_wf (users t) -> check_user_unique u t = Ok tt -> 1 <= token_version u ->
  users_wf (<[u_id u := u]> (users t)).
Proof.
  intros [H1 H2 H3 H4] Hc Hv. pose proof (check_user_unique_ok _ _ Hc) as Hu. split.
  - by apply keyed_insert.
  - apply unique_insert; [done|]. intros k x b Hne Hx [= <-] [= He].
    destruct (Hu k x Hx); [|congruence]. intros Hid. apply Hne. rewrite <- Hid. symmetry. by apply H1.
  - apply unique_insert; [done|]. intros k x b Hne Hx [= <-] [= He].
    destruct (Hu k x Hx); [|congruence]. intros Hid. apply Hne. rewrite <- Hid. symmetry. by apply H1.
  - intros k x [[_ <-]|[_ Hx]]%lookup_insert_Some; eauto.
Qed.

Lemma users_wf_shrinks m m' :
  shrinks (fun u => (u_id u, username u, email u)) m m' ->
  (forall k u, m' !! k = Some u -> 1 <= token_version u) -> users_wf m -> users_wf m'.
Proof.
  intros Hs Hv [H1 H2 H3 H4]. split; [| | |done].
  - eapply keyed_shrinks; [|exact H1]. intros k x (y & Hy & [= ? ? ?])%Hs. eauto.
  - eapply unique_shrinks; [|exact H2]. intros k x (y & Hy & [= ? ? ?])%Hs. exists y. split; congruence.
  - eapply unique_shrinks; [|exact H3]. intros k x (y & Hy & [= ? ? ?])%Hs. exists y. split; congruence.
Qed.

Lemma sessions_wf_shrinks m m' : shrinks (fun s => s) m m' -> sessions_wf m -> sessions_wf m'.
Proof.
  intros Hs [H1 H2 H3]. split.
  - eapply keyed_shrinks; [|exact H1]. intros k x (y & Hy & <-)%Hs. eauto.
  - eapply unique_shrinks; [|exact H2]. intros k x (y & Hy & <-)%Hs. eauto.
  - eapply unique_shrinks; [|exact H3]. intros k x (y & Hy & <-)%Hs. eauto.
Qed.

Lemma identities_wf_filter (P : Identity -> Prop) `{!forall x, Decision (P x)} l :
  identities_wf l -> identities_wf (filter P l).
Proof.
  intros [H1 H2]. split.
  - eapply sublist_NoDup; [exact H1|]. apply fmap_sublist, sublist_filter.
  - eapply sublist_NoDup; [exact H2|]. apply fmap_sublist, sublist_filter.
Qed.

Lemma session_for_Some uid a t s :
  session_for uid a t = Some s ->
  (exists k, user_sessions t !! k = Some s) /\ s_user_id s = uid /\ user_agent s = a.
Proof.
  unfold session_for. destruct a as [a|]; [|done]. intros H%head_Some_elem_of.
  apply list_elem_of_filter in H as [[H1 H2] H3%elem_of_values]. done.
Qed.

Lemma session_for_None uid a t k s :
  session_for uid (Some a) t = None -> user_sessions t !! k = Some s ->
  s_user_id s = uid -> user_agent s = Some a -> False.
Proof.
  unfold session_for. intros H%head_None Hk H1 H2.
  eapply filter_nil_not_elem_of; [exact H| |apply elem_of_values; by exists k]. done.
Qed.
End wf_lemmas.

(** A statement that leaves users, sessions and roles in place keeps [wf_fresh]
    when it keeps the rest of [wf]. *)
Lemma wf_fresh_same {EX : Ext} t t' n :
  users t' = users t -> user_sessions t' = user_sessions t -> roles t' = roles t ->
  identities_wf (user_identities t') -> keyed platform (app_versions t') -> refs_wf t' ->
  wf_fresh t n -> wf_fresh t' n.
Proof.
  intros E1 E2 E3 H1 H2 H3 [[W1 W2 W3 W4 W5 W6] Hf]. split.
  - split; rewrite ?E1, ?E2, ?E3; done.
  - intros i Hi. rewrite E1, E2, E3. by apply Hf.
Qed.

(** A statement on [users] that removes no row and adds none. *)
Lemma wf_fresh_users {EX : Ext} t f n :
  shrinks (fun u => (u_id u, username u, email u)) (users t) (f (users t)) ->
  (forall k, is_Some (users t !! k) -> is_Some (f (users t) !! k)) ->
  (forall k u, f (users t) !! k = Some u -> 1 <= token_version u) ->
  wf_fresh t n -> wf_fresh (set_users f t) n.
Proof.
  intros Hs Hk Hv [[W1 W2 W3 W4 W5 W6] Hf]. split.
  - split; simpl; try done; [by eapply users_wf_shrinks|by apply refs_set_users].
  - intros i Hi. destruct (Hf i Hi) as (F1 & F2 & F3). split; [|done]. simpl.
    destruct (f (users t) !! uuid7 i) as [u|] eqn:E; [|done].
    destruct (Hs _ _ E) as (x & Hx & _). congruence.
Qed.

Section wf_instance.
Context {EX : Ext} {EL : ExtLaws}.

Lemma wf_draw t n : wf_fresh t n -> wf_fresh t (S n).
Proof. intros [W F]. split; [done|]. intros i Hi. apply F. lia. Qed.

Lemma uuid7_later n i : (S n <= i)%nat -> uuid7 n <> uuid7 i.
Proof. intros Hi H%uuid7_inj. lia. Qed.

Lemma wf_insert_user t n t0 d hp u t' :
  wf_fresh t n -> insert_user (uuid7 n) t0 d hp t = Ok (u, t') -> wf_fresh t' (S n).
Proof.
  intros [[W1 W2 W3 W4 W5 W6] F] H. unfold insert_user in H.
  set (u0 := {| u_id := uuid7 n |}) in H. stmt_inv H.
  split.
  - split; simpl; try done.
    + by apply users_wf_insert.
    + apply refs_set_users; [|done]. intros k Hk. apply lookup_insert_is_Some'. by right.
  - intros i Hi. destruct (F i) as (F1 & F2 & F3); [lia|]. split; [|done]. simpl.
    rewrite lookup_insert_ne; [done|by apply uuid7_later].
Qed.

Lemma wf_update_user id d : keeps wf_fresh (update_user_row id d).
Proof.
  intros t n a t' [[W1 W2 W3 W4 W5 W6] F] H. unfold update_user_row in H.
  destruct (users t !! id) as [u|] eqn:Eu; [|injection H as <- <-; by split].
  set (u' := {| u_id := u_id u |}) in H. stmt_inv H.
  assert (u_id u = id) as Hid by (by apply (users_keyed _ W1)).
  split.
  - split; simpl; try done.
    + apply (users_wf_insert u'); [done|done|]. exact (users_version _ W1 _ _ Eu).
    + apply refs_set_users; [|done]. intros k Hk. apply lookup_insert_is_Some'. by right.
  - intros i Hi. destruct (F i Hi) as (F1 & F2 & F3). split; [|done]. simpl.
    rewrite lookup_insert_ne; [done|]. rewrite Hid. intros ->. congruence.
Qed.

Lemma wf_alter_user id f :
  (forall u, (u_id (f u), username (f u), email (f u)) = (u_id u, username u, email u)) ->
  (forall u, token_version u <= token_version (f u)) ->
  keeps wf_fresh (alter_user id f).
Proof.
  intros Hf Hv t n a t' W H. injection H as <- <-. apply wf_fresh_users; [| | |done].
  - by apply shrinks_alter.
  - intros k. by rewrite lookup_alter_is_Some.
  - intros k u [(<- & x & Hx & ->)|[_ Hx]]%lookup_alter_Some.
    + etrans; [|apply Hv]. by eapply (users_version _ (wf_users _ (proj1 W))).
    + by eapply (users_version _ (wf_users _ (proj1 W))).
Qed.

Lemma wf_bump_role_users id : keeps wf_fresh (bump_role_users id).
Proof.
  intros t n a t' W H. injection H as <- <-. apply wf_fresh_users; [| | |done].
  - apply shrinks_imap. intros k x x' [= <-]. by case_bool_decide.
  - intros k [x Hx]. rewrite map_lookup_imap, Hx. simpl. eauto.
  - intros k u. rewrite map_lookup_imap. destruct (users t !! k) as [x|] eqn:E; [|done].
    simpl. intros [= <-]. pose proof (users_version _ (wf_users _ (proj1 W)) _ _ E).
    case_bool_decide; simpl; lia.
Qed.

Lemma wf_insert_identity uid gi : keeps wf_fresh (insert_identity uid gi).
Proof.
  intros t n a t' W H. unfold insert_identity in H. stmt_inv H.
  apply bool_decide_eq_false in Heqb. pose proof W as [[W1 W2 [I1 I2] W4 W5 W6] F].
  eapply wf_fresh_same; try exact W; try done; simpl.
  - split; rewrite fmap_app; csimpl; apply NoDup_app; (split; [done|]);
      (split; [|apply NoDup_singleton]); intros x (i & -> & Hi)%list_elem_of_fmap;
      rewrite list_elem_of_singleton; simpl; intros [= E1 E2].
    + assert (existsb (fun i => String.eqb (provider i) "google" &&
        String.eqb (provider_user_id i) (gi_sub gi)) (user_identities t) = true); [|congruence].
      apply existsb_exists. exists i. rewrite <- list_elem_of_In, E1, E2, !String.eqb_refl. done.
    + assert (existsb (fun i => String.eqb (provider i) "google" &&
        String.eqb (i_user_id i) uid) (user_identities t) = true); [|congruence].
      apply existsb_exists. exists i. rewrite <- list_elem_of_In, E1, E2, !String.eqb_refl. done.
  - destruct W6 as [R1 R2 R3 R4 R5 R6 R7]. split; simpl; try done.
    intros i [Hi| ->%list_elem_of_singleton]%elem_of_app; [by apply R2|]. simpl.
    by destruct (users t !! uid); [eauto|].
Qed.

Lemma sessions_wf_insert s t :
  sessions_wf (user_sessions t) ->
  (forall k s', user_sessions t !! k = Some s' -> k <> s_id s -> jti s' <> jti s) ->
  (forall k s', user_sessions t !! k = Some s' -> k <> s_id s -> session_key s' = session_key s ->
     session_key s = None) ->
  sessions_wf (<[s_id s := s]> (user_sessions t)).
Proof.
  intros [H1 H2 H3] Hj Ha. split.
  - by apply keyed_insert.
  - apply unique_insert; [done|]. intros k x b Hne Hx [= <-] [= He]. by eapply Hj.
  - apply unique_insert; [done|]. intros k x b Hne Hx Hb Hb'.
    specialize (Ha k x Hx Hne). rewrite Hb, Hb' in Ha. by specialize (Ha eq_refl).
Qed.

Lemma wf_upsert_session t n t0 d u t' :
  wf_fresh t n -> upsert_session (uuid7 n) t0 d t = Ok (u, t') -> wf_fresh t' (S n).
Proof.
  intros [[W1 W2 W3 W4 W5 W6] F] H. unfold upsert_session in H.
  set (old := session_for _ _ t) in H. set (sid := match old with Some s => s_id s | None => _ end) in H.
  destruct (bool_decide _) eqn:Eb in H; [done|]. apply bool_decide_eq_false in Eb.
  destruct (existsb _ _) eqn:Ej in H; [done|]. injection H as <- <-.
  set (s := {| s_id := sid |}). change sid with (s_id s) at 1.
  assert (sessions_wf (<[s_id s := s]> (user_sessions t))) as Hs.
  { apply sessions_wf_insert; [done| |].
    - intros k s' Hk Hne He. apply (existsb_values _ _) with (k := k) (x := s') in Ej; [|done].
      rewrite andb_false_iff, negb_false_iff, String.eqb_eq, String.eqb_neq in Ej.
      destruct Ej as [Ej|Ej]; [done|]. apply Hne. simpl. rewrite <- Ej. symmetry.
      by apply (sessions_keyed _ W2).
    - intros k s' Hk Hne He. destruct (session_key s) as [[us ag]|] eqn:Es; [|done]. exfalso.
      unfold session_key in He, Es. simpl in Es. destruct (sc_user_agent d) as [a|] eqn:Ea; [|done].
      injection Es as <- <-. destruct (user_agent s') as [a'|] eqn:Ea'; [|done]. injection He as Hu ->.
      unfold s, sid in Hne. simpl in Hne. destruct old as [o|] eqn:Eo.
      + apply session_for_Some in Eo as ([k' Hk'] & E1 & E2).
        rewrite (sessions_keyed _ W2 _ _ Hk') in Hne. apply Hne.
        eapply (sessions_agent _ W2 _ _ _ _ (sc_user_id d, a) Hk Hk');
          unfold session_key; [by rewrite Ea', Hu|by rewrite E1, E2].
      + eapply session_for_None; [exact Eo|exact Hk|done|done]. }
  split.
  - split; simpl; try done. destruct W6 as [R1 R2 R3 R4 R5 R6 R7]. split; simpl; try done.
    intros k x [[_ <-]|[_ Hx]]%lookup_insert_Some; [|by eapply R1].
    simpl. by destruct (users t !! sc_user_id d); [eauto|].
  - intros i Hi. destruct (F i) as (F1 & F2 & F3); [lia|]. repeat split; try done. simpl.
    rewrite lookup_insert_ne; [done|]. unfold sid. destruct old as [o|] eqn:Eo.
    + apply session_for_Some in Eo as ([k' Hk'] & _).
      rewrite (sessions_keyed _ W2 _ _ Hk'). intros ->. congruence.
    + by apply uuid7_later.
Qed.

(** Deleting sessions keeps everything else. *)
Lemma wf_shrink_sessions t n f :
  shrinks (fun s => s) (user_sessions t) (f (user_sessions t)) ->
  wf_fresh t n -> wf_fresh (set_sessions f t) n.
Proof.
  intros Hs [[W1 W2 W3 W4 W5 [R1 R2 R3 R4 R5 R6 R7]] F]. split.
  - split; simpl; try done; [by eapply sessions_wf_shrinks|]. split; simpl; try done.
    intros k s (s0 & Hs0 & ->)%Hs. by eapply R1.
  - intros i Hi. destruct (F i Hi) as (F1 & F2 & F3). repeat split; try done. simpl.
    destruct (f (user_sessions t) !! uuid7 i) as [s|] eqn:E; [|done].
    apply Hs in E as (s0 & Hs0 & _). congruence.
Qed.

Lemma wf_delete_session t0 uid j : keeps wf_fresh (delete_session t0 uid j).
Proof.
  intros t n a t' W H. unfold delete_session in H. stmt_inv H; [|done].
  apply wf_shrink_sessions; [apply shrinks_delete|done].
Qed.

Lemma wf_delete_sessions_of t0 uid : keeps wf_fresh (delete_sessions_of t0 uid).
Proof.
  intros t n a t' W H. injection H as <- <-. apply wf_shrink_sessions; [apply shrinks_filter|done].
Qed.

Lemma wf_insert_user_roles uid rs : keeps wf_fresh (insert_user_roles uid rs).
Proof.
  intros t n a t' W H. unfold insert_user_roles in H. stmt_inv H.
  apply bool_decide_eq_false in Heqb. pose proof W as [[W1 W2 W3 W4 W5 [R1 R2 R3 R4 R5 R6 R7]] F].
  eapply wf_fresh_same; try exact W; try done. split; simpl; try done.
  intros u r [Hu|Hu]%elem_of_union; [by apply R3|].
  apply elem_of_list_to_set, list_elem_of_fmap in Hu as (r' & [= -> ->] & Hr).
  split; [by destruct (users t !! uid); [eauto|]|].
  destruct (roles t !! r') as [x|] eqn:E; [eauto|]. exfalso.
  assert (existsb (fun r => bool_decide (roles t !! r = None)) rs = true); [|congruence].
  apply existsb_exists. exists r'. rewrite <- list_elem_of_In, E. by rewrite bool_decide_eq_true_2.
Qed.

(** A change of [user_two_factor] that adds rows of existing users only. *)
Lemma wf_set_two_factor t n f :
  (forall u x, f (user_two_factor t) !! u = Some x ->
     is_Some (users t !! u) \/ is_Some (user_two_factor t !! u)) ->
  wf_fresh t n -> wf_fresh (set_two_factor f t) n.
Proof.
  intros Hf W. pose proof W as [[W1 W2 W3 W4 W5 [R1 R2 R3 R4 R5 R6 R7]] F].
  eapply wf_fresh_same; try exact W; try done. split; simpl; try done.
  intros u x [?|[y Hy]]%Hf; [done|by eapply R5].
Qed.

Lemma wf_upsert_two_factor uid s cs b : keeps wf_fresh (upsert_two_factor_row uid s cs b).
Proof.
  intros t n a t' W H. unfold upsert_two_factor_row in H. stmt_inv H.
  apply bool_decide_eq_false in Heqb0. apply wf_set_two_factor; [|done].
  intros u x [[-> _]|[_ Hx]]%lookup_insert_Some; [left|right; eauto].
  by destruct (users t !! u); [eauto|].
Qed.

Lemma wf_alter_two_factor uid g t n :
  wf_fresh t n -> wf_fresh (set_two_factor (alter g uid) t) n.
Proof.
  apply wf_set_two_factor. intros u x Hx. right. rewrite <- (lookup_alter_is_Some g _ uid). eauto.
Qed.

(** A change of the configuration whose author exists. *)
Lemma wf_set_config t n c :
  (forall u, sc_updated_by c = Some u -> is_Some (users t !! u)) ->
  wf_fresh t n -> wf_fresh (set_system_config (fun _ => Some c) t) n.
Proof.
  intros Hc W. pose proof W as [[W1 W2 W3 W4 W5 [R1 R2 R3 R4 R5 R6 R7]] F].
  eapply wf_fresh_same; try exact W; try done. split; simpl; try done.
  intros c' u [= <-]. apply Hc.
Qed.

Lemma wf_seed_config t0 : keeps wf_fresh (seed_config_row t0).
Proof.
  intros t n a t' W H. injection H as <- <-. apply wf_set_config; [|done].
  intros u. pose proof (ref_config _ (wf_refs _ (proj1 W))) as R.
  destruct (system_configurations t); simpl; [by apply R|done].
Qed.

Lemma wf_set_config_row t0 b u : keeps wf_fresh (set_config_row t0 b u).
Proof.
  intros t n a t' W H. unfold set_config_row in H.
  destruct (system_configurations t) as [c|] eqn:Ec; [|by injection H as <- <-].
  pose proof (ref_config _ (wf_refs _ (proj1 W)) c) as R.
  destruct u as [u|]; [destruct (bool_decide _) eqn:Eb in H; [done|]; apply bool_decide_eq_false in Eb|];
    injection H as <- <-; (apply wf_set_config; [|done]); simpl.
  - intros v [= <-]. by destruct (users t !! u); [eauto|].
  - intros v Hv. by apply R.
Qed.

(** A change of the app versions that keeps their keys. *)
Lemma wf_set_versions t n f :
  keyed platform (f (app_versions t)) -> wf_fresh t n -> wf_fresh (set_app_versions f t) n.
Proof.
  intros Hf W. pose proof W as [[W1 W2 W3 W4 W5 [R1 R2 R3 R4 R5 R6 R7]] F].
  eapply wf_fresh_same; try exact W; try done.
Qed.

Lemma wf_insert_version t0 d : keeps wf_fresh (insert_version t0 d).
Proof.
  intros t n a t' W H. unfold insert_version in H. stmt_inv H. apply wf_set_versions; [|done].
  apply keyed_insert; [|done]. apply (proj1 W).
Qed.

Lemma wf_delete_versions ps : keeps wf_fresh (delete_version_rows ps).
Proof.
  intros t n a t' W H. injection H as <- <-. apply wf_set_versions; [|done].
  eapply keyed_shrinks; [apply shrinks_filter|apply (proj1 W)].
Qed.

Lemma wf_update_version t0 p d : keeps wf_fresh (update_version_row t0 p d).
Proof.
  intros t n a t' W H. unfold update_version_row in H.
  destruct (app_versions t !! lower p) as [v|] eqn:E; injection H as <- <-; [|done].
  apply wf_set_versions; [|done]. pose proof (wf_versions _ (proj1 W)) as K.
  apply keyed_insert; [done|]. simpl. by apply K.
Qed.
End wf_instance.

Section wf_roles.
Context {EX : Ext} {EL : ExtLaws}.

Lemma role_name_free id name t :
  roles_wf (roles t) -> role_name_taken id name t = false ->
  forall k r, k <> id -> roles t !! k = Some r -> r_name r <> name.
Proof.
  intros [H1 _] Hn k r Hne Hr He. unfold role_name_taken in Hn.
  apply (existsb_values _ _) with (k := k) (x := r) in Hn; [|done].
  rewrite andb_false_iff, negb_false_iff, String.eqb_eq, String.eqb_neq in Hn.
  destruct Hn as [Hn|Hn]; [done|]. apply Hne. rewrite <- Hn. symmetry. by apply H1.
Qed.

(** Adding or renaming a role, the name being free. *)
Lemma wf_put_role t n n' r :
  wf_fresh t n -> (n <= n')%nat -> role_name_taken (r_id r) (r_name r) t = false ->
  (forall i, (n' <= i)%nat -> r_id r <> uuid7 i) ->
  wf_fresh (set_roles (<[r_id r := r]>) t) n'.
Proof.
  intros [[W1 W2 W3 W4 W5 [R1 R2 R3 R4 R5 R6 R7]] F] Hn Hr Hi.
  pose proof (role_name_free _ _ _ W4 Hr) as Hfree.
  assert (forall k, is_Some (roles t !! k) -> is_Some (<[r_id r := r]> (roles t) !! k)) as Hk.
  { intros k Hk. apply lookup_insert_is_Some'. by right. }
  split.
  - split; simpl; try done.
    + destruct W4 as [K1 K2]. split; [by apply keyed_insert|]. apply unique_insert; [done|].
      intros k x b Hne Hx [= <-] [= He]. by eapply Hfree.
    + split; simpl; try done; naive_solver.
  - intros i Hle. destruct (F i) as (F1 & F2 & F3); [lia|]. repeat split; try done. simpl.
    rewrite lookup_insert_ne; [done|by apply Hi].
Qed.

Lemma wf_insert_role t n t0 name descr r t' :
  wf_fresh t n -> insert_role (uuid7 n) t0 name descr t = Ok (r, t') -> wf_fresh t' (S n).
Proof.
  intros W H. unfold insert_role in H. stmt_inv H.
  match goal with |- context [<[uuid7 n := ?x]>] => apply (wf_put_role t n (S n) x) end;
    [done|lia|done|]. intros i Hi. by apply uuid7_later.
Qed.

Lemma wf_update_role t0 id d : keeps wf_fresh (update_role_row t0 id d).
Proof.
  intros t n a t' W H. unfold update_role_row in H.
  destruct (roles t !! id) as [r|] eqn:Er; [|by injection H as <- <-].
  destruct (role_name_taken id _ t) eqn:En in H; [done|]. injection H as <- <-.
  pose proof (roles_keyed _ (wf_roles _ (proj1 W)) _ _ Er) as <-.
  match goal with |- context [<[r_id r := ?x]>] => apply (wf_put_role t n n x) end;
    [done|lia|done|]. simpl. intros i Hi E. destruct W as [_ F].
  destruct (F i Hi) as (_ & _ & F3). congruence.
Qed.

Lemma wf_insert_role_permissions id ps : keeps wf_fresh (insert_role_permissions id ps).
Proof.
  intros t n a t' W H. unfold insert_role_permissions in H.
  destruct (bool_decide (roles t !! id = None)) eqn:Eb in H; [done|]. apply bool_decide_eq_false in Eb.
  destruct (existsb _ ps) eqn:Ep in H; [done|]. destruct (_ || _) in H; [done|]. injection H as <- <-.
  pose proof W as [[W1 W2 W3 W4 W5 [R1 R2 R3 R4 R5 R6 R7]] F].
  eapply wf_fresh_same; try exact W; try done. split; simpl; try done.
  intros r p [Hu|Hu]%elem_of_union; [by apply R4|].
  apply elem_of_list_to_set, list_elem_of_fmap in Hu as (p' & [= -> ->] & Hp).
  split; [by destruct (roles t !! id); [eauto|]|].
  destruct (permissions t !! p') as [x|] eqn:E; [eauto|]. exfalso.
  assert (existsb (fun p => bool_decide (permissions t !! p = None)) ps = true); [|congruence].
  apply existsb_exists. exists p'. rewrite <- list_elem_of_In, E. by rewrite bool_decide_eq_true_2.
Qed.

Lemma wf_delete_role_permissions id : keeps wf_fresh (delete_role_permissions id).
Proof.
  intros t n a t' W H. injection H as <- <-.
  pose proof W as [[W1 W2 W3 W4 W5 [R1 R2 R3 R4 R5 R6 R7]] F].
  eapply wf_fresh_same; try exact W; try done. split; simpl; try done.
  intros r p [_ Hp]%elem_of_filter. by apply R4.
Qed.

Lemma lookup_filter_notin {A} (m : gmap string A) (ids : list string) k :
  is_Some (filter (fun '(i, _) => i ∉ ids) m !! k) <-> is_Some (m !! k) /\ k ∉ ids.
Proof.
  split.
  - intros [x [Hx Hk]%map_lookup_filter_Some]. eauto.
  - intros [[x Hx] Hk]. exists x. by apply map_lookup_filter_Some.
Qed.

Lemma lookup_filter_none {A} (P : string * A -> Prop) `{!forall x, Decision (P x)} (m : gmap string A) k :
  m !! k = None -> filter P m !! k = None.
Proof. intros Hk. apply map_lookup_filter_None. by left. Qed.

Lemma wf_delete_roles ids : keeps wf_fresh (delete_roles_rows ids).
Proof.
  intros t n a t' [[W1 W2 W3 W4 W5 [R1 R2 R3 R4 R5 R6 R7]] F] H. injection H as <- <-. split.
  - split; simpl; try done.
    + destruct W4 as [K1 K2]. split.
      * eapply keyed_shrinks; [apply shrinks_filter|done].
      * eapply unique_shrinks; [apply shrinks_filter|done].
    + split; simpl; try done.
      * intros u r [Hr Hu]%elem_of_filter. rewrite lookup_filter_notin. naive_solver.
      * intros r p [Hr Hu]%elem_of_filter. rewrite lookup_filter_notin. naive_solver.
  - intros i Hi. destruct (F i Hi) as (F1 & F2 & F3). repeat split; try done. simpl.
    by apply lookup_filter_none.
Qed.

Lemma wf_delete_users ids : keeps wf_fresh (delete_users_rows ids).
Proof.
  intros t n a t' [[W1 W2 W3 W4 W5 [R1 R2 R3 R4 R5 R6 R7]] F] H. injection H as <- <-. split.
  - split; simpl; try done.
    + eapply users_wf_shrinks; [apply shrinks_filter| |done].
      intros k u [Hu _]%map_lookup_filter_Some. by eapply (users_version _ W1).
    + eapply sessions_wf_shrinks; [apply shrinks_filter|done].
    + by apply identities_wf_filter.
    + split; simpl; try done.
      * intros k s [Hs Hn]%map_lookup_filter_Some. rewrite lookup_filter_notin. eauto.
      * intros i [Hn Hi]%list_elem_of_filter. rewrite lookup_filter_notin. eauto.
      * intros u r [Hn Hu]%elem_of_filter. rewrite lookup_filter_notin. naive_solver.
      * intros u x [Hx Hn]%map_lookup_filter_Some. rewrite lookup_filter_notin. eauto.
      * intros c u. destruct (system_configurations t) as [c0|] eqn:Ec; [|done]. simpl. intros [= <-] Hu.
        rewrite lookup_filter_notin. destruct (sc_updated_by c0) as [v|] eqn:Ev; [|congruence].
        case_bool_decide; [done|]. rewrite Ev in Hu. injection Hu as <-. eauto.
      * intros k x u. rewrite lookup_fmap. destruct (api_keys t !! k) as [y|] eqn:Ey; [|done].
        simpl. intros [= <-]. destruct (k_created_by y) as [v|] eqn:Ev; [|by rewrite Ev].
        destruct (mem v ids) eqn:Em; [done|]. rewrite Ev. intros [= <-].
        rewrite lookup_filter_notin. rewrite mem_false in Em. eauto.
  - intros i Hi. destruct (F i Hi) as (F1 & F2 & F3). repeat split; simpl; try done;
      by apply lookup_filter_none.
Qed.

#[export] Instance wf_fresh_inv : TableInv wf_fresh.
Proof.
  split; eauto using wf_draw, wf_insert_user, wf_upsert_session, wf_insert_role, wf_update_user,
    wf_insert_identity, wf_delete_session, wf_delete_sessions_of, wf_delete_users,
    wf_insert_user_roles, wf_upsert_two_factor, wf_seed_config, wf_set_config_row,
    wf_insert_version, wf_delete_versions, wf_update_version, wf_insert_role_permissions,
    wf_update_role, wf_delete_role_permissions, wf_bump_role_users, wf_delete_roles.
  - intros id hp. apply wf_alter_user; [done|]. intros u. simpl. lia.
  - intros id. apply wf_alter_user; [done|]. intros u. simpl. lia.
  - intros uid t n a t' W H. injection H as <- <-. by apply wf_alter_two_factor.
  - intros uid cs t n a t' W H. injection H as <- <-. by apply wf_alter_two_factor.
Qed.
End wf_roles.

(** ** No statement lowers a token version *)

(** The user [id], if it exists, has a token version of at least [v]; no user
    will be created under that identifier again. *)
Definition version_from {EX : Ext} (id : uuid) (v : Z) (t : Tables) (n : nat) : Prop :=
  (forall u, users t !! id = Some u -> v <= token_version u) /\
  (forall i, (n <= i)%nat -> uuid7 i <> id).

Definition versions_kept {EX : Ext} (id : uuid) (v : Z) (t : Tables) (n : nat) : Prop :=
  wf_fresh t n /\ version_from id v t n.

Section versions.
Context {EX : Ext} {EL : ExtLaws} (id : uuid) (v : Z).

(** The rows of [users] after a statement come from rows with no greater version. *)
Definition version_grows (m m' : gmap uuid User) : Prop :=
  forall k u', m' !! k = Some u' -> exists u, m !! k = Some u /\ token_version u <= token_version u'.

Lemma version_from_grows t t' n :
  version_grows (users t) (users t') -> version_from id v t n -> version_from id v t' n.
Proof.
  intros Hg [H1 H2]. split; [|done]. intros u' (u & Hu & Hle)%Hg. specialize (H1 u Hu). lia.
Qed.

Lemma version_from_later t n n' : (n <= n')%nat -> version_from id v t n -> version_from id v t n'.
Proof. intros Hle [H1 H2]. split; [done|]. intros i Hi. apply H2. lia. Qed.

Lemma version_grows_refl m : version_grows m m.
Proof. intros k u Hu. exists u. split; [done|lia]. Qed.

Lemma version_grows_filter (P : uuid * User -> Prop) `{!forall x, Decision (P x)} m :
  version_grows m (filter P m).
Proof. intros k u [Hu _]%map_lookup_filter_Some. exists u. split; [done|lia]. Qed.

Lemma version_grows_alter f k m :
  (forall u, token_version u <= token_version (f u)) -> version_grows m (alter f k m).
Proof.
  intros Hf k' u [(<- & x & Hx & ->)|[_ Hx]]%lookup_alter_Some; eexists; (split; [done|]); [done|lia].
Qed.

Lemma version_grows_bump t rid : version_grows (users t) (map_imap (fun u row =>
    Some (if bool_decide ((u, rid) ∈ user_roles t) then bump_version row else row)) (users t)).
Proof.
  intros k u. rewrite map_lookup_imap. destruct (users t !! k) as [x|]; [|done]. simpl.
  intros [= <-]. exists x. split; [done|]. case_bool_decide; simpl; lia.
Qed.

Lemma versions_update_user_row uid d t n a t' :
  wf_fresh t n -> update_user_row uid d t = Ok (a, t') -> version_grows (users t) (users t').
Proof.
  intros [[W1 _ _ _ _ _] _] H. unfold update_user_row in H.
  destruct (users t !! uid) as [u|] eqn:Eu; [|injection H as <- <-; apply version_grows_refl].
  set (u' := {| u_id := u_id u |}) in H. stmt_inv H. unfold set_user. cbn [users set_users].
  intros k x [[<- <-]|[_ Hx]]%lookup_insert_Some.
  - exists u. simpl. rewrite (users_keyed _ W1 _ _ Eu). split; [done|lia].
  - exists x. split; [done|lia].
Qed.

(** A statement that keeps [wf_fresh] and only grows versions keeps both. *)
Lemma versions_keeps {A} (f : Tables -> outcome Exn (A * Tables)) :
  keeps wf_fresh f ->
  (forall t n a t', wf_fresh t n -> f t = Ok (a, t') -> version_grows (users t) (users t')) ->
  keeps (versions_kept id v) f.
Proof.
  intros Hk Hg t n a t' [W Hv] H. split; [by eapply Hk|]. eapply version_from_grows; [|done]. by eapply Hg.
Qed.

Lemma versions_keeps_same {A} (f : Tables -> outcome Exn (A * Tables)) :
  keeps wf_fresh f ->
  (forall t a t', f t = Ok (a, t') -> users t' = users t) ->
  keeps (versions_kept id v) f.
Proof.
  intros Hk Hs. apply versions_keeps; [done|]. intros t n a t' _ H. rewrite (Hs _ _ _ H).
  apply version_grows_refl.
Qed.

Lemma versions_insert_user t n t0 d hp u t' :
  versions_kept id v t n -> insert_user (uuid7 n) t0 d hp t = Ok (u, t') -> versions_kept id v t' (S n).
Proof.
  intros [W [V1 V2]] H. split; [by eapply wf_insert_user|]. unfold insert_user in H. stmt_inv H.
  split; [|intros i Hi; apply V2; lia]. simpl. intros x.
  rewrite lookup_insert_ne; [apply V1|]. apply V2. lia.
Qed.

(** The statements that do not touch [users]. *)
Ltac same_users :=
  apply versions_keeps_same; [apply wf_fresh_inv|];
  let H := fresh in intros ? ? ? H;
  unfold insert_identity, delete_session, insert_user_roles, upsert_two_factor_row, set_config_row,
    insert_version, update_version_row, insert_role_permissions, update_role_row in H;
  by stmt_inv H.

#[export] Instance versions_inv : TableInv (versions_kept id v).
Proof.
  split; intros; try same_users.
  - destruct H as [W V]. split; [by apply wf_draw|]. eapply version_from_later; [|done]. lia.
  - by eapply versions_insert_user.
  - destruct H as [W V]. split; [by eapply wf_upsert_session|].
    eapply version_from_later with (n := n); [lia|]. eapply version_from_grows; [|done].
    unfold upsert_session in H0. stmt_inv H0; apply version_grows_refl.
  - destruct H as [W V]. split; [by eapply wf_insert_role|].
    eapply version_from_later with (n := n); [lia|]. eapply version_from_grows; [|done].
    unfold insert_role in H0. stmt_inv H0; apply version_grows_refl.
  - apply versions_keeps; [apply wf_fresh_inv|]. intros *. apply versions_update_user_row.
  - apply versions_keeps; [apply wf_fresh_inv|]. intros t n a t' _ H. injection H as <- <-.
    apply version_grows_alter. intros u. simpl. lia.
  - apply versions_keeps; [apply wf_fresh_inv|]. intros t n a t' _ H. injection H as <- <-.
    apply version_grows_alter. intros u. simpl. lia.
  - apply versions_keeps; [apply wf_fresh_inv|]. intros t n a t' _ H. injection H as <- <-.
    apply version_grows_filter.
  - apply versions_keeps; [apply wf_fresh_inv|]. intros t n a t' _ H. injection H as <- <-.
    apply version_grows_bump.
Qed.
End versions.
