(* ===== verification/SideInvariants.v ===== *)
(** * Well-formed tables of the operational components

    The keys, uniqueness constraints and references of the tables of API keys,
    webhooks, dead letters, schedules and devices, as a predicate [side_wf], and
    the interface [SideInv] of the predicates that the statements of those
    components keep, next to [TableInv] for the statements of users and roles.
    [side_kept] satisfies both, and so do [wf_fresh] and [versions_kept]. *)

From Stdlib Require Import ZArith Lia Ascii String List Bool.
From stdpp Require Import base gmap strings sorting list pretty.
From S2P Require Import Prelude Redis Schema JsonText World Tokens Users Cache AppConfig Roles Invariants.
From S2P Require Import DeadLetter PeriodicTasks ApiKeys Webhooks Notifications.
Local Open Scope string_scope.
Local Open Scope list_scope.
Local Open Scope Z_scope.

(** ** Well-formedness *)

(** The keys of the table. *)
Record api_keys_wf (m : gmap uuid ApiKey) : Prop := {
  api_key_id : keyed k_id m;
  api_key_hash : unique_on (fun k => Some (k_hashed_key k)) m;
}.

(** The keys of the table: the primary key and the unique name. *)
Record periodic_wf (m : gmap uuid PeriodicTask) : Prop := {
  periodic_key : keyed pt_id m;
  periodic_name : unique_on (fun p => Some (pt_name p)) m;
}.

(** Headers as every write of the service leaves them. *)
Definition stored_text (j : Json) : Prop := exists d, j = jsonb_text (dumps (text_dict d)).

(** A log refers to an endpoint that exists, and its body was cut. *)
Definition log_wf (t : Tables) (l : WebhookLog) : Prop :=
  (forall e, wl_endpoint_id l = Some e -> is_Some (webhook_endpoints t !! e)) /\
  from_option (fun b => String.length b <= 2048)%nat True (wl_response_body l).

(** Devices: the primary key, the unique token, an owner that exists, a known platform. *)
Record devices_wf (us : gmap uuid User) (m : gmap uuid UserDevice) : Prop := {
  device_key : keyed ud_id m;
  device_token : unique_on (fun d => Some (ud_fcm_token d)) m;
  device_owner : forall i d, m !! i = Some d -> is_Some (us !! ud_user_id d);
  device_platform : forall i d, m !! i = Some d -> platform_ok (ud_platform d) = true;
}.

Record side_wf (t : Tables) : Prop := {
  side_api_keys : api_keys_wf (api_keys t);
  side_periodic : periodic_wf (periodic_tasks t);
  side_dead : keyed d_id (dead_letter_tasks t);
  side_endpoints : keyed we_id (webhook_endpoints t);
  side_creator : forall i e u, webhook_endpoints t !! i = Some e -> we_created_by e = Some u -> is_Some (users t !! u);
  side_headers : forall i e, webhook_endpoints t !! i = Some e -> stored_text (we_headers e);
  side_logs : Forall (log_wf t) (webhook_logs t);
  side_devices : devices_wf (users t) (user_devices t);
}.

(** ** Keys of the schedule and stored headers *)

Lemma periodic_wf_put m t0 id p :
  periodic_wf (periodic_tasks t0) -> m = periodic_tasks t0 -> pt_id p = id ->
  task_name_taken t0 id (pt_name p) = false -> periodic_wf (<[id := p]> m).
Proof.
  intros [Hk Hn] -> Hid Hfree. split; [by apply keyed_insert|]. apply unique_insert; [done|].
  intros k x b Hne Hx [= <-] [= Hname]. unfold task_name_taken in Hfree.
  pose proof (existsb_values _ _ Hfree _ _ Hx) as Hf. cbn in Hf.
  rewrite Hname, String.eqb_refl in Hf. cbn in Hf. apply negb_false_iff, String.eqb_eq in Hf.
  rewrite (Hk _ _ Hx) in Hf. done.
Qed.

Lemma periodic_wf_filter m (P : string * PeriodicTask -> Prop) `{!forall x, Decision (P x)} :
  periodic_wf m -> periodic_wf (filter P m).
Proof.
  intros [Hk Hn]. split; [eapply keyed_shrinks; [|exact Hk]|eapply unique_shrinks; [|exact Hn]]; apply shrinks_filter.
Qed.

Lemma wf_insert_periodic id t0 c t p t' :
  insert_periodic_row id t0 c t = Ok (p, t') -> periodic_wf (periodic_tasks t) -> periodic_wf (periodic_tasks t').
Proof.
  unfold insert_periodic_row. destruct (task_name_taken _ _ _) eqn:E; [done|]. intros [= <- <-] Hwf.
  by eapply periodic_wf_put.
Qed.

Lemma wf_update_periodic t0 id u t o t' :
  update_periodic_row t0 id u t = Ok (o, t') -> periodic_wf (periodic_tasks t) -> periodic_wf (periodic_tasks t').
Proof.
  unfold update_periodic_row. intros H Hwf. destruct (periodic_tasks t !! id) as [p|] eqn:Ep; [|by injection H as <- <-].
  destruct (task_name_taken _ _ _) eqn:E; [done|]. injection H as <- <-.
  eapply periodic_wf_put; [done|done| |done]. cbn. by apply (periodic_key _ Hwf).
Qed.

Lemma wf_delete_periodic ids t n t' :
  delete_periodic_rows ids t = Ok (n, t') -> periodic_wf (periodic_tasks t) -> periodic_wf (periodic_tasks t').
Proof. intros [= <- <-]. apply periodic_wf_filter. Qed.

Lemma created_headers_text id t0 c s u t e t' :
  insert_endpoint id t0 c s u t = Ok (e, t') -> stored_text (we_headers e).
Proof. unfold insert_endpoint. destruct (from_option _ _ _); [done|]. intros [= <- _]. by eexists. Qed.

Lemma updated_headers_text t0 u e : stored_text (we_headers e) -> stored_text (we_headers (updated_endpoint t0 u e)).
Proof. intros He. cbn. destruct (wu_headers u); [by eexists|done]. Qed.

(** ** The interface *)

Class SideInv {EX : Ext} (Q : Tables -> nat -> Prop) : Prop := {
  si_insert_dead : forall t n t0 a b c d e f g h i j u t', Q t n ->
    insert_dead_row (uuid4 n) t0 a b c d e f g h i j t = Ok (u, t') -> Q t' (S n);
  si_update_dead : forall P t0 a k m q, keeps Q (update_dead_rows P (edit_task t0 a k m q));
  si_delete_dead : forall P, keeps Q (delete_dead_rows P);
  si_take_dead : forall P, keeps Q (take_dead_rows P);
  si_insert_periodic : forall t n t0 c p t', Q t n ->
    insert_periodic_row (uuid4 n) t0 c t = Ok (p, t') -> Q t' (S n);
  si_update_periodic : forall t0 id u, keeps Q (update_periodic_row t0 id u);
  si_delete_periodic : forall ids, keeps Q (delete_periodic_rows ids);
  si_insert_key : forall t n t0 c p h cb ac k t', Q t n ->
    insert_api_key (uuid7 n) t0 c p h cb ac t = Ok (k, t') -> Q t' (S n);
  si_update_key : forall id t0 u, keeps Q (update_key_row id (updated_key t0 u));
  si_rotate_key : forall id t0 p h, keeps Q (update_key_row id (rotated_key t0 p h));
  si_delete_keys : forall ids, keeps Q (delete_key_rows ids);
  si_insert_endpoint : forall t n t0 c s cb e t', Q t n ->
    insert_endpoint (uuid7 n) t0 c s cb t = Ok (e, t') -> Q t' (S n);
  si_update_endpoint : forall t0 id u, keeps Q (update_endpoint_row t0 id u);
  si_delete_endpoints : forall ids, keeps Q (delete_endpoint_rows ids);
  si_upsert_device : forall t n t0 u tok p name d t', Q t n ->
    upsert_device (uuid7 n) t0 u tok p name t = Ok (d, t') -> Q t' (S n);
  si_deactivate_devices : forall P t0, keeps Q (deactivate_devices P t0);
  si_insert_log : forall t n t0 l r t', Q t n -> insert_log (uuid4 n) t0 l t = Ok (r, t') -> Q t' (S n);
}.

(** ** Statements that leave users, sessions and roles alone *)

(** The tables [wf] speaks of, but for the API keys. *)
Record same_core (t t' : Tables) : Prop := {
  sc_users : users t' = users t;
  sc_sessions : user_sessions t' = user_sessions t;
  sc_identities : user_identities t' = user_identities t;
  sc_roles : roles t' = roles t;
  sc_permissions : permissions t' = permissions t;
  sc_role_permissions : role_permissions t' = role_permissions t;
  sc_user_roles : user_roles t' = user_roles t;
  sc_two_factor : user_two_factor t' = user_two_factor t;
  sc_config : system_configurations t' = system_configurations t;
  sc_versions : app_versions t' = app_versions t;
}.

(** Every API key names a creator that exists, or none. *)
Definition creators (t : Tables) : Prop :=
  forall k a u, api_keys t !! k = Some a -> k_created_by a = Some u -> is_Some (users t !! u).

(** What the statements of the operational components do to the core. *)
Definition side_step (t t' : Tables) : Prop := same_core t t' /\ (creators t -> creators t').

Section core.
Context {EX : Ext}.

Lemma wf_fresh_step t t' n n' : side_step t t' -> (n <= n')%nat -> wf_fresh t n -> wf_fresh t' n'.
Proof.
  intros [[E1 E2 E3 E4 E5 E6 E7 E8 E9 E10] Hk] Hn [[W1 W2 W3 W4 W5 [R1 R2 R3 R4 R5 R6 R7]] F].
  specialize (Hk R7). unfold creators in Hk. rewrite E1 in Hk. split.
  - split; rewrite ?E1, ?E2, ?E3, ?E4, ?E10; try done.
    split; rewrite ?E1, ?E2, ?E3, ?E4, ?E5, ?E6, ?E7, ?E8, ?E9; done.
  - intros i Hi. rewrite E1, E2, E4. apply F. lia.
Qed.

Lemma versions_step id v t t' n n' :
  side_step t t' -> (n <= n')%nat -> versions_kept id v t n -> versions_kept id v t' n'.
Proof.
  intros Hs Hn [W [V1 V2]]. split; [by eapply wf_fresh_step|]. split.
  - by rewrite (sc_users _ _ (proj1 Hs)).
  - intros i Hi. apply V2. lia.
Qed.

(** A statement that does not touch the API keys. *)
Lemma core_step t t' : same_core t t' -> api_keys t' = api_keys t -> side_step t t'.
Proof. intros Hc Hk. split; [done|]. unfold creators. by rewrite Hk, (sc_users _ _ Hc). Qed.

Lemma step_refl t : side_step t t.
Proof. by split. Qed.

Lemma put_key_step id k t :
  (creators t -> forall u, k_created_by k = Some u -> is_Some (users t !! u)) ->
  side_step t (set_api_keys (<[id := k]>) t).
Proof.
  intros Hk. split; [by split|]. intros Hc i a u Hi Hu. cbn [api_keys set_api_keys] in Hi.
  apply lookup_insert_Some in Hi as [[_ <-]|[_ Hi]]; [by apply Hk|by eapply Hc].
Qed.

Lemma insert_key_step id t0 c p h cb ac t k t' : insert_api_key id t0 c p h cb ac t = Ok (k, t') -> side_step t t'.
Proof.
  unfold insert_api_key. destruct (hash_taken _ _ _); [done|]. destruct (from_option _ _ _) eqn:E; [done|].
  intros [= <- <-]. apply put_key_step. intros _ u Hu. cbn in Hu. subst cb. cbn in E.
  by apply negb_false_iff, bool_decide_eq_true in E.
Qed.

Lemma update_key_step id f t o t' :
  (forall k, k_created_by (f k) = k_created_by k) ->
  update_key_row id f t = Ok (o, t') -> side_step t t'.
Proof.
  intros Hf. unfold update_key_row. destruct (api_keys t !! id) as [k|] eqn:E; [|intros [= <- <-]; apply step_refl].
  destruct (hash_taken _ _ _); [done|]. intros [= <- <-]. apply put_key_step. intros Hc u. rewrite Hf. eauto.
Qed.

Lemma delete_keys_step ids t n t' : delete_key_rows ids t = Ok (n, t') -> side_step t t'.
Proof.
  intros [= <- <-]. split; [by split|]. intros Hc i a u [Hi _]%map_lookup_filter_Some. by eapply Hc.
Qed.

(** The statements of dead letters, schedules and webhooks. *)
Ltac other_table :=
  let H := fresh in intros H;
  unfold insert_dead_row, update_dead_rows, delete_dead_rows, take_dead_rows, insert_periodic_row,
    update_periodic_row, delete_periodic_rows, insert_endpoint, update_endpoint_row, delete_endpoint_rows,
    insert_log, upsert_device, deactivate_devices in H;
  stmt_inv H; first [apply step_refl | by apply core_step].

Lemma insert_dead_step id t0 a b c d e f g h i j t u t' :
  insert_dead_row id t0 a b c d e f g h i j t = Ok (u, t') -> side_step t t'.
Proof. other_table. Qed.
Lemma update_dead_step P f t u t' : update_dead_rows P f t = Ok (u, t') -> side_step t t'.
Proof. other_table. Qed.
Lemma delete_dead_step P t u t' : delete_dead_rows P t = Ok (u, t') -> side_step t t'.
Proof. other_table. Qed.
Lemma take_dead_step P t u t' : take_dead_rows P t = Ok (u, t') -> side_step t t'.
Proof. other_table. Qed.
Lemma insert_periodic_step id t0 c t p t' : insert_periodic_row id t0 c t = Ok (p, t') -> side_step t t'.
Proof. other_table. Qed.
Lemma update_periodic_step t0 id u t o t' : update_periodic_row t0 id u t = Ok (o, t') -> side_step t t'.
Proof. other_table. Qed.
Lemma delete_periodic_step ids t n t' : delete_periodic_rows ids t = Ok (n, t') -> side_step t t'.
Proof. other_table. Qed.
Lemma insert_endpoint_step id t0 c s cb t e t' : insert_endpoint id t0 c s cb t = Ok (e, t') -> side_step t t'.
Proof. other_table. Qed.
Lemma update_endpoint_step t0 id u t o t' : update_endpoint_row t0 id u t = Ok (o, t') -> side_step t t'.
Proof. other_table. Qed.
Lemma delete_endpoints_step ids t n t' : delete_endpoint_rows ids t = Ok (n, t') -> side_step t t'.
Proof. other_table. Qed.
Lemma insert_log_step id t0 l t r t' : insert_log id t0 l t = Ok (r, t') -> side_step t t'.
Proof. other_table. Qed.
Lemma upsert_device_step id t0 u tok p name t d t' : upsert_device id t0 u tok p name t = Ok (d, t') -> side_step t t'.
Proof. other_table. Qed.
Lemma deactivate_devices_step P t0 t u t' : deactivate_devices P t0 t = Ok (u, t') -> side_step t t'.
Proof. other_table. Qed.

Lemma updated_key_step id t0 u t o t' : update_key_row id (updated_key t0 u) t = Ok (o, t') -> side_step t t'.
Proof. by apply update_key_step. Qed.
Lemma rotated_key_step id t0 p h t o t' : update_key_row id (rotated_key t0 p h) t = Ok (o, t') -> side_step t t'.
Proof. by apply update_key_step. Qed.

(** A predicate that steps keep satisfies the interface. *)
Lemma side_inv_of (Q : Tables -> nat -> Prop) :
  (forall t t' n n', side_step t t' -> (n <= n')%nat -> Q t n -> Q t' n') -> SideInv Q.
Proof.
  intros Hs. split; unfold keeps; intros; (eapply Hs; [| |eassumption]; [|lia]);
    eauto using insert_dead_step, update_dead_step, delete_dead_step, take_dead_step, insert_periodic_step,
      update_periodic_step, delete_periodic_step, insert_key_step, updated_key_step, rotated_key_step,
      delete_keys_step, insert_endpoint_step, update_endpoint_step, delete_endpoints_step, insert_log_step, upsert_device_step, deactivate_devices_step.
Qed.

#[export] Instance wf_fresh_side : SideInv wf_fresh.
Proof. apply side_inv_of. intros *. apply wf_fresh_step. Qed.
#[export] Instance versions_side id v : SideInv (versions_kept id v).
Proof. apply side_inv_of. intros *. apply versions_step. Qed.
End core.

(** ** [side_wf] satisfies both interfaces *)

Definition side_kept (t : Tables) (n : nat) : Prop := side_wf t.

(** The other statements: the tables of the operational components stay, and no user goes. *)
Definition core_step_of (t t' : Tables) : Prop :=
  api_keys t' = api_keys t /\ periodic_tasks t' = periodic_tasks t /\
  dead_letter_tasks t' = dead_letter_tasks t /\ webhook_endpoints t' = webhook_endpoints t /\
  webhook_logs t' = webhook_logs t /\ user_devices t' = user_devices t /\
  forall k, is_Some (users t !! k) -> is_Some (users t' !! k).

Lemma side_core_step t t' : core_step_of t t' -> side_wf t -> side_wf t'.
Proof.
  intros (E1 & E2 & E3 & E4 & E5 & E6 & Hu) [S1 S2 S3 S4 S5 S6 S7 S8].
  split; rewrite ?E1, ?E2, ?E3, ?E4, ?E5, ?E6; eauto.
  - eapply Forall_impl; [exact S7|]. intros l [L1 L2]. split; [by rewrite E4|done].
  - destruct S8 as [D1 D2 D3 D4]. split; eauto.
Qed.

Section side.
Context {EX : Ext} {EL : ExtLaws}.

Lemma users_kept_insert id u t k : is_Some (users t !! k) -> is_Some (<[id := u]> (users t) !! k).
Proof. intros Hk. apply lookup_insert_is_Some'. by right. Qed.

Lemma users_kept_alter id f t k : is_Some (users t !! k) -> is_Some (alter f id (users t) !! k).
Proof. by rewrite lookup_alter_is_Some. Qed.

Lemma users_kept_imap (g : string -> User -> option User) t k :
  (forall i u, is_Some (g i u)) -> is_Some (users t !! k) -> is_Some (map_imap g (users t) !! k).
Proof. intros Hg [u Hu]. rewrite map_lookup_imap, Hu. apply Hg. Qed.

Ltac core_stmt :=
  match goal with H : _ = Ok (_, _) |- _ =>
    unfold insert_user, update_user_row, upsert_session, insert_identity, delete_session, delete_sessions_of,
      insert_user_roles, upsert_two_factor_row, disable_two_factor_row, update_codes_row, seed_config_row,
      set_config_row, insert_version, delete_version_rows, update_version_row, insert_role,
      insert_role_permissions, update_role_row, delete_role_permissions, bump_role_users, delete_roles_rows,
      alter_user in H;
    stmt_inv H
  end;
  (eapply side_core_step; [|eassumption]); repeat (split; [reflexivity|]); intros; cbn [users set_users];
  try assumption; first [by apply users_kept_insert | by apply users_kept_alter
                        | by apply users_kept_imap; [eauto|]].

Lemma keyed_fmap {A} (id : A -> string) (f : A -> A) (m : gmap string A) :
  (forall x, id (f x) = id x) -> keyed id m -> keyed id (f <$> m).
Proof.
  intros Hf Hm k y Hy. apply lookup_fmap_Some in Hy as (x & <- & Hx). rewrite Hf. by apply Hm.
Qed.

Lemma unique_fmap {A B} (g : A -> option B) (f : A -> A) (m : gmap string A) :
  (forall x, g (f x) = g x) -> unique_on g m -> unique_on g (f <$> m).
Proof.
  intros Hf Hm k k' y y' b Hy Hy'. apply lookup_fmap_Some in Hy as (x & <- & Hx).
  apply lookup_fmap_Some in Hy' as (x' & <- & Hx'). rewrite !Hf. by eapply Hm.
Qed.

Lemma side_delete_users ids t a t' : delete_users_rows ids t = Ok (a, t') -> side_wf t -> side_wf t'.
Proof.
  intros [= <- <-] [[K1 K2] S2 S3 S4 S5 S6 S7 S8]. split; cbn; try done.
  - split; [apply keyed_fmap|apply unique_fmap]; try done; intros k;
      by destruct (k_created_by k) as [c|]; [destruct (mem c ids)|].
  - apply keyed_fmap; [|done]. intros e. by destruct (we_created_by e) as [c|]; [destruct (mem c ids)|].
  - intros i e u He Hu. apply lookup_fmap_Some in He as (e0 & He & Hi).
    rewrite lookup_filter_notin. destruct (we_created_by e0) as [c|] eqn:Ec; [|subst e; congruence].
    destruct (mem c ids) eqn:Em; subst e; [done|]. rewrite Ec in Hu. injection Hu as <-.
    split; [by eapply S5|by apply mem_false].
  - intros i e He. apply lookup_fmap_Some in He as (e0 & He & Hi). specialize (S6 _ _ Hi).
    subst e. by destruct (we_created_by e0) as [c|]; [destruct (mem c ids)|].
  - eapply Forall_impl; [exact S7|]. intros l [L1 L2]. split; [|done]. intros e He. cbn.
    rewrite lookup_fmap. destruct (L1 e He) as [x ->]. by eexists.
  - destruct S8 as [D1 D2 D3 D4]. split; cbn.
    + eapply keyed_shrinks; [apply shrinks_filter|done].
    + eapply unique_shrinks; [apply shrinks_filter|done].
    + intros i d Hd. apply map_lookup_filter_Some in Hd as [Hd Hn]. rewrite lookup_filter_notin. eauto.
    + intros i d [Hd _]%map_lookup_filter_Some. eauto.
Qed.

#[export] Instance side_kept_core : TableInv side_kept.
Proof.
  split; unfold keeps, side_kept; intros; try done.
  all: first [by eapply side_delete_users | core_stmt].
Qed.

(** A free hash: no other row has it. *)
Lemma put_key_wf id k t :
  api_keys_wf (api_keys t) -> k_id k = id -> hash_taken t id (k_hashed_key k) = false ->
  api_keys_wf (<[id := k]> (api_keys t)).
Proof.
  intros [K1 K2] Hid Hfree. split; [by apply keyed_insert|]. apply unique_insert; [done|].
  intros i x b Hne Hx [= <-] [= Hh]. pose proof (existsb_values _ _ Hfree _ _ Hx) as Hf. cbn in Hf.
  rewrite Hh, String.eqb_refl, (K1 _ _ Hx) in Hf. cbn in Hf. by apply negb_false_iff, String.eqb_eq in Hf.
Qed.

Lemma side_put_key id k t :
  side_wf t -> k_id k = id -> hash_taken t id (k_hashed_key k) = false ->
  side_wf (set_api_keys (<[id := k]>) t).
Proof. intros [S1 S2 S3 S4 S5 S6 S7 S8] Hid Hh. split; try done. by apply put_key_wf. Qed.

Lemma side_update_key id f : (forall k, k_id (f k) = k_id k) -> keeps side_kept (update_key_row id f).
Proof.
  intros Hf t n o t' S H. unfold update_key_row in H.
  destruct (api_keys t !! id) as [k|] eqn:E; [|by injection H as <- <-].
  destruct (hash_taken _ _ _) eqn:Eh in H; [done|]. injection H as <- <-.
  apply side_put_key; [done| |done]. rewrite Hf. by apply (api_key_id _ (side_api_keys _ S)).
Qed.

Lemma side_insert_key id t0 c p h cb ac t k t' :
  insert_api_key id t0 c p h cb ac t = Ok (k, t') -> side_wf t -> side_wf t'.
Proof.
  unfold insert_api_key. destruct (hash_taken _ _ _) eqn:E; [done|]. destruct (from_option _ _ _); [done|].
  intros [= <- <-] S. by apply side_put_key.
Qed.

Lemma side_dead_table t f :
  keyed d_id (f (dead_letter_tasks t)) -> side_wf t -> side_wf (set_dead_letter_tasks f t).
Proof. intros Hk [S1 S2 S3 S4 S5 S6 S7 S8]. by split. Qed.

Lemma side_periodic_table t f :
  periodic_wf (f (periodic_tasks t)) -> side_wf t -> side_wf (set_periodic_tasks f t).
Proof. intros Hk [S1 S2 S3 S4 S5 S6 S7 S8]. by split. Qed.

(** Adding or changing an endpoint. *)
Lemma side_put_endpoint id e t :
  side_wf t -> we_id e = id -> stored_text (we_headers e) ->
  (forall u, we_created_by e = Some u -> is_Some (users t !! u)) ->
  side_wf (set_webhook_endpoints (<[id := e]>) t).
Proof.
  intros [S1 S2 S3 S4 S5 S6 S7 S8] Hid Hh Hu. split; try done; cbn.
  - by apply keyed_insert.
  - intros i x u [[_ <-]|[_ Hi]]%lookup_insert_Some; eauto.
  - intros i x [[_ <-]|[_ Hi]]%lookup_insert_Some; eauto.
  - eapply Forall_impl; [exact S7|]. intros l [L1 L2]. split; [|done]. intros i Hi. cbn.
    apply lookup_insert_is_Some'. right. by apply L1.
Qed.

Lemma side_insert_endpoint id t0 c s cb t e t' :
  insert_endpoint id t0 c s cb t = Ok (e, t') -> side_wf t -> side_wf t'.
Proof.
  intros H S. pose proof (created_headers_text _ _ _ _ _ _ _ _ H) as Hh. unfold insert_endpoint in H.
  destruct (from_option _ _ _) eqn:E in H; [done|]. injection H as <- <-.
  apply side_put_endpoint; try done. intros u Hu. cbn in Hu. subst cb. cbn in E.
  by apply negb_false_iff, bool_decide_eq_true in E.
Qed.

Lemma side_update_endpoint t0 id u : keeps side_kept (update_endpoint_row t0 id u).
Proof.
  intros t n o t' S H. unfold update_endpoint_row in H.
  destruct (webhook_endpoints t !! id) as [e|] eqn:E; [|by injection H as <- <-]. injection H as <- <-.
  apply side_put_endpoint; [done| | |].
  - exact (side_endpoints _ S _ _ E).
  - apply updated_headers_text. exact (side_headers _ S _ _ E).
  - intros v. exact (side_creator _ S _ _ v E).
Qed.

Lemma side_delete_endpoints ids : keeps side_kept (delete_endpoint_rows ids).
Proof.
  intros t n a t' [S1 S2 S3 S4 S5 S6 S7 S8] H. injection H as <- <-. split; try done; cbn.
  - eapply keyed_shrinks; [apply shrinks_filter|done].
  - intros i e u [He _]%map_lookup_filter_Some. by eapply S5.
  - intros i e [He _]%map_lookup_filter_Some. by eapply S6.
  - apply Forall_fmap. eapply Forall_impl; [exact S7|]. intros l [L1 L2]. split; [|done].
    intros i Hi. cbn in *. destruct (wl_endpoint_id l) as [e|] eqn:E; [|done].
    destruct (mem e ids) eqn:Em; [done|]. injection Hi as ->. destruct (L1 i eq_refl) as [x Hx].
    exists x. apply map_lookup_filter_Some. split; [done|]. apply mem_false in Em. by rewrite (S4 _ _ Hx).
Qed.

Lemma length_substring n s : (String.length (String.substring 0 n s) <= n)%nat.
Proof. revert n. induction s as [|c s IH]; intros [|n]; cbn; [lia|lia|lia|]. specialize (IH n). lia. Qed.

Lemma side_insert_log id t0 l t r t' : insert_log id t0 l t = Ok (r, t') -> side_wf t -> side_wf t'.
Proof.
  unfold insert_log. destruct (from_option _ _ _) eqn:E; [done|]. intros [= <- <-] [S1 S2 S3 S4 S5 S6 S7 S8].
  split; try done. cbn. apply Forall_app. split; [done|]. apply Forall_singleton. split; cbn.
  - intros e He. rewrite He in E. cbn in E. by apply negb_false_iff, bool_decide_eq_true in E.
  - destruct (or_opt (lc_response_body l) None); cbn; [apply length_substring|done].
Qed.

(** The row of a token, and the absence of one. *)
Lemma device_of_token_Some tok t d :
  device_of_token tok t = Some d -> exists i, user_devices t !! i = Some d /\ ud_fcm_token d = tok.
Proof.
  unfold device_of_token. intros H. apply head_Some_elem_of in H. apply list_elem_of_filter in H as [Ht [i Hi]%elem_of_values].
  by exists i.
Qed.

Lemma device_of_token_None tok t i d :
  device_of_token tok t = None -> user_devices t !! i = Some d -> ud_fcm_token d <> tok.
Proof.
  unfold device_of_token. intros H Hd Ht. apply head_None in H. assert (d ∈ ([] : list UserDevice)) as Hin.
  { rewrite <- H. apply list_elem_of_filter. split; [done|]. apply elem_of_values. by exists i. }
  by apply elem_of_nil in Hin.
Qed.

Lemma side_upsert_device id t0 u tok p name t r t' :
  upsert_device id t0 u tok p name t = Ok (r, t') -> side_wf t -> side_wf t'.
Proof.
  unfold upsert_device. destruct (platform_ok p) eqn:Ep; [|done]. cbn [negb].
  destruct (bool_decide _) eqn:Eu; [done|]. apply bool_decide_eq_false, not_eq_None_Some in Eu.
  intros [= _ <-] [S1 S2 S3 S4 S5 S6 S7 [D1 D2 D3 D4]]. split; try done.
  destruct (device_of_token tok t) as [o|] eqn:Eo; split; cbn.
  all: first [by apply keyed_insert | apply unique_insert; [done|] |
    by intros i d [[_ <-]|[_ Hi]]%lookup_insert_Some; [|eauto]].
  - apply device_of_token_Some in Eo as (j & Hj & Ht).
    intros k x b Hne Hx [= <-] [= Hb]. apply Hne. rewrite (D1 _ _ Hj).
    apply (D2 k j x o (ud_fcm_token x)); congruence.
  - intros k x b Hne Hx [= <-] [= Hb]. by apply (device_of_token_None _ _ _ _ Eo Hx).
Qed.

Lemma side_deactivate P t0 t u t' : deactivate_devices P t0 t = Ok (u, t') -> side_wf t -> side_wf t'.
Proof.
  intros [= <- <-] [S1 S2 S3 S4 S5 S6 S7 [D1 D2 D3 D4]]. split; try done. split; cbn.
  - apply keyed_fmap; [|done]. intros d. by destruct (P d).
  - apply unique_fmap; [|done]. intros d. by destruct (P d).
  - intros i d (x & <- & Hx)%lookup_fmap_Some. specialize (D3 _ _ Hx). by destruct (P x).
  - intros i d (x & <- & Hx)%lookup_fmap_Some. specialize (D4 _ _ Hx). by destruct (P x).
Qed.

#[export] Instance side_kept_side : SideInv side_kept.
Proof.
  split; unfold keeps, side_kept; intros.
  - injection H0 as <- <-. apply side_dead_table; [|done]. apply keyed_insert; [apply H|done].
  - injection H0 as <- <-. apply side_dead_table; [|done]. apply keyed_fmap; [|apply H]. intros d. by destruct (P d).
  - injection H0 as <- <-. apply side_dead_table; [|done]. eapply keyed_shrinks; [apply shrinks_filter|apply H].
  - injection H0 as <- <-. apply side_dead_table; [|done]. eapply keyed_shrinks; [apply shrinks_filter|apply H].
  - pose proof (wf_insert_periodic _ _ _ _ _ _ H0 (side_periodic _ H)) as Hp.
    unfold insert_periodic_row in H0. destruct (task_name_taken _ _ _); [done|]. injection H0 as <- <-.
    by apply side_periodic_table.
  - pose proof (wf_update_periodic _ _ _ _ _ _ H0 (side_periodic _ H)) as Hp. unfold update_periodic_row in H0.
    stmt_inv H0; [by apply side_periodic_table|done].
  - pose proof (wf_delete_periodic _ _ _ _ H0 (side_periodic _ H)) as Hp. injection H0 as <- <-.
    by apply side_periodic_table.
  - by eapply side_insert_key.
  - exact (side_update_key id (updated_key t0 u) (fun _ => eq_refl) _ n _ _ H H0).
  - exact (side_update_key id (rotated_key t0 p h) (fun _ => eq_refl) _ n _ _ H H0).
  - injection H0 as <- <-. destruct H as [[K1 K2] S2 S3 S4 S5 S6 S7 S8]. split; try done. cbn. split.
    + eapply keyed_shrinks; [apply shrinks_filter|done].
    + eapply unique_shrinks; [apply shrinks_filter|done].
  - by eapply side_insert_endpoint.
  - exact (side_update_endpoint t0 id u _ n _ _ H H0).
  - exact (side_delete_endpoints ids _ n _ _ H H0).
  - by eapply side_upsert_device.
  - by eapply side_deactivate.
  - by eapply side_insert_log.
Qed.
End side.
