(* ===== verification/System.v ===== *)
(** * The handlers of users and authentication, and what they keep

    [handler] lists the handlers of the routes of [Routes], with the DAO calls of
    the admin portal on the same tables.  A predicate that every SQL statement
    keeps ([TableInv]) is kept by every handler, however it ends: the tactic
    [keep] takes a handler apart down to its statements.  [Service] adds the
    other handlers and the steps. *)

From Stdlib Require Import ZArith Lia Ascii String List Bool.
From stdpp Require Import base gmap strings list.
From S2P Require Import Prelude Schema Redis World Tokens Users Cache AppConfig Roles Totp Auth Routes Invariants.
Local Open Scope string_scope.
Local Open Scope list_scope.
Local Open Scope Z_scope.

Section system.
Context {R : Type} {RD : Redis R} {EX : Ext} {ST : Settings} {GO : Google}.
Implicit Types w : World R.
Local Abbreviation Py := (PyM (R := R)).

(** ** Handlers *)

(** A request starts with fresh context variables. *)
Definition new_request (w : World R) : World R := set_impersonator None (set_actor None w).

Inductive handler : forall {A}, Py A -> Prop :=
| H_google_login : handler google_login
| H_google_callback c s rq : handler (google_callback c s rq)
| H_login n p rq : handler (login n p rq)
| H_two_factor_status tok : handler (route_two_factor_status tok)
| H_setup_two_factor tok : handler (setup_two_factor tok)
| H_confirm_two_factor tok c : handler (confirm_two_factor tok c)
| H_verify_two_factor tok c rq : handler (verify_two_factor tok c rq)
| H_disable_two_factor tok c : handler (route_disable_two_factor tok c)
| H_backup_codes tok c : handler (regenerate_backup_codes tok c)
| H_refresh tok rq : handler (refresh_access_token tok rq)
| H_sudo n p : handler (route_create_sudo_token n p)
| H_google_sudo tok a : handler (google_sudo_token tok a)
| H_update_password tok p : handler (route_update_password tok p)
| H_register d : handler (register_user d)
| H_me tok : handler (me tok)
| H_update_user tok d : handler (route_update_user tok d)
| H_revoke_session tok j : handler (route_revoke_session tok j)
| H_revoke_all tok : handler (revoke_all_sessions tok)
| H_get_sessions tok l c : handler (get_sessions tok l c)
| H_assign_roles tok u rs : handler (route_assign_roles tok u rs)
| H_impersonate tok u r rq : handler (route_impersonate_user tok u r rq)
| H_stop_impersonation tok : handler (route_stop_impersonation tok)
| H_get_role tok r : handler (get_role tok r)
| H_create_role tok d : handler (route_create_role tok d)
| H_update_role tok r d : handler (route_update_role tok r d)
| H_delete_role tok r : handler (route_delete_role tok r)
| H_check_version p b : handler (check_version p b)
| H_version_configs tok : handler (get_all_version_configs tok)
| H_update_version tok p d : handler (update_version_config tok p d)
| H_get_config tok : handler (get_system_config tok)
| H_update_config tok b : handler (update_system_config tok b)
| H_admin_delete_users ids : handler (delete_users ids)
| H_admin_delete_roles ids : handler (delete_roles ids)
| H_admin_create_version d : handler (create_version d)
| H_admin_delete_versions ps : handler (delete_versions ps).

(** ** What every handler keeps *)

(** [Q] of the primary; the replica does not change and time does not go back. *)
Definition holds (Q : Tables -> nat -> Prop) (r : option Tables) (t0 : Z) (w : World R) : Prop :=
  replica w = r /\ t0 <= now w /\ Q (db w) (drawn w).
End system.

Section keep.
Context {R : Type} {RD : Redis R} {EX : Ext} {ST : Settings} {GO : Google}.
Context (Q : Tables -> nat -> Prop) {TI : TableInv Q} (r0 : option Tables) (t0 : Z).
Local Abbreviation Py := (PyM (R := R)).
Local Abbreviation keep m := (preserves (holds (R := R) Q r0 t0) m).

Lemma keep_db_read {A} (f : Tables -> A) : keep (db_read f).
Proof. apply preserves_gets. Qed.

Lemma keep_db_write {A} (f : Tables -> outcome Exn (A * Tables)) : keeps Q f -> keep (db_write f).
Proof.
  intros Hf w Hw. unfold db_write. destruct (f (db w)) as [[a t]|e] eqn:E; [|done].
  destruct Hw as (? & ? & ?). repeat split; try done. by eapply Hf.
Qed.

Lemma keep_db_write_read_pool {A} (f : Tables -> outcome Exn (A * Tables)) :
  keeps Q f -> keep (db_write_on_read_pool f).
Proof.
  intros Hf w Hw. unfold db_write_on_read_pool. destruct (replica w); [done|]. by apply keep_db_write.
Qed.

Lemma keep_redis_command {A} (m : Py A) : keep m -> keep (redis_command m).
Proof.
  intros Hm w Hw. unfold redis_command. destruct (faults w) as [|[] l]; [by apply Hm|done|by apply Hm].
Qed.

Lemma keep_redis_get k : keep (redis_get k).
Proof. apply keep_redis_command, preserves_gets. Qed.
Lemma keep_redis_hget h f : keep (redis_hget h f).
Proof. apply keep_redis_command, preserves_gets. Qed.
Lemma keep_redis_set k v ex : keep (redis_set k v ex).
Proof. apply keep_redis_command. intros w Hw. destruct ex as [e|]; [by destruct (e <=? 0)|done]. Qed.
Lemma keep_redis_del ks : keep (redis_del ks).
Proof. by apply keep_redis_command, preserves_modify. Qed.
Lemma keep_redis_hdel h fs : keep (redis_hdel h fs).
Proof. by apply keep_redis_command, preserves_modify. Qed.
Lemma keep_redis_hset h f v ex : keep (redis_hset_expire h f v ex).
Proof. by apply keep_redis_command, preserves_modify. Qed.

Lemma keep_draw : keep draw.
Proof. intros w (? & ? & ?). repeat split; try done. by apply ti_draw. Qed.

Lemma preserves_gather2 {A B} P (m1 : Py A) (m2 : Py B) : preserves P m1 -> preserves P m2 -> preserves P (gather2 m1 m2).
Proof.
  intros H1 H2 w Hw. unfold gather2. specialize (H1 w Hw).
  destruct (m1 w) as [[a|e] w1]; simpl in *; specialize (H2 w1 H1); [|done].
  by destruct (m2 w1) as [[] w2].
Qed.

Lemma keep_gather2 {A B} (m1 : Py A) (m2 : Py B) : keep m1 -> keep m2 -> keep (gather2 m1 m2).
Proof. apply preserves_gather2. Qed.

Lemma keep_gather_all (ms : list (Py unit)) : Forall (fun m => keep m) ms -> keep (gather_all ms).
Proof. induction 1; simpl; [apply preserves_ret|by apply keep_gather2]. Qed.

Lemma keep_set_actor a : keep (modify (set_actor a) : Py unit).
Proof. by apply preserves_modify. Qed.
Lemma keep_set_impersonator a : keep (modify (set_impersonator a) : Py unit).
Proof. by apply preserves_modify. Qed.
End keep.

Create HintDb keep discriminated.
#[export] Hint Resolve preserves_ret preserves_raise preserves_gets preserves_raise_if preserves_when
  preserves_bind preserves_try keep_db_read keep_db_write keep_db_write_read_pool keep_redis_get
  keep_redis_hget keep_redis_set keep_redis_del keep_redis_hdel keep_redis_hset keep_draw keep_gather2
  keep_set_actor keep_set_impersonator : keep.
#[export] Hint Resolve ti_update_user ti_password ti_bump ti_identity ti_delete_session
  ti_delete_sessions ti_delete_users ti_user_roles ti_two_factor ti_disable_two_factor ti_codes
  ti_seed_config ti_set_config ti_insert_version ti_delete_versions ti_update_version
  ti_role_permissions ti_update_role ti_delete_role_permissions ti_bump_role_users ti_delete_roles : keep.

(** Decomposes a handler down to its statements. *)
Ltac keep1 :=
  first
    [ solve [eauto 3 with keep]
    | lazymatch goal with
      | |- preserves _ (bind _ _) => apply preserves_bind
      | |- preserves _ (try_catch _ _) => apply preserves_try
      | |- preserves _ (when _ _) => apply preserves_when
      | |- preserves _ (gather2 _ _) => apply keep_gather2
      | |- preserves _ (let _ := _ in _) => cbv zeta
      | |- preserves _ (match ?x with _ => _ end) => destruct x
      end ].
Ltac keep := repeat (intros; keep1).

Section keep_ops.
Context {R : Type} {RD : Redis R} {EX : Ext} {ST : Settings} {GO : Google}.
Context (Q : Tables -> nat -> Prop) {TI : TableInv Q} (r0 : option Tables) (t0 : Z).
Local Abbreviation Py := (PyM (R := R)).
Local Abbreviation keep m := (preserves (holds (R := R) Q r0 t0) m).

(** *** Tokens *)

Lemma keep_new_uuid4 : keep new_uuid4.
Proof. unfold new_uuid4. keep. Qed.
Hint Resolve keep_new_uuid4 : keep.
Lemma keep_password_hash p : keep (get_password_hash p).
Proof. unfold get_password_hash. keep. Qed.
Lemma keep_create_token d e ty : keep (_create_token d e ty).
Proof. unfold _create_token. keep. Qed.
Hint Resolve keep_password_hash keep_create_token : keep.
Lemma keep_create_access d : keep (create_access_token d).
Proof. unfold create_access_token. keep. Qed.
Lemma keep_create_impersonation d e : keep (create_impersonation_token d e).
Proof. unfold create_impersonation_token. keep. Qed.
Lemma keep_create_refresh d : keep (create_refresh_token d).
Proof. unfold create_refresh_token. keep. Qed.
Lemma keep_create_sudo d : keep (create_sudo_token d).
Proof. unfold create_sudo_token. keep. Qed.
Lemma keep_verify_token tok ty : keep (verify_token tok ty).
Proof. unfold verify_token. keep. Qed.
Lemma keep_publish n p : keep (publish n p).
Proof. unfold publish. keep; intros; by apply keep_redis_command, preserves_modify. Qed.
Lemma keep_audit_log a r i d x y rq : keep (audit_log a r i d x y rq).
Proof.
  unfold audit_log. repeat (apply preserves_bind; [apply preserves_gets|intros ?]).
  case_match; [by apply preserves_modify|apply preserves_ret].
Qed.
Hint Resolve keep_create_access keep_create_impersonation keep_create_refresh keep_create_sudo
  keep_verify_token keep_publish keep_audit_log : keep.

(** *** Users *)

(** Drawing an identifier and inserting a row under it. *)
Lemma keep_draw_insert {A} (f : nat -> Z -> Tables -> outcome Exn (A * Tables)) :
  (forall t n z a t', Q t n -> f n z t = Ok (a, t') -> Q t' (S n)) ->
  keep (let! n := draw in let! z := gets now in db_write (f n z)).
Proof.
  intros Hf w (? & ? & ?). unfold bind, draw, gets, db_write. simpl.
  destruct (f (drawn w) (now w) (db w)) as [[a t]|e] eqn:E; repeat split; try done.
  - by eapply Hf.
  - by apply ti_draw.
Qed.

Lemma keep_create_user_row d hp : keep (create_user_row d hp).
Proof.
  apply (keep_draw_insert (fun n t0 => insert_user (uuid7 n) t0 d hp)). intros t n z a t'. apply ti_insert_user.
Qed.
Lemma keep_upsert_user_session d : keep (upsert_user_session d).
Proof.
  apply (keep_draw_insert (fun n t0 => upsert_session (uuid7 n) t0 d)). intros t n z a t'. apply ti_upsert_session.
Qed.
Hint Resolve keep_create_user_row keep_upsert_user_session : keep.

Lemma keep_user_by P : keep (_get_user_with_roles P).
Proof. apply keep_db_read. Qed.
Lemma keep_by_username n : keep (get_by_username n).
Proof. apply keep_db_read. Qed.
Lemma keep_by_id n : keep (get_by_id n).
Proof. apply keep_db_read. Qed.
Lemma keep_by_email n : keep (get_by_email n).
Proof. apply keep_db_read. Qed.
Lemma keep_by_google_sub n : keep (get_by_google_sub n).
Proof. apply keep_db_read. Qed.
Lemma keep_get_two_factor n : keep (get_two_factor n).
Proof. apply keep_db_read. Qed.
Hint Resolve keep_user_by keep_by_username keep_by_id keep_by_email keep_by_google_sub
  keep_get_two_factor : keep.

Lemma keep_add_identity u gi : keep (add_identity u gi).
Proof. unfold add_identity. keep. Qed.
Hint Resolve keep_add_identity : keep.
Lemma keep_create_user_oauth d gi : keep (create_user_oauth d gi).
Proof. unfold create_user_oauth. keep. Qed.
Lemma keep_update_user id d : keep (update_user id d).
Proof. unfold update_user. keep. Qed.
Lemma keep_update_password_row id hp : keep (update_password_row id hp).
Proof. unfold update_password_row. keep. Qed.
Lemma keep_delete_users ids : keep (delete_users ids).
Proof. unfold delete_users. keep. Qed.
Lemma keep_dao_revoke u j : keep (dao_revoke_user_session u j).
Proof. unfold dao_revoke_user_session. keep. Qed.
Lemma keep_dao_revoke_all u : keep (dao_revoke_all_user_sessions u).
Proof. unfold dao_revoke_all_user_sessions. keep. Qed.
Lemma keep_assign_roles u rs : keep (assign_roles u rs).
Proof. unfold assign_roles. keep. Qed.
Lemma keep_upsert_two_factor u s cs b : keep (upsert_two_factor u s cs b).
Proof. unfold upsert_two_factor. keep. Qed.
Lemma keep_disable_two_factor u : keep (dao_disable_two_factor u).
Proof. unfold dao_disable_two_factor. keep. Qed.
Lemma keep_update_codes u cs : keep (update_two_factor_backup_codes u cs).
Proof. unfold update_two_factor_backup_codes. keep. Qed.
Lemma keep_blacklist j t : keep (blacklist_session j t).
Proof. unfold blacklist_session. keep. Qed.
Hint Resolve keep_create_user_oauth keep_update_user keep_update_password_row keep_delete_users
  keep_dao_revoke keep_dao_revoke_all keep_assign_roles keep_upsert_two_factor keep_disable_two_factor
  keep_update_codes keep_blacklist : keep.

Lemma keep_create_user d : keep (create_user d).
Proof. unfold create_user. keep. Qed.
Lemma keep_get_user_by_id id : keep (get_user_by_id id).
Proof. unfold get_user_by_id. keep. Qed.
Lemma keep_svc_update_user id d : keep (svc_update_user id d).
Proof. unfold svc_update_user. keep. Qed.
Lemma keep_revoke_user_session u j : keep (revoke_user_session u j).
Proof. unfold revoke_user_session. keep. Qed.
Lemma keep_revoke_all u : keep (revoke_all_user_sessions u).
Proof.
  unfold revoke_all_user_sessions. apply preserves_bind; [keep|]. intros l. apply keep_gather_all.
  apply Forall_fmap, Forall_forall. intros [j t] _. simpl. keep.
Qed.
Lemma keep_get_user_sessions u l c : keep (get_user_sessions u l c).
Proof. unfold get_user_sessions, dao_get_user_sessions. keep. Qed.
Hint Resolve keep_create_user keep_get_user_by_id keep_svc_update_user keep_revoke_user_session
  keep_revoke_all keep_get_user_sessions : keep.

(** *** Cache, configuration, roles *)

Lemma keep_save_to_cache {A} `{!Cacheable A} k hk (a : A) ex : keep (_save_to_cache k hk a ex).
Proof. unfold _save_to_cache, cache_store. keep. Qed.
Hint Resolve keep_save_to_cache : keep.
Lemma keep_cached {A} `{!Cacheable A} k hk ex (f : Py A) : keep f -> keep (cached k hk ex f).
Proof. intros Hf. unfold cached, _get_from_cache, cache_lookup. keep. Qed.
Lemma keep_invalidating {A} ks hk b (f : Py A) : keep f -> keep (invalidating ks hk b f).
Proof. intros Hf. unfold invalidating. keep. Qed.
Hint Resolve keep_cached keep_invalidating : keep.

Lemma keep_get_config : keep get_config.
Proof. apply keep_cached. unfold fetch_config. keep. Qed.
Lemma keep_update_config b u : keep (update_config b u).
Proof.
  unfold update_config, dao_update_config. apply preserves_bind; [|keep].
  apply keep_invalidating. unfold update_config_row. keep.
Qed.
Lemma keep_get_version_info p : keep (get_version_info p).
Proof. apply keep_cached. keep. Qed.
Lemma keep_get_all_versions : keep get_all_versions.
Proof. apply keep_cached. keep. Qed.
Lemma keep_create_version d : keep (create_version d).
Proof. apply keep_invalidating. keep. Qed.
Lemma keep_delete_versions ps : keep (delete_versions ps).
Proof. apply keep_invalidating. keep. Qed.
Lemma keep_update_version_info p d : keep (update_version_info p d).
Proof. apply keep_invalidating. keep. Qed.
Hint Resolve keep_get_config keep_update_config keep_get_version_info keep_get_all_versions
  keep_create_version keep_delete_versions keep_update_version_info : keep.

Lemma keep_get_role_by_id id : keep (get_role_by_id id).
Proof. unfold get_role_by_id, dao_get_role_by_id, _get_role_by_id. keep. Qed.
Lemma keep_role_by_name n : keep (get_role_by_name n).
Proof. apply keep_db_read. Qed.
Lemma keep_get_role id : keep (_get_role_by_id id).
Proof. apply keep_db_read. Qed.
Hint Resolve keep_get_role_by_id keep_role_by_name keep_get_role : keep.
Lemma keep_dao_create_role d : keep (dao_create_role d).
Proof.
  apply keep_invalidating. intros w Hw.
  assert (keep (let! n := draw in let! t0 := gets now in
    db_write (insert_role (uuid7 n) t0 (rc_name d) (rc_description d)))) as Hi.
  { apply (keep_draw_insert (fun n t0 => insert_role (uuid7 n) t0 (rc_name d) (rc_description d))).
    intros t n z a t'. apply ti_insert_role. }
  match goal with |- context [bind draw ?k w] => set (kk := k) end.
  enough (forall r, keep (match rc_permission_ids d with
      | [] => ret tt | pids => db_write (insert_role_permissions (r_id r) pids) end ;;!
    let! role := _get_role_by_id (r_id r) in
    match role with Some role => ret role
    | None => raise (ValueErr "Failed to fetch created role") end)) as Hr.
  { pose proof (preserves_bind _ _ _ Hi Hr w Hw) as H. unfold bind in H |- *. simpl in H |- *.
    unfold kk, bind, gets. simpl. exact H. }
  intros r. keep.
Qed.
Lemma keep_dao_update_role id d : keep (dao_update_role id d).
Proof. apply keep_invalidating. keep. Qed.
Lemma keep_dao_delete_role id : keep (dao_delete_role id).
Proof.
  apply keep_invalidating. intros w (? & ? & Hw). unfold transaction, bind, db_write. simpl.
  repeat split; try done.
  refine (ti_delete_roles (Q := Q) [id] _ _ _ _ _ eq_refl).
  exact (ti_bump_role_users (Q := Q) id _ _ _ _ Hw eq_refl).
Qed.
Lemma keep_delete_roles ids : keep (delete_roles ids).
Proof. apply keep_invalidating. keep. Qed.
Hint Resolve keep_dao_create_role keep_dao_update_role keep_dao_delete_role keep_delete_roles : keep.
Lemma keep_create_role d : keep (create_role d).
Proof. unfold create_role. keep. Qed.
Lemma keep_update_role id d : keep (update_role id d).
Proof. unfold update_role. keep. Qed.
Lemma keep_delete_role id : keep (delete_role id).
Proof. unfold delete_role. keep. Qed.
Hint Resolve keep_create_role keep_update_role keep_delete_role : keep.

(** *** Authentication *)

Lemma keep_require_scopes l g : keep (require_scopes l g).
Proof. induction l; simpl; keep. Qed.
Hint Resolve keep_require_scopes : keep.
Lemma keep_get_current_user l tok : keep (get_current_user l tok).
Proof. unfold get_current_user. keep. Qed.
Lemma keep_get_sudo_user tok : keep (get_sudo_user tok).
Proof. unfold get_sudo_user. keep. Qed.
Lemma keep_disallow tok : keep (disallow_impersonation tok).
Proof. unfold disallow_impersonation. keep. Qed.
Lemma keep_mfa u : keep (check_mfa_enforcement u).
Proof. unfold check_mfa_enforcement. keep. Qed.
Lemma keep_random_suffix : keep random_suffix.
Proof. unfold random_suffix, random_char. keep. Qed.
Hint Resolve keep_get_current_user keep_get_sudo_user keep_disallow keep_mfa keep_random_suffix : keep.
Lemma keep_username_attempts n s : keep (username_attempts n s).
Proof. revert s. induction n as [|n IH]; intros s; simpl; keep. Qed.
Hint Resolve keep_username_attempts : keep.
Lemma keep_unique_username s : keep (_generate_unique_username s).
Proof. unfold _generate_unique_username. keep. Qed.
Hint Resolve keep_unique_username : keep.
Lemma keep_create_from_google gi : keep (create_from_google gi).
Proof. unfold create_from_google. keep. Qed.
Hint Resolve keep_create_from_google : keep.
Lemma keep_google_oauth gi : keep (handle_google_oauth gi).
Proof. unfold handle_google_oauth. keep. Qed.
Lemma keep_issue u rq : keep (issue_tokens_and_session u rq).
Proof. unfold issue_tokens_and_session. keep. Qed.
Lemma keep_uuid4_hex : keep new_uuid4_hex.
Proof. unfold new_uuid4_hex. keep. Qed.
Hint Resolve keep_google_oauth keep_issue keep_uuid4_hex : keep.
Lemma keep_authenticate n p rq : keep (authenticate_user n p rq).
Proof. unfold authenticate_user. keep. Qed.
Lemma keep_refresh tok rq : keep (refresh_token tok rq).
Proof. unfold refresh_token. keep. Qed.
Lemma keep_sudo_oauth u : keep (create_sudo_token_oauth u).
Proof. unfold create_sudo_token_oauth. keep. Qed.
Lemma keep_sudo_user n p : keep (create_sudo_token_user n p).
Proof. unfold create_sudo_token_user. keep. Qed.
Lemma keep_update_password u p : keep (update_password u p).
Proof. unfold update_password. keep. Qed.
Lemma keep_status u : keep (get_two_factor_status u).
Proof. unfold get_two_factor_status. keep. Qed.
Lemma keep_decrypt s : keep (decrypt_secret s).
Proof. unfold decrypt_secret. keep. Qed.
Lemma keep_encrypt s : keep (encrypt_secret s).
Proof. unfold encrypt_secret. keep. Qed.
Lemma keep_totp_secret : keep generate_totp_secret.
Proof. unfold generate_totp_secret. keep. Qed.
Lemma keep_verify_totp s c : keep (verify_totp s c).
Proof. unfold verify_totp. keep. Qed.
Lemma keep_generate_codes n : keep (generate_backup_codes n).
Proof. induction n; simpl; keep. Qed.
Lemma keep_consume cs c : keep (verify_and_consume_backup_code cs c).
Proof. unfold verify_and_consume_backup_code. keep. Qed.
Hint Resolve keep_authenticate keep_refresh keep_sudo_oauth keep_sudo_user keep_update_password
  keep_status keep_decrypt keep_encrypt keep_totp_secret keep_verify_totp keep_generate_codes
  keep_consume : keep.
Lemma keep_initiate u : keep (initiate_two_factor_setup u).
Proof. unfold initiate_two_factor_setup. keep. Qed.
Lemma keep_confirm u c : keep (confirm_two_factor_setup u c).
Proof. unfold confirm_two_factor_setup. keep. Qed.
Lemma keep_check_code f c : keep (check_code_or_backup f c).
Proof. unfold check_code_or_backup. keep. Qed.
Hint Resolve keep_initiate keep_confirm keep_check_code : keep.
Lemma keep_disable u c : keep (disable_two_factor u c).
Proof. unfold disable_two_factor. keep. Qed.
Lemma keep_regenerate u c : keep (regenerate_two_factor_backup_codes u c).
Proof. unfold regenerate_two_factor_backup_codes. keep. Qed.
Lemma keep_verify_code u f c : keep (_verify_2fa_code_or_backup u f c).
Proof. unfold _verify_2fa_code_or_backup. keep. Qed.
Hint Resolve keep_disable keep_regenerate keep_verify_code : keep.
Lemma keep_verify_challenge tok c rq : keep (verify_two_factor_challenge tok c rq).
Proof. unfold verify_two_factor_challenge. keep. Qed.
Lemma keep_impersonate a u r rq d : keep (impersonate_user a u r rq d).
Proof. unfold impersonate_user. keep. Qed.
Lemma keep_stop_impersonation j a : keep (stop_impersonation j a).
Proof. unfold stop_impersonation. keep. Qed.
Lemma keep_google_sudo_user td t : keep (google_sudo_user td t).
Proof. unfold google_sudo_user. keep. Qed.
Hint Resolve keep_verify_challenge keep_impersonate keep_stop_impersonation keep_google_sudo_user : keep.

(** *** Every handler *)

Lemma keep_handler {A} (m : Py A) : handler m -> keep m.
Proof.
  destruct 1; unfold google_login, google_callback, login, route_two_factor_status, setup_two_factor,
    confirm_two_factor, verify_two_factor, route_disable_two_factor, regenerate_backup_codes,
    refresh_access_token, route_create_sudo_token, google_sudo_token, route_update_password,
    register_user, me, route_update_user, route_revoke_session, revoke_all_sessions, get_sessions,
    route_assign_roles, route_impersonate_user, route_stop_impersonation, get_role, route_create_role,
    route_update_role, route_delete_role, check_version, get_all_version_configs,
    update_version_config, get_system_config, update_system_config, authenticate_oauth_user,
    verify_access_token, assign_roles_to_user, check_force_update; keep.
Qed.
End keep_ops.
#[export] Hint Resolve keep_publish keep_by_id keep_by_username keep_get_two_factor keep_password_hash
  keep_create_access keep_create_refresh keep_upsert_user_session keep_verify_token keep_get_role
  keep_get_role_by_id keep_role_by_name keep_get_config keep_mfa
  keep_create_user keep_dao_create_role keep_upsert_two_factor keep_get_current_user keep_audit_log
  keep_new_uuid4 keep_uuid4_hex keep_cached keep_invalidating : keep.
#[export] Hint Extern 0 (TableInv _) => solve [apply _] : keep.
