(* ===== verification/Service.v ===== *)
(** * The service as a transition system

    A step serves one request (a [handler] of [System]; an [operation]: the
    routes, tasks, listeners and signal handlers of dead letters, schedules, API
    keys, webhooks and notifications, and the script of the default admin; or an
    [admin_operation]: a login, a logout or a view of the admin portal), lets time
    pass, or changes what Redis and the broker will do next.  Requests run one after the other: interleavings inside a handler are
    not steps.  What an operation takes of its environment (the registered Celery
    tasks, the HTTP client, name resolution) may differ from step to step. *)

From Stdlib Require Import ZArith Lia Ascii String List Bool.
From stdpp Require Import base gmap strings sorting list pretty.
From S2P Require Import Prelude Schema Redis JsonText World Tokens Users Cache AppConfig Roles Totp Auth Pagination Routes.
From S2P Require Import Invariants SideInvariants System EventBus WebhookUtils.
From S2P Require DeadLetter PeriodicTasks BeatScheduler ApiKeys Webhooks Notifications Admin AdminViews AdminQueries.
From S2P Require Exports Jobs.
Local Open Scope string_scope.
Local Open Scope list_scope.
Local Open Scope Z_scope.

(** ** Operations *)

Section operations.
Import DeadLetter PeriodicTasks BeatScheduler ApiKeys Webhooks Notifications Exports Jobs.
Context {R : Type} {RD : Redis R} {EX : Ext} {ST : Settings}.
Local Abbreviation Py := (PyM (R := R)).

Inductive operation : forall {A}, Py A -> Prop :=
(* dead letters *)
| O_list_dlq tok p f : operation (list_dlq_tasks tok p f)
| O_dlq_stats tok : operation (get_dlq_stats tok)
| O_get_dlq tok i : operation (get_dlq_task tok i)
| O_update_dlq tok p : operation (update_dlq_task tok p)
| O_retrigger_dlq tok rq p : operation (retrigger_dlq_tasks tok rq p)
| O_delete_dlq tok rq l : operation (delete_dlq_tasks tok rq l)
| O_task_failure so ready e f : operation (handle_task_failure so ready e f)
| O_clean_dlq days : operation (clean_old_dlq_tasks days)
(* periodic tasks *)
| O_registered (CE : Celery) tok : operation (list_registered_celery_tasks tok)
| O_list_periodic tok : operation (list_periodic_tasks tok)
| O_create_periodic (CE : Celery) tok c : operation (create_periodic_task tok c)
| O_get_periodic (CE : Celery) tok i : operation (get_periodic_task tok i)
| O_update_periodic (CE : Celery) tok i u : operation (update_periodic_task tok i u)
| O_delete_periodic (CE : Celery) tok i : operation (delete_periodic_task tok i)
| O_trigger_periodic (CE : Celery) tok rq i : operation (trigger_periodic_task_manually tok rq i)
| O_trigger_name (CE : Celery) tok rq n a k : operation (trigger_task_by_name tok rq n a k)
| O_admin_delete_periodic ids : operation (PeriodicTaskDAO.delete_tasks ids)
| O_beat_setup (CE : Celery) so up d : operation (setup_schedule so up d)
| O_beat_tick (CE : Celery) so up b : operation (tick so up b)
(* API keys *)
| O_use_key scopes k : operation (get_api_key scopes k)
| O_create_key tok c : operation (route_create_api_key tok c)
| O_list_keys tok p : operation (list_api_keys tok p)
| O_get_key tok i : operation (route_get_api_key tok i)
| O_update_key tok i u : operation (route_update_api_key tok i u)
| O_delete_key tok i : operation (route_delete_api_key tok i)
| O_rotate_key tok i : operation (route_rotate_api_key tok i)
| O_admin_delete_keys ids : operation (ApiKeyDAO.delete_api_keys ids)
(* webhooks *)
| O_create_webhook (WX : WebhookExt) tok c : operation (create_webhook_endpoint tok c)
| O_webhook_events tok : operation (list_available_webhook_events tok)
| O_list_webhooks tok p : operation (list_webhook_endpoints tok p)
| O_get_webhook (WX : WebhookExt) tok i : operation (get_webhook_endpoint tok i)
| O_update_webhook (WX : WebhookExt) tok i u : operation (update_webhook_endpoint tok i u)
| O_delete_webhook (WX : WebhookExt) tok i : operation (delete_webhook_endpoint tok i)
| O_admin_delete_webhooks ids : operation (WebhookDAO.delete_endpoints ids)
| O_get_log i c : operation (get_log i c)
| O_dispatch e : operation (handle_application_event e)
| O_deliver (WX : WebhookExt) (HC : HttpClient) n p i : operation (send_webhook_event n p i)
| O_inbound so s rq : operation (handle_inbound_webhook so s rq)
(* listings of roles and permissions *)
| O_permissions tok p : operation (get_permissions tok p)
| O_roles tok p : operation (get_roles tok p)
(* notifications *)
| O_open_stream tok : operation (sse_notifications tok)
| O_register_device tok p : operation (register_device tok p)
| O_unregister_device tok d : operation (unregister_device tok d)
| O_list_devices tok : operation (list_devices tok)
| O_notify (NX : NotifyExt) u m ty s md cs : operation (send_notification_task u m ty s md cs)
| O_broadcast (NX : NotifyExt) m ty s md cs : operation (broadcast_notification_task m ty s md cs)
| O_mail (MC : MailClient) t s h cc bcc l : operation (send_email_worker_task t s h cc bcc l)
| O_push (PC : PushClient) so l t b d : operation (send_fcm_push_worker_task so l t b d)
| O_listener (NX : NotifyExt) h e : operation (run_listener h e)
(* the export and the script of the default admin *)
| O_export iso js tok f fmt : operation (export_dlq_tasks iso js tok f fmt)
| O_default_admin : operation create_default_admin.
End operations.

(** ** Requests to the admin portal *)

Section admin_operations.
Import PeriodicTasks Notifications WebhookUtils Admin AdminViews AdminQueries.
Context {R : Type} {RD : Redis R} {EX : Ext} {ST : Settings}.

(** What the views do for a client that is signed in. *)
Inductive view_operation : forall {A}, AdM R A -> Prop :=
| V_users s l q : view_operation (UserAdminView.find_all s l q)
| V_count_users q : view_operation (UserAdminView.count q)
| V_user (NX : NotifyExt) pk : view_operation (UserAdminView.find_by_pk pk)
| V_users_by (NX : NotifyExt) pks : view_operation (UserAdminView.find_by_pks pks)
| V_create_user : view_operation UserAdminView.create
| V_edit_user (NX : NotifyExt) pk d : view_operation (UserAdminView.edit pk d)
| V_delete_users (NX : NotifyExt) pks : view_operation (UserAdminView.delete pks)
| V_toggle_user (NX : NotifyExt) pk : view_operation (UserAdminView.toggle_active_action pk)
| V_impersonate (NX : NotifyExt) rq pk : view_operation (UserAdminView.impersonate_action rq pk)
| V_roles s l q : view_operation (RoleAdminView.find_all s l q)
| V_count_roles q : view_operation (RoleAdminView.count q)
| V_role (NX : NotifyExt) pk : view_operation (RoleAdminView.find_by_pk pk)
| V_roles_by (NX : NotifyExt) pks : view_operation (RoleAdminView.find_by_pks pks)
| V_create_role d : view_operation (RoleAdminView.create d)
| V_edit_role (NX : NotifyExt) pk d : view_operation (RoleAdminView.edit pk d)
| V_delete_roles (NX : NotifyExt) pks : view_operation (RoleAdminView.delete pks)
| V_versions s l q : view_operation (AppVersionAdminView.find_all s l q)
| V_count_versions q : view_operation (AppVersionAdminView.count q)
| V_version pk : view_operation (AppVersionAdminView.find_by_pk pk)
| V_versions_by pks : view_operation (AppVersionAdminView.find_by_pks pks)
| V_create_version d : view_operation (AppVersionAdminView.create d)
| V_edit_version pk d : view_operation (AppVersionAdminView.edit pk d)
| V_delete_versions pks : view_operation (AppVersionAdminView.delete pks)
| V_configs : view_operation SystemConfigAdminView.find_all
| V_config pk : view_operation (SystemConfigAdminView.find_by_pk pk)
| V_configs_by pks : view_operation (SystemConfigAdminView.find_by_pks pks)
| V_edit_config (NX : NotifyExt) (AX : AdminExt) u b : view_operation (SystemConfigAdminView.edit u b)
| V_tasks s l q : view_operation (PeriodicTaskAdminView.find_all s l q)
| V_count_tasks q : view_operation (PeriodicTaskAdminView.count q)
| V_task (NX : NotifyExt) pk : view_operation (PeriodicTaskAdminView.find_by_pk pk)
| V_tasks_by (NX : NotifyExt) pks : view_operation (PeriodicTaskAdminView.find_by_pks pks)
| V_create_task (CE : Celery) d : view_operation (PeriodicTaskAdminView.create d)
| V_edit_task (NX : NotifyExt) (CE : Celery) pk d : view_operation (PeriodicTaskAdminView.edit pk d)
| V_delete_tasks (NX : NotifyExt) pks : view_operation (PeriodicTaskAdminView.delete pks)
| V_trigger_task (NX : NotifyExt) rq pk : view_operation (PeriodicTaskAdminView.trigger_now_action rq pk)
| V_toggle_task (NX : NotifyExt) pk : view_operation (PeriodicTaskAdminView.toggle_enabled_action pk)
| V_enable_tasks (NX : NotifyExt) pks : view_operation (PeriodicTaskAdminView.enable_selected_action pks)
| V_disable_tasks (NX : NotifyExt) pks : view_operation (PeriodicTaskAdminView.disable_selected_action pks)
| V_keys s l q : view_operation (ApiKeyAdminView.find_all s l q)
| V_count_keys q : view_operation (ApiKeyAdminView.count q)
| V_key (NX : NotifyExt) pk : view_operation (ApiKeyAdminView.find_by_pk pk)
| V_keys_by (NX : NotifyExt) pks : view_operation (ApiKeyAdminView.find_by_pks pks)
| V_create_key (NX : NotifyExt) d : view_operation (ApiKeyAdminView.create d)
| V_edit_key (NX : NotifyExt) pk d : view_operation (ApiKeyAdminView.edit pk d)
| V_delete_keys (NX : NotifyExt) pks : view_operation (ApiKeyAdminView.delete pks)
| V_rotate_key (NX : NotifyExt) pk : view_operation (ApiKeyAdminView.rotate_action pk)
| V_deactivate_key (NX : NotifyExt) pk : view_operation (ApiKeyAdminView.deactivate_action pk)
| V_activate_key (NX : NotifyExt) pk : view_operation (ApiKeyAdminView.activate_action pk)
| V_dead s l q : view_operation (DeadLetterTaskAdminView.find_all s l q)
| V_count_dead q : view_operation (DeadLetterTaskAdminView.count q)
| V_dead_one (NX : NotifyExt) pk : view_operation (DeadLetterTaskAdminView.find_by_pk pk)
| V_dead_by (NX : NotifyExt) pks : view_operation (DeadLetterTaskAdminView.find_by_pks pks)
| V_edit_dead (NX : NotifyExt) pk d : view_operation (DeadLetterTaskAdminView.edit pk d)
| V_delete_dead (NX : NotifyExt) pks : view_operation (DeadLetterTaskAdminView.delete pks)
| V_retrigger (NX : NotifyExt) rq pks : view_operation (DeadLetterTaskAdminView.retrigger_selected_action rq pks)
| V_retrigger_one (NX : NotifyExt) (AX : AdminExt) rq pk :
    view_operation (DeadLetterTaskAdminView.retrigger_single_row_action rq pk)
| V_endpoints s l q : view_operation (WebhookEndpointAdminView.find_all s l q)
| V_count_endpoints q : view_operation (WebhookEndpointAdminView.count q)
| V_endpoint (NX : NotifyExt) pk : view_operation (WebhookEndpointAdminView.find_by_pk pk)
| V_endpoints_by (NX : NotifyExt) pks : view_operation (WebhookEndpointAdminView.find_by_pks pks)
| V_create_endpoint (WX : WebhookExt) (NX : NotifyExt) so d : view_operation (WebhookEndpointAdminView.create so d)
| V_edit_endpoint (NX : NotifyExt) so pk d : view_operation (WebhookEndpointAdminView.edit so pk d)
| V_delete_endpoints (NX : NotifyExt) pks : view_operation (WebhookEndpointAdminView.delete pks)
| V_logs (DX : DateExt) s l q f : view_operation (WebhookLogAdminView.find_all s l q f)
| V_audit (NX : NotifyExt) (DX : DateExt) rows s l q f : view_operation (AuditLogAdminView.find_all rows s l q f)
| V_total_users : view_operation DashboardView._get_total_users
| V_recent_roles st : view_operation (DashboardView._get_recent_roles_table st).

Inductive admin_operation : forall {A}, AdM R A -> Prop :=
| A_login n p : admin_operation (admin_login n p)
| A_logout : admin_operation admin_logout
| A_view A (m : AdM R A) : view_operation m -> admin_operation (admin_request m).
End admin_operations.

(** The views as compositions of statements. *)
Create HintDb views.

Module ViewsDb.
Import PeriodicTasks ApiKeys DeadLetter Webhooks AdminViews AdminQueries.
#[export] Hint Unfold
  UserAdminView.find_all UserAdminView.count UserAdminView.find_by_pk UserAdminView.find_by_pks
  UserAdminView.create UserAdminView.edit UserAdminView.set_flags UserAdminView.delete
  UserAdminView.toggle_active_action UserAdminView.impersonate_action get_all_paginated count_users get_by_ids
  RoleAdminView.find_all RoleAdminView.count RoleAdminView.find_by_pk RoleAdminView.find_by_pks
  RoleAdminView.create RoleAdminView.edit RoleAdminView.delete get_roles_paginated count_roles roles_by_ids
  dao_get_role_by_id AppVersionAdminView.find_all AppVersionAdminView.count AppVersionAdminView.find_by_pk
  AppVersionAdminView.find_by_pks AppVersionAdminView.create AppVersionAdminView.edit AppVersionAdminView.delete
  list_versions count_versions get_by_platforms SystemConfigAdminView.find_all SystemConfigAdminView.find_by_pk
  SystemConfigAdminView.find_by_pks SystemConfigAdminView.edit PeriodicTaskAdminView.find_all
  PeriodicTaskAdminView.count PeriodicTaskAdminView.find_by_pk PeriodicTaskAdminView.find_by_pks
  PeriodicTaskAdminView.create PeriodicTaskAdminView.edit PeriodicTaskAdminView.delete
  PeriodicTaskAdminView.trigger_now_action PeriodicTaskAdminView.toggle_enabled_action
  PeriodicTaskAdminView.enable_selected_action PeriodicTaskAdminView.disable_selected_action
  PeriodicTaskDAO.list_tasks_paginated PeriodicTaskDAO.count_tasks PeriodicTaskDAO.get_by_ids
  PeriodicTaskDAO.get_task_by_id ApiKeyAdminView.find_all ApiKeyAdminView.count ApiKeyAdminView.find_by_pks
  ApiKeyAdminView.create ApiKeyAdminView.edit ApiKeyAdminView.delete ApiKeyAdminView.rotate_action
  ApiKeyAdminView.deactivate_action ApiKeyAdminView.activate_action ApiKeyAdminView.set_active
  ApiKeyDAO.get_api_key_by_id DeadLetterTaskAdminView.find_all DeadLetterTaskAdminView.count
  DeadLetterTaskAdminView.find_by_pks DeadLetterTaskAdminView.create DeadLetterTaskAdminView.edit
  DeadLetterTaskAdminView.delete DeadLetterTaskAdminView.retrigger_selected_action
  DeadLetterTaskAdminView.retrigger_single_row_action DeadLetterTaskDAO.get_task_by_id
  DeadLetterTaskDAO.list_tasks DeadLetterTaskDAO.count_tasks WebhookEndpointAdminView.find_all
  WebhookEndpointAdminView.count WebhookEndpointAdminView.find_by_pks WebhookEndpointAdminView.create
  WebhookEndpointAdminView.edit WebhookEndpointAdminView.delete WebhookLogAdminView.find_all
  AuditLogAdminView.find_all DashboardView._get_total_users DashboardView._get_recent_roles_table : views.
End ViewsDb.
Export ViewsDb.

(** ** Steps *)

Section steps.
Import Admin.
Context {R : Type} {RD : Redis R} {EX : Ext} {ST : Settings} {GO : Google}.
Local Abbreviation Py := (PyM (R := R)).

Inductive step : World R -> World R -> Prop :=
| step_request A (m : Py A) w : handler m -> step w (snd (m (new_request w)))
| step_operation A (m : Py A) w : operation m -> step w (snd (m (new_request w)))
| step_admin A (m : AdM R A) s w : admin_operation m -> step w (fst (snd (m (new_request w, s))))
| step_time t w : now w <= t -> step w (set_now t w)
| step_redis l w : step w (set_faults l w)
| step_broker l w : step w (set_broker_faults l w).

Definition steps : World R -> World R -> Prop := rtc step.
End steps.

(** ** What every operation keeps *)

Section keep_operations.
Import DeadLetter PeriodicTasks BeatScheduler ApiKeys Webhooks Notifications Exports Jobs.
Context {R : Type} {RD : Redis R} {EX : Ext} {ST : Settings} {GO : Google}.
Context (Q : Tables -> nat -> Prop) {TI : TableInv Q} {SI : SideInv Q} (r0 : option Tables) (t0 : Z).
Local Abbreviation Py := (PyM (R := R)).
Local Abbreviation keep m := (preserves (holds (R := R) Q r0 t0) m).

Lemma keep_send_task c : keep (send_task c).
Proof.
  unfold send_task. destruct (sendable c); [|apply preserves_raise]. intros w Hw.
  by destruct (broker_faults w) as [|[] l].
Qed.
Lemma keep_redis_set_nx k v ex : keep (redis_set_nx k v ex).
Proof. apply keep_redis_command. intros w Hw. by case_match. Qed.
Lemma keep_redis_del_incr a b : keep (redis_del_incr a b).
Proof. apply keep_redis_command. intros w Hw. cbv zeta. repeat case_match; exact Hw. Qed.
Lemma keep_lift {A} (o : outcome Exn A) : keep (lift o).
Proof. by intros w. Qed.
Lemma keep_pagination {A} (fetch : Z -> option string -> Py (list A)) p f (c : option (Py Z)) :
  (forall l c, keep (fetch l c)) -> from_option (fun m => keep m) True c -> keep (apply_cursor_pagination fetch p f c).
Proof. intros Hf Hc. unfold apply_cursor_pagination. destruct c; keep. Qed.
Hint Resolve keep_send_task keep_redis_set_nx keep_redis_del_incr keep_lift : keep.

(** *** Dead letters *)

Lemma keep_update_payload p i : keep (DeadLetterTaskDAO.update_task_payload p i).
Proof.
  unfold DeadLetterTaskDAO.update_task_payload. apply preserves_bind; [apply preserves_gets|]. intros z.
  apply keep_db_write, si_update_dead.
Qed.
Lemma keep_dlq_delete l n : keep (DeadLetterTaskDAO.delete_tasks l n).
Proof. unfold DeadLetterTaskDAO.delete_tasks. repeat case_match; try apply preserves_ret; apply keep_db_write, si_delete_dead. Qed.
Lemma keep_dlq_take l n : keep (DeadLetterTaskDAO.fetch_and_delete_tasks l n).
Proof. apply keep_db_write_read_pool, si_take_dead. Qed.
Lemma keep_dlq_old d : keep (DeadLetterTaskDAO.delete_old_tasks d).
Proof.
  unfold DeadLetterTaskDAO.delete_old_tasks. apply preserves_bind; [apply preserves_gets|]. intros z.
  apply keep_db_write, si_delete_dead.
Qed.
Lemma keep_dlq_stats : keep DeadLetterTaskDAO.get_statistics.
Proof. unfold DeadLetterTaskDAO.get_statistics. keep. Qed.
Lemma keep_send_all l n : keep (DeadLetterTaskService.send_all l n).
Proof. revert n. induction l as [|d l IH]; intros n; simpl; keep. Qed.
Hint Resolve keep_update_payload keep_dlq_delete keep_dlq_take keep_dlq_old keep_dlq_stats keep_send_all : keep.
Lemma keep_retrigger r i : keep (DeadLetterTaskService.retrigger_tasks r i).
Proof. unfold DeadLetterTaskService.retrigger_tasks. keep. Qed.
Lemma keep_save_dead so x a b c d e f g h i j : keep (_save_dead_letter_task so x a b c d e f g h i j).
Proof.
  apply preserves_try; [|intros; apply preserves_ret]. destruct x; [apply preserves_raise|].
  match goal with |- preserves _ (bind draw (fun n => bind (gets now) (fun t0 => db_write (@?ff n t0)))) =>
    apply (keep_draw_insert Q r0 _ ff) end.
  intros *. apply si_insert_dead.
Qed.
Hint Resolve keep_retrigger keep_save_dead : keep.
Lemma keep_task_failure so b e f : keep (handle_task_failure so b e f).
Proof. unfold handle_task_failure. keep. Qed.
Hint Resolve keep_task_failure : keep.

(** *** Periodic tasks *)

Lemma keep_periodic_insert c : keep (PeriodicTaskDAO.create_task c).
Proof.
  intros w (Hr & Ht & Hq). pose proof (ti_draw _ _ Hq) as Hd.
  unfold PeriodicTaskDAO.create_task, bind, draw, gets, db_write_on_read_pool. simpl.
  destruct (replica w) as [x|] eqn:Er; [repeat split; [by simpl; rewrite Er|done|done]|].
  unfold db_write. simpl. destruct (insert_periodic_row _ _ _ _) as [[a t]|e] eqn:E; repeat split; simpl;
    try congruence; try done; by eapply si_insert_periodic.
Qed.
Lemma keep_periodic_update i u : keep (PeriodicTaskDAO.update_task i u).
Proof.
  unfold PeriodicTaskDAO.update_task. apply preserves_bind; [apply preserves_gets|]. intros z.
  apply keep_db_write_read_pool, si_update_periodic.
Qed.
Lemma keep_periodic_delete i : keep (PeriodicTaskDAO.delete_task i).
Proof.
  unfold PeriodicTaskDAO.delete_task. apply preserves_bind; [|intros; apply preserves_ret].
  apply keep_db_write_read_pool, si_delete_periodic.
Qed.
Lemma keep_periodic_deletes l : keep (PeriodicTaskDAO.delete_tasks l).
Proof. unfold PeriodicTaskDAO.delete_tasks. case_match; [apply preserves_ret|]. apply keep_db_write_read_pool, si_delete_periodic. Qed.
Hint Resolve keep_periodic_insert keep_periodic_update keep_periodic_delete keep_periodic_deletes : keep.
Lemma keep_fetch_tasks up : keep (fetch_tasks_from_db up).
Proof. apply preserves_gets. Qed.
Hint Resolve keep_fetch_tasks : keep.
Lemma keep_rows_for up c : keep (rows_for up c).
Proof. unfold rows_for. keep. Qed.
Hint Resolve keep_rows_for : keep.
Lemma keep_reload (CE : Celery) so up b : keep (reload_schedule so up b).
Proof. unfold reload_schedule, load_tasks. keep. Qed.
Lemma keep_manual (CE : Celery) n a k : keep (PeriodicTaskService.trigger_task_manually n a k).
Proof. unfold PeriodicTaskService.trigger_task_manually, PeriodicTaskService._validate_task_exists. keep. Qed.
Hint Resolve keep_reload keep_manual : keep.

(** *** API keys *)

Lemma keep_through {A} c (m : Py A) : keep (ApiKeyService.through_client c m).
Proof. apply preserves_raise. Qed.
Lemma keep_key_by_hash h : keep (ApiKeyDAO.get_api_key_by_hash h).
Proof. apply keep_cached, keep_db_read. Qed.
Lemma keep_key_create c p h cb ac : keep (ApiKeyDAO.create_api_key c p h cb ac).
Proof.
  apply (keep_draw_insert Q r0 _ (fun n z => insert_api_key (uuid7 n) z c p h cb ac)). intros *. apply si_insert_key.
Qed.
Lemma keep_key_update i u : keep (ApiKeyDAO.update_api_key i u).
Proof.
  unfold ApiKeyDAO.update_api_key. apply preserves_bind; [apply preserves_gets|]. intros z.
  apply keep_db_write, si_update_key.
Qed.
Lemma keep_key_rotate i p h : keep (ApiKeyDAO.rotate_api_key i p h).
Proof.
  unfold ApiKeyDAO.rotate_api_key. apply preserves_bind; [apply preserves_gets|]. intros z.
  apply keep_db_write, si_rotate_key.
Qed.
Lemma keep_key_last_used i a : keep (ApiKeyDAO.update_last_used i a).
Proof. by intros w Hw. Qed.
Lemma keep_key_delete i : keep (ApiKeyDAO.delete_api_key i).
Proof. unfold ApiKeyDAO.delete_api_key. apply preserves_bind; [|keep]. apply keep_db_write, si_delete_keys. Qed.
Lemma keep_key_deletes l : keep (ApiKeyDAO.delete_api_keys l).
Proof.
  unfold ApiKeyDAO.delete_api_keys. case_match; [apply preserves_ret|]. apply preserves_bind; [keep|]. intros hs.
  apply preserves_bind; [apply keep_db_write_read_pool, si_delete_keys|]. keep.
Qed.
Hint Resolve keep_through keep_key_by_hash keep_key_create keep_key_update keep_key_rotate keep_key_last_used
  keep_key_delete keep_key_deletes : keep.
Lemma keep_generate_key : keep generate_api_key.
Proof. unfold generate_api_key. keep. Qed.
Lemma keep_key_get i : keep (ApiKeyService.get_api_key i).
Proof. unfold ApiKeyService.get_api_key, ApiKeyDAO.get_api_key_by_id. keep. Qed.
Lemma keep_key_evict h : keep (ApiKeyService._evict_cache h).
Proof. unfold ApiKeyService._evict_cache. keep. Qed.
Lemma keep_key_scopes a b : keep (require_key_scopes a b).
Proof. induction a as [|x a IH]; simpl; keep. Qed.
Hint Resolve keep_generate_key keep_key_get keep_key_evict keep_key_scopes : keep.
Lemma keep_key_verify k ip : keep (ApiKeyService.verify_api_key k ip).
Proof. unfold ApiKeyService.verify_api_key. keep. Qed.
Hint Resolve keep_key_verify : keep.

(** *** Webhooks *)

Lemma keep_endpoint_create c s cb : keep (WebhookDAO.create_endpoint c s cb).
Proof.
  apply (keep_draw_insert Q r0 _ (fun n z => insert_endpoint (uuid7 n) z c s cb)). intros *. apply si_insert_endpoint.
Qed.
Lemma keep_endpoint_update i u : keep (WebhookDAO.update_endpoint i u).
Proof.
  unfold WebhookDAO.update_endpoint. apply preserves_bind; [apply preserves_gets|]. intros z.
  apply keep_db_write, si_update_endpoint.
Qed.
Lemma keep_endpoint_delete i : keep (WebhookDAO.delete_endpoint i).
Proof.
  unfold WebhookDAO.delete_endpoint. apply preserves_bind; [|keep]. apply keep_db_write, si_delete_endpoints.
Qed.
Lemma keep_endpoint_deletes l : keep (WebhookDAO.delete_endpoints l).
Proof.
  unfold WebhookDAO.delete_endpoints. case_match; [apply preserves_ret|].
  apply keep_db_write_read_pool, si_delete_endpoints.
Qed.
Lemma keep_create_log l : keep (WebhookLogDAO.create_log l).
Proof. apply (keep_draw_insert Q r0 _ (fun n z => insert_log (uuid4 n) z l)). intros *. apply si_insert_log. Qed.
Lemma keep_get_endpoint i : keep (WebhookService.get_endpoint i).
Proof. unfold WebhookService.get_endpoint, WebhookDAO.get_endpoint_by_id. keep. Qed.
Lemma keep_validated {A} (o : option A) : keep (validated o).
Proof. unfold validated. keep. Qed.
Hint Resolve keep_endpoint_create keep_endpoint_update keep_endpoint_delete keep_endpoint_deletes keep_create_log
  keep_get_endpoint keep_validated : keep.
Lemma keep_deliver (WX : WebhookExt) (HC : HttpClient) n i p z b e : keep (_deliver_to_endpoint n i p z b e).
Proof. unfold _deliver_to_endpoint. keep. Qed.
Lemma keep_deliver_all d l : (forall e, keep (d e)) -> keep (deliver_all d l).
Proof. intros Hd. induction l as [|e l IH]; simpl; keep. Qed.
Lemma keep_normalize so a rq j : keep (normalize (get_adapter so a) rq j).
Proof.
  unfold get_adapter. assert (normalize (match (if String.eqb (lower a) "generic" then Some (GenericWebhookAdapter so)
    else None) with Some x => x | None => GenericWebhookAdapter so end) = normalize (GenericWebhookAdapter so)) as ->.
  { by destruct (String.eqb (lower a) "generic"). }
  cbn [normalize GenericWebhookAdapter]. keep.
Qed.
Hint Resolve keep_deliver keep_deliver_all keep_normalize : keep.
Lemma keep_inbound so a rq : keep (handle_inbound_webhook so a rq).
Proof. unfold handle_inbound_webhook, _process_inbound_adapter. keep. Qed.
Hint Resolve keep_inbound : keep.

(** *** Notifications *)

Lemma keep_redis_publish c m : keep (redis_publish c m).
Proof. by apply keep_redis_command, preserves_modify. Qed.
Lemma keep_device_upsert u tok p name : keep (DeviceDAO.register_device u tok p name).
Proof.
  apply (keep_draw_insert Q r0 _ (fun n z => upsert_device (uuid7 n) z u tok p name)). intros *. apply si_upsert_device.
Qed.
Lemma keep_device_off u tok : keep (DeviceDAO.unregister_device u tok).
Proof.
  unfold DeviceDAO.unregister_device. apply preserves_bind; [apply preserves_gets|]. intros z.
  apply keep_db_write, si_deactivate_devices.
Qed.
Lemma keep_devices_off l : keep (DeviceDAO.deactivate_tokens l).
Proof.
  unfold DeviceDAO.deactivate_tokens. case_match; [apply preserves_ret|]. apply preserves_bind; [apply preserves_gets|].
  intros z. apply keep_db_write, si_deactivate_devices.
Qed.
Hint Resolve keep_redis_publish keep_device_upsert keep_device_off keep_devices_off : keep.

Definition channel_keeps (c : Channel R) : Prop :=
  (forall u n, keep (channel_send c u n)) /\ (forall n, keep (channel_broadcast c n)).

Lemma keep_channels (NX : NotifyExt) : Forall (fun p => channel_keeps (snd p)) NotificationService.channels.
Proof.
  assert (Forall channel_keeps [sse_channel (R := R); email_channel; fcm_channel]) as Hc.
  { repeat (apply Forall_cons; split); [| | |apply Forall_nil; done]; split; intros; cbn [channel_send channel_broadcast sse_channel email_channel fcm_channel fst snd];
    unfold DeviceDAO.get_active_devices_by_user, DeviceDAO.get_all_active_tokens, delay, _render_template; keep. }
  rewrite !Forall_cons in Hc. destruct Hc as (? & ? & ? & _). repeat (apply Forall_cons; split); done.
Qed.

Lemma channel_named_in (l : list (string * Channel R)) name c :
  NotificationService.channel_named l name = Some c -> exists n, (n, c) ∈ l.
Proof.
  induction l as [|[n x] l IH]; simpl; [done|]. case_match; [intros [= <-]; exists n; left|].
  intros [m Hm]%IH. exists m. by right.
Qed.

Lemma keep_targets (NX : NotifyExt) names : Forall channel_keeps (NotificationService.target_channels names).
Proof.
  pose proof (keep_channels NX) as Hc. destruct names as [l|]; cbn [NotificationService.target_channels].
  - apply Forall_forall. intros c (n & _ & [m Hm]%channel_named_in)%list_elem_of_omap.
    rewrite Forall_forall in Hc. exact (Hc _ Hm).
  - by apply Forall_fmap.
Qed.

Lemma keep_each_channel (f : Channel R -> Py unit) l : Forall (fun c => keep (f c)) l ->
  keep (NotificationService.each_channel f l).
Proof. induction 1; simpl; keep. Qed.

Lemma keep_service_notify (NX : NotifyExt) u n names : keep (NotificationService.notify u n names).
Proof.
  apply keep_each_channel. eapply Forall_impl; [apply keep_targets|]. intros c Hc. apply Hc.
Qed.
Lemma keep_service_broadcast (NX : NotifyExt) n names : keep (NotificationService.broadcast_all n names).
Proof.
  apply keep_each_channel. eapply Forall_impl; [apply keep_targets|]. intros c Hc. apply Hc.
Qed.
Hint Resolve keep_service_notify keep_service_broadcast : keep.
Lemma keep_dispatch (NX : NotifyExt) e ty s m p a cs : keep (dispatch_user_notification e ty s m p a cs).
Proof. unfold dispatch_user_notification. keep. Qed.
Hint Resolve keep_dispatch : keep.

(** *** Every operation *)

Hint Resolve keep_dao_create_role keep_dao_update_role keep_create_user_row keep_assign_roles : keep.

Lemma keep_operation {A} (m : Py A) : operation m -> keep m.
Proof.
  destruct 1; unfold list_dlq_tasks, get_dlq_stats, get_dlq_task, update_dlq_task, retrigger_dlq_tasks,
    delete_dlq_tasks, clean_old_dlq_tasks, DeadLetterTaskService.get_task_by_id, DeadLetterTaskDAO.get_task_by_id,
    DeadLetterTaskService.update_task_payload, DeadLetterTaskService.delete_tasks,
    list_registered_celery_tasks, PeriodicTaskService.list_registered_celery_tasks, list_periodic_tasks,
    create_periodic_task, get_periodic_task, update_periodic_task, delete_periodic_task,
    trigger_periodic_task_manually, trigger_task_by_name, PeriodicTaskService.create_task,
    PeriodicTaskService.update_task, PeriodicTaskService.delete_task, PeriodicTaskService.get_task,
    PeriodicTaskService._validate_task_exists, PeriodicTaskService._notify_schedule_changed,
    PeriodicTaskDAO.list_tasks, PeriodicTaskDAO.get_task_by_id, PeriodicTaskDAO.get_task_by_name, setup_schedule, tick,
    get_api_key, route_create_api_key, list_api_keys, route_get_api_key, route_update_api_key, route_delete_api_key,
    route_rotate_api_key, ApiKeyService.create_api_key, ApiKeyService.update_api_key, ApiKeyService.delete_api_key,
    ApiKeyService.rotate_api_key,
    create_webhook_endpoint, list_available_webhook_events, list_webhook_endpoints, get_webhook_endpoint,
    update_webhook_endpoint, delete_webhook_endpoint, WebhookService.create_endpoint, WebhookService.update_endpoint,
    WebhookService.delete_endpoint, get_log, WebhookLogDAO.get_log_by_id, handle_application_event,
    WebhookService.dispatch_event_to_endpoints, send_webhook_event, WebhookDAO.list_active_endpoints_for_event,
    get_permissions, get_roles,
    sse_notifications, register_device, unregister_device, list_devices, NotificationService.register_device,
    NotificationService.unregister_device, NotificationService.get_user_devices, DeviceDAO.get_active_devices_by_user,
    send_notification_task, broadcast_notification_task, logging_errors, send_email_worker_task,
    send_fcm_push_worker_task, _deactivate_tokens, run_listener, on_password_changed, on_role_assigned,
    on_two_factor_enabled, on_two_factor_disabled, on_user_created, export_dlq_tasks, export_tasks,
    create_default_admin, install_default_admin, get_all_permissions, get_password_hash, DeadLetterTaskDAO.list_tasks;
    keep.
Qed.

(** *** The admin portal *)

Section portal.
Import Admin AdminViews AdminQueries.
Local Abbreviation akeep m := (preserves (fun ws => holds (R := R) Q r0 t0 (fst ws)) m).

Lemma akeep_srv {A} (m : Py A) : keep m -> akeep (srv m).
Proof. intros Hm [w s] Hw. specialize (Hm w Hw). unfold srv. by destruct (m w). Qed.
Lemma akeep_gets {A} (f : World R * Session -> A) : akeep (gets f : AdM R A).
Proof. by intros [w s]. Qed.
Lemma akeep_set_session f : akeep (set_session f).
Proof. by intros [w s]. Qed.
Lemma akeep_lift {A} (o : outcome Exn A) : akeep (lift o : AdM R A).
Proof. by intros [w s]. Qed.
Hint Resolve akeep_srv akeep_gets akeep_set_session akeep_lift : keep.

Ltac akeep1 :=
  first [ keep1
        | lazymatch goal with
          | |- preserves _ (srv _) => apply akeep_srv
          | |- preserves _ session => apply akeep_gets
          | |- preserves _ (pk_of _) => apply akeep_lift
          | |- preserves _ (required _ _) => unfold required
          | |- preserves _ (checked _) => unfold checked
          | |- preserves _ (flash _ _) => apply akeep_set_session
          end ].
Ltac akeep := repeat (intros; akeep1).

Lemma akeep_admin_id (NX : NotifyExt) : akeep get_current_admin_user_id.
Proof. unfold get_current_admin_user_id. akeep. Qed.
Lemma akeep_audit_request rq : akeep (audit_request rq).
Proof. unfold audit_request. akeep. Qed.
Lemma akeep_authenticate : akeep authenticate.
Proof. unfold authenticate. akeep. Qed.
Lemma akeep_login n p : akeep (admin_login n p).
Proof. unfold admin_login. akeep. Qed.
Lemma akeep_permission_ids names : akeep (RoleAdminView.permission_ids_of names).
Proof. unfold RoleAdminView.permission_ids_of, get_all_permissions. akeep. Qed.
Lemma akeep_set_enabled (NX : NotifyExt) b pks n : akeep (PeriodicTaskAdminView.set_enabled b pks n).
Proof. revert n. induction pks as [|pk pks IH]; intros n; simpl; akeep. Qed.
Lemma akeep_evict d : akeep (ApiKeyAdminView.evict d).
Proof. unfold ApiKeyAdminView.evict. akeep. Qed.
Lemma akeep_map_m {A B} (f : A -> AdM R B) l : (forall a, akeep (f a)) -> akeep (map_m f l).
Proof. intros Hf. induction l as [|a l IH]; simpl; akeep. Qed.
Lemma akeep_dead (NX : NotifyExt) pk : akeep (DeadLetterTaskAdminView.find_by_pk pk).
Proof. unfold DeadLetterTaskAdminView.find_by_pk, DeadLetterTaskDAO.get_task_by_id. akeep. Qed.
Lemma akeep_read {A} rows (f : list AuditRow -> Tables -> A) : akeep (AuditLogAdminView.read rows f).
Proof. apply akeep_srv, preserves_gets. Qed.
Lemma akeep_key_row (NX : NotifyExt) pk : akeep (ApiKeyAdminView.find_by_pk pk).
Proof. unfold ApiKeyAdminView.find_by_pk. akeep. Qed.
Lemma akeep_endpoint_row (NX : NotifyExt) pk : akeep (WebhookEndpointAdminView.find_by_pk pk).
Proof. unfold WebhookEndpointAdminView.find_by_pk. akeep. Qed.
Hint Resolve akeep_admin_id akeep_audit_request akeep_authenticate akeep_permission_ids akeep_set_enabled
  akeep_evict akeep_dead akeep_read akeep_key_row akeep_endpoint_row : keep.

Lemma keep_config_update b u : keep (dao_update_config b u).
Proof. unfold dao_update_config, update_config_row. keep. apply keep_invalidating. keep. Qed.
Lemma akeep_dead_all (NX : NotifyExt) pks : akeep (map_m DeadLetterTaskAdminView.find_by_pk pks).
Proof. apply akeep_map_m, akeep_dead. Qed.
Hint Resolve keep_config_update akeep_dead_all keep_update_user keep_delete_users keep_impersonate keep_dao_create_role keep_dao_update_role
  keep_delete_roles keep_create_version keep_delete_versions keep_update_version_info keep_get_version_info
  keep_get_config keep_retrigger : keep.

Lemma akeep_view {A} (m : AdM R A) : view_operation m -> akeep m.
Proof.
  destruct 1.
  all: autounfold with views.
  all: try solve [akeep].
  all: akeep.
Qed.

Lemma keep_portal {A} (m : AdM R A) : admin_operation m -> akeep m.
Proof.
  destruct 1 as [n p| |B m Hm]; [apply akeep_login|apply akeep_set_session|].
  apply preserves_bind; [apply akeep_authenticate|]. intros [who|]; [|apply preserves_ret].
  apply preserves_bind; [by apply akeep_view|]. intros; apply preserves_ret.
Qed.
End portal.

Lemma steps_keep (w w' : World R) : steps w w' -> holds Q r0 t0 w -> holds Q r0 t0 w'.
Proof.
  induction 1 as [|w w1 w2 Hs _ IH]; [done|]. intros Hw. apply IH.
  destruct Hs as [A m w Hm|A m w Hm|A m s w Hm|t w Ht|l w|l w];
    [by apply (keep_handler Q r0 t0 m Hm)|by apply (keep_operation m Hm)| | |done|done].
  - by apply (keep_portal m Hm (new_request w, s)).
  - destruct Hw as (? & ? & ?). repeat split; simpl; [done|lia|done].
Qed.
End keep_operations.
