(* ===== verification/Idempotency.v ===== *)
(** * Idempotent requests (src/api/core/idempotency.py)

    [custom_route_handler] is the wrapper of [IdempotentRoute] around a route
    handler.  [advance] cuts it at its Redis commands, so that several requests
    with the same key can be interleaved.  Bodies are UTF-8 texts, one character
    per byte; JSON keeps the fields in the order the code writes them.  What
    starlette's [Response] makes of the headers it is given is a parameter, with what
    its documentation says of it: [Starlette], [StarletteLaws]. *)

From Stdlib Require Import ZArith Lia Ascii String List Bool.
From stdpp Require Import base gmap strings list.
From S2P Require Import Prelude Schema Redis JsonText World Tokens Users Cache Roles Totp AppConfig Auth Pagination.
Local Open Scope string_scope.
Local Open Scope list_scope.
Local Open Scope Z_scope.

(** A response; [None] for the body of one that has no [body] attribute. *)
Record Response := {
  status_code : Z;
  headers : list (string * string);
  body : option string;
  media_type : option string;
}.

(** [headers[key]] of starlette: the first value under a name. *)
Definition header (key : string) (hs : list (string * string)) : option string :=
  snd <$> head (filter (fun h => h.1 = key) hs).

(** [dict(response.headers)]: a name once, with its first value. *)
Fixpoint dict_of_headers (hs : list (string * string)) : list (string * string) :=
  match hs with
  | [] => []
  | (k, v) :: rest => (k, v) :: filter (fun h => h.1 <> k) (dict_of_headers rest)
  end.

(** The raw headers [Response(content, status_code, headers, media_type)] has. *)
Class Starlette := {
  init_headers : Z -> string -> option string -> list (string * string) -> list (string * string);
}.

(** It keeps the headers it is given, the names in lower case, and adds a content length
    and a content type where they are missing. *)
Class StarletteLaws `{!Starlette} := {
  init_headers_adds st content media hs : exists extra,
    init_headers st content media hs = ((fun '(k, v) => (lower k, v)) <$> hs) ++ extra /\
    forall k, k ∈ extra.*1 ->
      (k = "content-length" \/ k = "content-type") /\ k ∉ ((fun '(k, v) => (lower k, v)) <$> hs).*1;
}.

(** [json.dumps(data)], and the response rebuilt of it. *)
Definition response_data (r : Response) (content : string) : Json :=
  JObj [("status_code", JNum (status_code r));
        ("headers", JObj ((fun '(k, v) => (k, JStr v)) <$> dict_of_headers (headers r)));
        ("content", JStr content); ("media_type", of_opt JStr (media_type r))].

Definition headers_of_json (j : option Json) : option (list (string * string)) :=
  match j with
  | Some (JObj fs) => mapM (fun '(k, v) => match v with JStr s => Some (k, s) | _ => None end) fs
  | _ => None
  end.

Definition response_of_json `{!Starlette} (j : Json) : option Response :=
  c ← as_str (jget "content" j); st ← as_num (jget "status_code" j);
  h ← headers_of_json (jget "headers" j); m ← as_opt as_str (jget "media_type" j);
  Some {| status_code := st; headers := init_headers st c m h; body := Some c; media_type := m |}.

Definition IDEMPOTENCY_TTL : Z := 60 * 60 * 24.
Definition IDEMPOTENCY_LOCK_TTL : Z := 60.
Definition IDEMPOTENCY_LOCK (key : string) : string := "idempotency:lock:" +:+ key.
Definition IDEMPOTENCY_RESPONSE (key : string) : string := "idempotency:response:" +:+ key.

Definition in_progress : Exn :=
  HTTPException 409 "A request with this Idempotency-Key is currently being processed.".

(** [f"{request.method}:{request.url.path}:{raw_key}"]. *)
Definition idempotency_key (method path raw_key : string) : string :=
  method +:+ ":" +:+ path +:+ ":" +:+ raw_key.

Section idempotency.
Context {R : Type} {RD : Redis R} {EX : Ext} {ST : Settings} {SL : Starlette}.
Local Abbreviation Py := (PyM (R := R)).

Definition acquire_lock (key : string) : Py bool :=
  redis_set_nx (IDEMPOTENCY_LOCK key) (RText "in-progress") IDEMPOTENCY_LOCK_TTL.

Definition release_lock (key : string) : Py unit := redis_del [IDEMPOTENCY_LOCK key].

Definition get_cached_response (key : string) : Py (option Response) :=
  let! cached_data := redis_get (IDEMPOTENCY_RESPONSE key) in
  match cached_data with
  | Some (RJson j) =>
      match response_of_json j with
      | Some r => ret (Some r)
      | None => raise (KeyErr "content")
      end
  | Some (RText s) => if truthy s then raise (ValueErr "Expecting value") else ret None
  | None => ret None
  end.

(** A response without a body is cached with an empty one; a body that is no
    UTF-8 raises. *)
Definition cache_response (key : string) (r : Response) : Py unit :=
  let content := default "" (body r) in
  if utf8_valid content then
    redis_set (IDEMPOTENCY_RESPONSE key) (RJson (response_data r content)) (Some IDEMPOTENCY_TTL)
  else raise (ValueErr "invalid utf-8").

Definition cacheable_status (r : Response) : bool :=
  (200 <=? status_code r) && (status_code r <? 500).

Definition custom_route_handler (method path : string) (raw_key : option string)
  (original_route_handler : Py Response) : Py Response :=
  match or_opt raw_key None with
  | None => original_route_handler
  | Some raw_key =>
      let key := idempotency_key method path raw_key in
      let! cached_response := get_cached_response key in
      match cached_response with
      | Some r => ret r
      | None =>
          let! lock_acquired := acquire_lock key in
          raise_if (negb lock_acquired) in_progress ;;!
          finally (
            let! response := original_route_handler in
            when (cacheable_status response) (cache_response key response) ;;!
            ret response)
            (release_lock key)
      end
  end.

(** ** The same, one Redis command at a time *)

Inductive Pc :=
| P_get                                      (* about to look for a cached response *)
| P_lock                                     (* about to take the lock *)
| P_body                                     (* holds the lock, about to run the handler *)
| P_cache (r : Response)                     (* about to cache the response *)
| P_release (o : outcome Exn Response)       (* about to release the lock *)
| P_done (o : outcome Exn Response).

Definition advance (key : string) (handler : Py Response) (pc : Pc) (w : World R) : Pc * World R :=
  match pc with
  | P_get =>
      match get_cached_response key w with
      | (Ok (Some r), w') => (P_done (Ok r), w')
      | (Ok None, w') => (P_lock, w')
      | (Err e, w') => (P_done (Err e), w')
      end
  | P_lock =>
      match acquire_lock key w with
      | (Ok true, w') => (P_body, w')
      | (Ok false, w') => (P_done (Err in_progress), w')
      | (Err e, w') => (P_done (Err e), w')
      end
  | P_body =>
      match handler w with
      | (Ok r, w') => (if cacheable_status r then P_cache r else P_release (Ok r), w')
      | (Err e, w') => (P_release (Err e), w')
      end
  | P_cache r =>
      match cache_response key r w with
      | (Ok _, w') => (P_release (Ok r), w')
      | (Err e, w') => (P_release (Err e), w')
      end
  | P_release o =>
      match release_lock key w with
      | (Ok _, w') => (P_done o, w')
      | (Err e, w') => (P_done (Err e), w')
      end
  | P_done o => (P_done o, w)
  end.

Fixpoint run_alone (n : nat) (key : string) (handler : Py Response) (pc : Pc) (w : World R) : Pc * World R :=
  match n with
  | O => (pc, w)
  | S n' => let '(pc', w') := advance key handler pc w in run_alone n' key handler pc' w'
  end.

(** Several requests with one key, and the shared state. *)
Record Sys := { procs : list Pc; shared : World R }.

(** One step: request [i] advances, or time passes. *)
Inductive sys_step (key : string) (handler : Py Response) : Sys -> Sys -> Prop :=
| sys_advance i pc s : procs s !! i = Some pc ->
    sys_step key handler s
      {| procs := <[i := fst (advance key handler pc (shared s))]> (procs s);
         shared := snd (advance key handler pc (shared s)) |}
| sys_time t s : now (shared s) <= t ->
    sys_step key handler s {| procs := procs s; shared := set_now t (shared s) |}.

(** Advancing the requests in the order of a schedule. *)
Fixpoint run_schedule (key : string) (handler : Py Response) (sched : list nat) (s : Sys) : Sys :=
  match sched with
  | [] => s
  | i :: sched' =>
      match procs s !! i with
      | None => run_schedule key handler sched' s
      | Some pc => let '(pc', w') := advance key handler pc (shared s) in
                   run_schedule key handler sched' {| procs := <[i := pc']> (procs s); shared := w' |}
      end
  end.

(** A request that is past the lock and not finished. *)
Definition critical (pc : Pc) : bool :=
  match pc with P_body | P_cache _ | P_release _ => true | _ => false end.
End idempotency.
