(* ===== verification/Scenario.v ===== *)
(** * A small installation

    Users, a role, a privileged role and two-factor data, built by running the
    modelled operations on tables that hold two permissions only.  The witnesses
    of the theorems start from it. *)

From Stdlib Require Import ZArith Lia Ascii String List Bool.
From stdpp Require Import base gmap strings list.
From S2P Require Import Prelude Schema Redis World Concrete Tokens Users Cache AppConfig Roles Totp Auth Routes.
From S2P Require Import Invariants SideInvariants System.
Local Open Scope string_scope.
Local Open Scope list_scope.
Local Open Scope Z_scope.

#[export] Instance concrete_google : Google := {
  google_token := fun code => if String.eqb code "bad" then None else Some (Some code);
  google_userinfo := fun tok => Some {| gi_sub := "g-" +:+ tok; gi_email := Some (tok +:+ "@example.org");
    gi_email_verified := Some true; gi_name := Some tok |};
}.

Definition permission (id name : string) : Permission :=
  {| p_id := id; p_name := name; p_description := None; p_created_at := 0 |}.

Definition seed_tables : Tables :=
  {| users := ∅; user_identities := []; user_sessions := ∅; permissions := <["p1" := permission
     "p1" "users:update"]> {["p2" := permission "p2" "users:impersonate"]}; roles := ∅;
     role_permissions := ∅; user_roles := ∅; user_two_factor := ∅; system_configurations :=
     None; app_versions := ∅; api_keys := ∅; webhook_endpoints := ∅; webhook_logs := [];
     dead_letter_tasks := ∅; periodic_tasks := ∅; user_devices := ∅ |}.

Definition new_user (name : string) : UserCreate :=
  {| uc_email := name +:+ "@example.org"; uc_username := name; uc_full_name := None;
     uc_is_active := true; uc_password := Some ("pw-" +:+ name) |}.

(** The identifiers the draws below give. *)
Definition alice_id : uuid := "u7-1".
Definition bob_id : uuid := "u7-4".
Definition carol_id : uuid := "u7-7".
Definition editor_id : uuid := "u7-9".
Definition admin_role_id : uuid := "u7-10".

Definition carol_codes : list BackupCode :=
  [{| code_hash := hash_backup_code "AAAA-1111"; used := false; used_at := None |};
   {| code_hash := hash_backup_code "BBBB-2222"; used := false; used_at := None |}].

(** Alice holds Editor, Bob holds Admin, Carol has two-factor enabled. *)
Definition setup : PyM (R := MapRedis.t) unit :=
  create_user (new_user "alice") ;;!
  create_user (new_user "bob") ;;!
  create_user (new_user "carol") ;;!
  dao_create_role {| rc_name := "Editor"; rc_description := None; rc_permission_ids := ["p1"] |} ;;!
  dao_create_role {| rc_name := "Admin"; rc_description := None; rc_permission_ids := ["p1"; "p2"] |} ;;!
  db_write (insert_user_roles alice_id [editor_id]) ;;!
  db_write (insert_user_roles bob_id [admin_role_id]) ;;!
  upsert_two_factor carol_id "fernet$KEY" carol_codes true.

Definition site : World MapRedis.t := snd (setup (world_of seed_tables)).

Lemma setup_runs : fst (setup (world_of seed_tables)) = Ok tt.
Proof. vm_compute. reflexivity. Qed.

Lemma seed_wf : wf_fresh seed_tables 0.
Proof.
  split.
  - split; [split|split|split|split| |split]; simpl; try (by intros ?); try (by constructor);
      try (by intros ? ? ?); try set_solver.
  - by intros i Hi.
Qed.

Lemma seed_side_wf : side_wf seed_tables.
Proof. split; [split|split| | | | |constructor|split]; simpl; by intros ?. Qed.

Lemma setup_keeps (Q : Tables -> nat -> Prop) `{!TableInv Q} : Q seed_tables 0%nat -> holds Q None 1000 site.
Proof.
  intros HQ. assert (preserves (holds Q None 1000) setup) as Hk by (unfold setup; keep).
  apply Hk. split; [done|]. split; [simpl; lia|done].
Qed.

Lemma site_holds : holds wf_fresh None 1000 site.
Proof. apply setup_keeps; [apply _|]. apply seed_wf. Qed.

Lemma site_wf : wf_fresh (db site) (drawn site).
Proof. apply site_holds. Qed.

Lemma site_side_wf : side_wf (db site).
Proof. apply (setup_keeps side_kept), seed_side_wf. Qed.

(** The user as the service reads it. *)
Definition user_of (id : uuid) (w : World MapRedis.t) : UserData :=
  match users (db w) !! id with
  | Some u => user_data (db w) u
  | None => {| ud_user := {| u_id := ""; username := ""; email := ""; hashed_password := None;
      full_name := None; is_active := false; profile_picture_url := None; u_created_at := 0;
      token_version := 0 |}; ud_roles := [] |}
  end.

(** What a login answers: its tokens and the state after it. *)
Definition login_tokens (name : string) (w : World MapRedis.t) : Token * World MapRedis.t :=
  match authenticate_user name ("pw-" +:+ name) browser w with
  | (Ok (LoggedIn r), w') => (lr_token r, w')
  | (_, w') => ({| access_token := ""; refresh_token_str := "" |}, w')
  end.
