(* ===== verification/AuthLemmas.v ===== *)
(** * Lemmas on users, tokens and the authentication dependencies *)

From Stdlib Require Import ZArith Lia Ascii String List Bool.
From stdpp Require Import base gmap strings list pretty.
From S2P Require Import Prelude Schema Redis World Tokens Users Cache AppConfig Roles Totp Auth Invariants.
Local Open Scope string_scope.
Local Open Scope list_scope.
Local Open Scope Z_scope.

(** ** Lookups by key *)

Lemma head_filter_unique {A} (P : A -> Prop) `{!forall x, Decision (P x)} l x :
  x ∈ l -> P x -> (forall y, y ∈ l -> P y -> y = x) -> head (filter P l) = Some x.
Proof.
  intros Hx HP Hu. destruct (filter P l) as [|y l'] eqn:E; simpl.
  - by destruct (filter_nil_not_elem_of _ _ x E HP).
  - f_equal. assert (y ∈ filter P l) as [HPy Hy]%list_elem_of_filter by (rewrite E; left). by apply Hu.
Qed.

Lemma head_filter_none {A} (P : A -> Prop) `{!forall x, Decision (P x)} l :
  (forall y, y ∈ l -> ~ P y) -> head (filter P l) = None.
Proof.
  intros Hu. destruct (filter P l) as [|y l'] eqn:E; [done|].
  assert (y ∈ filter P l) as [HPy Hy]%list_elem_of_filter by (rewrite E; left). by destruct (Hu y Hy).
Qed.

Lemma find_user_id t id :
  keyed u_id (users t) -> find_user (fun u => String.eqb (u_id u) id) t = users t !! id.
Proof.
  intros Hk. unfold find_user. destruct (users t !! id) as [u|] eqn:E.
  - apply head_filter_unique.
    + apply elem_of_values. eauto.
    + apply String.eqb_eq. by apply Hk.
    + intros y [k Hy]%elem_of_values Hid%String.eqb_eq. rewrite (Hk _ _ Hy) in Hid. congruence.
  - apply head_filter_none. intros y [k Hy]%elem_of_values Hid%String.eqb_eq.
    rewrite (Hk _ _ Hy) in Hid. congruence.
Qed.

Lemma session_by_jti t k s :
  sessions_wf (user_sessions t) -> user_sessions t !! k = Some s ->
  head (filter (fun x => jti x = jti s /\ s_user_id x = s_user_id s) (values (user_sessions t))) = Some s.
Proof.
  intros [K1 K2 _] Hs. apply head_filter_unique; [apply elem_of_values; eauto|done|].
  intros y [k' Hy]%elem_of_values [Hj _].
  assert (k' = k) as -> by (eapply (K2 _ _ _ _ (jti s)); eauto; congruence). congruence.
Qed.

Section auth_lemmas.
Context {R : Type} {RD : Redis R} {EX : Ext} {ST : Settings}.
Implicit Types w : World R.

Lemma get_by_id_run id w :
  keyed u_id (users (read_view w)) ->
  get_by_id id w = (Ok (user_data (read_view w) <$> users (read_view w) !! id), w).
Proof. intros Hk. unfold get_by_id, _get_user_with_roles, db_read, gets. by rewrite find_user_id. Qed.

Lemma get_by_id_inv id w o w' :
  get_by_id id w = (o, w') ->
  w' = w /\ o = Ok (user_data (read_view w) <$> find_user (fun u => String.eqb (u_id u) id) (read_view w)).
Proof. by intros [= <- <-]. Qed.

(** ** Scopes *)

Lemma require_scopes_run l g w :
  require_scopes l g w =
  (if forallb (fun s => mem s g) l then Ok tt else Err (HTTPException 403 "Not enough permissions"), w).
Proof.
  induction l as [|s l IH]; simpl; [done|]. unfold bind, raise_if.
  destruct (mem s g); simpl; [exact IH|done].
Qed.

Lemma forallb_mem (l g : list string) : forallb (fun s => mem s g) l = true <-> l ⊆ g.
Proof.
  rewrite forallb_forall. setoid_rewrite mem_true. setoid_rewrite <- list_elem_of_In. done.
Qed.

(** ** Dependencies *)

(** What an accepted access token says. *)
Lemma get_current_user_ok scopes tok w user w' :
  get_current_user scopes tok w = (Ok user, w') ->
  exists td id, fst (verify_token tok ACCESS w) = Ok td /\ t_id td = Some id /\
    scopes ⊆ t_scopes td /\
    find_user (fun u => String.eqb (u_id u) id) (read_view w) = Some (ud_user user) /\
    user = user_data (read_view w) (ud_user user) /\
    token_version (ud_user user) = t_token_version td.
Proof.
  unfold get_current_user. intros H.
  apply bind_ok_inv in H as (td & w1 & Hv & H). rewrite Hv.
  destruct (t_id td) as [id|] eqn:Ei; [|done].
  apply bind_ok_inv in H as ([] & w2 & Hs & H). rewrite require_scopes_run in Hs.
  destruct (forallb _ _) eqn:Ef in Hs; [|done]. injection Hs as <-.
  apply bind_ok_inv in H as (u & w3 & Hu & H). unfold get_user_by_id in Hu.
  apply bind_ok_inv in Hu as (o & w4 & Hg & Hu). apply get_by_id_inv in Hg as [-> Ho].
  injection Ho as ->.
  assert (read_view w1 = read_view w) as Hr.
  { apply verify_token_ok in Hv as (? & ? & ? & ? & ? & ? & ? & ? & ? & ? & ? & ? & ? & ->). done. }
  rewrite Hr in Hu. destruct (find_user _ (read_view w)) as [x|] eqn:Ex; [|done].
  unfold ret in Hu. injection Hu as <- <-. run_inv.
  apply negb_false_iff, Z.eqb_eq in H. exists td, id. repeat split; try done. by apply forallb_mem.
Qed.

Lemma refresh_token_ok tok rq w r w' :
  refresh_token tok rq w = (Ok r, w') ->
  exists td id, fst (verify_token tok REFRESH w) = Ok td /\ t_id td = Some id /\
    find_user (fun u => String.eqb (u_id u) id) (read_view w) = Some (ud_user (lr_user r)) /\
    token_version (ud_user (lr_user r)) = t_token_version td.
Proof.
  unfold refresh_token. intros H. apply bind_ok_inv in H as (td & w1 & Hv & H). rewrite Hv.
  destruct (t_id td) as [id|] eqn:Ei; [|done].
  apply bind_ok_inv in H as (o & w2 & Hg & H). apply get_by_id_inv in Hg as [-> Ho]. injection Ho as ->.
  assert (read_view w1 = read_view w) as Hr.
  { apply verify_token_ok in Hv as (? & ? & ? & ? & ? & ? & ? & ? & ? & ? & ? & ? & ? & ->). done. }
  rewrite Hr in H. destruct (find_user _ (read_view w)) as [x|] eqn:Ex; [|done]. simpl in H.
  apply bind_ok_inv in H as ([] & w3 & Hv' & H). apply raise_if_ok_inv in Hv' as [Hv' ->].
  apply negb_false_iff, Z.eqb_eq in Hv'. run_inv. by exists td, id.
Qed.

(** A run of the dependency once the token is verified. *)
Lemma get_current_user_run scopes tok w td id :
  verify_token tok ACCESS w = (Ok td, w) -> t_id td = Some id -> keyed u_id (users (read_view w)) ->
  fst (get_current_user scopes tok w) =
  if forallb (fun s => mem s (t_scopes td)) scopes then
    match users (read_view w) !! id with
    | None => Err user_not_found
    | Some u => if token_version u =? t_token_version td then Ok (user_data (read_view w) u)
                else Err credentials_exception
    end
  else Err (HTTPException 403 "Not enough permissions").
Proof.
  intros Hv Hid Hk. unfold get_current_user. rewrite (bind_ok _ _ _ _ _ Hv), Hid.
  unfold bind at 1. rewrite require_scopes_run. destruct (forallb _ _); [|done].
  unfold get_user_by_id. unfold bind at 1. rewrite (bind_ok _ _ _ _ _ (get_by_id_run id w Hk)).
  destruct (users (read_view w) !! id) as [u|]; simpl; [|done]. unfold bind, raise_if.
  by destruct (token_version u =? t_token_version td).
Qed.

(** A token that does not verify is refused with the same exception. *)
Lemma get_current_user_unverified scopes tok w e :
  fst (verify_token tok ACCESS w) = Err e -> fst (get_current_user scopes tok w) = Err e.
Proof. unfold get_current_user, bind. destruct (verify_token tok ACCESS w) as [[td|x] w']; [done|]. by intros [= ->]. Qed.

(** ** Tokens over time *)

Context {EL : ExtLaws}.

(** Encoding with an expiry is injective. *)
Lemma jwt_encode_inj c c' k e e' :
  c_exp c = Some e -> c_exp c' = Some e' -> jwt_encode c k = jwt_encode c' k -> c = c'.
Proof.
  intros H1 H2 H. set (t := Z.min e e' - 1).
  assert (jwt_decode t (jwt_encode c k) k = Some c) as D1 by (eapply jwt_roundtrip; [done|lia]).
  assert (jwt_decode t (jwt_encode c' k) k = Some c') as D2 by (eapply jwt_roundtrip; [done|lia]).
  congruence.
Qed.

(** A token that verifies at two times says the same both times. *)
Lemma verify_token_stable tok ty ty' w1 w2 td1 td2 :
  fst (verify_token tok ty w1) = Ok td1 -> fst (verify_token tok ty' w2) = Ok td2 -> td1 = td2 /\ ty = ty'.
Proof.
  destruct (verify_token tok ty w1) as [o1 w1'] eqn:E1, (verify_token tok ty' w2) as [o2 w2'] eqn:E2.
  simpl. intros -> ->.
  apply verify_token_ok in E1 as (p & u & i & e & j & Hd & Hu & Hi & He & Hj & Ht & _ & -> & _).
  apply verify_token_ok in E2 as (p' & u' & i' & e' & j' & Hd' & Hu' & Hi' & He' & Hj' & Ht' & _ & -> & _).
  apply jwt_authentic in Hd, Hd'. subst tok.
  assert (p = p') as <- by (by eapply jwt_encode_inj). rewrite Ht in Ht'. injection Ht' as Ht'.
  assert (ty = ty') as <- by (by destruct ty, ty'). split; [|done]. congruence.
Qed.

(** What issuing tokens leaves and answers. *)
Definition access_claims (user : UserData) (w : World R) : Claims :=
  stamp (user_claims user) (now w + ACCESS_TOKEN_EXPIRE_MINUTES * 60) "access" (uuid4 (drawn w)).
Definition refresh_claims (user : UserData) (w : World R) : Claims :=
  stamp (user_claims user) (now w + REFRESH_TOKEN_EXPIRE_DAYS * 86400) "refresh" (uuid4 (S (drawn w))).
Definition new_session (user : UserData) (rq : Request) (w : World R) : UserSessionCreate :=
  {| sc_jti := uuid4 (drawn w); sc_user_id := u_id (ud_user user); sc_issued_at := now w;
     sc_expires_at := now w + ACCESS_TOKEN_EXPIRE_MINUTES * 60;
     sc_ip_address := rq_client_host rq; sc_user_agent := rq_user_agent rq |}.

Lemma issue_inv user rq w r w' :
  issue_tokens_and_session user rq w = (Ok r, w') ->
  r = {| lr_token := {| access_token := jwt_encode (access_claims user w) SECRET_KEY;
                        refresh_token_str := jwt_encode (refresh_claims user w) SECRET_KEY |};
         lr_user := user |} /\
  exists t', upsert_session (uuid7 (S (S (drawn w)))) (now w) (new_session user rq w) (db w) = Ok (tt, t') /\
    w' = set_db (fun _ => t') (set_drawn (S (S (S (drawn w)))) w).
Proof.
  unfold issue_tokens_and_session, create_access_token, create_refresh_token, _create_token,
    new_uuid4, upsert_user_session, db_write, bind, gets, draw, ret. cbn [token td_jti expires_at db drawn set_drawn now].
  fold (new_session user rq w).
  destruct (upsert_session _ _ _ _) as [[[] t']|e] eqn:E; [|done].
  intros [= <- <-]. split; [done|]. exists t'. by split.
Qed.

Lemma upsert_session_tables id t0 d t a t' :
  upsert_session id t0 d t = Ok (a, t') -> exists f, t' = set_sessions f t.
Proof. unfold upsert_session. intros H. stmt_inv H; eauto. Qed.

Definition token_types_eqb (a b : TokenTypes) : bool :=
  match a, b with
  | ACCESS, ACCESS | REFRESH, REFRESH | SUDO, SUDO => true
  | _, _ => false
  end.

Lemma token_types_eqb_eq a b : token_types_eqb a b = true <-> a = b.
Proof. by destruct a, b. Qed.

(** What [verify_token] answers on a token of this service. *)
Lemma verify_stamped data e ty ty' j u i w :
  faults w = [] -> c_sub data = Some u -> c_id data = Some i ->
  verify_token (jwt_encode (stamp data e (token_type_value ty) j) SECRET_KEY) ty' w =
  (if (now w <? e) && token_types_eqb ty ty' then
     match r_get (now w) (blacklist_key ty j) (redis w) with
     | None => Ok (token_data_of (stamp data e (token_type_value ty) j) u i e j (token_type_value ty))
     | Some _ => Err (HTTPException 401 (revoked_detail ty))
     end
   else Err invalid_credentials, w).
Proof.
  intros Hf Hu Hi. set (c := stamp data e (token_type_value ty) j).
  destruct (Z.ltb_spec (now w) e) as [Hlt|Hge]; simpl.
  - assert (jwt_decode (now w) (jwt_encode c SECRET_KEY) SECRET_KEY = Some c) as Hd
      by (by eapply jwt_roundtrip).
    destruct (token_types_eqb ty ty') eqn:Et.
    + apply token_types_eqb_eq in Et as <-. by apply verify_token_run.
    + assert (String.eqb (token_type_value ty) (token_type_value ty') = false) as Hs by (by destruct ty, ty').
      unfold verify_token, bind, gets. rewrite Hd. simpl. by rewrite Hu, Hi, Hs.
  - unfold verify_token, bind, gets.
    by rewrite (jwt_expired c SECRET_KEY (now w) e) by done.
Qed.
End auth_lemmas.

(** ** Redis commands that succeed *)

Section redis_lemmas.
Context {R : Type} {RD : Redis R} {EX : Ext}.
Implicit Types w : World R.

Lemma redis_set_ok_inv k v ex w u w' :
  redis_set k v (Some ex) w = (Ok u, w') ->
  0 < ex /\ w' = set_redis (r_set (now w) k v (Some ex)) (set_faults (tail (faults w)) w).
Proof.
  unfold redis_set. intros [[? _]|H]%redis_command_inv; [done|].
  destruct (Z.leb_spec ex 0); [done|]. injection H as <- <-. done.
Qed.

Lemma redis_set_run k v ex w :
  faults w = [] -> 0 < ex -> redis_set k v (Some ex) w = (Ok tt, set_redis (r_set (now w) k v (Some ex)) w).
Proof.
  intros Hf He. unfold redis_set, redis_command. rewrite Hf. destruct (Z.leb_spec ex 0); [lia|done].
Qed.

Lemma redis_get_run k w : faults w = [] -> redis_get k w = (Ok (r_get (now w) k (redis w)), w).
Proof. intros Hf. unfold redis_get, redis_command. by rewrite Hf. Qed.

(** A property of the Redis contents and of the time, kept by what does not
    change them. *)
Definition redis_prop (n : Z) (P : R -> Prop) (w : World R) : Prop := now w = n /\ P (redis w).

Lemma redis_prop_get n P k : preserves (redis_prop n P) (redis_get k).
Proof. intros w Hw. unfold redis_get, redis_command. by destruct (faults w) as [|[] l]. Qed.
Lemma redis_prop_del n P ks : (forall r, P r -> P (r_del ks r)) -> preserves (redis_prop n P) (redis_del ks).
Proof.
  intros HP w [Hn Hw]. unfold redis_del, redis_command.
  destruct (faults w) as [|[] l]; split; simpl; auto.
Qed.
Lemma redis_prop_set n P k v ex :
  (forall r, P r -> P (r_set n k v ex r)) -> preserves (redis_prop n P) (redis_set k v ex).
Proof.
  intros HP w [<- Hw]. unfold redis_set, redis_command.
  destruct (faults w) as [|[] l], ex as [e|]; try destruct (e <=? 0); split; simpl; auto.
Qed.
Lemma redis_prop_publish n P nm p : preserves (redis_prop n P) (publish nm p).
Proof.
  intros w [Hn Hw]. unfold publish, bind, new_uuid4, draw, gets, redis_command. simpl.
  by destruct (faults w) as [|[] l].
Qed.
Lemma redis_prop_audit n P a r i d x y rq : preserves (redis_prop n P) (audit_log a r i d x y rq).
Proof.
  unfold audit_log. repeat (apply preserves_bind; [apply preserves_gets|intros ?]).
  case_match; [by apply preserves_modify|apply preserves_ret].
Qed.

Lemma impersonation_key_ne j ty j' : IMPERSONATION_SESSION j <> blacklist_key ty j'.
Proof. by destruct ty. Qed.
End redis_lemmas.
