(* ===== verification/AuthProps.v ===== *)
(** * Properties of authentication

    Token life cycle, revocation by version and by blacklist, sudo tokens and
    impersonation. *)

From Stdlib Require Import ZArith Lia Ascii String List Bool.
From stdpp Require Import base gmap strings list pretty.
From S2P Require Import Prelude Schema Redis World Concrete Tokens Users Cache AppConfig Roles Totp Auth Routes.
From S2P Require Import Invariants SideInvariants System Service Scenario AuthLemmas.
Local Open Scope string_scope.
Local Open Scope list_scope.
Local Open Scope Z_scope.

(** ** Changes that void the tokens of a user *)

Section revocation.
Context {R : Type} {RD : Redis R} {EX : Ext} {EL : ExtLaws} {ST : Settings} {GO : Google}.
Implicit Types w : World R.

(** A new password, an assignment of roles (even one that fails), an update or a
    deletion of a role the user holds. *)
Inductive changes_rights (id : uuid) (w w' : World R) : Prop :=
| by_password p : w' = snd (update_password id p w) -> changes_rights id w w'
| by_assignment r rs : w' = snd (assign_roles_to_user id (r :: rs) w) -> changes_rights id w w'
| by_role_update rid d rd : (id, rid) ∈ user_roles (db w) -> update_role rid d w = (Ok rd, w') ->
    changes_rights id w w'
| by_role_deletion rid : (id, rid) ∈ user_roles (db w) -> delete_role rid w = (Ok tt, w') ->
    changes_rights id w w'.

Lemma db_write_ok_inv {A} (f : Tables -> outcome Exn (A * Tables)) w a w' :
  db_write f w = (Ok a, w') -> exists t, f (db w) = Ok (a, t) /\ w' = set_db (fun _ => t) w.
Proof. unfold db_write. destruct (f (db w)) as [[b t]|e]; [|done]. intros [= <- <-]. eauto. Qed.

Lemma invalidating_ok_inv {A} ks hk b (f : PyM A) w a w' :
  invalidating ks hk b f w = (Ok a, w') ->
  exists w1, f w = (Ok a, w1) /\ db w' = db w1 /\ replica w' = replica w1 /\ drawn w' = drawn w1 /\ now w' = now w1.
Proof.
  unfold invalidating. intros H. apply bind_ok_inv in H as (x & w1 & Hf & H).
  apply bind_ok_inv in H as ([] & w2 & Ht & H). unfold ret in H. injection H as <- <-.
  exists w1. split; [done|].
  match type of Ht with ?m w1 = _ =>
    assert (preserves (fun w' => db w' = db w1 /\ replica w' = replica w1 /\ drawn w' = drawn w1 /\ now w' = now w1) m) as Hp end.
  { apply preserves_try; [|intros; apply preserves_ret].
    assert (forall ks, preserves (fun w' : World R => db w' = db w1 /\ replica w' = replica w1 /\
      drawn w' = drawn w1 /\ now w' = now w1) (redis_del ks)) as Hd.
    { intros ks' w0 (? & ? & ? & ?). unfold redis_del, redis_command. by destruct (faults w0) as [|[] l]. }
    assert (forall h fs, preserves (fun w' : World R => db w' = db w1 /\ replica w' = replica w1 /\
      drawn w' = drawn w1 /\ now w' = now w1) (redis_hdel h fs)) as Hh.
    { intros h fs w0 (? & ? & ? & ?). unfold redis_hdel, redis_command. by destruct (faults w0) as [|[] l]. }
    repeat case_match; auto using preserves_ret. }
  specialize (Hp w1). rewrite Ht in Hp. by apply Hp.
Qed.

(** The version of [id] has moved past [v]. *)
Lemma version_bumped id v t n f :
  versions_kept id v t n ->
  (forall u, users t !! id = Some u -> f (users t) !! id = Some (bump_version u) \/
     exists hp, f (users t) !! id = Some (with_password hp u)) ->
  (users t !! id = None -> f (users t) !! id = None) ->
  version_from id (v + 1) (set_users f t) n.
Proof.
  intros [W [V1 V2]] Hf Hn. split; [|done]. simpl. intros u' Hu'.
  destruct (users t !! id) as [u|] eqn:E; [|rewrite Hn in Hu'; done].
  specialize (V1 _ eq_refl). destruct (Hf _ eq_refl) as [Hf'|[hp Hf']];
    rewrite Hf' in Hu'; injection Hu' as <-; simpl; lia.
Qed.

Lemma alter_user_bumps id v f t n a t' :
  (forall u, f u = bump_version u \/ exists hp, f u = with_password hp u) ->
  keeps wf_fresh (alter_user id f) ->
  versions_kept id v t n -> alter_user id f t = Ok (a, t') -> versions_kept id (v + 1) t' n.
Proof.
  intros Hf Hk HQ H. split; [by eapply Hk; [apply HQ|]|]. injection H as <- <-.
  eapply version_bumped; [done| |].
  - intros u Hu. rewrite lookup_alter_eq, Hu. simpl. destruct (Hf u) as [->|[hp ->]]; eauto.
  - intros Hu. by rewrite lookup_alter_eq, Hu.
Qed.

Lemma bump_role_users_bumps id rid v t n a t' :
  (id, rid) ∈ user_roles t ->
  versions_kept id v t n -> bump_role_users rid t = Ok (a, t') -> versions_kept id (v + 1) t' n.
Proof.
  intros Hr HQ H. split; [eapply wf_bump_role_users; [apply HQ|done]|]. injection H as <- <-.
  eapply version_bumped; [done| |].
  - intros u Hu. rewrite map_lookup_imap, Hu. simpl. rewrite bool_decide_eq_true_2 by done. by left.
  - intros Hu. by rewrite map_lookup_imap, Hu.
Qed.

Local Abbreviation at_least id v := (holds (R := R) (versions_kept id v) None).

Lemma bind_then {A B} (P : World R -> Prop) (m : PyM A) (k : A -> PyM B) w :
  P (snd (m w)) -> (forall a, preserves P (k a)) -> P (snd (bind m k w)).
Proof. intros Hm Hk. unfold bind. destruct (m w) as [[a|e] w1]; simpl in *; [by apply Hk|done]. Qed.

Lemma db_write_bumps {A} id v t0 (f : Tables -> outcome Exn (A * Tables)) w :
  (exists a t, f (db w) = Ok (a, t)) ->
  (forall t n a t', t = db w -> versions_kept id v t n -> f t = Ok (a, t') -> versions_kept id (v + 1) t' n) ->
  at_least id v t0 w -> at_least id (v + 1) t0 (snd (db_write f w)).
Proof.
  intros (a & t & Hf) Hb (Hr & Ht & HQ). unfold db_write. rewrite Hf.
  split; [done|]. split; [done|]. by eapply (Hb _ _ _ _ eq_refl HQ).
Qed.

Lemma password_bumps id p v t0 w :
  at_least id v t0 w -> at_least id (v + 1) t0 (snd (update_password id p w)).
Proof.
  intros Hw. unfold update_password. rewrite (bind_ok _ _ _ _ _ (eq_refl : get_password_hash p w = _)).
  apply (bind_then (at_least id (v + 1) t0)).
  - eapply db_write_bumps; [by eexists _, _| |].
    + intros t n a t' _. apply alter_user_bumps; [intros u; right; eauto|apply wf_fresh_inv].
    + by apply (keep_password_hash (versions_kept id v) None t0 p w).
  - intros []. keep.
Qed.

Lemma assignment_bumps id r rs v t0 w :
  at_least id v t0 w -> at_least id (v + 1) t0 (snd (assign_roles_to_user id (r :: rs) w)).
Proof.
  intros Hw. unfold assign_roles_to_user, assign_roles.
  apply (bind_then (at_least id (v + 1) t0)); [|intros []; keep].
  assert (at_least id v t0 (snd (db_write (insert_user_roles id (r :: rs)) w))) as H1.
  { apply keep_db_write; [apply ti_user_roles|done]. }
  unfold gather2. destruct (db_write (insert_user_roles id (r :: rs)) w) as [o w1]. simpl in H1.
  assert (at_least id (v + 1) t0 (snd (db_write (alter_user id bump_version) w1))) as H2.
  { eapply db_write_bumps; [by eexists _, _| |done].
    intros t n a t' _. apply alter_user_bumps; [auto|apply wf_fresh_inv]. }
  destruct o; [|done]. by destruct (db_write (alter_user id bump_version) w1) as [[] w2].
Qed.

(** Reading a role changes neither the tables nor the draws. *)
Lemma get_role_by_id_frame rid w o w1 t0 :
  get_role_by_id rid w = (o, w1) -> replica w = None -> t0 <= now w ->
  holds (fun t n => t = db w /\ n = drawn w) None t0 w1.
Proof.
  intros H Hr Ht. change w1 with (snd (o, w1)). rewrite <- H.
  by apply keep_get_role_by_id.
Qed.

Lemma role_deletion_bumps id rid v t0 w w' :
  (id, rid) ∈ user_roles (db w) -> delete_role rid w = (Ok tt, w') ->
  at_least id v t0 w -> at_least id (v + 1) t0 w'.
Proof.
  intros Hin H (Hr & Ht & HQ). unfold delete_role in H. apply bind_ok_inv in H as (rd & w1 & Hg & H).
  apply (get_role_by_id_frame _ _ _ _ t0) in Hg as (Hr1 & Ht1 & Hd & Hn); [|done|done].
  apply invalidating_ok_inv in H as (w2 & H & Ed & Er & En & Et). apply transaction_ok_inv in H.
  apply bind_ok_inv in H as ([] & w3 & H1 & H2). apply bind_ok_inv in H2 as (l & w4 & H2 & H3).
  unfold ret in H3. injection H3 as <-.
  apply db_write_ok_inv in H1 as (t1 & H1 & ->). apply db_write_ok_inv in H2 as (t2 & H2 & ->).
  unfold holds. rewrite Ed, Er, En, Et. cbn [db replica drawn now set_db]. rewrite Hn.
  split; [done|]. split; [done|]. eapply (ti_delete_roles (Q := versions_kept id (v + 1))); [|exact H2].
    eapply bump_role_users_bumps; [|exact HQ|rewrite Hd in H1; exact H1]. done.
Qed.

(** The statements of a role update keep who holds which role. *)
Lemma update_role_row_user_roles t0 rid d t a t' :
  update_role_row t0 rid d t = Ok (a, t') -> user_roles t' = user_roles t.
Proof. unfold update_role_row. intros E. by stmt_inv E. Qed.
Lemma insert_role_permissions_user_roles rid ps t a t' :
  insert_role_permissions rid ps t = Ok (a, t') -> user_roles t' = user_roles t.
Proof. unfold insert_role_permissions. intros E. by stmt_inv E. Qed.

(** [at_least], with the role of the user. *)
Definition holding (id : uuid) (v : Z) (rid : uuid) : Z -> World R -> Prop :=
  holds (fun t n => versions_kept id v t n /\ (id, rid) ∈ user_roles t) None.

Lemma write_holding {A} id v rid t0 (f : Tables -> outcome Exn (A * Tables)) w a w' :
  keeps (versions_kept id v) f -> (forall t b t', f t = Ok (b, t') -> user_roles t' = user_roles t) ->
  db_write f w = (Ok a, w') -> holding id v rid t0 w -> holding id v rid t0 w'.
Proof.
  intros Hk Hu H (Hr & Ht & HQ & Hin). apply db_write_ok_inv in H as (t & H & ->).
  split; [done|]. split; [done|]. split; [by eapply Hk|]. simpl. by rewrite (Hu _ _ _ H).
Qed.

Lemma role_update_bumps id rid d rd v t0 w w' :
  (id, rid) ∈ user_roles (db w) -> update_role rid d w = (Ok rd, w') ->
  at_least id v t0 w -> at_least id (v + 1) t0 w'.
Proof.
  intros Hin H (Hr & Ht & HQ). unfold update_role in H. apply bind_ok_inv in H as (rd1 & w1 & Hg & H).
  apply (get_role_by_id_frame _ _ _ _ t0) in Hg as (Hr1 & Ht1 & Hd & Hn); [|done|done].
  apply bind_ok_inv in H as ([] & w2 & Hm & H). assert (w2 = w1) as ->.
  { destruct (or_opt (ru_name d) None); [|by injection Hm as <-].
    apply bind_ok_inv in Hm as (ex & w3 & Hx & Hm). injection Hx as <- <-. by apply raise_if_ok_inv in Hm as [_ ->]. }
  clear Hm. apply bind_ok_inv in H as (o & w3 & H & Ho).
  assert (w' = w3) as -> by (destruct o; [by injection Ho as <- <-|done]). clear Ho.
  apply invalidating_ok_inv in H as (w4 & H & Ed & Er & En & Et).
  assert (at_least id (v + 1) t0 w4) as H4.
  2: { unfold holds in *. by rewrite Ed, Er, En, Et. }
  assert (holding id v rid t0 w1) as Hw1.
  { split; [done|]. split; [done|]. rewrite Hd, Hn. done. }
  apply bind_ok_inv in H as (z & w5 & H5 & H). injection H5 as <- <-.
  apply bind_ok_inv in H as ([] & w6 & H6 & H).
  assert (holding id v rid t0 w6) as Hw6.
  { apply when_ok_inv in H6 as [[_ H6]|[_ ->]]; [|done]. eapply write_holding; [| |exact H6|done].
    - apply ti_update_role.
    - intros *. apply update_role_row_user_roles. }
  apply bind_ok_inv in H as ([] & w7 & H7 & H).
  assert (holding id v rid t0 w7) as Hw7.
  { destruct (ru_permission_ids d) as [ps|]; [|by injection H7 as <-].
    apply bind_ok_inv in H7 as ([] & w8 & H8 & H7).
    assert (holding id v rid t0 w8) as Hw8.
    { eapply write_holding; [| |exact H8|done]; [apply ti_delete_role_permissions|by intros t b t' [= <- <-]]. }
    destruct ps as [|p0 ps]; [by injection H7 as <-|].
    eapply write_holding; [| |exact H7|done]; [apply ti_role_permissions|].
    intros *. apply insert_role_permissions_user_roles. }
  apply bind_ok_inv in H as ([] & w8 & H8 & H). injection H as _ <-.
  destruct Hw7 as (Hr7 & Ht7 & HQ7 & Hin7). apply db_write_ok_inv in H8 as (t8 & H8 & ->).
  split; [done|]. split; [done|]. by eapply bump_role_users_bumps.
Qed.

Lemma changes_rights_bump id v t0 w w' :
  changes_rights id w w' -> at_least id v t0 w -> at_least id (v + 1) t0 w'.
Proof.
  intros [p ->|r rs ->|rid d rd Hin H|rid Hin H] Hw.
  - by apply password_bumps.
  - by apply assignment_bumps.
  - by eapply role_update_bumps.
  - by eapply role_deletion_bumps.
Qed.

(** ** Stale tokens *)

(** A token whose version is behind is refused. *)
Lemma stale_access_refused tok w0 td id v t0 w scopes :
  fst (verify_token tok ACCESS w0) = Ok td -> t_id td = Some id -> t_token_version td < v ->
  at_least id v t0 w -> exists e, fst (get_current_user scopes tok w) = Err e.
Proof.
  intros Htd Hid Hlt (Hr & Ht & [W _] & [V _]).
  destruct (get_current_user scopes tok w) as [[u|e] w'] eqn:E; [|by exists e]. exfalso.
  apply get_current_user_ok in E as (td' & id' & Hv & Hid' & _ & Hf & _ & Hver).
  assert (td' = td) as -> by (by eapply verify_token_stable).
  rewrite Hid in Hid'. injection Hid' as <-. unfold read_view in Hf. rewrite Hr in Hf. simpl in Hf.
  rewrite find_user_id in Hf by apply W. specialize (V _ Hf). lia.
Qed.

Lemma stale_refresh_refused tok w0 td id v t0 w rq :
  fst (verify_token tok REFRESH w0) = Ok td -> t_id td = Some id -> t_token_version td < v ->
  at_least id v t0 w -> exists e, fst (refresh_token tok rq w) = Err e.
Proof.
  intros Htd Hid Hlt (Hr & Ht & [W _] & [V _]).
  destruct (refresh_token tok rq w) as [[u|e] w'] eqn:E; [|by exists e]. exfalso.
  apply refresh_token_ok in E as (td' & id' & Hv & Hid' & Hf & Hver).
  assert (td' = td) as -> by (by eapply verify_token_stable).
  rewrite Hid in Hid'. injection Hid' as <-. unfold read_view in Hf. rewrite Hr in Hf. simpl in Hf.
  rewrite find_user_id in Hf by apply W. specialize (V _ Hf). lia.
Qed.

(** The token passes the access or the refresh check, for the user [id]. *)
Definition accepted (tok : string) (id : uuid) (w : World R) : Prop :=
  (exists scopes user, fst (get_current_user scopes tok w) = Ok user /\ u_id (ud_user user) = id) \/
  (exists rq r, fst (refresh_token tok rq w) = Ok r /\ u_id (ud_user (lr_user r)) = id).

Lemma accepted_version tok id w :
  accepted tok id w -> replica w = None -> wf_fresh (db w) (drawn w) ->
  exists ty td u, fst (verify_token tok ty w) = Ok td /\ ty <> SUDO /\ t_id td = Some id /\
    users (db w) !! id = Some u /\ token_version u = t_token_version td.
Proof.
  intros Ha Hr [W _]. pose proof (users_keyed _ (wf_users _ W)) as K. unfold read_view in *.
  destruct Ha as [(sc & user & H & <-)|(rq & r & H & <-)].
  - destruct (get_current_user sc tok w) as [o w'] eqn:E. simpl in H. subst o.
    apply get_current_user_ok in E as (td & id' & Hv & Hid & _ & Hf & _ & Hver).
    unfold read_view in Hf. rewrite Hr in Hf. simpl in Hf. rewrite find_user_id in Hf by done.
    exists ACCESS, td, (ud_user user). rewrite (K _ _ Hf). by repeat split.
  - destruct (refresh_token tok rq w) as [o w'] eqn:E. simpl in H. subst o.
    apply refresh_token_ok in E as (td & id' & Hv & Hid & Hf & Hver).
    unfold read_view in Hf. rewrite Hr in Hf. simpl in Hf. rewrite find_user_id in Hf by done.
    exists REFRESH, td, (ud_user (lr_user r)). rewrite (K _ _ Hf). by repeat split.
Qed.

(** C1: with no read replica, a token that [get_current_user] or [refresh_token]
    accepted for a user is never accepted by either again after one of these
    changes, whatever requests are served before and after it, in any order:
    [AuthService.update_password], [UserService.assign_roles_to_user] with at least
    one role, or [RoleService.update_role] or [delete_role] of a role the user holds.
    The portal's bulk deletion of roles is not such a change
    ([bulk_role_deletion_voids_no_token]), and the notification stream reads no token
    version. *)
Theorem voided_tokens_stay_rejected tok id w0 w1 w2 w3 :
  replica w0 = None -> wf_fresh (db w0) (drawn w0) ->
  accepted tok id w0 -> steps w0 w1 -> changes_rights id w1 w2 -> steps w2 w3 ->
  (forall scopes, exists e, fst (get_current_user scopes tok w3) = Err e) /\
  (forall rq, exists e, fst (refresh_token tok rq w3) = Err e).
Proof.
  intros Hr W Ha H01 Hc H23.
  destruct (accepted_version _ _ _ Ha Hr W) as (ty & td & u & Hv & Hty & Hid & Hu & Hver).
  set (v := token_version u).
  assert (at_least id v (now w0) w0) as H0.
  { split; [done|]. split; [lia|]. split; [done|]. split.
    - intros u' Hu'. unfold v. rewrite Hu in Hu'. injection Hu' as <-. lia.
    - intros i Hi Hid'. destruct W as [_ F]. destruct (F i Hi) as (F1 & _). rewrite Hid' in F1. congruence. }
  assert (at_least id (v + 1) (now w0) w3) as H3.
  { eapply steps_keep; [apply _|apply _|exact H23|]. eapply changes_rights_bump; [exact Hc|].
    eapply steps_keep; [apply _|apply _|exact H01|done]. }
  assert (t_token_version td < v + 1) as Hlt by (unfold v; lia).
  split.
  - intros scopes. destruct (get_current_user scopes tok w3) as [[x|e] w'] eqn:E; [exfalso|by exists e].
    pose proof E as E'. apply get_current_user_ok in E' as (td' & id' & Hv' & _).
    destruct (verify_token_stable _ _ _ _ _ _ _ Hv Hv') as [-> ->].
    destruct (stale_access_refused _ _ _ _ _ _ _ scopes Hv Hid Hlt H3) as [e He]. by rewrite E in He.
  - intros rq. destruct (refresh_token tok rq w3) as [[x|e] w'] eqn:E; [exfalso|by exists e].
    pose proof E as E'. apply refresh_token_ok in E' as (td' & id' & Hv' & _).
    destruct (verify_token_stable _ _ _ _ _ _ _ Hv Hv') as [-> ->].
    destruct (stale_refresh_refused _ _ _ _ _ _ _ rq Hv Hid Hlt H3) as [e He]. by rewrite E in He.
Qed.
End revocation.

(** Alice's login on the sample installation. *)
Definition alice_world : World MapRedis.t := snd (login_tokens "alice" site).
Definition alice_access : string := access_token (fst (login_tokens "alice" site)).
Definition alice_refresh : string := refresh_token_str (fst (login_tokens "alice" site)).

Lemma alice_world_holds : holds wf_fresh None 1000 alice_world.
Proof.
  pose proof (keep_authenticate wf_fresh None 1000 "alice" "pw-alice" browser site site_holds) as H.
  unfold alice_world, login_tokens. change ("pw-" +:+ "alice") with "pw-alice".
  destruct (authenticate_user "alice" "pw-alice" browser site) as [[[r|c]|e] w']; exact H.
Qed.

Lemma voided_tokens_stay_rejected_witness :
  (exists user, fst (get_current_user ["users:update"] alice_access alice_world) = Ok user) /\
  exists e, fst (get_current_user [] alice_access (snd (update_password alice_id "new" alice_world))) = Err e.
Proof.
  split; [eexists; vm_compute; reflexivity|].
  set (w2 := snd (update_password alice_id "new" alice_world)).
  refine (proj1 (voided_tokens_stay_rejected alice_access alice_id alice_world alice_world w2 w2
    (proj1 alice_world_holds) (proj2 (proj2 alice_world_holds)) _ _ _ _) []).
  - left. exists []. eexists. split; vm_compute; reflexivity.
  - apply rtc_refl.
  - exact (by_password alice_id alice_world w2 "new" eq_refl).
  - apply rtc_refl.
Defined.

(** [RoleDAO.delete_roles], the portal's deletion, leaves every user row as it was: no
    token version changes. *)
Lemma bulk_role_deletion_voids_no_token {R} {RD : Redis R} {ST : Settings} ids (w : World R) :
  users (db (snd (delete_roles ids w))) = users (db w).
Proof.
  set (P := fun w' : World R => users (db w') = users (db w)).
  cut (preserves P (delete_roles ids)); [intros H; by apply H|].
  unfold delete_roles, invalidating. apply preserves_bind.
  - destruct ids; [apply preserves_ret|]. apply preserves_bind; [|intros; apply preserves_ret].
    intros w0 H0. unfold db_write_on_read_pool. by destruct (replica w0).
  - intros n. apply preserves_bind; [|intros; apply preserves_ret].
    apply preserves_try; [|intros; apply preserves_ret]. simpl.
    intros w0 H0. unfold redis_del, redis_command, bind. by destruct (faults w0) as [|[] l].
Qed.

(** Alice's token after the portal deleted the role she signed in with. *)
Example alice_token_outlives_bulk_deletion :
  is_ok (fst (get_current_user ["users:update"] alice_access alice_world)) = true /\
  is_ok (fst (get_current_user [] alice_access (snd (delete_roles [editor_id] alice_world)))) = true.
Proof. vm_compute. by split. Qed.

(** ** The life of a token *)

Section life_cycle.
Context {R : Type} {RD : Redis R} {EX : Ext} {EL : ExtLaws} {ST : Settings}.
Implicit Types w : World R.

(** C4: a token made by [_create_token] verifies, in any later state, exactly as
    the type it was made for, before its expiry and while its [jti] is not on
    the blacklist of that type; it then yields the claims it was made from.  An
    access token never passes as a refresh or sudo token, nor the reverse. *)
Theorem created_token_verifies_as_its_type data e ty d u i w w1 w2 ty' :
  _create_token data e ty w = (Ok d, w1) -> c_sub data = Some u -> c_id data = Some i ->
  faults w2 = [] ->
  verify_token (token d) ty' w2 =
  (if (now w2 <? e) && token_types_eqb ty ty' then
     match r_get (now w2) (blacklist_key ty (td_jti d)) (redis w2) with
     | None => Ok (token_data_of (stamp data e (token_type_value ty) (td_jti d)) u i e (td_jti d)
                     (token_type_value ty))
     | Some _ => Err (HTTPException 401 (revoked_detail ty))
     end
   else Err invalid_credentials, w2).
Proof. rewrite create_token_run. intros [= <- <-] Hu Hi Hf. by apply verify_stamped. Qed.

End life_cycle.

(** ** Revoking a session *)

Section revoke.
Context {R : Type} {RD : Redis R} {RL : RedisLaws R} {EX : Ext} {EL : ExtLaws} {ST : Settings}.
Implicit Types w : World R.

(** The state a revocation leaves. *)
Definition revoked_state (k : uuid) (s : UserSession) (w : World R) : World R :=
  let ttl := s_expires_at s - now w in
  set_redis (r_set (now w) (blacklist_key REFRESH (jti s)) (RText "1") (Some ttl))
    (set_redis (r_set (now w) (blacklist_key ACCESS (jti s)) (RText "1") (Some ttl))
      (set_db (set_sessions (delete k)) w)).

Lemma revoke_user_session_run k s w :
  wf (db w) -> user_sessions (db w) !! k = Some s -> replica w = None -> faults w = [] ->
  now w < s_expires_at s ->
  revoke_user_session (s_user_id s) (jti s) w = (Ok tt, revoked_state k s w).
Proof.
  intros W Hs Hr Hf Hlt. pose proof (sessions_keyed _ (wf_sessions _ W) _ _ Hs) as Hk.
  unfold revoke_user_session, dao_revoke_user_session, bind, gets, db_write_on_read_pool.
  rewrite Hr. unfold db_write, delete_session. rewrite (session_by_jti _ k s (wf_sessions _ W) Hs).
  cbn [ret]. destruct (Z.eqb_spec (s_expires_at s - now w) 0); [lia|].
  unfold blacklist_session, gather2, redis_set, redis_command.
  cbn [faults set_db]. rewrite Hf. destruct (Z.leb_spec (s_expires_at s - now w) 0); [lia|].
  cbn [faults set_db set_redis now redis]. rewrite Hf.
  destruct (Z.leb_spec (s_expires_at s - now w) 0); [lia|]. unfold revoked_state. by rewrite Hk.
Qed.


Lemma revoked_state_other k s w t ty j :
  j <> jti s ->
  r_get t (blacklist_key ty j) (redis (revoked_state k s w)) = r_get t (blacklist_key ty j) (redis w).
Proof.
  intros Hj. unfold revoked_state. cbn [redis set_redis set_db now].
  by rewrite !get_set_ne by (intros [_ ?]%blacklist_key_inj; congruence).
Qed.


(** The refresh token of a login outlives the revocation of its session: the
    revocation blacklists the [jti] of the access token under both types, but
    the refresh token was made with a [jti] of its own. *)
Theorem refresh_token_survives_revocation user rq w r w1 t1 k s :
  issue_tokens_and_session user rq w = (Ok r, w1) ->
  wf (db w1) -> user_sessions (db w1) !! k = Some s -> jti s = uuid4 (drawn w) ->
  replica w = None -> faults w = [] ->
  now w <= t1 -> t1 < s_expires_at s -> t1 < now w + REFRESH_TOKEN_EXPIRE_DAYS * 86400 ->
  r_get t1 (blacklist_key REFRESH (uuid4 (S (drawn w)))) (redis w) = None ->
  exists w2, revoke_user_session (s_user_id s) (jti s) (set_now t1 w1) = (Ok tt, w2) /\
    exists td, verify_token (refresh_token_str (lr_token r)) REFRESH w2 = (Ok td, w2) /\
      t_id td = Some (u_id (ud_user user)).
Proof.
  intros Hi W Hs Hj Hr Hf Ht Hlt Hre Hb. apply issue_inv in Hi as (-> & t' & _ & ->).
  set (w1 := set_now t1 _) in *. exists (revoked_state k s w1).
  split; [by apply revoke_user_session_run|].
  pose proof (verify_stamped (user_claims user) (now w + REFRESH_TOKEN_EXPIRE_DAYS * 86400) REFRESH REFRESH
    (uuid4 (S (drawn w))) (username (ud_user user)) (u_id (ud_user user)) (revoked_state k s w1)
    Hf eq_refl eq_refl) as Hv.
  rewrite revoked_state_other in Hv by (rewrite Hj; intros ?%uuid4_inj; lia).
  change (now (revoked_state k s w1)) with t1 in Hv.
  replace (t1 <? _) with true in Hv by (symmetry; apply Z.ltb_lt; lia). simpl in Hv.
  change (redis w1) with (redis w) in Hv. rewrite Hb in Hv. eexists. split; [exact Hv|done].
Qed.
End revoke.

(** ** Witnesses *)

Definition sample_claims : Claims := user_claims (user_of alice_id site).

Lemma created_token_verifies_as_its_type_witness :
  let d := {| token := jwt_encode (stamp sample_claims 5000 "access" (uuid4 (drawn site))) SECRET_KEY;
              expires_at := 5000; td_jti := uuid4 (drawn site) |} in
  verify_token (token d) SUDO site = (Err invalid_credentials, site) /\
  exists td, verify_token (token d) ACCESS site = (Ok td, site).
Proof.
  intros d. split.
  - refine (eq_trans (created_token_verifies_as_its_type sample_claims 5000 ACCESS d "alice" alice_id site
      (set_drawn (S (drawn site)) site) site SUDO eq_refl _ _ _) _); vm_compute; reflexivity.
  - eexists. refine (eq_trans (created_token_verifies_as_its_type sample_claims 5000 ACCESS d "alice" alice_id site
      (set_drawn (S (drawn site)) site) site ACCESS eq_refl _ _ _) _); vm_compute; reflexivity.
Defined.

(** What a login answers, and the state it leaves. *)
Definition sample_login : LoginResponse :=
  {| lr_token := {| access_token := jwt_encode (access_claims (user_of alice_id site) site) SECRET_KEY;
       refresh_token_str := jwt_encode (refresh_claims (user_of alice_id site) site) SECRET_KEY |};
     lr_user := user_of alice_id site |}.
Definition sample_world : World MapRedis.t := snd (issue_tokens_and_session (user_of alice_id site) browser site).


Lemma sample_wf : wf (db sample_world).
Proof.
  pose proof (keep_issue wf_fresh None 1000 (user_of alice_id site) browser site site_holds) as (_ & _ & W & _).
  exact W.
Qed.

Definition sample_sid : uuid := uuid7 (S (S (drawn site))).
Definition sample_session : UserSession :=
  {| s_id := sample_sid; jti := uuid4 (drawn site); s_user_id := alice_id; issued_at := 1000;
     s_expires_at := 1000 + 336 * 60; ip_address := Some "10.0.0.1"; user_agent := Some "Firefox";
     s_created_at := 1000; s_updated_at := 1000 |}.


Lemma refresh_token_survives_revocation_witness :
  exists w2, revoke_user_session alice_id (uuid4 (drawn site)) (set_now 2000 sample_world) = (Ok tt, w2) /\
    exists td, verify_token (refresh_token_str (lr_token sample_login)) REFRESH w2 = (Ok td, w2) /\
      t_id td = Some alice_id.
Proof.
  refine (refresh_token_survives_revocation (user_of alice_id site) browser site sample_login sample_world 2000 sample_sid sample_session
    _ sample_wf _ _ _ _ _ _ _ _); try (vm_compute; reflexivity); vm_compute; discriminate.
Defined.

(** The refresh itself: a new login after the revocation. *)
Example refresh_after_revocation :
  is_ok (fst (refresh_token (refresh_token_str (lr_token sample_login)) browser
    (snd (revoke_user_session alice_id (uuid4 (drawn site)) (set_now 2000 sample_world))))) = true.
Proof. vm_compute. reflexivity. Qed.
