(* ===== verification/IdentityProps.v ===== *)
(** * Properties of sudo tokens, impersonation and OAuth *)

From Stdlib Require Import ZArith Lia Ascii String List Bool.
From stdpp Require Import base gmap strings list pretty.
From S2P Require Import Prelude Schema Redis World Concrete Tokens Users Cache AppConfig Roles Totp Auth Routes.
From S2P Require Import Invariants System Scenario AuthLemmas.
Local Open Scope string_scope.
Local Open Scope list_scope.
Local Open Scope Z_scope.

(** ** Sudo tokens *)

Section sudo.
Context {R : Type} {RD : Redis R} {EX : Ext} {EL : ExtLaws} {ST : Settings} {GO : Google}.
Implicit Types w : World R.

Definition by_name (name : string) (u : User) : bool := String.eqb (username u) name.

Lemma find_user_elem P t u : find_user P t = Some u -> exists k, users t !! k = Some u /\ P u = true.
Proof.
  unfold find_user. intros H%head_Some_elem_of. apply list_elem_of_filter in H as [HP [k Hk]%elem_of_values].
  eauto.
Qed.

Lemma create_sudo_inv name pw w r w' :
  create_sudo_token_user name pw w = (Ok r, w') ->
  exists u, find_user (by_name name) (read_view w) = Some u /\
    verify_password pw (hashed_password u) = true /\
    sudo_token r = jwt_encode (stamp (sudo_claims u) (now w + SUDO_TOKEN_EXPIRE_MINUTES * 60) "sudo"
                     (uuid4 (drawn w))) SECRET_KEY /\
    w' = set_drawn (S (drawn w)) w.
Proof.
  unfold create_sudo_token_user. intros H. apply bind_ok_inv in H as (o & w1 & Ho & H).
  injection Ho as <- <-. fold (by_name name) in *.
  destruct (find_user (by_name name) (read_view w)) as [u|] eqn:E; [|done].
  simpl in H. apply bind_ok_inv in H as ([] & w2 & Hp & H). apply raise_if_ok_inv in Hp as [Hp ->].
  injection H as <- <-. exists u. repeat split. by apply negb_false_iff.
Qed.

(** The sudo token issued for a password carries no token version, and the
    dependency reads a missing version as 1: the token is accepted, until it
    expires, exactly when the user's token version is 1.  After the first
    password or role change a user can no longer use any sudo token. *)
Theorem sudo_token_accepted_iff_version_one name pw w r w' u t :
  wf (db w) -> replica w = None -> faults w = [] ->
  find_user (by_name name) (db w) = Some u ->
  create_sudo_token_user name pw w = (Ok r, w') ->
  r_get t (blacklist_key SUDO (uuid4 (drawn w))) (redis w) = None ->
  fst (get_sudo_user (sudo_token r) (set_now t w')) =
  if t <? now w + SUDO_TOKEN_EXPIRE_MINUTES * 60 then
    if token_version u =? 1 then Ok (user_data (db w) u) else Err credentials_exception
  else Err invalid_credentials.
Proof.
  intros W Hr Hf Hu Hc Hb. apply create_sudo_inv in Hc as (u' & Hu' & _ & -> & ->).
  unfold read_view in Hu'. rewrite Hr in Hu'. simpl in Hu'. rewrite Hu in Hu'. injection Hu' as <-.
  set (w' := set_now t _).
  assert (read_view w' = db w) as Hrv by (unfold read_view; simpl; by rewrite Hr).
  pose proof (users_keyed _ (wf_users _ W)) as K.
  destruct (find_user_elem _ _ _ Hu) as (k & Hk & _). pose proof (K _ _ Hk) as <-.
  pose proof (verify_stamped (sudo_claims u) (now w + SUDO_TOKEN_EXPIRE_MINUTES * 60)
    SUDO SUDO (uuid4 (drawn w)) (username u) (u_id u) w' Hf eq_refl eq_refl) as Hv.
  change (now w') with t in Hv. change "sudo" with (token_type_value SUDO).
  unfold get_sudo_user. unfold bind at 1. rewrite Hv.
  destruct (t <? _); [|done]. simpl andb. cbv iota. change (redis w') with (redis w). rewrite Hb.
  cbn [t_id token_data_of]. unfold get_user_by_id. unfold bind at 1 2.
  rewrite get_by_id_run by (by rewrite Hrv). rewrite Hrv, Hk. cbn. unfold bind, raise_if.
  by destruct (token_version u =? 1).
Qed.

(** The endpoint that should give an OAuth user a sudo token never does: the
    user it builds of the token data has the empty e-mail address, which the
    user model rejects, and the handler turns that into an error. *)
Theorem google_sudo_token_never_issued tok access w :
  exists e, fst (google_sudo_token tok access w) = Err e.
Proof.
  destruct (google_sudo_token tok access w) as [[r|e] w'] eqn:E; [exfalso|by exists e].
  unfold google_sudo_token in E. apply bind_ok_inv in E as ([] & w1 & _ & E).
  apply bind_ok_inv in E as (u & w2 & E & _). unfold try_catch in E.
  destruct (bind _ _ w1) as [[u'|e] w3] eqn:E' in E; [|done]. clear E.
  apply bind_ok_inv in E' as (td & w4 & _ & E'). apply bind_ok_inv in E' as (t0 & w5 & _ & E').
  unfold google_sudo_user in E'. rewrite email_not_empty in E'. by destruct (t_id td).
Qed.
End sudo.

(** ** OAuth *)

Section oauth.
Context {R : Type} {RD : Redis R} {EX : Ext} {EL : ExtLaws} {ST : Settings}.
Implicit Types w : World R.

(** The google identity is linked to the user. *)
Definition linked (t : Tables) (sub : string) (id : uuid) : Prop :=
  exists i, i ∈ user_identities t /\ provider i = "google" /\ provider_user_id i = sub /\ i_user_id i = id.

Lemma get_by_google_sub_inv sub w o w' :
  get_by_google_sub sub w = (Ok o, w') -> w' = w /\
  forall user, o = Some user -> linked (read_view w) sub (u_id (ud_user user)).
Proof.
  intros H. injection H as <- <-. split; [done|]. intros user Hu.
  destruct (find_user _ (read_view w)) as [u|] eqn:E; [|done]. injection Hu as <-.
  apply find_user_elem in E as (k & _ & HP). apply existsb_exists in HP as (i & Hi & HP).
  rewrite !andb_true_iff, !String.eqb_eq in HP. exists i. rewrite list_elem_of_In. naive_solver.
Qed.

Lemma get_by_email_inv mail w o w' :
  get_by_email mail w = (Ok o, w') -> w' = w /\ forall user, o = Some user -> email (ud_user user) = mail.
Proof.
  intros H. injection H as <- <-. split; [done|]. intros user Hu.
  destruct (find_user _ (read_view w)) as [u|] eqn:E; [|done]. injection Hu as <-.
  apply find_user_elem in E as (k & _ & HP). by apply String.eqb_eq in HP.
Qed.

(** Reading and drawing leave the tables. *)
Lemma username_attempts_inv n name w a w' :
  username_attempts n name w = (Ok a, w') ->
  db w' = db w /\ replica w' = replica w /\ (drawn w <= drawn w' <= drawn w + 4 * n)%nat /\
  find_user (fun u => String.eqb (username u) a) (read_view w) = None /\
  exists sfx, a = name +:+ "-" +:+ sfx.
Proof.
  revert w. induction n as [|n IH]; intros w; [done|]. cbn [username_attempts]. intros H.
  apply bind_ok_inv in H as (sfx & w1 & Hs & H). injection Hs as <- <-.
  apply bind_ok_inv in H as (o & w2 & Ho & H). injection Ho as <- <-.
  cbn [read_view db replica set_drawn drawn] in H.
  destruct (find_user _ _) as [u|] eqn:E in H; simpl in H.
  - apply IH in H as (H1 & H2 & H3 & H4 & H5). cbn [db replica drawn set_drawn] in *.
    repeat split; try done; try lia.
  - injection H as <- <-. repeat split; simpl; try lia; try done. eauto.
Qed.

Lemma generate_username_inv base w a w' :
  _generate_unique_username base w = (Ok a, w') ->
  db w' = db w /\ replica w' = replica w /\ (drawn w <= drawn w' <= drawn w + 400)%nat /\
  find_user (fun u => String.eqb (username u) a) (read_view w) = None /\
  (a = slugify base \/ exists sfx, a = slugify base +:+ "-" +:+ sfx).
Proof.
  unfold _generate_unique_username. intros H. apply bind_ok_inv in H as (o & w1 & Ho & H).
  injection Ho as <- <-.
  destruct (find_user _ _) as [u|] eqn:E in H; cbn [fmap option_fmap option_map] in H.
  - apply username_attempts_inv in H as (H1 & H2 & H3 & H4 & H5).
    split; [done|]. split; [done|]. split; [lia|]. split; [done|]. by right.
  - injection H as <- <-. split; [done|]. split; [done|]. split; [lia|]. split; [done|]. by left.
Qed.

(** A name some user has. *)
Definition taken (w : World R) (name : string) : Prop :=
  exists k u, users (read_view w) !! k = Some u /\ username u = name.

Definition char_at (d : nat) : string :=
  match String.get (rnd d mod 36) "abcdefghijklmnopqrstuvwxyz0123456789" with
  | Some c => String c EmptyString
  | None => EmptyString
  end.

Definition suffix_at (d : nat) : string :=
  char_at d +:+ char_at (S d) +:+ char_at (S (S d)) +:+ char_at (S (S (S d))).

(** The [i]-th name to try: the slug with four characters drawn for it. *)
Definition candidate (slug : string) (w : World R) (i : nat) : string :=
  slug +:+ "-" +:+ suffix_at (drawn w + 4 * i).

Lemma candidate_later slug w i j :
  candidate slug (set_drawn (drawn w + 4 * i)%nat w) j = candidate slug w (i + j).
Proof. unfold candidate. cbn [drawn set_drawn]. by replace (drawn w + 4 * i + 4 * j)%nat with (drawn w + 4 * (i + j))%nat by lia. Qed.

Lemma find_username w name :
  match find_user (fun u => String.eqb (username u) name) (read_view w) with
  | Some _ => taken w name
  | None => ~ taken w name
  end.
Proof.
  destruct (find_user _ (read_view w)) as [u|] eqn:E.
  - apply find_user_elem in E as (k & Hk & Hn%String.eqb_eq). by exists k, u.
  - intros (k & u & Hu & He). unfold find_user in E. apply head_None in E.
    eapply (filter_nil_not_elem_of _ _ u E); [by apply String.eqb_eq|]. apply elem_of_values. eauto.
Qed.

Lemma random_suffix_run w :
  random_suffix w = (Ok (suffix_at (drawn w)), set_drawn (drawn w + 4)%nat w).
Proof.
  unfold random_suffix, random_char, suffix_at, char_at, alphabet, bind, draw, ret. cbn [drawn set_drawn].
  unfold set_drawn. cbn. rewrite (Nat.add_comm _ 4). reflexivity.
Qed.

Lemma username_attempts_run n slug w :
  (exists i, (i < n)%nat /\ ~ taken w (candidate slug w i) /\ (forall j, (j < i)%nat -> taken w (candidate slug w j)) /\
     username_attempts n slug w = (Ok (candidate slug w i), set_drawn (drawn w + 4 * S i)%nat w)) \/
  (forall j, (j < n)%nat -> taken w (candidate slug w j)) /\
    username_attempts n slug w =
    (Err (ValueErr "Could not generate a unique username after 100 attempts."), set_drawn (drawn w + 4 * n)%nat w).
Proof.
  revert w. induction n as [|n IH]; intros w.
  - right. split; [lia|]. rewrite Nat.add_0_r. by destruct w.
  - set (w1 := set_drawn (drawn w + 4 * 1)%nat w).
    assert (username_attempts (S n) slug w =
      match find_user (fun u => String.eqb (username u) (candidate slug w 0)) (read_view w) with
      | Some _ => username_attempts n slug w1 | None => (Ok (candidate slug w 0), w1) end) as ->.
    { cbn [username_attempts]. rewrite (bind_ok _ _ _ _ _ (random_suffix_run w)).
      unfold candidate. rewrite Nat.mul_0_r, Nat.add_0_r.
      unfold bind at 1, get_by_username, _get_user_with_roles, db_read, gets.
      change (read_view (set_drawn (drawn w + 4)%nat w)) with (read_view w).
      by destruct (find_user _ _). }
    pose proof (find_username w (candidate slug w 0)) as H. destruct (find_user _ _).
    + assert (forall j, candidate slug w1 j = candidate slug w (S j)) as Hc by (intros j; apply (candidate_later slug w 1 j)).
      assert (forall k, set_drawn (drawn w1 + 4 * k)%nat w1 = set_drawn (drawn w + 4 * S k)%nat w) as Hw.
      { intros k. unfold w1, set_drawn. cbn. f_equal. lia. }
      destruct (IH w1) as [(i & Hi & Hf & Hj & Hr)|[Hj Hr]]; rewrite Hr, Hw.
      * left. exists (S i). rewrite <- Hc. split; [lia|]. split; [done|]. split; [|done].
        intros [|j] Hlt; [done|]. rewrite <- Hc. apply Hj. lia.
      * right. split; [|done]. intros [|j] Hlt; [done|]. rewrite <- Hc. apply Hj. lia.
    + left. exists 0%nat. split; [lia|]. split; [done|]. split; [lia|done].
Qed.

(** C39: [_generate_unique_username], in every case: the slug of the name when no user
    has it; otherwise the first of 100 candidates, the slug with a dash and four
    characters drawn from a to z and 0 to 9, that no user has; and only when the slug and all 100
    candidates are taken it raises [ValueError].  Nothing but the draws changes. *)
Theorem generated_username_is_free base w :
  let slug := slugify base in
  (~ taken w slug /\ _generate_unique_username base w = (Ok slug, w)) \/
  (taken w slug /\ exists i, (i < 100)%nat /\ ~ taken w (candidate slug w i) /\
     (forall j, (j < i)%nat -> taken w (candidate slug w j)) /\
     _generate_unique_username base w = (Ok (candidate slug w i), set_drawn (drawn w + 4 * S i)%nat w)) \/
  (taken w slug /\ (forall j, (j < 100)%nat -> taken w (candidate slug w j)) /\
     _generate_unique_username base w =
     (Err (ValueErr "Could not generate a unique username after 100 attempts."), set_drawn (drawn w + 4 * 100)%nat w)).
Proof.
  intros slug. pose proof (find_username w slug) as H.
  assert (_generate_unique_username base w =
    match find_user (fun u => String.eqb (username u) slug) (read_view w) with
    | Some _ => username_attempts 100 slug w | None => (Ok slug, w) end) as ->.
  { unfold _generate_unique_username, bind, get_by_username, _get_user_with_roles, db_read, gets.
    by destruct (find_user _ _). }
  destruct (find_user _ _); [right|by left].
  destruct (username_attempts_run 100 slug w) as [(i & Hi & Hf & Hj & Hr)|[Hj Hr]]; [left|right]; (split; [done|]).
  - by exists i.
  - by split.
Qed.

(** A user created from Google is a new one. *)
Lemma create_from_google_new gi w user w' :
  create_from_google gi w = (Ok user, w') -> exists n, (drawn w <= n)%nat /\ u_id (ud_user user) = uuid7 n.
Proof.
  unfold create_from_google. intros H. apply bind_ok_inv in H as (base & w1 & Hb & H).
  assert (w1 = w) as ->.
  { destruct (or_opt (gi_name gi) None); [by injection Hb as _ <-|].
    destruct (gi_email gi); [by injection Hb as _ <-|done]. }
  apply bind_ok_inv in H as (name & w2 & Hn & H). apply generate_username_inv in Hn as (_ & _ & Hd & _).
  destruct (gi_email gi) as [mail|]; [|done]. unfold create_user_oauth in H.
  apply bind_ok_inv in H as (u & w3 & Hu & H). apply bind_ok_inv in H as ([] & w4 & _ & H).
  injection H as <- <-. simpl. unfold create_user_row, bind, draw, gets, db_write, insert_user in Hu.
  simpl in Hu. destruct (check_user_unique _ _) in Hu; simpl in Hu; [|done]. injection Hu as <- _.
  exists (drawn w2). split; [lia|done].
Qed.

(** C32: a Google login signs in to an account that existed before only when the
    Google identity is linked to it already, or when Google vouches for the
    e-mail address of that account: an unverified address never takes over an
    account. *)
Theorem google_login_needs_link_or_verified_email gi w user w' :
  wf_fresh (db w) (drawn w) -> replica w = None ->
  handle_google_oauth gi w = (Ok user, w') ->
  is_Some (users (db w) !! u_id (ud_user user)) ->
  linked (db w) (gi_sub gi) (u_id (ud_user user)) \/
  (gi_email_verified gi = Some true /\ gi_email gi = Some (email (ud_user user))).
Proof.
  intros [W F] Hr H Hold.
  assert (forall w1, w1 = w -> create_from_google gi w1 = (Ok user, w') -> False) as Hnew.
  { intros w1 -> Hc. apply create_from_google_new in Hc as (n & Hn & Hid).
    destruct (F n Hn) as (F1 & _). rewrite Hid, F1 in Hold. by destruct Hold. }
  assert (read_view w = db w) as Hrv by (unfold read_view; by rewrite Hr).
  unfold handle_google_oauth in H. apply bind_ok_inv in H as (o & w1 & Ho & H).
  apply get_by_google_sub_inv in Ho as [-> Hl]. rewrite Hrv in Hl.
  destruct o as [x|]; [injection H as -> <-; left; by apply Hl|].
  destruct (or_opt (gi_email gi) None) as [mail|] eqn:Em; [|by destruct (Hnew w)].
  apply bind_ok_inv in H as (o & w2 & Ho & H). apply get_by_email_inv in Ho as [-> He].
  destruct o as [x|]; [|by destruct (Hnew w)].
  destruct (gi_email_verified gi) as [[]|] eqn:Ev; simpl in H; try (by destruct (Hnew w)).
  apply bind_ok_inv in H as ([] & w3 & _ & H). injection H as -> <-. right. split; [done|].
  rewrite (He _ eq_refl). unfold or_opt in Em. destruct (gi_email gi) as [m|]; [|done].
  destruct (truthy m); [|done]. congruence.
Qed.
End oauth.

(** ** Impersonation *)

Section impersonation.
Context {R : Type} {RD : Redis R} {RL : RedisLaws R} {EX : Ext} {EL : ExtLaws} {ST : Settings} {GO : Google}.
Implicit Types w : World R.

Definition imp_claims (admin target : UserData) (dur : Z) (w : World R) : Claims :=
  stamp (impersonation_claims admin target) (now w + dur * 60) "access" (uuid4 (drawn w)).

(** The audit entry of a start. *)
Definition start_entry (admin target : UserData) (reason : string) (dur : Z) (j : string)
  (ip : option string) : AuditEntry :=
  {| a_actor := u_id (ud_user admin); a_impersonator := Some (u_id (ud_user admin));
     a_action := "USER_IMPERSONATION_START"; a_resource := "user";
     a_resource_id := u_id (ud_user target);
     a_details := JObj [("reason", JStr reason); ("target_username", JStr (username (ud_user target)));
                        ("jti", JStr j); ("duration_minutes", JNum dur)];
     a_ip := ip |}.

(** The audit logger given an actor that is not empty. *)
Lemma audit_log_run action res rid details a i rq w :
  truthy a = true -> truthy i = true ->
  exists ip, audit_log action res rid (Some details) (Some a) (Some i) rq w =
    (Ok tt, add_audit {| a_actor := a; a_impersonator := Some i; a_action := action; a_resource := res;
                         a_resource_id := rid; a_details := details; a_ip := ip |} w).
Proof.
  intros Ha Hi. unfold audit_log, bind, gets, or_opt. rewrite Ha, Ha, Hi, Ha, Hi. simpl.
  eexists. reflexivity.
Qed.

Lemma impersonate_inv admin tid reason rq dur w r w' :
  truthy (u_id (ud_user admin)) = true ->
  impersonate_user admin tid reason rq dur w = (Ok r, w') ->
  or_opt (ctx_impersonator w) None = None /\ u_id (ud_user admin) <> tid /\ 0 < dur * 60 /\
  exists u ip, find_user (fun u => String.eqb (u_id u) tid) (read_view w) = Some u /\
    is_active u = true /\ is_privileged (user_data (read_view w) u) = false /\
    r = {| im_token := {| access_token := jwt_encode (imp_claims admin (user_data (read_view w) u) dur w) SECRET_KEY;
                          refresh_token_str := "" |};
           im_target_user := user_data (read_view w) u;
           im_impersonator := (u_id (ud_user admin), username (ud_user admin));
           im_expires_at := now w + dur * 60 |} /\
    audit w' = audit w ++ [start_entry admin (user_data (read_view w) u) reason dur (uuid4 (drawn w)) ip] /\
    db w' = db w /\ replica w' = replica w /\ now w' = now w /\
    (faults w = [] -> faults w' = []) /\
    forall ty j t, r_get t (blacklist_key ty j) (redis w') = r_get t (blacklist_key ty j) (redis w).
Proof.
  intros Htr H. unfold impersonate_user in H. apply bind_ok_inv in H as (imp & w0 & Hg & H).
  injection Hg as <- <-. apply bind_ok_inv in H as ([] & w0 & Hg & H).
  apply raise_if_ok_inv in Hg as [Himp ->]. apply bool_decide_eq_false in Himp.
  rewrite <- eq_None_not_Some in Himp.
  apply bind_ok_inv in H as ([] & w0 & Hg & H). apply raise_if_ok_inv in Hg as [Hne ->].
  apply String.eqb_neq in Hne. apply bind_ok_inv in H as (o & w0 & Hg & H).
  apply get_by_id_inv in Hg as [-> Ho]. injection Ho as ->.
  destruct (find_user _ (read_view w)) as [u|] eqn:Eu; [|done]. cbn [fmap option_fmap option_map] in H.
  set (target := user_data (read_view w) u) in *.
  apply bind_ok_inv in H as ([] & w0 & Hg & H). apply raise_if_ok_inv in Hg as [Hact ->].
  apply negb_false_iff in Hact. apply bind_ok_inv in H as ([] & w0 & Hg & H).
  apply raise_if_ok_inv in Hg as [Hpriv ->]. apply bind_ok_inv in H as (d & w1 & Hd & H).
  injection Hd as <- <-. apply bind_ok_inv in H as (t & w0 & Hg & H). injection Hg as <- <-.
  apply bind_ok_inv in H as ([] & w2 & Hs & H). apply redis_set_ok_inv in Hs as [Hpos ->].
  apply bind_ok_inv in H as ([] & w3 & Ha & H).
  match type of Ha with audit_log _ _ _ (Some ?dt) (Some ?a) (Some ?i) ?q ?w0 = _ =>
    destruct (audit_log_run "USER_IMPERSONATION_START" "user" (u_id (ud_user target)) dt a i q w0 Htr Htr) as [ip Hrun] end.
  rewrite Hrun in Ha. injection Ha as <-. apply bind_ok_inv in H as ([] & w4 & Hp & H).
  injection H as <- <-. unfold publish in Hp. apply bind_ok_inv in Hp as (eid & w5 & Hn & Hp).
  injection Hn as <- <-. apply bind_ok_inv in Hp as (t5 & w6 & Hn & Hp). injection Hn as <- <-.
  apply redis_command_inv in Hp as [[? _]|Hp]; [done|]. injection Hp as <-.
  split; [done|]. split; [done|]. split; [done|]. exists u, ip.
  repeat split; try done.
  - intros Hf. simpl. by rewrite Hf.
  - intros ty j t. cbn [redis add_event set_faults add_audit set_redis set_drawn].
    by rewrite get_set_ne by apply impersonation_key_ne.
Qed.

(** Audit inserts that the database takes end up in the log in the order they were
    scheduled. *)
Lemma inserts_without_failure failures scheduled audit_logs :
  Forall (fun f => f = None) failures ->
  run_audit_inserts failures scheduled audit_logs = audit_logs ++ scheduled.
Proof.
  revert failures audit_logs. induction scheduled as [|e es IH]; intros fs rows Hf; simpl; [by rewrite app_nil_r|].
  destruct Hf as [|f fs -> Hf]; simpl; rewrite IH by (constructor || done); by rewrite <- app_assoc.
Qed.

(** One that the database refuses is lost without a trace. *)
Lemma refused_insert_is_lost e audit_logs x : run_audit_inserts [Some x] [e] audit_logs = audit_logs.
Proof. done. Qed.

(** C14: an impersonation starts only for another, active user without a
    privileged role and never from inside an impersonation, and it schedules the insert
    of an audit entry under the administrator.  The insert runs in a background task: the
    entry is in the log if the database takes it, and is lost if it does not
    ([refused_insert_is_lost]), the impersonation going on all the same. *)
Theorem impersonation_is_guarded admin tid reason rq dur w r w' :
  truthy (u_id (ud_user admin)) = true ->
  impersonate_user admin tid reason rq dur w = (Ok r, w') ->
  let target := im_target_user r in
  or_opt (ctx_impersonator w) None = None /\ u_id (ud_user target) = tid /\
  u_id (ud_user admin) <> tid /\ is_active (ud_user target) = true /\
  (forall rd, rd ∈ ud_roles target ->
     r_name (rd_role rd) <> "Super Admin" /\ r_name (rd_role rd) <> "Admin") /\
  db w' = db w /\
  exists ip, let e := start_entry admin target reason dur (uuid4 (drawn w)) ip in
    audit w' = audit w ++ [e] /\
    forall failures audit_logs, Forall (fun f => f = None) failures ->
      e ∈ run_audit_inserts failures (audit w') audit_logs.
Proof.
  intros Htr H. apply impersonate_inv in H as (Hi & Hne & _ & u & ip & Hf & Ha & Hp & -> & Hau & Hdb & _); [|done].
  simpl. split; [done|]. split; [by apply find_user_elem in Hf as (k & _ & Hid%String.eqb_eq)|].
  split; [done|]. split; [done|]. split; [|split; [done|]].
  2: { exists ip. split; [done|]. intros fs rows Hfs. rewrite inserts_without_failure, Hau by done. set_solver. }
  intros rd Hrd. unfold is_privileged in Hp. rewrite <- not_true_iff_false, existsb_exists in Hp.
  split; intros Hn; apply Hp; exists rd; rewrite <- list_elem_of_In, mem_true, Hn; (split; [done|]); set_solver.
Qed.

(** While it lasts, an impersonation token acts as the target user with the
    target's permissions, every request made with it is marked with the
    administrator as the impersonator, it is no sudo token, and the endpoints
    closed to impersonation refuse it with 403. *)
Theorem impersonation_token_powers admin tid reason rq dur w r w' t scopes :
  wf (db w) -> replica w = None -> faults w = [] -> truthy (u_id (ud_user admin)) = true ->
  impersonate_user admin tid reason rq dur w = (Ok r, w') ->
  now w <= t -> t < now w + dur * 60 ->
  r_get t (blacklist_key ACCESS (uuid4 (drawn w))) (redis w) = None ->
  let tok := access_token (im_token r) in
  let target := im_target_user r in
  let w2 := set_now t w' in
  get_current_user scopes tok w2 =
    (if forallb (fun s => mem s (_get_user_scopes (ud_roles target))) scopes
     then (Ok target, set_impersonator (Some (u_id (ud_user admin))) (set_actor (Some tid) w2))
     else (Err (HTTPException 403 "Not enough permissions"), w2)) /\
  fst (get_sudo_user tok w2) = Err invalid_credentials /\
  fst (disallow_impersonation tok w2) =
    Err (HTTPException 403 "This operation cannot be performed during an active impersonation session.").
Proof.
  intros W Hr Hf Htr H Ht Hlt Hb.
  apply impersonate_inv in H as (_ & _ & _ & u & ip & Hu & _ & _ & -> & _ & Hdb & Hrep & Hnow & Hfa & Hbl); [|done].
  intros tok target w2. cbn [im_token im_target_user access_token] in tok, target.
  assert (read_view w = db w) as Hrv by (unfold read_view; by rewrite Hr).
  assert (read_view w2 = db w) as Hrv2 by (unfold read_view; simpl; by rewrite Hrep, Hr, Hdb).
  rewrite Hrv in Hu. pose proof (users_keyed _ (wf_users _ W)) as K.
  rewrite find_user_id in Hu by done. pose proof (K _ _ Hu) as Hid.
  assert (forall ty, verify_token tok ty w2 =
    (if token_types_eqb ACCESS ty then
       Ok (token_data_of (imp_claims admin target dur w) (username u) tid (now w + dur * 60) (uuid4 (drawn w)) "access")
     else Err invalid_credentials, w2)) as Hv.
  { intros ty. unfold tok, imp_claims. change "access" with (token_type_value ACCESS).
    rewrite (verify_stamped _ _ ACCESS ty _ (username u) tid w2 (Hfa Hf)); [|done|simpl; by rewrite Hid].
    change (now w2) with t. change (redis w2) with (redis w').
    replace (t <? _) with true by (symmetry; apply Z.ltb_lt; lia). by rewrite Hbl, Hb. }
  split; [|split].
  - unfold get_current_user. rewrite (bind_ok _ _ _ _ _ (Hv ACCESS)). cbn [t_id token_data_of].
    unfold bind at 1. rewrite require_scopes_run. cbn [t_scopes token_data_of imp_claims stamp c_scopes impersonation_claims payload_of default].
    destruct (forallb _ _); [|done]. unfold get_user_by_id.
    assert (get_by_id tid w2 = (Ok (Some target), w2)) as Hg.
    { rewrite get_by_id_run by (by rewrite Hrv2). unfold target. by rewrite Hrv2, Hu, Hrv. }
    unfold bind at 1. rewrite (bind_ok _ _ _ _ _ Hg). simpl. unfold bind, raise_if. rewrite Z.eqb_refl. simpl.
    unfold modify, ret. rewrite Htr, Hid. done.
  - unfold get_sudo_user. by rewrite (bind_err _ _ _ _ _ (Hv SUDO)).
  - unfold disallow_impersonation. by rewrite (bind_ok _ _ _ _ _ (Hv ACCESS)).
Qed.

(** After an impersonation is stopped its token is never accepted again, as
    long as it was to expire within the hour the blacklist entry lasts (the
    duration is 30 minutes). *)
Theorem stopped_impersonation_token_rejected tok w w' td t scopes :
  fst (verify_token tok ACCESS w) = Ok td -> t_exp td <= now w + 3600 ->
  route_stop_impersonation tok w = (Ok tt, w') -> now w <= t ->
  exists e, fst (get_current_user scopes tok (set_now t w')) = Err e.
Proof.
  intros Htd Hexp H Ht. unfold route_stop_impersonation in H.
  apply bind_ok_inv in H as (td' & w1 & Hv & H). rewrite Hv in Htd. injection Htd as ->.
  pose proof (verify_token_ok _ _ _ _ _ Hv) as (p & u & i & e & j & Hd & _ & _ & Hpe & Hpj & _ & _ & -> & ->).
  cbn [t_jti t_exp token_data_of] in *.
  destruct (t_is_impersonation _); [|done]. destruct (or_opt _ None) as [admin|]; [|done].
  unfold stop_impersonation in H. apply bind_ok_inv in H as ([] & w2 & Hs & H).
  apply redis_set_ok_inv in Hs as [_ ->].
  set (P := fun r : R => forall z, now w <= z -> z < now w + 3600 ->
              r_get z (blacklist_key ACCESS j) r = Some (RText "1")).
  match type of H with ?m ?w2 = _ =>
    assert (preserves (redis_prop (now w) P) m) as Hk; [|assert (redis_prop (now w) P w2) as H2] end.
  { assert (forall r, P r -> P (r_del [IMPERSONATION_SESSION j] r)) as Hdel.
    { intros r HP z Hz1 Hz2. rewrite get_del. replace (mem _ _) with false; [by apply HP|].
      symmetry. apply mem_false. rewrite list_elem_of_singleton.
      apply not_eq_sym, impersonation_key_ne. }
    cbv zeta. repeat (intros; lazymatch goal with
      | |- preserves _ (bind _ _) => apply preserves_bind
      | |- preserves _ (match ?x with _ => _ end) => destruct x
      | |- _ => first [apply redis_prop_get | apply redis_prop_audit | apply redis_prop_publish
          | apply preserves_ret | apply preserves_raise | apply redis_prop_del; exact Hdel]
      end). }
  { split; [done|]. intros z Hz1 Hz2. cbn [redis set_redis now set_faults].
    rewrite get_set_eq by done. simpl. by replace (z <? _) with true by (symmetry; apply Z.ltb_lt; lia). }
  specialize (Hk _ H2). rewrite H in Hk. destruct Hk as [_ HP]. simpl in HP.
  destruct (verify_token tok ACCESS (set_now t w')) as [[td2|e2] w3] eqn:E.
  2: { exists e2. apply get_current_user_unverified. by rewrite E. }
  exfalso. apply verify_token_ok in E as (p2 & u2 & i2 & e2' & j2 & Hd2 & _ & _ & Hpe2 & Hpj2 & _ & Hb & _).
  apply jwt_authentic in Hd as ->. cbn [now set_now redis] in *.
  assert (t < e) as Hlive.
  { destruct (Z_lt_le_dec t e); [done|]. by rewrite (jwt_expired p SECRET_KEY t e) in Hd2. }
  apply jwt_authentic in Hd2. assert (p2 = p) as -> by (symmetry; by eapply jwt_encode_inj).
  assert (j2 = j) as -> by congruence. rewrite (HP t) in Hb by lia. done.
Qed.
End impersonation.

(** ** Witnesses *)

(** Alice's version has moved to 2: her new sudo token is refused. *)
Definition changed_site : World MapRedis.t := snd (update_password alice_id "pw-alice" site).

Lemma changed_site_wf : wf (db changed_site).
Proof.
  pose proof (keep_update_password wf_fresh None 1000 alice_id "pw-alice" site site_holds) as (_ & _ & W & _).
  exact W.
Qed.

Definition sudo_of (w : World MapRedis.t) (u : User) : SudoTokenResponse :=
  {| sudo_token := jwt_encode (stamp (sudo_claims u) (now w + 60 * 60) "sudo" (uuid4 (drawn w))) SECRET_KEY;
     expires_in := 60 * 60 |}.

Lemma sudo_token_accepted_iff_version_one_witness :
  (let u := ud_user (user_of alice_id changed_site) in
   fst (create_sudo_token_user "alice" "pw-alice" changed_site) = Ok (sudo_of changed_site u) /\
   fst (get_sudo_user (sudo_token (sudo_of changed_site u))
     (set_now 1001 (set_drawn (S (drawn changed_site)) changed_site))) = Err credentials_exception) /\
  fst (get_sudo_user (sudo_token (sudo_of site (ud_user (user_of alice_id site))))
     (set_now 1001 (set_drawn (S (drawn site)) site))) = Ok (user_of alice_id site).
Proof.
  split; [split; [vm_compute; reflexivity|]|].
  - refine (eq_trans (sudo_token_accepted_iff_version_one "alice" "pw-alice" changed_site
      (sudo_of changed_site (ud_user (user_of alice_id changed_site)))
      (set_drawn (S (drawn changed_site)) changed_site) (ud_user (user_of alice_id changed_site)) 1001
      changed_site_wf _ _ _ _ _) _); vm_compute; reflexivity.
  - refine (eq_trans (sudo_token_accepted_iff_version_one "alice" "pw-alice" site
      (sudo_of site (ud_user (user_of alice_id site)))
      (set_drawn (S (drawn site)) site) (ud_user (user_of alice_id site)) 1001
      (proj1 site_wf) _ _ _ _ _) _); vm_compute; reflexivity.
Defined.

(** Alice's name is taken: the first suffix drawn makes a free one. *)
Example alice_gets_a_suffix :
  _generate_unique_username "Alice" site = (Ok "alice-lmno", set_drawn (drawn site + 4)%nat site).
Proof. vm_compute. reflexivity. Qed.

Definition bob_google : UserInfo :=
  {| gi_sub := "g-1"; gi_email := Some "bob@example.org"; gi_email_verified := Some true; gi_name := None |}.

Lemma google_login_needs_link_or_verified_email_witness :
  linked (db site) "g-1" bob_id \/
  (gi_email_verified bob_google = Some true /\ gi_email bob_google = Some (email (ud_user (user_of bob_id site)))).
Proof.
  refine (google_login_needs_link_or_verified_email bob_google site (user_of bob_id site)
    (snd (handle_google_oauth bob_google site)) site_wf _ _ _).
  - vm_compute. reflexivity.
  - vm_compute. reflexivity.
  - eexists. vm_compute. reflexivity.
Defined.

(** Bob impersonates Alice. *)
Definition bob : UserData := user_of bob_id site.
Definition alice : UserData := user_of alice_id site.
Definition imp_run := impersonate_user bob alice_id "support" browser 30 site.
Definition imp_response : ImpersonationResponse :=
  {| im_token := {| access_token := jwt_encode (imp_claims bob alice 30 site) SECRET_KEY; refresh_token_str := "" |};
     im_target_user := alice; im_impersonator := (bob_id, "bob"); im_expires_at := 2800 |}.
Definition imp_world : World MapRedis.t := snd imp_run.

Lemma imp_run_eq : impersonate_user bob alice_id "support" browser 30 site = (Ok imp_response, imp_world).
Proof. vm_compute. reflexivity. Qed.

Lemma impersonation_is_guarded_witness :
  or_opt (ctx_impersonator site) None = None /\ u_id (ud_user alice) = alice_id /\
  u_id (ud_user bob) <> alice_id /\ is_active (ud_user alice) = true /\
  (forall rd, rd ∈ ud_roles alice -> r_name (rd_role rd) <> "Super Admin" /\ r_name (rd_role rd) <> "Admin") /\
  db imp_world = db site /\
  exists ip, let e := start_entry bob alice "support" 30 (uuid4 (drawn site)) ip in
    audit imp_world = audit site ++ [e] /\
    forall failures audit_logs, Forall (fun f => f = None) failures ->
      e ∈ run_audit_inserts failures (audit imp_world) audit_logs.
Proof.
  exact (impersonation_is_guarded bob alice_id "support" browser 30 site imp_response imp_world
    ltac:(vm_compute; reflexivity) imp_run_eq).
Defined.

Lemma impersonation_token_powers_witness :
  let tok := access_token (im_token imp_response) in
  let w2 := set_now 2000 imp_world in
  get_current_user ["users:update"] tok w2 =
    (Ok alice, set_impersonator (Some bob_id) (set_actor (Some alice_id) w2)) /\
  fst (get_sudo_user tok w2) = Err invalid_credentials /\
  fst (disallow_impersonation tok w2) =
    Err (HTTPException 403 "This operation cannot be performed during an active impersonation session.").
Proof.
  pose proof (impersonation_token_powers bob alice_id "support" browser 30 site imp_response imp_world 2000
    ["users:update"] (proj1 site_wf) ltac:(vm_compute; reflexivity) ltac:(vm_compute; reflexivity)
    ltac:(vm_compute; reflexivity) imp_run_eq ltac:(vm_compute; discriminate) ltac:(vm_compute; reflexivity)
    ltac:(vm_compute; reflexivity)) as (H1 & H2 & H3).
  intros tok w2. split; [|split; [exact H2|exact H3]].
  refine (eq_trans H1 _). vm_compute. reflexivity.
Defined.

Lemma stopped_impersonation_token_rejected_witness :
  (exists user, fst (get_current_user [] (access_token (im_token imp_response)) imp_world) = Ok user) /\
  exists e, fst (get_current_user [] (access_token (im_token imp_response))
    (set_now 1500 (snd (route_stop_impersonation (access_token (im_token imp_response)) imp_world)))) = Err e.
Proof.
  split; [eexists; vm_compute; reflexivity|].
  refine (stopped_impersonation_token_rejected (access_token (im_token imp_response)) imp_world
    (snd (route_stop_impersonation (access_token (im_token imp_response)) imp_world))
    (token_data_of (imp_claims bob alice 30 site) "alice" alice_id 2800 (uuid4 (drawn site)) "access") 1500 []
    _ _ _ _).
  - vm_compute. reflexivity.
  - vm_compute. discriminate.
  - vm_compute. reflexivity.
  - vm_compute. discriminate.
Defined.
