(* ===== verification/TwoFactorProps.v ===== *)
(** * Properties of two-factor authentication *)

From Stdlib Require Import ZArith Lia Ascii String List Bool.
From stdpp Require Import base gmap strings list pretty.
From S2P Require Import Prelude Schema Redis World Concrete Tokens Users Cache AppConfig Roles Totp Auth Routes.
From S2P Require Import Invariants System Scenario AuthLemmas.
Local Open Scope string_scope.
Local Open Scope list_scope.
Local Open Scope Z_scope.

Section two_factor.
Context {R : Type} {RD : Redis R} {RL : RedisLaws R} {EX : Ext} {EL : ExtLaws} {ST : Settings}.
Implicit Types w : World R.

(** ** Keys *)

Lemma challenge_replay_ne c uid s : TWO_FACTOR_REPLAY uid s <> TWO_FACTOR_CHALLENGE c.
Proof. done. Qed.

Lemma replay_key_inj uid s s' : TWO_FACTOR_REPLAY uid s = TWO_FACTOR_REPLAY uid s' -> s = s'.
Proof. unfold TWO_FACTOR_REPLAY. intros H. repeat apply String.app_inj in H. by apply (inj pretty) in H. Qed.

(** ** Login *)

(** C6: on the login route, [AuthService.authenticate_user], the password of a user
    with two-factor enabled never signs in: the login answers a challenge or an error,
    creates no session, and a challenge is given only for the right password and stands
    for that user.  The login of the portal asks for no second factor
    ([AdminProps.portal_asks_no_second_factor]). *)
Theorem two_factor_login_gives_challenge name pw rq w u f o w' :
  find_user (fun u => String.eqb (username u) name) (read_view w) = Some u ->
  user_two_factor (read_view w) !! u_id u = Some f -> is_enabled f = true ->
  authenticate_user name pw rq w = (o, w') ->
  db w' = db w /\ (forall r, o <> Ok (LoggedIn r)) /\
  (forall c, o = Ok (ChallengeRequired c) ->
     verify_password pw (hashed_password u) = true /\
     r_get (now w) (TWO_FACTOR_CHALLENGE c) (redis w') = Some (RText (u_id u))).
Proof.
  intros Hu Hf He H. unfold authenticate_user in H.
  unfold bind at 1, get_by_username, _get_user_with_roles, db_read, gets in H. rewrite Hu in H.
  cbn [fmap option_fmap option_map] in H. unfold bind at 1, raise_if in H.
  destruct (verify_password pw _) eqn:Ev; [|by injection H as <- <-]. simpl in H.
  unfold bind at 1, get_two_factor, db_read, gets in H. simpl in H. rewrite Hf, He in H.
  unfold bind at 1, new_uuid4_hex, new_uuid4, draw in H. simpl in H. unfold bind in H.
  set (c := remove_char "-" (uuid4 (drawn w))) in H.
  destruct (redis_set _ _ _ _) as [[[]|e] w2] eqn:Er in H; unfold ret in H; injection H as <- <-.
  - apply redis_set_ok_inv in Er as [Hpos ->]. split; [done|]. split; [done|].
    intros c' [= <-]. split; [done|]. cbn [redis set_redis set_faults set_drawn now].
    rewrite get_set_eq by lia. simpl. by replace (now w <? _) with true by (symmetry; apply Z.ltb_lt; lia).
  - split; [|done]. unfold redis_set, redis_command in Er.
    destruct (faults _) as [|[] l] in Er; cbn in Er; try (destruct (_ <=? 0) in Er); by injection Er as _ <-.
Qed.

(** ** The code check *)

Lemma decrypt_ok_inv e w s w' : decrypt_secret e w = (Ok s, w') -> fernet_decrypt e = Some s /\ w' = w.
Proof. unfold decrypt_secret. destruct (fernet_decrypt e); [|done]. by intros [= <- <-]. Qed.

(** What the check accepts, and what it leaves. *)
Lemma verify_code_ok uid f code w u w' :
  _verify_2fa_code_or_backup uid f code w = (Ok u, w') ->
  now w' = now w /\ replica w' = replica w /\ users (db w') = users (db w) /\
  (exists secret, fernet_decrypt (secret_encrypted f) = Some secret /\
    (verify_totp_at (now w) secret code 1 = true \/
     verify_totp_at (now w) secret code 1 = false /\ (0 < unused_with (hash_backup_code code) (backup_codes f))%nat)) /\
  forall c t, r_get t (TWO_FACTOR_CHALLENGE c) (redis w') = r_get t (TWO_FACTOR_CHALLENGE c) (redis w).
Proof.
  unfold _verify_2fa_code_or_backup. intros H. apply bind_ok_inv in H as (s & w1 & Hs & H).
  apply decrypt_ok_inv in Hs as [Hs ->]. apply bind_ok_inv in H as (ok & w1 & Hv & H).
  injection Hv as <- <-. destruct (verify_totp_at (now w) s code 1) eqn:Ev.
  - apply bind_ok_inv in H as (t & w2 & Ht & H). injection Ht as <- <-.
    apply bind_ok_inv in H as (seen & w2 & Hg & H). apply redis_get_ok_inv in Hg as [-> ->].
    apply bind_ok_inv in H as ([] & w3 & Hr & H). apply raise_if_ok_inv in Hr as [_ ->].
    apply redis_set_ok_inv in H as [_ ->]. repeat split; try done; [eauto|].
    intros c t. cbn [redis set_redis set_faults]. by rewrite get_set_ne.
  - apply bind_ok_inv in H as ([vb codes] & w2 & Hc & H). unfold verify_and_consume_backup_code in Hc.
    apply bind_ok_inv in Hc as (t & w3 & Ht & Hc). injection Ht as <- <-. injection Hc as Hc <-.
    apply bind_ok_inv in H as ([] & w3 & Hr & H). apply raise_if_ok_inv in Hr as [Hr ->].
    apply negb_false_iff in Hr as ->. injection H as <- <-. repeat split; try done.
    exists s. split; [done|]. right. split; [done|]. by apply consume_code_spec in Hc as [Hc _]; apply Hc.
Qed.

Lemma truthy_text_inv v s : truthy_text v = Some s -> v = Some (RText s).
Proof. unfold truthy_text. destruct v as [[x|j]|]; [|done|done]. by destruct (truthy x); intros [= <-]. Qed.

(** C5: an answer to a challenge that runs alone, no other request between its
    commands, signs in only with a valid one-time code or an unused backup code of the
    user the challenge was issued for; and it uses the challenge up: an answer to it that
    starts in the state it leaves, at whatever time, fails.  Answers that overlap are the
    subject of [ConcurrentProps.answered_challenge_is_closed] and
    [ConcurrentProps.two_answers_at_once_both_sign_in]. *)
Theorem lone_answer_needs_code_and_uses_up_challenge ct code rq w r w' :
  verify_two_factor_challenge ct code rq w = (Ok r, w') ->
  (exists f secret,
     r_get (now w) (TWO_FACTOR_CHALLENGE ct) (redis w) = Some (RText (u_id (ud_user (lr_user r)))) /\
     user_two_factor (read_view w) !! u_id (ud_user (lr_user r)) = Some f /\ is_enabled f = true /\
     fernet_decrypt (secret_encrypted f) = Some secret /\
     (verify_totp_at (now w) secret (strip code) 1 = true \/
      (0 < unused_with (hash_backup_code (strip code)) (backup_codes f))%nat)) /\
  forall t code' rq', exists e, fst (verify_two_factor_challenge ct code' rq' (set_now t w')) = Err e.
Proof.
  intros H. unfold verify_two_factor_challenge in H.
  apply bind_ok_inv in H as (raw & w1 & Hg & H). apply redis_get_ok_inv in Hg as [-> ->].
  destruct (truthy_text _) as [uid|] eqn:Et; [|done]. apply truthy_text_inv in Et.
  apply bind_ok_inv in H as (tf & w2 & Hg & H). injection Hg as <- <-.
  change (read_view (set_faults (tail (faults w)) w)) with (read_view w) in H.
  destruct (user_two_factor (read_view w) !! uid) as [f|] eqn:Ef; [|done].
  apply bind_ok_inv in H as ([] & w2 & Hg & H). apply raise_if_ok_inv in Hg as [He ->].
  apply negb_false_iff in He. apply bind_ok_inv in H as ([] & w3 & Hv & H).
  apply verify_code_ok in Hv as (Hn & Hrep & Hus & (s & Hs & Hok) & Hch).
  apply bind_ok_inv in H as ([] & w4 & Hd & H). unfold redis_del in Hd.
  apply redis_command_inv in Hd as [[? _]|Hd]; [done|]. injection Hd as <-.
  apply bind_ok_inv in H as (o & w5 & Hg & H). apply get_by_id_inv in Hg as [-> Ho]. injection Ho as ->.
  destruct (find_user _ _) as [u|] eqn:Eu in H; [|done]. cbn [fmap option_fmap option_map] in H.
  apply head_Some_elem_of, list_elem_of_filter in Eu as [Hid%String.eqb_eq _].
  apply issue_inv in H as (-> & t' & _ & ->). cbn [lr_user ud_user user_data]. rewrite Hid. split.
  - exists f, s. repeat split; try done. naive_solver.
  - intros t code' rq'. unfold verify_two_factor_challenge.
    match goal with |- context [bind _ _ ?x] => set (wx := x) end.
    unfold bind at 1. destruct (redis_get (TWO_FACTOR_CHALLENGE ct) wx) as [[v|e] w6] eqn:Eg; [|by exists e].
    apply redis_get_ok_inv in Eg as [-> ->]. cbn [redis wx set_now set_db set_drawn set_redis set_faults].
    rewrite get_del. replace (mem _ _) with true; [by eexists|].
    symmetry. apply mem_true. by apply list_elem_of_singleton.
Qed.

(** The check on a text that is no current one-time code. *)
Lemma verify_code_backup_run uid f secret code w :
  fernet_decrypt (secret_encrypted f) = Some secret -> verify_totp_at (now w) secret code 1 = false ->
  _verify_2fa_code_or_backup uid f code w =
  let '(ok, codes) := consume_code (now w) (hash_backup_code code) (backup_codes f) in
  if ok : bool then update_two_factor_backup_codes uid codes w
  else (Err (HTTPException 400 "auth.two_factor_invalid_code_or_backup"), w).
Proof.
  intros Hs Hv. unfold _verify_2fa_code_or_backup, decrypt_secret. rewrite Hs. unfold bind at 1. simpl.
  unfold verify_totp, verify_and_consume_backup_code, bind, gets, raise_if. simpl. rewrite Hv.
  by destruct (consume_code _ _ _) as [[] codes].
Qed.

(** C31: the check of a sign-in or a sudo request, [_verify_2fa_code_or_backup], run
    alone on the user's current row with a code that is no current one-time code: it
    succeeds exactly when an unused copy of the backup code is stored, and then one copy
    is marked used in the database while every other code stays as it was; otherwise it
    fails and changes nothing.  Two checks that overlap can spend one copy together
    ([ConcurrentProps.two_answers_at_once_both_sign_in]), and disabling two-factor or
    regenerating the codes checks a code without spending it. *)
Theorem backup_code_is_spent uid f secret code w :
  user_two_factor (db w) !! uid = Some f -> fernet_decrypt (secret_encrypted f) = Some secret ->
  verify_totp_at (now w) secret code 1 = false ->
  let h := hash_backup_code code in
  if (0 <? unused_with h (backup_codes f))%nat then
    exists f' w', _verify_2fa_code_or_backup uid f code w = (Ok tt, w') /\
      user_two_factor (db w') !! uid = Some f' /\
      is_enabled f' = is_enabled f /\ secret_encrypted f' = secret_encrypted f /\
      S (unused_with h (backup_codes f')) = unused_with h (backup_codes f) /\
      (forall h', h' <> h -> unused_with h' (backup_codes f') = unused_with h' (backup_codes f)) /\
      (forall uid', uid' <> uid -> user_two_factor (db w') !! uid' = user_two_factor (db w) !! uid')
  else _verify_2fa_code_or_backup uid f code w =
         (Err (HTTPException 400 "auth.two_factor_invalid_code_or_backup"), w).
Proof.
  intros Hf Hs Hv h. rewrite (verify_code_backup_run uid f secret code w Hs Hv). fold h.
  destruct (consume_code (now w) h (backup_codes f)) as [ok codes'] eqn:Ec.
  destruct (consume_code_spec _ _ _ _ _ Ec) as (H1 & H2 & H3 & H4 & H5).
  destruct (Nat.ltb_spec 0 (unused_with h (backup_codes f))) as [Hlt|Hge].
  - assert (ok = true) as -> by (by apply H1).
    eexists _, _. split; [reflexivity|]. simpl. rewrite lookup_alter_eq, Hf. simpl.
    split; [reflexivity|]. repeat split; try done; [simpl; lia|].
    intros uid' Hne. by rewrite lookup_alter_ne.
  - destruct ok; [|done]. assert (0 < unused_with h (backup_codes f))%nat by (by apply H1). lia.
Qed.

(** ** One-time codes *)

(** The check on a current one-time code. *)
Lemma verify_code_totp_run uid f secret code w :
  faults w = [] -> fernet_decrypt (secret_encrypted f) = Some secret ->
  verify_totp_at (now w) secret code 1 = true ->
  let key := TWO_FACTOR_REPLAY uid (now w / 30) in
  _verify_2fa_code_or_backup uid f code w =
  if match r_get (now w) key (redis w) with Some v => rval_truthy v | None => false end
  then (Err replay_detected, w)
  else (Ok tt, set_redis (r_set (now w) key (RText "1") (Some 60)) w).
Proof.
  intros Hf Hs Hv key. unfold _verify_2fa_code_or_backup, decrypt_secret. rewrite Hs. unfold bind at 1.
  unfold verify_totp, bind, gets, raise_if, ret. rewrite Hv, redis_get_run by done. fold key.
  destruct (match r_get _ _ _ with Some v => _ | None => _ end); [done|].
  by apply redis_set_run.
Qed.

(** Once a one-time code was accepted, no one-time code of that user is
    accepted again in the same 30-second slice. *)
Theorem totp_replay_in_slice_rejected uid f secret code code' w w' t :
  faults w = [] -> fernet_decrypt (secret_encrypted f) = Some secret ->
  verify_totp_at (now w) secret code 1 = true ->
  _verify_2fa_code_or_backup uid f code w = (Ok tt, w') ->
  now w <= t -> t / 30 = now w / 30 -> verify_totp_at t secret code' 1 = true ->
  fst (_verify_2fa_code_or_backup uid f code' (set_now t w')) = Err replay_detected.
Proof.
  intros Hf Hs Hv H Ht Hsl Hv'. rewrite (verify_code_totp_run uid f secret code w Hf Hs Hv) in H.
  destruct (match r_get _ _ _ with Some v => _ | None => _ end) in H; [done|]. injection H as <-.
  rewrite (verify_code_totp_run uid f secret code'); [|done|done|done].
  cbn [now set_now redis set_redis]. rewrite Hsl, get_set_eq by done. simpl.
  pose proof (Z.div_mod t 30 ltac:(lia)). pose proof (Z.div_mod (now w) 30 ltac:(lia)).
  pose proof (Z.mod_pos_bound t 30 ltac:(lia)). pose proof (Z.mod_pos_bound (now w) 30 ltac:(lia)).
  by replace (t <? now w + 60) with true by (symmetry; apply Z.ltb_lt; lia).
Qed.

Lemma verify_totp_at_window t secret code i :
  isdigit (clean_code code) = true -> String.length (clean_code code) = 6%nat ->
  -1 <= i <= 1 -> clean_code code = totp_at secret (t / 30 + i) -> verify_totp_at t secret code 1 = true.
Proof.
  intros Hd Hl Hi Hc. unfold verify_totp_at. rewrite Hd, Hl. simpl. apply totp_window. eauto.
Qed.

(** A one-time code is accepted twice: the replay key is that of the slice
    of the request, while the code stays valid in the slice after its own, so
    the same code presented again in the next slice passes. *)
Theorem totp_code_accepted_again_in_next_slice uid f secret code w w' t :
  faults w = [] -> fernet_decrypt (secret_encrypted f) = Some secret ->
  isdigit (clean_code code) = true -> String.length (clean_code code) = 6%nat ->
  clean_code code = totp_at secret (now w / 30) ->
  _verify_2fa_code_or_backup uid f code w = (Ok tt, w') ->
  t / 30 = now w / 30 + 1 -> r_get t (TWO_FACTOR_REPLAY uid (t / 30)) (redis w) = None ->
  fst (_verify_2fa_code_or_backup uid f code (set_now t w')) = Ok tt.
Proof.
  intros Hf Hs Hd Hl Hc H Ht Hn.
  assert (verify_totp_at (now w) secret code 1 = true) as Hv.
  { apply (verify_totp_at_window _ _ _ 0); [done|done|lia|by rewrite Z.add_0_r]. }
  rewrite (verify_code_totp_run uid f secret code w Hf Hs Hv) in H.
  destruct (match r_get _ _ _ with Some v => _ | None => _ end) in H; [done|]. injection H as <-.
  rewrite (verify_code_totp_run uid f secret code); [|done|done|].
  - cbn [now set_now redis set_redis]. rewrite get_set_ne.
    + by rewrite Hn.
    + intros E%replay_key_inj. lia.
  - apply (verify_totp_at_window _ _ _ (-1)); [done|done|lia|]. cbn [now set_now].
    replace (t / 30 + -1) with (now w / 30) by lia. exact Hc.
Qed.
End two_factor.

(** ** Witnesses *)

Definition carol_factor : TwoFactor :=
  {| is_enabled := true; secret_encrypted := "fernet$KEY"; backup_codes := carol_codes |}.
Definition carol : User := ud_user (user_of carol_id site).

Lemma two_factor_login_gives_challenge_witness :
  let '(o, w') := authenticate_user "carol" "pw-carol" browser site in
  o = Ok (ChallengeRequired "u411") /\ db w' = db site /\
  r_get (now site) (TWO_FACTOR_CHALLENGE "u411") (redis w') = Some (RText carol_id).
Proof.
  set (w' := snd (authenticate_user "carol" "pw-carol" browser site)).
  assert (authenticate_user "carol" "pw-carol" browser site = (Ok (ChallengeRequired "u411"), w')) as H
    by (vm_compute; reflexivity).
  rewrite H. split; [reflexivity|].
  destruct (two_factor_login_gives_challenge "carol" "pw-carol" browser site carol carol_factor _ w'
    ltac:(vm_compute; reflexivity) ltac:(vm_compute; reflexivity) ltac:(reflexivity) H) as (H1 & _ & H3).
  split; [exact H1|]. exact (proj2 (H3 "u411" eq_refl)).
Defined.

(** Carol has a challenge and answers it with a backup code. *)
Definition challenged : World MapRedis.t := snd (authenticate_user "carol" "pw-carol" browser site).
Definition answered := verify_two_factor_challenge "u411" "aaaa-1111" browser challenged.

Lemma lone_answer_needs_code_and_uses_up_challenge_witness :
  is_ok (fst answered) = true /\
  exists e, fst (verify_two_factor_challenge "u411" "bbbb-2222" browser (set_now 1001 (snd answered))) = Err e.
Proof.
  split; [vm_compute; reflexivity|].
  set (r := {| lr_token := {| access_token := jwt_encode (access_claims (user_of carol_id site)
      (set_drawn 12 site)) SECRET_KEY; refresh_token_str := jwt_encode (refresh_claims (user_of carol_id site)
      (set_drawn 12 site)) SECRET_KEY |}; lr_user := user_of carol_id site |}).
  assert (verify_two_factor_challenge "u411" "aaaa-1111" browser challenged = (Ok r, snd answered)) as H
    by (vm_compute; reflexivity).
  exact (proj2 (lone_answer_needs_code_and_uses_up_challenge "u411" "aaaa-1111" browser challenged r (snd answered) H)
    1001 "bbbb-2222" browser).
Defined.

Lemma backup_code_is_spent_witness :
  exists f' w', _verify_2fa_code_or_backup carol_id carol_factor "AAAA-1111" site = (Ok tt, w') /\
    user_two_factor (db w') !! carol_id = Some f' /\
    unused_with (hash_backup_code "AAAA-1111") (backup_codes f') = 0%nat.
Proof.
  pose proof (backup_code_is_spent carol_id carol_factor "KEY" "AAAA-1111" site
    ltac:(vm_compute; reflexivity) ltac:(vm_compute; reflexivity) ltac:(vm_compute; reflexivity)) as H.
  cbv zeta in H. change (0 <? unused_with (hash_backup_code "AAAA-1111") (backup_codes carol_factor))%nat
    with true in H. cbv iota in H. destruct H as (f' & w' & H1 & H2 & _ & _ & H3 & _).
  exists f', w'. split; [exact H1|]. split; [exact H2|].
  change (unused_with (hash_backup_code "AAAA-1111") (backup_codes carol_factor)) with 1%nat in H3. lia.
Defined.

(** The code of slice 33, in which the clock of the installation stands. *)
Definition code33 : string := "123453".
Definition verified : World MapRedis.t := snd (_verify_2fa_code_or_backup carol_id carol_factor code33 site).

Lemma totp_replay_in_slice_rejected_witness :
  fst (_verify_2fa_code_or_backup carol_id carol_factor code33 site) = Ok tt /\
  fst (_verify_2fa_code_or_backup carol_id carol_factor code33 (set_now 1010 verified)) = Err replay_detected.
Proof.
  split; [vm_compute; reflexivity|].
  apply (totp_replay_in_slice_rejected carol_id carol_factor "KEY" code33 code33 site verified 1010);
    try (vm_compute; reflexivity); vm_compute; discriminate.
Defined.

Lemma totp_code_accepted_again_in_next_slice_witness :
  fst (_verify_2fa_code_or_backup carol_id carol_factor code33 site) = Ok tt /\
  fst (_verify_2fa_code_or_backup carol_id carol_factor code33 (set_now 1025 verified)) = Ok tt.
Proof.
  split; [vm_compute; reflexivity|].
  apply (totp_code_accepted_again_in_next_slice carol_id carol_factor "KEY" code33 site verified 1025);
    vm_compute; reflexivity.
Defined.
