(* ===== verification/PaginationProps.v ===== *)
(** * Properties of pagination

    Following the cursors of a listing visits every row exactly once, in order;
    a cursor decodes to the value it was made from. *)

From Stdlib Require Import ZArith Lia Ascii String List Bool.
From stdpp Require Import base gmap strings sorting list.
From S2P Require Import Prelude Schema Redis JsonText World Concrete Tokens Users Cache AppConfig Roles Totp Auth Routes.
From S2P Require Import Invariants System Pagination Scenario AuthLemmas.
Local Open Scope string_scope.
Local Open Scope list_scope.
Local Open Scope Z_scope.

(** ** Cursors *)

(** The alphabet: every six-bit value has a digit, which is not the padding. *)
Lemma b64_digit v : 0 <= v < 64 -> b64_val (b64_char v) = Some v /\ Ascii.eqb (b64_char v) "=" = false.
Proof.
  intros Hv. assert (v ∈ seqZ 0 64) as Hin%list_elem_of_In by (apply elem_of_seqZ; lia).
  assert (forallb (fun v => bool_decide (b64_val (b64_char v) = Some v) && negb (Ascii.eqb (b64_char v) "=")) (seqZ 0 64)
    = true) as Hall by (vm_compute; reflexivity).
  apply (proj1 (forallb_forall _ _)) with (1 := Hall) in Hin. apply andb_prop in Hin as [H1%bool_decide_eq_true H2%negb_true_iff].
  done.
Qed.

(** One digit of a group. *)
Lemma a2b_digit v s quad left pads :
  0 <= v < 64 ->
  a2b_loop (String (b64_char v) s) quad left pads =
  if quad =? 0 then a2b_loop s 1 v 0
  else if quad =? 1 then String (char_of (left * 4 + v / 16)) <$> a2b_loop s 2 (v mod 16) 0
  else if quad =? 2 then String (char_of (left * 16 + v / 4)) <$> a2b_loop s 3 (v mod 4) 0
  else String (char_of (left * 64 + v)) <$> a2b_loop s 0 0 0.
Proof. intros Hv. destruct (b64_digit v Hv) as [H1 H2]. cbn [a2b_loop]. by rewrite H2, H1. Qed.

(** Splitting a byte over two digits and putting it together again. *)
Lemma split_byte x k : 0 <= x -> 0 < k -> x / k * k + x mod k = x.
Proof. intros Hx Hk. pose proof (Z.div_mod x k ltac:(lia)). lia. Qed.

Lemma digit_div a b k : 0 <= b < k -> 0 < k -> (a * k + b) / k = a.
Proof. intros Hb Hk. rewrite Z.div_add_l by lia. rewrite Z.div_small by lia. lia. Qed.

Lemma digit_mod a b k : 0 <= b < k -> 0 < k -> (a * k + b) mod k = b.
Proof. intros Hb Hk. rewrite Z.add_comm, Z_mod_plus_full. apply Z.mod_small. lia. Qed.

Ltac byte_bounds :=
  repeat match goal with
  | c : ascii |- _ => lazymatch goal with H : 0 <= byte_of c < 256 |- _ => fail | _ => pose proof (byte_of_range c) end
  end.

Lemma div_range x k m : 0 <= x < k * m -> 0 < k -> 0 <= x / k < m.
Proof.
  intros Hx Hk. split; [apply Z.div_pos; lia|]. apply Z.div_lt_upper_bound; lia.
Qed.

Lemma b64_roundtrip_aux n s : (String.length s <= n)%nat -> b64decode (b64encode s) = Some s.
Proof.
  unfold b64decode. revert s. induction n as [|n IH]; intros s Hn.
  { destruct s; [done|simpl in Hn; lia]. }
  destruct s as [|a [|b [|c s]]]; [done| | |]; pose proof (byte_of_range a) as Ha.
  - cbn [b64encode]. set (x := byte_of a) in *.
    pose proof (div_range x 4 64 ltac:(lia) ltac:(lia)). pose proof (Z.mod_pos_bound x 4 ltac:(lia)).
    rewrite a2b_digit by lia. cbn [Z.eqb]. rewrite a2b_digit by lia. cbn [Z.eqb Pos.eqb].
    rewrite Z.div_mul by lia. rewrite split_byte by lia. unfold x. rewrite char_of_byte. done.
  - pose proof (byte_of_range b) as Hb. cbn [b64encode]. set (x := byte_of a) in *. set (y := byte_of b) in *.
    pose proof (div_range x 4 64 ltac:(lia) ltac:(lia)). pose proof (Z.mod_pos_bound x 4 ltac:(lia)).
    pose proof (div_range y 16 16 ltac:(lia) ltac:(lia)). pose proof (Z.mod_pos_bound y 16 ltac:(lia)).
    rewrite a2b_digit by lia. cbn [Z.eqb]. rewrite a2b_digit by lia. cbn [Z.eqb Pos.eqb].
    rewrite digit_div, digit_mod, split_byte by lia. rewrite a2b_digit by lia. cbn [Z.eqb Pos.eqb].
    rewrite Z.div_mul, split_byte by lia. unfold x, y. rewrite !char_of_byte. done.
  - pose proof (byte_of_range b) as Hb. pose proof (byte_of_range c) as Hc. cbn [b64encode].
    specialize (IH s ltac:(simpl in Hn; lia)).
    set (x := byte_of a) in *. set (y := byte_of b) in *. set (z := byte_of c) in *.
    pose proof (div_range x 4 64 ltac:(lia) ltac:(lia)). pose proof (Z.mod_pos_bound x 4 ltac:(lia)).
    pose proof (div_range y 16 16 ltac:(lia) ltac:(lia)). pose proof (Z.mod_pos_bound y 16 ltac:(lia)).
    pose proof (div_range z 64 4 ltac:(lia) ltac:(lia)). pose proof (Z.mod_pos_bound z 64 ltac:(lia)).
    rewrite a2b_digit by lia. cbn [Z.eqb]. rewrite a2b_digit by lia. cbn [Z.eqb Pos.eqb].
    rewrite digit_div, digit_mod, split_byte by lia. rewrite a2b_digit by lia. cbn [Z.eqb Pos.eqb].
    rewrite digit_div, digit_mod, split_byte by lia. rewrite a2b_digit by lia. cbn [Z.eqb Pos.eqb].
    rewrite split_byte by lia. unfold x, y, z. rewrite !char_of_byte, IH. done.
Qed.

(** A cursor decodes to the value it was made from, for every text. *)
Theorem cursor_roundtrip value :
  utf8_valid value = true -> decode_cursor (encode_cursor value) = Some value.
Proof.
  intros Hu. unfold decode_cursor, encode_cursor.
  by rewrite (b64_roundtrip_aux (String.length value)), Hu.
Qed.

Lemma cursor_roundtrip_witness :
  decode_cursor (encode_cursor "0190b7c2-8f3e-7d4a") = Some "0190b7c2-8f3e-7d4a".
Proof. apply cursor_roundtrip. vm_compute. reflexivity. Defined.

(** ** Following the cursors of a sorted list *)

Lemma compare_refl s : String.compare s s = Eq.
Proof. pose proof (String.compare_antisym s s) as H. destruct (String.compare s s); [done|discriminate H..]. Qed.

Lemma ltb_irrefl s : String.ltb s s = false.
Proof. unfold String.ltb. by rewrite compare_refl. Qed.

Lemma ltb_asym s t : String.ltb s t = true -> String.ltb t s = false.
Proof. unfold String.ltb. rewrite (String.compare_antisym t s). by destruct (String.compare s t). Qed.

(** On different texts the orders agree. *)
Lemma le_ltb s t : String.le s t -> s <> t -> String.ltb s t = true.
Proof.
  unfold String.le, String.leb, String.ltb. destruct (String.compare s t) eqn:E; [|done|done].
  apply String.compare_eq_iff in E. done.
Qed.

Section walk.
Context {A : Type} (key : A -> string).

Definition before (cursor : option string) (x : A) : Prop := before_cursor cursor (key x) = true.

#[export] Instance before_dec cursor x : Decision (before cursor x).
Proof. unfold before. apply _. Defined.

(** Strictly descending keys. *)
Definition strictly_desc : list A -> Prop := StronglySorted (fun x y => String.ltb (key y) (key x) = true).

(** The rows before the last row of a prefix are the rows after the prefix. *)
Lemma before_last l1 x l2 :
  strictly_desc (l1 ++ x :: l2) -> truthy (key x) = true ->
  filter (before (Some (key x))) (l1 ++ x :: l2) = l2.
Proof.
  unfold strictly_desc. rewrite StronglySorted_app. intros (H12 & H1 & H2) Hx.
  apply StronglySorted_cons in H2 as [Hx2 H2]. rewrite Forall_forall in Hx2.
  assert (forall y, before (Some (key x)) y <-> String.ltb (key y) (key x) = true) as Hb.
  { intros y. unfold before, before_cursor. by rewrite Hx. }
  rewrite filter_app, filter_cons, decide_False by (by rewrite Hb, ltb_irrefl).
  rewrite filter_none, filter_every; [done|intros y Hy; apply Hb; by apply Hx2|].
  intros y Hy Hy'%Hb. rewrite (ltb_asym (key x) (key y)) in Hy'; [done|]. apply H12; [done|left].
Qed.

(** Rows with distinct keys. *)
Lemma key_inj l x y : NoDup (key <$> l) -> x ∈ l -> y ∈ l -> key x = key y -> x = y.
Proof.
  induction l as [|z l IH]; csimpl; [by intros _ ?%elem_of_nil|].
  intros [Hz Hnd]%NoDup_cons Hx Hy He. rewrite elem_of_cons in Hx, Hy.
  destruct Hx as [->|Hx], Hy as [->|Hy]; [done| | |by apply IH].
  - destruct Hz. rewrite He. apply list_elem_of_fmap. eauto.
  - destruct Hz. rewrite <- He. apply list_elem_of_fmap. eauto.
Qed.

Lemma merge_sort_strict l : NoDup (key <$> l) -> strictly_desc (merge_sort (desc_by key) l).
Proof.
  intros Hnd. assert (NoDup (key <$> merge_sort (desc_by key) l)) as Hnd'.
  { by rewrite merge_sort_Permutation. }
  assert (StronglySorted (desc_by key) (merge_sort (desc_by key) l)) as Hs
    by (apply StronglySorted_merge_sort; apply _).
  revert Hs Hnd'. generalize (merge_sort (desc_by key) l). clear l Hnd. intros l Hs Hnd.
  induction Hs as [|x l Hl IH Hx]; [constructor|]. csimpl in Hnd. apply NoDup_cons in Hnd as [Hx' Hnd].
  constructor; [by apply IH|]. rewrite Forall_forall in *. intros y Hy.
  apply le_ltb; [by apply Hx|]. intros He. apply Hx'. rewrite <- He. apply list_elem_of_fmap. eauto.
Qed.

(** Sorting what a cursor lets through is filtering the sorted list. *)
Lemma merge_sort_filter (P : A -> Prop) `{!forall x, Decision (P x)} (l : list A) :
  NoDup (key <$> l) ->
  merge_sort (desc_by key) (filter P l) = filter P (merge_sort (desc_by key) l).
Proof.
  intros Hnd. apply (StronglySorted_unique_strong (desc_by key)).
  - intros x y Hx Hy Hxy Hyx. rewrite merge_sort_Permutation, list_elem_of_filter in Hx.
    rewrite list_elem_of_filter, merge_sort_Permutation in Hy.
    assert (key x = key y) as Hk by (by apply (anti_symm String.le)).
    destruct Hx as [_ Hx], Hy as [_ Hy]. by eapply (key_inj l).
  - apply StronglySorted_merge_sort; apply _.
  - apply StronglySorted_filter, StronglySorted_merge_sort; apply _.
  - by rewrite !merge_sort_Permutation.
Qed.
End walk.

(** ** Sessions *)

Section sessions.
Context {R : Type} {RD : Redis R} {EX : Ext} {ST : Settings}.
Implicit Types w : World R.

(** The sessions of a user, newest identifier first. *)
Definition sessions_desc (uid : uuid) (t : Tables) : list UserSession :=
  merge_sort (desc_by s_id) (filter (fun s => s_user_id s = uid) (values (user_sessions t))).

(** What a client does that follows [next_cursor]. *)
Fixpoint follow_sessions (fuel : nat) (uid : uuid) (limit : Z) (cursor : option uuid)
  : PyM (R := R) (list UserSession) :=
  match fuel with
  | O => ret []
  | S fuel' =>
      let! p := get_user_sessions uid limit cursor in
      match next_cursor p with
      | None => ret (items p)
      | Some c => let! more := follow_sessions fuel' uid limit (Some c) in ret (items p ++ more)
      end
  end.

Lemma values_keys_nodup {A} (id : A -> string) (m : gmap string A) : keyed id m -> NoDup (id <$> values m).
Proof.
  intros Hk. unfold values. rewrite <- list_fmap_compose.
  replace ((id ∘ snd) <$> map_to_list m) with ((map_to_list m).*1); [apply NoDup_fst_map_to_list|].
  apply list_fmap_ext. intros i [k x] Hi. simpl. symmetry. apply Hk, elem_of_map_to_list.
  by eapply list_elem_of_lookup_2.
Qed.

Lemma nodup_fmap_filter {A} (id : A -> string) (P : A -> Prop) `{!forall x, Decision (P x)} (l : list A) :
  NoDup (id <$> l) -> NoDup (id <$> filter P l).
Proof. intros Hn. eapply sublist_NoDup; [exact Hn|]. apply fmap_sublist, sublist_filter. Qed.

Lemma sessions_desc_strict uid t : keyed s_id (user_sessions t) -> strictly_desc s_id (sessions_desc uid t).
Proof. intros Hk. apply merge_sort_strict, nodup_fmap_filter, values_keys_nodup, Hk. Qed.

Lemma dao_sessions_run uid limit cursor w :
  keyed s_id (user_sessions (read_view w)) ->
  dao_get_user_sessions uid limit cursor w =
  (Ok (take (Z.to_nat limit) (filter (before s_id cursor) (sessions_desc uid (read_view w)))), w).
Proof.
  intros Hk. unfold dao_get_user_sessions, db_read, gets. do 3 f_equal.
  unfold sessions_desc. rewrite <- (merge_sort_filter s_id) by (by apply nodup_fmap_filter, values_keys_nodup).
  f_equal. rewrite list_filter_filter. apply list_filter_iff. intros s. unfold before. tauto.
Qed.

(** One page of a listing whose remaining rows are [rest]. *)
Lemma sessions_page_run uid limit cursor w rest :
  keyed s_id (user_sessions (read_view w)) -> 1 <= limit ->
  filter (before s_id cursor) (sessions_desc uid (read_view w)) = rest ->
  (Z.of_nat (length rest) <= limit /\
     get_user_sessions uid limit cursor w = (Ok {| items := rest; next_cursor := None |}, w)) \/
  exists p x rest', rest = p ++ x :: rest' /\
    get_user_sessions uid limit cursor w = (Ok {| items := p ++ [x]; next_cursor := Some (s_id x) |}, w).
Proof.
  intros Hk Hl Hrest. unfold get_user_sessions. rewrite (bind_ok _ _ _ _ _ (dao_sessions_run _ _ _ _ Hk)).
  rewrite Hrest. rewrite length_take.
  destruct (Z.gtb_spec (Z.of_nat (Z.to_nat (limit + 1) `min` length rest)) limit) as [Hgt|Hle].
  - right. unfold py_take. destruct (Z.ltb_spec limit 0); [lia|]. rewrite take_take.
    replace (Z.to_nat limit `min` Z.to_nat (limit + 1))%nat with (Z.to_nat limit) by lia.
    destruct (last (take (Z.to_nat limit) rest)) as [x|] eqn:El.
    + apply last_Some in El as [p Hp]. exists p, x, (drop (Z.to_nat limit) rest).
      rewrite Hp. split; [|done]. rewrite <- (take_drop (Z.to_nat limit) rest) at 1. rewrite Hp.
      by rewrite <- (assoc_L (++)).
    + apply last_None in El. apply (f_equal length) in El. rewrite length_take in El. simpl in El. lia.
  - left. split; [lia|]. rewrite take_ge by lia. done.
Qed.

Lemma follow_sessions_run fuel uid limit w done_ rest cursor :
  keyed s_id (user_sessions (read_view w)) -> 1 <= limit ->
  (forall s, s ∈ sessions_desc uid (read_view w) -> truthy (s_id s) = true) ->
  sessions_desc uid (read_view w) = done_ ++ rest ->
  filter (before s_id cursor) (sessions_desc uid (read_view w)) = rest ->
  (length rest < fuel)%nat ->
  follow_sessions fuel uid limit cursor w = (Ok rest, w).
Proof.
  intros Hk Hl Ht. revert done_ rest cursor.
  induction fuel as [|fuel IH]; intros done_ rest cursor Hd Hf Hn; [lia|]. cbn [follow_sessions].
  destruct (sessions_page_run uid limit cursor w rest Hk Hl Hf) as [[Hlen Hp]|(p & x & rest' & Hr & Hp)];
    rewrite (bind_ok _ _ _ _ _ Hp); [done|]. cbn [next_cursor items].
  assert (filter (before s_id (Some (s_id x))) (sessions_desc uid (read_view w)) = rest') as Hf'.
  { rewrite Hd, Hr, (assoc_L (++)). apply before_last.
    - rewrite <- (assoc_L (++)), <- Hr, <- Hd. by apply sessions_desc_strict.
    - apply Ht. rewrite Hd, Hr. set_solver. }
  rewrite (bind_ok _ _ _ _ _ (IH (done_ ++ p ++ [x]) rest' (Some (s_id x)) ltac:(by rewrite Hd, Hr, <- !(assoc_L (++))) Hf'
    ltac:(rewrite Hr, length_app in Hn; simpl in Hn; lia))).
  rewrite Hr, <- (assoc_L (++)). done.
Qed.

(** A client that follows the cursors of the session listing, whatever the
    page size, gets every session of the user exactly once, newest first, after
    at most one request more than there are sessions. *)
Theorem session_pages_cover uid limit w fuel :
  wf (read_view w) -> 1 <= limit ->
  (forall k s, user_sessions (read_view w) !! k = Some s -> k <> "") ->
  (length (sessions_desc uid (read_view w)) < fuel)%nat ->
  follow_sessions fuel uid limit None w = (Ok (sessions_desc uid (read_view w)), w) /\
  strictly_desc s_id (sessions_desc uid (read_view w)) /\
  (forall s, s ∈ sessions_desc uid (read_view w) <->
     exists k, user_sessions (read_view w) !! k = Some s /\ s_user_id s = uid).
Proof.
  intros W Hl Hne Hf. pose proof (sessions_keyed _ (wf_sessions _ W)) as K.
  assert (forall s, s ∈ sessions_desc uid (read_view w) <->
     exists k, user_sessions (read_view w) !! k = Some s /\ s_user_id s = uid) as Hin.
  { intros s. unfold sessions_desc. rewrite merge_sort_Permutation, list_elem_of_filter, elem_of_values. naive_solver. }
  split; [|split; [by apply sessions_desc_strict|done]].
  apply (follow_sessions_run _ _ _ _ []); try done.
  - intros s (k & Hk & _)%Hin. unfold truthy. apply negb_true_iff, String.eqb_neq.
    rewrite (K _ _ Hk). by eapply Hne.
  - by apply filter_every.
Qed.
End sessions.

(** ** The generic helper *)

Section helper.
Context {R : Type} {RD : Redis R} {EX : Ext} {ST : Settings} {A : Type} (key : A -> string).
Implicit Types w : World R.

(** What a client does that follows [end_cursor] until a page is empty. *)
Fixpoint follow_pages (fuel : nat) (fetch : Z -> option string -> PyM (R := R) (list A)) (n : Z)
  (cursor : option string) : PyM (R := R) (list A) :=
  match fuel with
  | O => ret []
  | S fuel' =>
      let! p := apply_cursor_pagination fetch {| first := n; after := cursor |} key None in
      match pg_end_cursor p with
      | None => ret (pg_items p)
      | Some c => let! more := follow_pages fuel' fetch n (Some c) in ret (pg_items p ++ more)
      end
  end.

(** A listing: the rows of [l] below the cursor, as many as asked for. *)
Definition lists (fetch : Z -> option string -> PyM (R := R) (list A)) (l : list A) w : Prop :=
  forall limit cursor, fetch limit cursor w = (Ok (take (Z.to_nat limit) (filter (before key cursor) l)), w).

Lemma encode_truthy v : truthy v = true -> truthy (encode_cursor v) = true.
Proof. unfold encode_cursor. destruct v as [|a [|b [|c v]]]; [done|done|done|done]. Qed.

Lemma take_extra (n : Z) (l : list A) :
  1 <= n ->
  (let items := take (Z.to_nat (n + 1)) l in
   if Z.of_nat (length items) >? n then py_take n items else items) = take (Z.to_nat n) l.
Proof.
  intros Hn. cbv zeta. rewrite length_take.
  destruct (Z.gtb_spec (Z.of_nat (Z.to_nat (n + 1) `min` length l)) n) as [Hgt|Hle].
  - unfold py_take. destruct (Z.ltb_spec n 0); [lia|]. rewrite take_take. f_equal. lia.
  - by rewrite !take_ge by lia.
Qed.

(** One page: [value] is the cursor the client sent, decoded. *)
Lemma page_run fetch l n aft value w :
  lists fetch l w -> 1 <= n ->
  match or_opt aft None with Some a => decode_cursor a | None => None end = value ->
  apply_cursor_pagination fetch {| first := n; after := aft |} key None w =
  (let items := take (Z.to_nat n) (filter (before key value) l) in
   Ok {| pg_items := items; pg_total_count := None;
         pg_end_cursor := (fun x => encode_cursor (key x)) <$> last items |}, w).
Proof.
  intros Hl Hn Hv. unfold apply_cursor_pagination. cbn [first after]. rewrite Hv.
  rewrite (bind_ok _ _ _ _ _ (Hl _ _)). rewrite <- (take_extra n) by done. done.
Qed.

Lemma follow_pages_run fuel fetch n w (l done_ rest : list A) aft value :
  lists fetch l w -> 1 <= n -> strictly_desc key l ->
  (forall x, x ∈ l -> truthy (key x) = true /\ utf8_valid (key x) = true) ->
  l = done_ ++ rest -> filter (before key value) l = rest ->
  match or_opt aft None with Some a => decode_cursor a | None => None end = value ->
  (length rest < fuel)%nat ->
  follow_pages fuel fetch n aft w = (Ok rest, w).
Proof.
  intros Hl Hn Hs Hk. revert done_ rest aft value.
  induction fuel as [|fuel IH]; intros done_ rest aft value Hd Hf Hv Hlen; [lia|]. cbn [follow_pages].
  rewrite (bind_ok _ _ _ _ _ (page_run _ _ _ _ _ _ Hl Hn Hv)). cbn zeta. rewrite Hf. cbn [pg_end_cursor pg_items].
  destruct (last (take (Z.to_nat n) rest)) as [x|] eqn:El.
  2: { apply last_None in El. cbn. rewrite El. destruct rest as [|y rest]; [done|].
    destruct (Z.to_nat n) eqn:E; [lia|done]. }
  apply last_Some in El as [p Hp]. cbn [fmap option_fmap option_map].
  set (rest' := drop (Z.to_nat n) rest).
  assert (rest = p ++ x :: rest') as Hr.
  { rewrite <- (take_drop (Z.to_nat n) rest). rewrite Hp. by rewrite <- (assoc_L (++)). }
  destruct (Hk x) as [Hx1 Hx2]; [rewrite Hd, Hr; set_solver|].
  assert (filter (before key (Some (key x))) l = rest') as Hf'.
  { rewrite Hd, Hr, (assoc_L (++)). apply before_last; [|done].
    by rewrite <- (assoc_L (++)), <- Hr, <- Hd. }
  assert (match or_opt (Some (encode_cursor (key x))) None with Some a => decode_cursor a | None => None end
    = Some (key x)) as Hv'.
  { unfold or_opt. rewrite encode_truthy by done. unfold decode_cursor, encode_cursor.
    by rewrite (b64_roundtrip_aux _ (key x) (le_n _)), Hx2. }
  rewrite (bind_ok _ _ _ _ _ (IH (done_ ++ p ++ [x]) rest' _ _ ltac:(by rewrite Hd, Hr, <- !(assoc_L (++)))
    Hf' Hv' ltac:(rewrite Hr, length_app in Hlen; simpl in Hlen; lia))).
  rewrite Hp, Hr, <- (assoc_L (++)). done.
Qed.

(** C33: the pagination helper over any listing in descending key order: a client
    that follows the encoded cursors gets exactly the rows of the listing, in
    order and without repetition, for every page size of at least one. *)
Theorem cursor_pages_cover fetch l n w fuel :
  lists fetch l w -> 1 <= n -> strictly_desc key l ->
  (forall x, x ∈ l -> truthy (key x) = true /\ utf8_valid (key x) = true) ->
  (length l < fuel)%nat ->
  follow_pages fuel fetch n None w = (Ok l, w).
Proof.
  intros Hl Hn Hs Hk Hf. apply (follow_pages_run _ _ _ _ l [] l None None); try done. by apply filter_every.
Qed.
End helper.

(** ** Witnesses *)

(** Alice signs in from two more browsers. *)
Definition other_browser (name : string) : Request :=
  {| rq_admin_id := None; rq_forwarded_for := None; rq_client_host := None; rq_user_agent := Some name |}.
Definition three_sessions : World MapRedis.t :=
  snd (issue_tokens_and_session (user_of alice_id site) (other_browser "Safari")
   (snd (issue_tokens_and_session (user_of alice_id site) (other_browser "Chrome")
    (snd (issue_tokens_and_session (user_of alice_id site) browser site))))).

Lemma three_sessions_view : read_view three_sessions = db three_sessions.
Proof. vm_compute. reflexivity. Qed.

Lemma three_sessions_wf : wf (read_view three_sessions).
Proof.
  rewrite three_sessions_view.
  pose proof (keep_issue wf_fresh None 1000 (user_of alice_id site) browser site site_holds) as H1.
  pose proof (keep_issue wf_fresh None 1000 (user_of alice_id site) (other_browser "Chrome") _ H1) as H2.
  pose proof (keep_issue wf_fresh None 1000 (user_of alice_id site) (other_browser "Safari") _ H2) as (_ & _ & W & _).
  exact W.
Qed.

Lemma session_pages_cover_witness :
  exists s1 s2 s3, follow_sessions 4 alice_id 2 None three_sessions = (Ok [s1; s2; s3], three_sessions) /\
    user_agent s1 = Some "Safari" /\ user_agent s2 = Some "Chrome" /\ user_agent s3 = Some "Firefox".
Proof.
  do 3 eexists. split.
  - refine (eq_trans (proj1 (session_pages_cover alice_id 2 three_sessions 4 three_sessions_wf _ _ _)) _).
    + lia.
    + apply (bool_decide_eq_true_1 (map_Forall (fun k _ => k <> "") (user_sessions (read_view three_sessions)))).
      vm_compute. reflexivity.
    + vm_compute. lia.
    + vm_compute. reflexivity.
  - repeat split; vm_compute; reflexivity.
Defined.

Definition site_permissions : list Permission :=
  [permission "p2" "users:impersonate"; permission "p1" "users:update"].

Lemma cursor_pages_cover_witness :
  follow_pages p_id 3 get_all_permissions 1 None site = (Ok site_permissions, site).
Proof.
  apply (cursor_pages_cover p_id get_all_permissions site_permissions 1 site 3).
  - intros limit cursor. unfold get_all_permissions, db_read, gets. do 3 f_equal.
    change (values (permissions (read_view site))) with (values (permissions seed_tables)).
    change (filter (fun p => before_cursor cursor (p_id p) = true) (values (permissions seed_tables)))
      with (filter (before p_id cursor) (values (permissions seed_tables))).
    rewrite merge_sort_filter.
    + f_equal.
    + apply (bool_decide_eq_true_1 _). vm_compute. reflexivity.
  - lia.
  - repeat constructor.
  - apply (Forall_forall (fun x => truthy (p_id x) = true /\ utf8_valid (p_id x) = true)). by repeat constructor.
  - vm_compute. lia.
Defined.
