(* ===== verification/DataProps.v ===== *)
(** * Properties of the data: invariants, caches, failures *)

From Stdlib Require Import ZArith Lia Ascii String List Bool.
From stdpp Require Import base gmap strings sorting list pretty.
From S2P Require Import Prelude Schema Redis World Concrete Tokens Users Cache AppConfig Roles Totp Auth Routes.
From S2P Require Import Invariants SideInvariants System Service Scenario AuthLemmas.
Local Open Scope string_scope.
Local Open Scope list_scope.
Local Open Scope Z_scope.

(** ** Reachable states *)

Section reachable.
Context {R : Type} {RD : Redis R} {EX : Ext} {EL : ExtLaws} {ST : Settings} {GO : Google}.

(** C2: whatever is served (requests of users, operators and API clients, tasks of
    the workers, the beat scheduler, inbound webhooks), in whatever order, and however
    each of them ends, the tables stay well formed.  Of users and roles: primary keys,
    unique usernames, e-mail addresses, identities, role names and session [jti]s, one
    session per user and browser, token versions of at least 1.  Of the operational
    tables: primary keys, unique API-key hashes and schedule names, logged response
    bodies of at most 2048 characters.  And no reference dangles. *)
Theorem reachable_tables_well_formed (w0 w : World R) :
  wf_fresh (db w0) (drawn w0) -> side_wf (db w0) -> steps w0 w -> wf (db w) /\ side_wf (db w).
Proof.
  intros W S Hs. split.
  - assert (holds wf_fresh (replica w0) (now w0) w0) as H0 by (split; [done|]; split; [lia|done]).
    by destruct (steps_keep wf_fresh _ _ _ _ Hs H0) as (_ & _ & [Hw _]).
  - assert (holds side_kept (replica w0) (now w0) w0) as H0 by (split; [done|]; split; [lia|done]).
    by destruct (steps_keep side_kept _ _ _ _ Hs H0) as (_ & _ & Hw).
Qed.

(** No request and no sequence of requests lowers a user's token version. *)
Theorem token_versions_never_decrease (w0 w : World R) id u u' :
  wf_fresh (db w0) (drawn w0) -> steps w0 w ->
  users (db w0) !! id = Some u -> users (db w) !! id = Some u' -> token_version u <= token_version u'.
Proof.
  intros W Hs Hu Hu'.
  assert (holds (versions_kept id (token_version u)) (replica w0) (now w0) w0) as H0.
  { split; [done|]. split; [lia|]. split; [done|]. split.
    - intros v Hv. rewrite Hu in Hv. injection Hv as <-. lia.
    - intros i Hi E. destruct W as [_ F]. destruct (F i Hi) as (F1 & _). rewrite E in F1. congruence. }
  destruct (steps_keep _ _ _ _ _ Hs H0) as (_ & _ & _ & [V _]). by apply V.
Qed.
End reachable.

(** ** Caches *)

Section caches.
Context {R : Type} {RD : Redis R} {RL : RedisLaws R} {EX : Ext} {EL : ExtLaws} {ST : Settings}.
Implicit Types w : World R.

(** Without an entry the function itself answers, whatever Redis does. *)
Lemma cached_miss {A} `{!Cacheable A} key hk ex (f : PyM A) w :
  entry hk key w = None -> exists l, fst (cached (Some key) hk ex f w) = fst (f (set_faults l w)).
Proof.
  intros He. exists (tail (faults w)). unfold cached, _get_from_cache.
  assert (forall w1, fst (bind f (fun result => _save_to_cache key hk result ex ;;! ret result) w1) = fst (f w1)) as Hs.
  { intros w1. unfold bind. destruct (f w1) as [[a|e] w2]; [|done].
    destruct (save_to_cache_ok key hk a ex w2) as [w3 Hw3]. by rewrite Hw3. }
  unfold bind at 1, try_catch.
  destruct (cache_lookup_cases hk key w) as [Hl|Hl].
  - rewrite (bind_err _ _ _ _ _ Hl). simpl. apply Hs.
  - rewrite (bind_ok _ _ _ _ _ Hl), He. simpl. apply Hs.
Qed.

(** With an entry and a working Redis the entry answers. *)
Lemma cached_hit {A} `{!Cacheable A} key hk ex (f : PyM A) j a w :
  faults w = [] -> entry hk key w = Some (RJson j) -> of_json j = Some a ->
  fst (cached (Some key) hk ex f w) = Ok a.
Proof.
  intros Hf He Hj. unfold cached, _get_from_cache. unfold bind at 1, try_catch.
  destruct (cache_lookup_cases hk key w) as [Hl|Hl].
  - exfalso. unfold cache_lookup, redis_hget, redis_get, redis_command in Hl. unfold gets in Hl. destruct hk; rewrite Hf in Hl; discriminate Hl.
  - by rewrite (bind_ok _ _ _ _ _ Hl), He, Hj.
Qed.

(** Statements and draws consume no Redis command. *)
Definition intact (w : World R) : Prop := faults w = [].

Lemma intact_db_write {A} (f : Tables -> outcome Exn (A * Tables)) : preserves intact (db_write f).
Proof. intros w Hw. unfold db_write. by destruct (f (db w)) as [[a t]|e]. Qed.

Lemma intact_read_pool {A} (f : Tables -> outcome Exn (A * Tables)) : preserves intact (db_write_on_read_pool f).
Proof. intros w Hw. unfold db_write_on_read_pool. destruct (replica w); [done|]. by apply intact_db_write. Qed.

Lemma intact_transaction {A} (m : PyM A) :
  preserves intact m -> preserves intact (transaction (fun old new => set_db (fun _ => db old) new) m).
Proof. intros Hm w Hw. unfold transaction. specialize (Hm w Hw). by destruct (m w) as [[a|e] w1]. Qed.

Lemma intact_draw : preserves intact draw.
Proof. by intros w Hw. Qed.

Ltac intact :=
  repeat (intros; lazymatch goal with
    | |- preserves _ (bind _ _) => apply preserves_bind
    | |- preserves _ (when _ _) => apply preserves_when
    | |- preserves _ (transaction _ _) => apply intact_transaction
    | |- preserves _ (match ?x with _ => _ end) => destruct x
    | |- _ => first [apply intact_db_write | apply intact_read_pool | apply intact_draw | apply preserves_gets
                    | apply preserves_ret | apply preserves_raise]
    end).

(** Deleting a whole hash after a change. *)
Lemma invalidating_hash_clears {A} h (f : PyM A) w a w' :
  preserves intact f -> intact w -> invalidating [] (Some h) true f w = (Ok a, w') ->
  intact w' /\ forall k, entry (Some h) k w' = None.
Proof.
  intros Hf Hw H. unfold invalidating in H. apply bind_ok_inv in H as (x & w1 & H1 & H).
  specialize (Hf w Hw). rewrite H1 in Hf. simpl in Hf. unfold intact in Hf.
  unfold bind, try_catch, redis_del, redis_command, modify, ret in H. rewrite Hf in H. injection H as <- <-.
  split; [done|]. intros k. simpl. rewrite hget_del. replace (mem h [h]) with true; [done|].
  symmetry. apply mem_true. left.
Qed.

(** The operations that change roles, as the services call them. *)
Inductive role_change : forall {A}, PyM (R := R) A -> Prop :=
| rc_create d : role_change (dao_create_role d)
| rc_update id d : role_change (dao_update_role id d)
| rc_delete id : role_change (dao_delete_role id)
| rc_bulk ids : role_change (delete_roles ids).

Lemma role_change_clears {A} (m : PyM A) w a w' :
  role_change m -> intact w -> m w = (Ok a, w') -> intact w' /\ forall k, entry (Some ROLES_CACHE) k w' = None.
Proof.
  intros Hm Hw H. destruct Hm; (eapply invalidating_hash_clears in H; [exact H| |exact Hw]);
    unfold _get_role_by_id, db_read; intact.
Qed.

(** C35: when a role was created, updated or deleted, in bulk or not, and Redis failed no
    command of that change, then a read of a role or of the role list that comes next,
    before any other request, gives what the database holds, even if Redis fails during
    the read.  A change whose invalidation fails is successful all the same, and a read
    that overlaps a change can store the old value after it: neither is covered. *)
Theorem role_reads_see_successful_changes {A} (m : PyM A) w a w' l id limit cursor :
  role_change m -> faults w = [] -> m w = (Ok a, w') ->
  fst (get_role_by_id id (set_faults l w')) =
    match role_by_id id (read_view w') with Some r => Ok r | None => Err role_not_found end /\
  fst (get_all_roles limit cursor (set_faults l w')) = Ok (roles_page limit cursor (read_view w')).
Proof.
  intros Hm Hf H. destruct (role_change_clears m w a w' Hm Hf H) as [_ He]. split.
  - unfold get_role_by_id, bind, dao_get_role_by_id.
    destruct (cached_miss id (Some ROLES_CACHE) (Some 3600) (_get_role_by_id id) (set_faults l w')) as [l' Hl];
      [by rewrite entry_faults|].
    destruct (cached _ _ _ _ _) as [o w2]. simpl in Hl. subst o.
    unfold read_view. simpl. by destruct (role_by_id id _).
  - unfold get_all_roles, dao_get_all_roles.
    destruct (cached_miss (ROLE_FIELD_ALL limit cursor) (Some ROLES_CACHE) (Some 3600)
      (db_read (roles_page limit cursor)) (set_faults l w')) as [l' Hl]; [by rewrite entry_faults|].
    by rewrite Hl.
Qed.

(** An update of a role that names an unknown permission is not atomic: it
    fails after the role's permissions were removed, so the role is left without
    any, while the token versions of its users and the cached copies of the role
    stay as they were. *)
Theorem failed_role_update_strips_permissions rid name descr pids p w :
  is_Some (roles (db w) !! rid) -> p ∈ pids -> permissions (db w) !! p = None ->
  role_name_taken rid name (db w) = false ->
  exists w', dao_update_role rid {| ru_name := Some name; ru_description := descr; ru_permission_ids := Some pids |} w =
    (Err (ForeignKeyViolation "role_permissions_permission_id_fkey"), w') /\
  permissions_of (db w') rid = [] /\ users (db w') = users (db w) /\ redis w' = redis w.
Proof.
  intros [r Hr] Hp Hnone Hname. unfold dao_update_role, invalidating.
  set (t1 := set_roles (<[rid := {| r_id := r_id r; r_name := name;
    r_description := match descr with Some x => Some x | None => r_description r end;
    r_created_at := r_created_at r; r_updated_at := now w |}]>) (db w)).
  set (t2 := set_role_permissions (filter (fun '(r, _) => r <> rid)) t1).
  exists (set_db (fun _ => t2) w).
  assert (permissions_of t2 rid = []) as Hperms.
  { destruct (permissions_of t2 rid) as [|x l] eqn:E; [done|exfalso].
    assert (x ∈ permissions_of t2 rid) as Hx by (rewrite E; left).
    apply elem_of_permissions_of in Hx as (pid & Hin & _). simpl in Hin.
    by apply elem_of_filter in Hin as [Hne _]. }
  assert (insert_role_permissions rid pids t2 = Err (ForeignKeyViolation "role_permissions_permission_id_fkey")) as Hins.
  { unfold insert_role_permissions. simpl. rewrite lookup_insert_eq. rewrite bool_decide_eq_false_2 by done.
    replace (existsb _ pids) with true; [done|]. symmetry. apply existsb_exists. exists p.
    rewrite <- list_elem_of_In. split; [done|]. by rewrite bool_decide_eq_true_2. }
  split; [|done]. destruct pids as [|p0 ps]; [by apply elem_of_nil in Hp|].
  unfold bind, gets, db_write, update_role_row, delete_role_permissions. simpl. rewrite Hr. simpl. rewrite Hname.
  simpl. fold t1. fold t2. by rewrite Hins.
Qed.

(** ** System configuration *)

(** Switching the MFA enforcement takes effect at once: after a successful
    update on a working Redis the next check, whatever Redis does then, asks
    exactly the users without enabled two-factor to set it up. *)
Theorem mfa_enforcement_takes_effect new_mfa by_user w c w' l uid :
  replica w = None -> faults w = [] ->
  update_config new_mfa by_user w = (Ok (Some c), w') ->
  fst (check_mfa_enforcement uid (set_faults l w')) =
  (if enforce_mfa c && match user_two_factor (db w') !! uid with Some f => negb (is_enabled f) | None => true end
   then Err (HTTPException 428 "auth.mfa_enforced") else Ok tt) /\
  (forall b, new_mfa = Some b -> enforce_mfa c = b).
Proof.
  intros Hr Hf H. unfold update_config in H. apply bind_ok_inv in H as (c' & w1 & H & Hp).
  apply bind_ok_inv in Hp as ([] & w2 & Hp & H'). injection H' as -> <-.
  unfold dao_update_config, invalidating in H. apply bind_ok_inv in H as (c' & w3 & H & Hi).
  unfold update_config_row in H. apply bind_ok_inv in H as (t0 & w4 & H4 & H). injection H4 as <- <-.
  unfold db_write in H. destruct (set_config_row (now w) new_mfa by_user (db w)) as [[o t]|] eqn:Ec; [|done].
  injection H as <- <-. unfold bind, try_catch, redis_del, redis_command, modify, ret in Hi.
  cbn [omap faults set_db] in Hi. simpl in Hi. rewrite Hf in Hi. injection Hi as -> <-.
  assert (system_configurations t = Some c) as Hc.
  { unfold set_config_row in Ec. destruct (system_configurations (db w)) as [c0|]; [|done].
    destruct (match by_user with Some u => _ | None => _ end) in Ec; [done|]. by injection Ec as <- <-. }
  assert (db w2 = t /\ replica w2 = None /\ r_get (now w2) SYSTEM_CONFIG_CACHE (redis w2) = None) as (Hd & Hr2 & He).
  { unfold publish, bind, new_uuid4, draw, gets, redis_command, modify in Hp. simpl in Hp. rewrite Hf in Hp.
    injection Hp as <-. split; [done|]. split; [done|]. simpl. rewrite get_del.
    replace (mem _ _) with true; [done|]. symmetry. apply mem_true. left. }
  split.
  - unfold check_mfa_enforcement, bind. unfold get_config.
    destruct (cached_miss SYSTEM_CONFIG_CACHE None (Some 86400) fetch_config (set_faults l w2)) as [l' Hl];
      [by rewrite entry_faults|].
    pose proof (keep_cached (fun t _ => t = db w2) None (now w2) (Some SYSTEM_CONFIG_CACHE) None (Some 86400) fetch_config) as Hk.
    assert (fetch_config (set_faults l' (set_faults l w2)) = (Ok c, set_faults l' (set_faults l w2))) as Hfc.
    { unfold fetch_config, bind, db_read, gets, read_view. simpl. rewrite Hr2. simpl. by rewrite Hd, Hc. }
    rewrite Hfc in Hl. clear Hfc.
    assert (holds (fun t _ => t = db w2) None (now w2) (snd (cached (Some SYSTEM_CONFIG_CACHE) None (Some 86400)
      fetch_config (set_faults l w2)))) as (Hr3 & _ & Hd3).
    { apply Hk; [|by split; [|split]]. unfold fetch_config. intros w0 (E1 & E2 & E3).
      unfold bind, db_read, gets, read_view. rewrite E1. simpl. rewrite E3, Hd, Hc. split; [done|]. split; [done|].
      simpl. by rewrite E3. }
    destruct (cached _ _ _ _ _) as [o w3]. simpl in Hl. subst o. simpl in Hr3, Hd3.
    unfold when. destruct (enforce_mfa c); [|done]. unfold get_two_factor, bind, db_read, gets, read_view, raise_if.
    rewrite Hr3. simpl. rewrite Hd3. by destruct (match user_two_factor (db w2) !! uid with Some f => _ | None => _ end).
  - intros b ->. unfold set_config_row in Ec. destruct (system_configurations (db w)) as [c0|]; [|done].
    destruct (match by_user with Some u => _ | None => _ end) in Ec; [done|]. by injection Ec as <- _.
Qed.

(** ** App versions *)

(** Version information is cached under the platform as the client spells
    it, but an update drops the entry of its own spelling only: a copy cached
    under another spelling of the same platform, which has no expiry, keeps
    being served after the update. *)
Theorem version_cache_stale_across_spellings p p' d v v' w w' :
  faults w = [] -> p' <> p -> lower p' = lower p ->
  r_get (now w) (APP_VERSION_CACHE p) (redis w) = Some (RJson (model_dump v)) ->
  update_version_info p' d w = (Ok (Some v'), w') ->
  fst (get_version_info p w') = Ok (Some v) /\ app_versions (db w') !! lower p = Some v'.
Proof.
  intros Hf Hne Hlow Hc H. unfold update_version_info, invalidating in H.
  apply bind_ok_inv in H as (o & w1 & H & Hi). apply bind_ok_inv in H as (t0 & w2 & H2 & H).
  injection H2 as <- <-. unfold db_write, update_version_row in H.
  destruct (app_versions (db w) !! lower p') as [v0|] eqn:Ev; injection H as <- <-.
  2: { unfold bind, try_catch, redis_del, redis_command, modify, ret in Hi. simpl in Hi. rewrite Hf in Hi. done. }
  unfold bind, try_catch, redis_del, redis_command, modify, ret in Hi. simpl in Hi. rewrite Hf in Hi.
  injection Hi as <- <-. split.
  - unfold get_version_info. apply (cached_hit _ _ _ _ (model_dump v)).
    + simpl. by rewrite Hf.
    + simpl. rewrite get_del. replace (mem _ _) with false; [done|].
      symmetry. apply mem_false. rewrite elem_of_cons, list_elem_of_singleton.
      unfold APP_VERSION_CACHE, APP_VERSIONS_ALL_CACHE. intros [E|E]; [|done].
      apply String.app_inj in E. congruence.
    + by apply of_to_json.
  - simpl. rewrite Hlow. by rewrite lookup_insert_eq.
Qed.

(** ** Statements on the wrong pool *)

(** With a read replica every deletion that asks for its rows back fails:
    revoking sessions, deleting users, roles or app versions in bulk raise, and
    nothing is deleted. *)
Theorem deletions_fail_with_a_replica w t uid j ids ps :
  replica w = Some t -> ids <> [] -> ps <> [] ->
  revoke_user_session uid j w = (Err ReadOnlyTransaction, w) /\
  revoke_all_user_sessions uid w = (Err ReadOnlyTransaction, w) /\
  delete_users ids w = (Err ReadOnlyTransaction, w) /\
  delete_roles ids w = (Err ReadOnlyTransaction, w) /\
  delete_versions ps w = (Err ReadOnlyTransaction, w).
Proof.
  intros Hr Hi Hp. destruct ids as [|i ids]; [done|]. destruct ps as [|p ps]; [done|].
  assert (forall A (f : Tables -> outcome Exn (A * Tables)),
    db_write_on_read_pool f w = (Err ReadOnlyTransaction, w)) as Hro.
  { intros A f. unfold db_write_on_read_pool. by rewrite Hr. }
  unfold revoke_user_session, dao_revoke_user_session, revoke_all_user_sessions, dao_revoke_all_user_sessions,
    delete_users, delete_roles, delete_versions, invalidating, bind, gets. by rewrite !Hro.
Qed.
End caches.

(** ** Witnesses *)

(** One request: Alice signs in. *)
Definition served : World MapRedis.t := snd (login "alice" "pw-alice" browser (new_request site)).

Lemma served_step : steps site served.
Proof. apply rtc_once. exact (step_request _ _ site (H_login "alice" "pw-alice" browser)). Qed.

Lemma reachable_tables_well_formed_witness : wf (db served) /\ side_wf (db served).
Proof. exact (reachable_tables_well_formed site served site_wf site_side_wf served_step). Defined.

Lemma token_versions_never_decrease_witness :
  token_version (ud_user (user_of alice_id site)) <= token_version (ud_user (user_of alice_id served)).
Proof.
  apply (token_versions_never_decrease site served alice_id (ud_user (user_of alice_id site))
    (ud_user (user_of alice_id served)) site_wf served_step); vm_compute; reflexivity.
Defined.

Definition rename (name : string) : RoleUpdate :=
  {| ru_name := Some name; ru_description := None; ru_permission_ids := None |}.
(** The role was read, and so cached, before it is renamed. *)
Definition read_role : World MapRedis.t := snd (get_role_by_id editor_id site).
Definition rename_run := dao_update_role editor_id (rename "Writer") read_role.
Definition renamed : World MapRedis.t := snd rename_run.
Definition renamed_role : option RoleData := match fst rename_run with Ok r => r | Err _ => None end.

Lemma rename_run_eq : dao_update_role editor_id (rename "Writer") read_role = (Ok renamed_role, renamed).
Proof. vm_compute. reflexivity. Qed.

Lemma role_reads_see_successful_changes_witness :
  exists r, fst (get_role_by_id editor_id (set_faults [true; false] renamed)) = Ok r /\ r_name (rd_role r) = "Writer".
Proof.
  pose proof (role_reads_see_successful_changes (dao_update_role editor_id (rename "Writer")) read_role
    renamed_role renamed [true; false] editor_id 20 None (rc_update editor_id (rename "Writer"))
    ltac:(vm_compute; reflexivity) rename_run_eq) as [H _].
  rewrite H. vm_compute. eexists. split; reflexivity.
Defined.

Lemma failed_role_update_strips_permissions_witness :
  permissions_of (db site) editor_id = [permission "p1" "users:update"] /\
  exists w', dao_update_role editor_id {| ru_name := Some "Editor"; ru_description := None;
      ru_permission_ids := Some ["p1"; "p9"] |} site =
    (Err (ForeignKeyViolation "role_permissions_permission_id_fkey"), w') /\
  permissions_of (db w') editor_id = [] /\ users (db w') = users (db site) /\ redis w' = redis site.
Proof.
  split; [vm_compute; reflexivity|].
  apply (failed_role_update_strips_permissions editor_id "Editor" None ["p1"; "p9"] "p9" site).
  - eexists. vm_compute. reflexivity.
  - right. left.
  - vm_compute. reflexivity.
  - vm_compute. reflexivity.
Defined.

(** The configuration exists and is cached when it is switched. *)
Definition configured : World MapRedis.t := snd (get_config site).
Definition enforced : World MapRedis.t := snd (update_config (Some true) (Some bob_id) configured).
Definition enforced_config : SystemConfig :=
  {| enforce_mfa := true; sc_updated_at := 1000; sc_updated_by := Some bob_id |}.

Lemma mfa_enforcement_takes_effect_witness :
  fst (check_mfa_enforcement alice_id (set_faults [true] enforced)) = Err (HTTPException 428 "auth.mfa_enforced") /\
  fst (check_mfa_enforcement carol_id (set_faults [true] enforced)) = Ok tt.
Proof.
  assert (update_config (Some true) (Some bob_id) configured = (Ok (Some enforced_config), enforced)) as H
    by (vm_compute; reflexivity).
  split.
  - refine (eq_trans (proj1 (mfa_enforcement_takes_effect (Some true) (Some bob_id) configured enforced_config
      enforced [true] alice_id _ _ H)) _); vm_compute; reflexivity.
  - refine (eq_trans (proj1 (mfa_enforcement_takes_effect (Some true) (Some bob_id) configured enforced_config
      enforced [true] carol_id _ _ H)) _); vm_compute; reflexivity.
Defined.

(** The version of ios is cached, then updated as "IOS". *)
Definition ios : AppVersion :=
  {| platform := "ios"; min_build := 10; latest_build := 20; force_update := false; update_message := None;
     update_url := None; v_created_at := 1000; v_updated_at := 1000 |}.
Definition ios_cached : World MapRedis.t :=
  snd (get_version_info "ios" (snd (create_version {| cv_platform := "ios"; cv_min_build := 10;
    cv_latest_build := 20; cv_force_update := false; cv_update_message := None; cv_update_url := None |} site))).
Definition raise_min : AppVersionUpdate :=
  {| av_min_build := Some 15; av_latest_build := None; av_force_update := None; av_update_message := None;
     av_update_url := None |}.
Definition ios_updated : World MapRedis.t := snd (update_version_info "IOS" raise_min ios_cached).

Lemma version_cache_stale_across_spellings_witness :
  fst (get_version_info "ios" ios_updated) = Ok (Some ios) /\
  app_versions (db ios_updated) !! "ios" = Some (merge_version 1000 raise_min ios).
Proof.
  apply (version_cache_stale_across_spellings "ios" "IOS" raise_min ios (merge_version 1000 raise_min ios)
    ios_cached ios_updated); try (vm_compute; reflexivity). discriminate.
Defined.

Definition with_replica : World MapRedis.t :=
  {| db := db site; replica := Some (db site); redis := ∅; faults := []; now := 1000; drawn := drawn site;
     stream := []; audit := []; sent := []; broker_faults := []; published := []; ctx_actor := None; ctx_impersonator := None; ctx_ip := None |}.

Lemma deletions_fail_with_a_replica_witness :
  delete_users [alice_id] with_replica = (Err ReadOnlyTransaction, with_replica).
Proof.
  exact (proj1 (proj2 (proj2 (deletions_fail_with_a_replica with_replica (db site) alice_id "j" [alice_id] ["ios"]
    eq_refl ltac:(discriminate) ltac:(discriminate))))).
Defined.
