(* ===== verification/IdempotencyProps.v ===== *)
(** * Properties of idempotent requests *)

From Stdlib Require Import ZArith Lia Ascii String List Bool.
From stdpp Require Import base gmap strings list pretty.
From S2P Require Import Prelude Schema Redis JsonText World Concrete Tokens Users Cache Roles Totp AppConfig Auth Pagination.
From S2P Require Import Idempotency Scenario AuthLemmas.
Local Open Scope string_scope.
Local Open Scope list_scope.
Local Open Scope Z_scope.

Section idempotency_props.
Context {R : Type} {RD : Redis R} {RL : RedisLaws R} {EX : Ext} {ST : Settings} {SL : Starlette} {LL : StarletteLaws}.
Implicit Types w : World R.
Local Abbreviation Py := (PyM (R := R)).

(** ** The steps are the handler *)

Lemma run_alone_done n key handler o w : run_alone n key handler (P_done o) w = (P_done o, w).
Proof. induction n as [|n IH]; [done|exact IH]. Qed.

(** From the release on. *)
Lemma run_alone_release n key handler o w :
  run_alone (S n) key handler (P_release o) w =
  (match release_lock key w with (Ok _, w') => (P_done o, w') | (Err e, w') => (P_done (Err e), w') end).
Proof.
  cbn [run_alone advance]. destruct (release_lock key w) as [[u|e] w']; apply run_alone_done.
Qed.

(** Cutting the wrapper at its Redis commands loses nothing: a request that
    runs alone finishes after five steps with the outcome and the state of the
    wrapper. *)
Theorem steps_refine_route_handler method path raw_key (handler : Py Response) w :
  truthy raw_key = true ->
  run_alone 5 (idempotency_key method path raw_key) handler P_get w =
  (let '(o, w') := custom_route_handler method path (Some raw_key) handler w in (P_done o, w')).
Proof.
  intros Ht. unfold custom_route_handler, or_opt. rewrite Ht. set (key := idempotency_key method path raw_key).
  unfold bind at 1. change (run_alone 5 key handler P_get w) with
    (let '(pc', w') := advance key handler P_get w in run_alone 4 key handler pc' w').
  cbn [advance]. destruct (get_cached_response key w) as [[[r|]|e] w1]; try apply run_alone_done.
  unfold bind at 1. change (run_alone 4 key handler P_lock w1) with
    (let '(pc', w') := advance key handler P_lock w1 in run_alone 3 key handler pc' w').
  cbn [advance]. destruct (acquire_lock key w1) as [[[]|e] w2]; try apply run_alone_done.
  unfold bind at 1, raise_if, finally. change (run_alone 3 key handler P_body w2) with
    (let '(pc', w') := advance key handler P_body w2 in run_alone 2 key handler pc' w').
  cbn [advance negb]. unfold ret at 1. unfold bind at 1.
  destruct (handler w2) as [[r|e] w3]; [|rewrite run_alone_release; by destruct (release_lock key w3) as [[u|e'] w4]].
  unfold when, bind. destruct (cacheable_status r).
  - change (run_alone 2 key handler (P_cache r) w3) with
      (let '(pc', w') := advance key handler (P_cache r) w3 in run_alone 1 key handler pc' w').
    cbn [advance]. destruct (cache_response key r w3) as [[u|e] w4]; rewrite run_alone_release; unfold ret;
      by destruct (release_lock key w4) as [[u'|e'] w5].
  - rewrite run_alone_release. unfold ret. by destruct (release_lock key w3) as [[u'|e'] w5].
Qed.

(** ** Replay *)


(** ** Headers *)


Lemma dict_of_headers_names k hs : k ∈ (dict_of_headers hs).*1 -> k ∈ hs.*1.
Proof.
  induction hs as [|[k' v] hs IH]; [done|]. cbn [dict_of_headers]. rewrite !fmap_cons, !elem_of_cons.
  intros [->|H]; [by left|right]. apply IH. apply list_elem_of_fmap in H as (h & -> & H).
  apply list_elem_of_filter in H as [_ H]. by apply list_elem_of_fmap_2.
Qed.








Lemma response_lock_ne key key' : IDEMPOTENCY_RESPONSE key <> IDEMPOTENCY_LOCK key'.
Proof. done. Qed.


(** ** Interleavings *)

Section exclusion.
Context (key : string) (handler : Py Response) (t0 : Z).
(** The handler neither touches the lock nor lets the clock run. *)
Context (Hnow : forall w, now (snd (handler w)) = now w).
Context (Hlock : forall w t, r_get t (IDEMPOTENCY_LOCK key) (redis (snd (handler w))) =
                             r_get t (IDEMPOTENCY_LOCK key) (redis w)).

(** The lock is there, and stays there for [IDEMPOTENCY_LOCK_TTL] after [t0]. *)
Definition locked w : Prop :=
  forall t, now w <= t -> t < t0 + IDEMPOTENCY_LOCK_TTL -> is_Some (r_get t (IDEMPOTENCY_LOCK key) (redis w)).

Definition exclusive (s : Sys (R := R)) : Prop :=
  t0 <= now (shared s) /\
  (forall i j pc pc', procs s !! i = Some pc -> procs s !! j = Some pc' ->
     critical pc = true -> critical pc' = true -> i = j) /\
  (forall i pc, procs s !! i = Some pc -> critical pc = true -> locked (shared s)).

Lemma advance_now pc w : now (snd (advance key handler pc w)) = now w.
Proof.
  destruct pc as [| | |r|o|o]; simpl.
  - unfold get_cached_response, bind, redis_get, redis_command, gets, ret, raise.
    destruct (faults w) as [|[] l]; simpl; repeat case_match; simplify_eq/=; done.
  - unfold acquire_lock, redis_set_nx, redis_command. destruct (faults w) as [|[] l]; simpl; repeat case_match; simplify_eq/=; done.
  - specialize (Hnow w). destruct (handler w) as [[r|e] w']; [by destruct (cacheable_status r)|done].
  - unfold cache_response, redis_set, redis_command, raise. destruct (utf8_valid _); [|done].
    destruct (faults w) as [|[] l]; simpl; done.
  - unfold release_lock, redis_del, redis_command. by destruct (faults w) as [|[] l].
  - done.
Qed.

Lemma advance_idle_redis pc w :
  (pc = P_get \/ exists o, pc = P_done o) ->
  redis (snd (advance key handler pc w)) = redis w /\ critical (fst (advance key handler pc w)) = false.
Proof.
  intros [->|[o ->]]; [|done]. simpl. unfold get_cached_response, bind, redis_get, redis_command, gets, ret, raise.
  destruct (faults w) as [|[] l]; simpl; repeat case_match; simplify_eq/=; done.
Qed.

Lemma locked_ext w w' : now w' = now w -> redis w' = redis w -> locked w -> locked w'.
Proof. intros E1 E2 H t. rewrite E1, E2. apply H. Qed.

(** A request outside the critical section enters it only by taking a free lock,
    and never frees it. *)
Lemma advance_outside pc w :
  critical pc = false -> t0 <= now w -> now w < t0 + IDEMPOTENCY_LOCK_TTL ->
  (critical (fst (advance key handler pc w)) = true -> ~ locked w /\ locked (snd (advance key handler pc w))) /\
  (locked w -> locked (snd (advance key handler pc w))).
Proof.
  intros Hc Ht0 Hnw. destruct pc as [| | |r|o|o]; try done.
  - destruct (advance_idle_redis P_get w) as [Hr Hcr]; [by left|]. split; [by rewrite Hcr|].
    intros Hl. eapply locked_ext; [apply advance_now|exact Hr|exact Hl].
  - simpl. unfold acquire_lock, redis_set_nx, redis_command.
    destruct (faults w) as [|[] l]; simpl; try (split; [done|]; intros Hl; exact Hl);
      (destruct (r_get (now w) (IDEMPOTENCY_LOCK key) (redis w)) as [v|] eqn:E; simpl;
       [split; [done|]; intros Hl; exact Hl|]).
    all: split; [intros _; split|].
    all: try (intros Hl; destruct (Hl (now w)) as [v Hv]; [simpl; lia|lia|]; simpl in Hv; congruence).
    all: intros t Ht Hlt; simpl in *; rewrite get_set_eq by done; simpl;
      replace (t <? now w + IDEMPOTENCY_LOCK_TTL) with true by (symmetry; apply Z.ltb_lt; lia); eauto.
Qed.

(** A request inside keeps the lock until it leaves. *)
Lemma advance_inside pc w :
  critical pc = true -> critical (fst (advance key handler pc w)) = true -> locked w ->
  locked (snd (advance key handler pc w)).
Proof.
  intros Hc Hc' Hl. destruct pc as [| | |r|o|o]; try done.
  - pose proof (advance_now P_body w) as Hn. intros t Ht Hlt. rewrite Hn in Ht. simpl.
    assert (redis (snd (let (o, w') := handler w in match o with
      | Ok r => (if cacheable_status r then P_cache r else P_release (Ok r), w')
      | Err e => (P_release (Err e), w') end)) = redis (snd (handler w))) as ->.
    { by destruct (handler w) as [[r|e] w']. }
    rewrite Hlock. by apply Hl.
  - simpl in *. unfold cache_response, redis_set, redis_command, raise in *.
    destruct (utf8_valid _); [|exact Hl].
    destruct (faults w) as [|[] l]; simpl in *; try exact Hl;
      intros t Ht Hlt; simpl in *; rewrite get_set_ne by apply response_lock_ne; by apply Hl.
  - simpl in Hc'. by destruct (release_lock key w) as [[u|e] w'].
Qed.

Lemma exclusive_step s s' :
  sys_step key handler s s' -> now (shared s') < t0 + IDEMPOTENCY_LOCK_TTL -> exclusive s -> exclusive s'.
Proof.
  intros [i pc s1 Hi|t s1 Ht] Hlt (H0 & Hex & Hlk); simpl in *.
  - pose proof (advance_now pc (shared s1)) as Hn. rewrite Hn in Hlt.
    assert (forall j pc', <[i := fst (advance key handler pc (shared s1))]> (procs s1) !! j = Some pc' ->
      (j = i /\ pc' = fst (advance key handler pc (shared s1))) \/ (j <> i /\ procs s1 !! j = Some pc')) as Hins.
    { intros j pc' Hj. apply list_lookup_insert_Some in Hj as [(-> & <- & _)|[Hne Hj]]; [by left|]. right. by split. }
    destruct (critical pc) eqn:Ec.
    + split; [simpl; lia|]. split.
      * intros j k p1 p2 [[-> ->]|[Hj Hp1]]%Hins [[-> ->]|[Hk Hp2]]%Hins Hc1 Hc2; [done| | |by eapply Hex].
        -- by eapply Hex.
        -- by eapply Hex.
      * intros j p1 [[-> ->]|[Hj Hp1]]%Hins Hc1.
        -- apply advance_inside; [done|done|]. by eapply Hlk.
        -- destruct Hj. by eapply Hex.
    + destruct (advance_outside pc (shared s1) Ec H0 Hlt) as [Hin Hkeep]. split; [simpl; lia|]. split.
      * intros j k p1 p2 [[-> ->]|[Hj Hp1]]%Hins [[-> ->]|[Hk Hp2]]%Hins Hc1 Hc2; [done| | |by eapply Hex].
        -- exfalso. apply Hin in Hc1 as [Hnl _]. apply Hnl. by eapply Hlk.
        -- exfalso. apply Hin in Hc2 as [Hnl _]. apply Hnl. by eapply Hlk.
      * intros j p1 [[-> ->]|[Hj Hp1]]%Hins Hc1; [by apply Hin|]. apply Hkeep. by eapply Hlk.
  - split; [simpl; lia|]. split; [done|]. intros i pc Hi Hc t' Ht' Hlt'. simpl in *.
    apply (Hlk i pc Hi Hc); lia.
Qed.

Lemma sys_step_now s s' : sys_step key handler s s' -> now (shared s) <= now (shared s').
Proof. intros [i pc s1 Hi|t s1 Ht]; simpl; [rewrite advance_now; lia|done]. Qed.

Lemma run_now s s' : rtc (sys_step key handler) s s' -> now (shared s) <= now (shared s').
Proof. induction 1 as [|x y z Hs _ IH]; [lia|]. pose proof (sys_step_now _ _ Hs). lia. Qed.
End exclusion.

(** C13: concurrent requests with one key, started before any of them took the lock: as
    long as less time has passed than the 60 seconds the lock lives, at most one of them
    is between taking the lock and releasing it, in every interleaving of their Redis
    commands and whichever of these fail; provided the handler leaves the lock alone.  Once
    the lock has expired a second run may start while the first still works
    ([lock_expires_under_a_slow_handler]). *)
Theorem idempotent_requests_exclude_each_other key (handler : Py Response) s0 s i j pc pc' :
  (forall w, now (snd (handler w)) = now w) ->
  (forall w t, r_get t (IDEMPOTENCY_LOCK key) (redis (snd (handler w))) = r_get t (IDEMPOTENCY_LOCK key) (redis w)) ->
  Forall (fun pc => pc = P_get) (procs s0) ->
  rtc (sys_step key handler) s0 s -> now (shared s) < now (shared s0) + IDEMPOTENCY_LOCK_TTL ->
  procs s !! i = Some pc -> procs s !! j = Some pc' -> critical pc = true -> critical pc' = true -> i = j.
Proof.
  intros Hnow Hlock Hstart Hrun Hlt.
  enough (exclusive key (now (shared s0)) s) as (_ & Hex & _) by (intros; by eapply Hex).
  assert (exclusive key (now (shared s0)) s0) as H0.
  { rewrite Forall_lookup in Hstart. split; [lia|]. split; intros *; intros H1 **;
      by rewrite (Hstart _ _ H1) in *. }
  revert H0 Hlt. generalize (now (shared s0)) as t0. clear Hstart. intros t0.
  induction Hrun as [|x y z Hs Hr IH]; intros H0 Hlt; [done|]. apply IH; [|done].
  pose proof (run_now key handler Hnow _ _ Hr). eapply exclusive_step; [done|done|exact Hs|lia|done].
Qed.
End idempotency_props.

(** ** A race *)

Section schedules.
Context {R : Type} {RD : Redis R} {EX : Ext} {ST : Settings} {SL : Starlette}.

Lemma run_schedule_steps key (handler : PyM (R := R) Response) sched s :
  rtc (sys_step key handler) s (run_schedule key handler sched s).
Proof.
  revert s. induction sched as [|i sched IH]; intros s; simpl; [apply rtc_refl|].
  destruct (procs s !! i) as [pc|] eqn:Ei; [|apply IH].
  destruct (advance key handler pc (shared s)) as [pc' w'] eqn:Ea.
  eapply rtc_l; [|apply IH]. pose proof (sys_advance key handler i pc s Ei) as H. by rewrite Ea in H.
Qed.
End schedules.

(** Headers as starlette makes them, but for the character set of a text type. *)
#[export] Instance concrete_starlette : Starlette := {
  init_headers := fun _ content media hs =>
    let low := (fun '(k, v) => (lower k, v)) <$> hs in
    low ++ (if mem "content-length" low.*1 then [] else [("content-length", pretty (Z.of_nat (String.length content)))])
        ++ (match media with
            | Some m => if mem "content-type" low.*1 then [] else [("content-type", m)]
            | None => []
            end);
}.

#[export] Instance concrete_starlette_laws : StarletteLaws.
Proof.
  split. intros st content media hs. eexists. split; [reflexivity|]. intros k Hk. cbn [init_headers] in *.
  set (names := ((fun '(k, v) => (lower k, v)) <$> hs).*1) in *.
  destruct (mem "content-length" names) eqn:E1, media as [m|]; [destruct (mem "content-type" names) eqn:E2| |destruct (mem "content-type" names) eqn:E2|];
    cbn in Hk; rewrite ?mem_false in *; set_solver.
Qed.

(** A handler with a visible effect: it publishes an event. *)
Definition created : Response :=
  {| status_code := 201; headers := [("content-type", "application/json"); ("set-cookie", "a=1"); ("set-cookie", "b=2")]; body := Some "{}";
     media_type := Some "application/json" |}.
Definition creating : PyM (R := MapRedis.t) Response := publish "task.triggered" [] ;;! ret created.

Definition retry_key : string := idempotency_key "POST" "/dlq/1/retry" "k1".
Definition two_requests : Sys := {| procs := [P_get; P_get]; shared := world_of empty_tables |}.

(** The handler can run twice for one key although a request "is processed
    exactly once": the second request looks for a cached answer before the first
    stores it, and takes the lock after the first released it. *)
Theorem duplicate_requests_can_both_run :
  exists s, rtc (sys_step retry_key creating) two_requests s /\
    procs s = [P_done (Ok created); P_done (Ok created)] /\ length (stream (shared s)) = 2%nat /\
    now (shared s) = now (shared two_requests).
Proof.
  exists (run_schedule retry_key creating [0; 1; 0; 0; 0; 0; 1; 1; 1; 1]%nat two_requests).
  split; [apply run_schedule_steps|]. vm_compute. repeat split.
Qed.

(** A lock that expired protects nothing: a request comes while another with its key
    still works, and runs the handler too. *)
Theorem lock_expires_under_a_slow_handler :
  exists s, rtc (sys_step retry_key creating) two_requests s /\ procs s = [P_body; P_body] /\
    now (shared s) = now (shared two_requests) + 60.
Proof.
  set (s1 := run_schedule retry_key creating [0; 0]%nat two_requests).
  set (s2 := {| procs := procs s1; shared := set_now (now (shared two_requests) + 60) (shared s1) |}).
  exists (run_schedule retry_key creating [1; 1]%nat s2). split.
  - etrans; [apply run_schedule_steps|]. eapply rtc_l; [|apply run_schedule_steps].
    apply sys_time. vm_compute. discriminate.
  - vm_compute. by split.
Qed.

(** ** Witnesses *)

Lemma steps_refine_route_handler_witness :
  fst (run_alone 5 retry_key creating P_get (world_of empty_tables)) = P_done (Ok created).
Proof.
  pose proof (steps_refine_route_handler "POST" "/dlq/1/retry" "k1" creating (world_of empty_tables) eq_refl) as H.
  change (idempotency_key "POST" "/dlq/1/retry" "k1") with retry_key in H. rewrite H.
  vm_compute. reflexivity.
Defined.



Lemma idempotent_requests_exclude_each_other_witness :
  let s := run_schedule retry_key creating [0; 1; 0; 1]%nat two_requests in
  procs s = [P_body; P_done (Err in_progress)] /\
  (forall j pc, procs s !! j = Some pc -> critical pc = true -> 0%nat = j).
Proof.
  intros s. split; [vm_compute; reflexivity|]. intros j pc Hj Hc.
  apply (idempotent_requests_exclude_each_other retry_key creating two_requests s 0 j P_body pc); try done.
  - intros w. unfold creating, publish, bind, new_uuid4, draw, gets, redis_command. simpl.
    by destruct (faults w) as [|[] l].
  - intros w t. unfold creating, publish, bind, new_uuid4, draw, gets, redis_command. simpl.
    by destruct (faults w) as [|[] l].
  - by repeat constructor.
  - apply run_schedule_steps.
Defined.
