(* ===== verification/EventBusProps.v ===== *)
(** * Properties of the event bus *)

From Stdlib Require Import ZArith Lia Ascii String List Bool.
From stdpp Require Import base gmap strings list.
From S2P Require Import Prelude Schema Redis World Concrete EventBus.
Local Open Scope string_scope.
Local Open Scope list_scope.
Local Open Scope Z_scope.

(** ** Subscriptions *)

Lemma subscribe_lookup n h n' subs :
  default [] (subscribe n h subs !! n') =
  if decide (n = n') then (let hs := default [] (subs !! n) in if mem h hs then hs else hs ++ [h])
  else default [] (subs !! n').
Proof.
  unfold subscribe. case_decide as Hn.
  - subst. by rewrite lookup_insert_eq.
  - by rewrite lookup_insert_ne.
Qed.

(** However the listener modules register, and however often, a handler is
    in the list of an event at most once, and exactly the registered handlers of
    the modules that could be imported are there. *)
Theorem subscriptions_are_sets modules n :
  let hs := default [] (autodiscover modules ∅ !! n) in
  NoDup hs /\ forall h, h ∈ hs <-> exists regs, Some regs ∈ modules /\ (n, h) ∈ regs.
Proof.
  set (ok := fun (subs : Subscribers) (P : nat -> Prop) =>
    NoDup (default [] (subs !! n)) /\ forall h, h ∈ default [] (subs !! n) <-> P h).
  assert (forall regs subs P, ok subs P ->
    ok (foldl (fun s '(n, h) => subscribe n h s) subs regs) (fun h => P h \/ (n, h) ∈ regs)) as Hregs.
  { induction regs as [|[m x] regs IH]; intros subs P [H1 H2]; simpl.
    - split; [done|]. intros h. rewrite H2. set_solver.
    - destruct (IH (subscribe m x subs) (fun h => P h \/ (m = n /\ h = x))) as [I1 I2].
      + unfold ok. rewrite subscribe_lookup. case_decide as Hm; [subst m|].
        * cbv zeta. destruct (mem x _) eqn:Ex.
          -- rewrite mem_true in Ex. split; [done|]. intros h. rewrite H2.
             split; [tauto|]. intros [?|[_ ->]]; [done|by apply H2].
          -- rewrite mem_false in Ex. split.
             ++ apply NoDup_app. split; [done|]. split; [set_solver|apply NoDup_singleton].
             ++ intros h. rewrite elem_of_app, list_elem_of_singleton, H2. naive_solver.
        * split; [done|]. intros h. rewrite H2. naive_solver.
      + split; [done|]. intros h. rewrite I2, elem_of_cons. naive_solver. }
  intros hs. subst hs. unfold autodiscover.
  enough (forall subs P, ok subs P ->
    ok (foldl (fun subs m => match m with None => subs
               | Some regs => foldl (fun s '(n, h) => subscribe n h s) subs regs end) subs modules)
       (fun h => P h \/ exists regs, Some regs ∈ modules /\ (n, h) ∈ regs)) as Hall.
  { destruct (Hall ∅ (fun _ => False)) as [H1 H2].
    - split; simpl; [constructor|set_solver].
    - split; [exact H1|]. intros h. rewrite (H2 h). tauto. }
  induction modules as [|[regs|] modules IH]; intros subs P Hok; simpl.
  - destruct Hok as [H1 H2]. split; [done|]. intros h. rewrite H2. set_solver.
  - destruct (IH _ _ (Hregs regs _ _ Hok)) as [I1 I2]. split; [done|]. intros h. rewrite I2. set_solver.
  - destruct (IH _ _ Hok) as [I1 I2]. split; [done|]. intros h. rewrite I2. set_solver.
Qed.

Section bus_props.
Context {R : Type} {RD : Redis R} {RL : RedisLaws R} {EX : Ext}.
Context (run : nat -> Event -> PyM (R := R) unit).
Implicit Types w : World R.

(** ** Dispatch *)

(** Handlers cannot fail the loop: each runs on the state the previous left. *)
Lemma run_handlers_run hs e w :
  run_handlers run hs e w = (Ok tt, foldl (fun w h => snd (run h e w)) w hs).
Proof.
  revert w. induction hs as [|h hs IH]; intros w; [done|]. cbn [run_handlers foldl].
  unfold bind, try_catch. destruct (run h e w) as [[[]|x] w']; unfold ret; simpl; apply IH.
Qed.

Definition locked_event (e : Event) w : World R :=
  set_redis (r_set (now w) (event_lock e) (RText "1") (Some 60)) w.

Lemma process_run subs e w :
  faults w = [] ->
  _process_remote_event run subs e w =
  (Ok tt, match default [] (subs !! event_name e), r_get (now w) (event_lock e) (redis w) with
          | [], _ => w
          | _, Some _ => w
          | hs, None => foldl (fun w h => snd (run h e w)) (locked_event e w) hs
          end).
Proof.
  intros Hf. unfold _process_remote_event, try_catch.
  destruct (default [] _) as [|h hs]; [done|]. unfold bind, redis_set_nx, redis_command. rewrite Hf.
  destruct (r_get _ _ _); [done|]. by rewrite run_handlers_run.
Qed.

(** C37: [_process_remote_event] on an event that is not locked, as long as no Redis
    command fails, the handlers leave the lock of the event alone and take no time: all
    its handlers run, once each, in the order of their subscription, whichever of them
    raise; and a second delivery of the same event within 60 seconds runs none.  When the
    lock command fails no handler runs ([event_lost_when_lock_fails]). *)
Theorem event_dispatched_once subs e w t :
  faults w = [] -> r_get (now w) (event_lock e) (redis w) = None ->
  (forall h w1, now (snd (run h e w1)) = now w1 /\ (faults w1 = [] -> faults (snd (run h e w1)) = []) /\
     forall t, r_get t (event_lock e) (redis (snd (run h e w1))) = r_get t (event_lock e) (redis w1)) ->
  default [] (subs !! event_name e) <> [] -> now w <= t -> t < now w + 60 ->
  let w' := foldl (fun w h => snd (run h e w)) (locked_event e w) (default [] (subs !! event_name e)) in
  _process_remote_event run subs e w = (Ok tt, w') /\
  _process_remote_event run subs e (set_now t w') = (Ok tt, set_now t w').
Proof.
  intros Hf Hn Hrun Hne Ht Hlt w'. rewrite process_run by done. rewrite Hn. split.
  - unfold w'. by destruct (default [] _).
  - assert (forall hs w1, faults w1 = [] -> faults (foldl (fun w h => snd (run h e w)) w1 hs) = [] /\
      r_get t (event_lock e) (redis (foldl (fun w h => snd (run h e w)) w1 hs)) = r_get t (event_lock e) (redis w1)) as Hfold.
    { induction hs as [|h hs IH]; intros w1 H1; simpl; [done|]. destruct (Hrun h w1) as (_ & H2 & H3).
      destruct (IH (snd (run h e w1)) (H2 H1)) as [I1 I2]. split; [done|]. by rewrite I2, H3. }
    destruct (Hfold (default [] (subs !! event_name e)) (locked_event e w) Hf) as [F1 F2].
    rewrite process_run by exact F1. fold w' in F2. f_equal.
    assert (r_get t (event_lock e) (redis w') = Some (RText "1")) as Hl.
    { rewrite F2. unfold locked_event. cbn [redis set_redis]. rewrite get_set_eq by done. simpl.
      by replace (t <? now w + 60) with true by (symmetry; apply Z.ltb_lt; lia). }
    cbn [now set_now redis]. rewrite Hl. by destruct (default [] _).
Qed.

(** ** The listener *)

Lemma take_more {A} a b (l : list A) :
  take (a + b) l = take a l ++ take b (drop (length (take a l)) l).
Proof.
  destruct (decide (a <= length l)%nat) as [Hle|Hgt].
  - rewrite length_take_le by done. symmetry. apply take_take_drop.
  - rewrite (take_ge l a), (take_ge l (a + b)), drop_all by lia. by rewrite take_nil, app_nil_r.
Qed.

(** What processing events one after the other leaves. *)
Definition process_all (subs : Subscribers) (es : list Event) w : World R :=
  foldl (fun w e => snd (_process_remote_event run subs e w)) w es.

Context (Hquiet : forall h e w, stream (snd (run h e w)) = stream w /\ (faults w = [] -> faults (snd (run h e w)) = [])).

Lemma process_quiet subs e w :
  faults w = [] -> fst (_process_remote_event run subs e w) = Ok tt /\
  stream (snd (_process_remote_event run subs e w)) = stream w /\
  faults (snd (_process_remote_event run subs e w)) = [].
Proof.
  intros Hf. rewrite process_run by done. split; [done|]. simpl.
  assert (forall hs w1, faults w1 = [] -> stream (foldl (fun w h => snd (run h e w)) w1 hs) = stream w1 /\
    faults (foldl (fun w h => snd (run h e w)) w1 hs) = []) as Hfold.
  { induction hs as [|h hs IH]; intros w1 H1; simpl; [done|]. destruct (Hquiet h e w1) as [H2 H3].
    destruct (IH _ (H3 H1)) as [I1 I2]. split; [congruence|done]. }
  destruct (default [] _) as [|h hs]; [done|]. destruct (r_get _ _ _); [done|].
  by apply (Hfold (h :: hs) (locked_event e w)).
Qed.

Lemma process_batch_run subs es i w g :
  faults w = [] -> (forall j, j ∈ pending g -> (j < i)%nat) ->
  process_batch run subs (zip (seq i (length es)) es) (w, {| last_delivered := last_delivered g;
    pending := pending g ++ seq i (length es) |}) =
  (Ok tt, (process_all subs es w, g)).
Proof.
  revert i w g. induction es as [|e es IH]; intros i w g Hf Hp.
  - simpl. rewrite app_nil_r. by destruct g.
  - cbn [length seq zip_with process_batch]. destruct (process_quiet subs e w Hf) as (H1 & H2 & H3).
    unfold bind at 1, lift_py. destruct (_process_remote_event run subs e w) as [o w1] eqn:Ep.
    simpl in H1, H2, H3. subst o. unfold bind at 1, xack, redis_command. rewrite H3. unfold ret.
    cbn [pending last_delivered].
    assert (filter (fun j => j <> i) (pending g ++ i :: seq (S i) (length es)) = pending g ++ seq (S i) (length es)) as ->.
    { rewrite filter_app, filter_cons, decide_False by congruence. rewrite !filter_every; [done| |].
      - intros j Hj. rewrite elem_of_seq in Hj. lia.
      - intros j Hj. specialize (Hp j Hj). lia. }
    rewrite (IH (S i) w1 g H3); [by unfold process_all; simpl; rewrite Ep|].
    intros j Hj. specialize (Hp j Hj). lia.
Qed.

Lemma process_all_quiet subs es w :
  faults w = [] -> stream (process_all subs es w) = stream w /\ faults (process_all subs es w) = [].
Proof.
  revert w. induction es as [|e es IH]; intros w Hf; [done|]. unfold process_all. simpl.
  destruct (process_quiet subs e w Hf) as (_ & H2 & H3). destruct (IH _ H3) as [I1 I2].
  split; [|exact I2]. etrans; [exact I1|done].
Qed.

Lemma turn_run subs w g :
  faults w = [] -> (forall j, j ∈ pending g -> (j < last_delivered g)%nat) ->
  let new := take batch_size (drop (last_delivered g) (stream w)) in
  listener_turn run subs (w, g) =
  (Ok tt, (process_all subs new w,
           {| last_delivered := last_delivered g + length new; pending := pending g |})).
Proof.
  intros Hf Hp new. unfold listener_turn, try_catch. unfold bind at 1, xreadgroup, redis_command. rewrite Hf.
  unfold gets. fold new.
  exact (f_equal (fun x => match x with (Ok a, w') => (Ok a, w') | (Err e, w') => (Ok tt, w') end)
    (process_batch_run subs new (last_delivered g) w
      {| last_delivered := last_delivered g + length new; pending := pending g |} Hf Hp)).
Qed.

(** C36: with one worker in the group, no failing Redis command, a stream that is not
    trimmed, and handlers that neither publish nor disturb Redis: in [n] turns the worker
    processes the first [10 * n] entries after its position, in the order they were
    published and each once, acknowledges them, and moves its position past them.
    Entries that were delivered before and never acknowledged are not read again; they
    stay pending. *)
Theorem listener_processes_in_order subs n w g :
  faults w = [] -> (forall j, j ∈ pending g -> (j < last_delivered g)%nat) ->
  let new := take (n * batch_size) (drop (last_delivered g) (stream w)) in
  _redis_listener run n subs (w, g) =
  (Ok tt, (process_all subs new w,
           {| last_delivered := last_delivered g + length new; pending := pending g |})).
Proof.
  revert w g. induction n as [|n IH]; intros w g Hf Hp.
  { simpl. rewrite Nat.add_0_r. by destruct g. }
  cbv zeta. cbn [_redis_listener]. rewrite (bind_ok _ _ _ _ _ (turn_run subs w g Hf Hp)).
  set (new1 := take batch_size (drop (last_delivered g) (stream w))).
  destruct (process_all_quiet subs new1 w Hf) as [Hs Hf1].
  rewrite IH; [|exact Hf1|intros j Hj; simpl in *; specialize (Hp j Hj); lia].
  cbn [last_delivered pending]. rewrite Hs.
  set (new2 := take (n * batch_size) _).
  assert (take (S n * batch_size) (drop (last_delivered g) (stream w)) = new1 ++ new2) as ->.
  { unfold new1, new2. rewrite <- drop_drop.
    change (S n * batch_size)%nat with (batch_size + n * batch_size)%nat.
    apply take_more. }
  unfold process_all. rewrite foldl_app, length_app, Nat.add_assoc. done.
Qed.
End bus_props.

(** ** A lost event *)

Section lost.
Context {R : Type} {RD : Redis R} {EX : Ext}.
Context (run : nat -> Event -> PyM (R := R) unit).
Implicit Types w : World R.

(** Delivery is not at-least-once: when the lock command of an event fails,
    the exception is logged and the entry acknowledged; no handler ran, and no
    later turn of any worker of the group delivers the event again. *)
Theorem event_lost_when_lock_fails subs e w g n l :
  default [] (subs !! event_name e) <> [] ->
  last_delivered g = length (stream w) -> ~ length (stream w) ∈ pending g ->
  let w0 := set_faults (false :: true :: false :: l) (add_event e w) in
  exists g', listener_turn run subs (w0, g) = (Ok tt, (set_faults l (add_event e w), g')) /\
    last_delivered g' = length (stream (add_event e w)) /\ pending g' = pending g /\
    (forall w', stream w' = stream (add_event e w) -> faults w' = [] ->
       _redis_listener run n subs (w', g') = (Ok tt, (w', g'))).
Proof.
  intros Hne Hg Hp w0.
  exists {| last_delivered := last_delivered g + 1; pending := filter (fun i => i <> last_delivered g) (pending g ++ [last_delivered g]) |}.
  split; [|split; [|split]].
  - unfold listener_turn, try_catch. unfold bind at 1, xreadgroup, redis_command.
    cbn [faults w0 set_faults stream add_event gets]. rewrite Hg, drop_app_length.
    cbn [batch_size take length seq zip_with]. cbn [process_batch].
    unfold bind at 1, lift_py, _process_remote_event, try_catch. destruct (default [] _) as [|h hs]; [done|].
    unfold bind at 1, redis_set_nx, redis_command. cbn [faults set_faults].
    unfold ret, bind, xack, redis_command. cbn [faults set_faults pending last_delivered]. done.
  - simpl. rewrite length_app, Hg. done.
  - simpl. rewrite filter_app, Hg. rewrite (filter_every _ (pending g)); [|by intros j Hj ->].
    rewrite filter_none; [by rewrite app_nil_r|]. intros x ->%list_elem_of_singleton. auto.
  - intros w' Hs Hf. induction n as [|n IH]; [done|]. cbn [_redis_listener].
    match goal with |- context [(w', ?g')] => assert (listener_turn run subs (w', g') = (Ok tt, (w', g'))) as Ht end.
    { unfold listener_turn, try_catch. unfold bind at 1, xreadgroup, redis_command, gets. rewrite Hf, Hs.
      cbn [last_delivered pending]. rewrite drop_ge by (simpl; rewrite length_app, Hg; simpl; lia).
      cbn [take batch_size length seq zip_with process_batch]. unfold ret. by rewrite Nat.add_0_r, app_nil_r. }
    by rewrite (bind_ok _ _ _ _ _ Ht).
Qed.
End lost.

(** ** Witnesses *)

(** Handler [h] writes its number into the audit log; handler 2 then fails. *)
Definition note (h : nat) (e : Event) : PyM (R := MapRedis.t) unit :=
  modify (add_audit {| a_actor := "handler"; a_impersonator := None; a_action := event_name e;
    a_resource := ""; a_resource_id := event_id e; a_details := JNum (Z.of_nat h); a_ip := None |}) ;;!
  (if (h =? 2)%nat then raise (ValueErr "boom") else ret tt).

Definition an_event (id : string) : Event :=
  {| event_id := id; event_name := "user.created"; timestamp := 0; payload := [] |}.
Definition some_subs : Subscribers :=
  autodiscover [Some [("user.created", 1%nat); ("user.created", 2%nat)]; None; Some [("user.created", 3%nat)];
                Some [("user.created", 1%nat)]] ∅.
Definition bus_world : World MapRedis.t := world_of empty_tables.

Lemma event_dispatched_once_witness :
  let w' := snd (_process_remote_event note some_subs (an_event "e1") bus_world) in
  (fun a => a_details a) <$> audit w' = [JNum 1; JNum 2; JNum 3] /\
  _process_remote_event note some_subs (an_event "e1") (set_now 1059 w') = (Ok tt, set_now 1059 w').
Proof.
  intros w'. split; [vm_compute; reflexivity|].
  refine (proj2 (event_dispatched_once note some_subs (an_event "e1") bus_world 1059 _ _ _ _ _ _));
    try (vm_compute; reflexivity); try (vm_compute; discriminate).
  intros h w1. unfold note, bind, modify. by destruct (h =? 2)%nat.
Defined.

Definition two_events : World MapRedis.t := add_event (an_event "e2") (add_event (an_event "e1") bus_world).
Definition new_group : Group := {| last_delivered := 0; pending := [] |}.

Lemma listener_processes_in_order_witness :
  exists w', _redis_listener note 1 some_subs (two_events, new_group) =
    (Ok tt, (w', {| last_delivered := 2; pending := [] |})) /\
    (fun a => (a_resource_id a, a_details a)) <$> audit w' =
    [("e1", JNum 1); ("e1", JNum 2); ("e1", JNum 3); ("e2", JNum 1); ("e2", JNum 2); ("e2", JNum 3)].
Proof.
  eexists. split.
  - refine (listener_processes_in_order note _ some_subs 1 two_events new_group _ _).
    + intros h e w. unfold note, bind, modify. by destruct (h =? 2)%nat.
    + reflexivity.
    + intros j Hj. by apply elem_of_nil in Hj.
  - vm_compute. reflexivity.
Defined.

Lemma event_lost_when_lock_fails_witness :
  exists g', listener_turn note some_subs (set_faults [false; true; false] (add_event (an_event "e1") bus_world), new_group) =
    (Ok tt, (set_faults [] (add_event (an_event "e1") bus_world), g')) /\
    last_delivered g' = 1%nat /\ pending g' = [].
Proof.
  destruct (event_lost_when_lock_fails note some_subs (an_event "e1") bus_world new_group 3 []) as (g' & H1 & H2 & H3 & _).
  - vm_compute. discriminate.
  - reflexivity.
  - intros H. by apply elem_of_nil in H.
  - exists g'. split; [exact H1|]. split; [exact H2|exact H3].
Defined.
