(* ===== verification/DeadLetterProps.v ===== *)
(** * Theorems on the dead letter queue

    What is stored of a failed task is valid JSON and comes back from the column
    unchanged; a retrigger sends the selected rows in order, up to the first
    failure of the broker, and removes all of them; an edit changes the rows it
    is aimed at and nothing else of them. *)

From Stdlib Require Import ZArith Lia Ascii String List Bool.
From stdpp Require Import base gmap strings sorting list pretty.
From S2P Require Import Prelude Redis Schema JsonText World Invariants Concrete Scenario DeadLetter.
Local Open Scope string_scope.
Local Open Scope list_scope.
Local Open Scope Z_scope.

(** ** Serialisation *)

(** The texts of a value are UTF-8, and a float is the text of one. *)
Fixpoint py_utf8 (v : PyVal) : Prop :=
  match v with
  | PStr s | PObj s => utf8_valid s = true
  | PFloat t => float_text t = true
  | PSeq l => (fix all (l : list PyVal) := match l with [] => True | x :: l' => py_utf8 x /\ all l' end) l
  | PDict fs =>
      (fix all (l : list (PyVal * PyVal)) :=
         match l with [] => True | (k, x) :: l' => py_utf8 k /\ py_utf8 x /\ all l' end) fs
  | _ => True
  end.

Lemma py_utf8_seq l : py_utf8 (PSeq l) <-> Forall py_utf8 l.
Proof. induction l as [|x l IH]; [by split|]. rewrite Forall_cons, <- IH. done. Qed.

Lemma py_utf8_dict fs : py_utf8 (PDict fs) <-> Forall (fun p => py_utf8 (fst p) /\ py_utf8 (snd p)) fs.
Proof. induction fs as [|[k x] l IH]; [by split|]. rewrite Forall_cons, <- IH. simpl. tauto. Qed.

Lemma PyVal_ind' (P : PyVal -> Prop) :
  P PNone -> (forall b, P (PBool b)) -> (forall n, P (PInt n)) -> (forall t, P (PFloat t)) -> (forall s, P (PStr s)) ->
  (forall l, Forall P l -> P (PSeq l)) ->
  (forall fs, Forall (fun p => P (fst p) /\ P (snd p)) fs -> P (PDict fs)) ->
  (forall s, P (PObj s)) -> forall v, P v.
Proof.
  intros H1 H2 H3 Hf H4 H5 H6 H7. fix IH 1. intros [| | | | |l|fs|]; [done|done|done|done|done| | |done].
  - apply H5. induction l; constructor; [apply IH|done].
  - apply H6. induction fs as [|[k v] fs IHf]; constructor; [split; apply IH|done].
Qed.

Definition dict_of (l : list (string * Json)) (d : list (string * Json)) : list (string * Json) :=
  fold_left (fun d '(k, v) => dict_set k v d) l d.

Lemma dict_set_keys k v d : fst <$> dict_set k v d = if decide (k ∈ fst <$> d) then fst <$> d else (fst <$> d) ++ [k].
Proof.
  induction d as [|[k' v'] d IH]; csimpl; [done|].
  destruct (String.eqb_spec k' k) as [->|Hne]; csimpl.
  - by rewrite decide_True by (left).
  - rewrite IH. destruct (decide (k ∈ fst <$> d)) as [Hin|Hin].
    + by rewrite decide_True by (by right).
    + rewrite decide_False; [done|]. by intros [->|?]%elem_of_cons.
Qed.

Lemma dict_set_ok k v d : utf8_valid k = true -> json_ok v -> json_ok (JObj d) -> json_ok (JObj (dict_set k v d)).
Proof.
  rewrite !json_ok_obj. intros Hk Hv [Hn Hd]. split.
  - rewrite dict_set_keys. case_decide; [done|]. apply NoDup_app. split; [done|].
    split; [|apply NoDup_singleton]. by intros x Hx ->%list_elem_of_singleton.
  - clear Hn. induction Hd as [|[k' v'] d [Hk' Hv'] Hd IH]; simpl; [by repeat constructor|].
    destruct (String.eqb_spec k' k) as [->|]; constructor; try done.
Qed.

Lemma dict_of_ok l d :
  Forall (fun p => utf8_valid (fst p) = true /\ json_ok (snd p)) l -> json_ok (JObj d) -> json_ok (JObj (dict_of l d)).
Proof.
  intros Hl. revert d. induction Hl as [|[k v] l [Hk Hv] Hl IH]; intros d Hd; [done|].
  apply IH. by apply dict_set_ok.
Qed.

Lemma dict_of_fresh l d : NoDup (fst <$> d ++ l) -> dict_of l d = d ++ l.
Proof.
  revert d. induction l as [|[k v] l IH]; intros d Hn; [by rewrite app_nil_r|]. cbn.
  rewrite dict_set_new.
  - unfold dict_of in IH. rewrite IH; rewrite <- app_assoc; done.
  - rewrite fmap_app in Hn. apply NoDup_app in Hn as (_ & Hd & _). intros Hk. apply (Hd _ Hk). left.
Qed.

Section serialize_lemmas.
Context (str_of : PyVal -> string) (str_of_utf8 : forall v, utf8_valid (str_of v) = true).

Lemma utf8_float_str t : float_text t = true -> utf8_valid (float_str t) = true.
Proof using. unfold float_str. intros H. repeat case_match; try done. by apply utf8_float. Qed.

Lemma serialize_ok v : py_utf8 v -> json_ok (json_serialize_safe str_of v).
Proof using str_of_utf8.
  induction v as [| | | | |l IH|fs IH|] using PyVal_ind'; try done.
  - rewrite py_utf8_seq. intros Hl. simpl json_serialize_safe. rewrite json_ok_list.
    apply Forall_fmap. unfold compose. rewrite Forall_forall in *. eauto.
  - rewrite py_utf8_dict. intros Hf. simpl json_serialize_safe. apply dict_of_ok; [|by split; [constructor|]].
    apply Forall_fmap. unfold compose. rewrite Forall_forall in *. intros [k x] Hx. simpl.
    destruct (Hf _ Hx), (IH _ Hx). split; [|auto].
    destruct k as [|[]|n|t| | | |]; simpl; auto using utf8_pretty, utf8_float_str.
Qed.

(** C40: what [json_serialize_safe] makes of any object whose texts are UTF-8 is a
    value that [json.dumps] writes and [json.loads] reads back as it was: no dict
    has two equal keys, however keys collide as texts, and a float is read back from
    the text it was written as, NaN and the infinities from the names Python has for
    them, which are no JSON. *)
Theorem serialized_values_read_back v : py_utf8 v ->
  json_ok (json_serialize_safe str_of v) /\
  loads (dumps (json_serialize_safe str_of v)) = Some (json_serialize_safe str_of v).
Proof using str_of_utf8. intros Hv. pose proof (serialize_ok v Hv). by split; [|apply loads_dumps]. Qed.

Lemma serialize_of_json j : json_ok j -> json_serialize_safe str_of (of_json_value j) = j.
Proof using.
  induction j as [| | | | |l IH|fs IH] using Json_ind'; try done.
  - rewrite json_ok_list. intros Hl. simpl. f_equal. rewrite map_map. 
    induction Hl as [|x l Hx Hl IHl]; [done|]. inversion IH; subst. simpl. f_equal; auto.
  - rewrite json_ok_obj. intros [Hn Hf]. simpl. f_equal.
    transitivity (dict_of fs []); [|by apply dict_of_fresh]. unfold dict_of. f_equal.
    clear Hn. induction Hf as [|[k x] fs [Hk Hx] Hf IHf]; [done|]. inversion IH; subst. simpl. f_equal; auto.
    f_equal. auto.
Qed.
End serialize_lemmas.

(** ** Retriggering *)

(** The number of sends before the next failure of the broker. *)
Fixpoint before_fault (l : list bool) : option nat :=
  match l with
  | [] => None
  | true :: _ => Some 0%nat
  | false :: l' => S <$> before_fault l'
  end.

(** Of [n] sends, how many go through. *)
Definition sends_through (n : nat) (l : list bool) : nat := Nat.min n (default n (before_fault l)).

Lemma sends_through_S n l : sends_through (S n) l =
  match l with true :: _ => 0%nat | false :: l' => S (sends_through n l') | [] => S (sends_through n []) end.
Proof. unfold sends_through. destruct l as [|[] l]; simpl; try lia. destruct (before_fault l); simpl; lia. Qed.

Lemma sends_through_all n : sends_through n [] = n.
Proof. unfold sends_through. simpl. lia. Qed.




Section retrigger.
Context {R : Type} {RD : Redis R} {EX : Ext}.
Implicit Types w : World R.
Local Abbreviation retriggered := DeadLetterTaskService.retriggered.
Local Abbreviation retrigger_tasks := DeadLetterTaskService.retrigger_tasks.

Lemma match_nonempty {A B} (l : list A) (x y : B) :
  l <> [] -> match l with [] => x | _ :: _ => y end = y.
Proof. by destruct l. Qed.

Lemma send_all_run tasks c w :
  Forall (fun d => sendable (retriggered d) = true) tasks ->
  exists w', let k := sends_through (length tasks) (broker_faults w) in
    DeadLetterTaskService.send_all tasks c w =
      (if decide (k = length tasks) then Ok (c + Z.of_nat (length tasks)) else Err BrokerError, w') /\
    db w' = db w /\ sent w' = sent w ++ map retriggered (take k tasks).
Proof.
  intros Hs. revert c w. induction Hs as [|d tasks Hd Hs IH]; intros c w.
  - exists w. simpl. rewrite Z.add_0_r, app_nil_r. done.
  - cbn [DeadLetterTaskService.send_all length]. unfold bind, send_task. rewrite Hd, sends_through_S.
    destruct (broker_faults w) as [|[] l] eqn:El.
    + destruct (IH (c + 1) (add_sent (retriggered d) w)) as (w' & -> & Hdb & Hsent).
      exists w'. simpl in *. rewrite El, !sends_through_all in *. simpl.
      rewrite !decide_True by done. rewrite Hsent, Hdb, <- app_assoc. split_and!; [|done|done].
      f_equal. f_equal. lia.
    + exists (set_broker_faults l w). simpl. by rewrite app_nil_r.
    + destruct (IH (c + 1) (add_sent (retriggered d) (set_broker_faults l w))) as (w' & -> & Hdb & Hsent).
      exists w'. simpl in *. rewrite Hsent, Hdb, <- app_assoc. split_and!; [|done|done].
      f_equal. destruct (decide (sends_through (length tasks) l = length tasks)) as [->|];
        [rewrite decide_True by done|by rewrite decide_False by lia]. f_equal. lia.
Qed.







(** A retrigger removes every row it is aimed at and sends the stored tasks in
    the order they were returned, each with its own name, arguments and queue.
    When the broker refuses one, the earlier ones are sent once, the call fails,
    and no row comes back: the refused task and the later ones are gone. *)
Theorem retrigger_sends_until_broker_fails ids name w o w' :
  let tasks := filter (fun d => targeted (default [] ids) name d = true) (values (dead_letter_tasks (db w))) in
  let k := sends_through (length tasks) (broker_faults w) in
  replica w = None -> tasks <> [] ->
  Forall (fun d => sendable (retriggered d) = true) tasks ->
  retrigger_tasks (Some {| dt_task_ids := ids; dt_task_name := name |}) None w = (o, w') ->
  (forall i d, dead_letter_tasks (db w') !! i = Some d <->
     dead_letter_tasks (db w) !! i = Some d /\ targeted (default [] ids) name d = false) /\
  sent w' = sent w ++ map retriggered (take k tasks) /\
  o = (if decide (k = length tasks)
       then Ok {| message := "Successfully retriggered " +:+ pretty (Z.of_nat (length tasks)) +:+ " task(s).";
                  affected_count := Z.of_nat (length tasks) |}
       else Err BrokerError).
Proof.
  intros tasks k Hr Hne Hs Hrun. unfold retrigger_tasks in Hrun.
  unfold bind at 1, DeadLetterTaskDAO.fetch_and_delete_tasks, db_write_on_read_pool in Hrun.
  rewrite Hr in Hrun. unfold db_write, take_dead_rows in Hrun. cbn [dt_task_ids dt_task_name] in Hrun. fold tasks in Hrun.
  rewrite match_nonempty in Hrun by done. unfold bind in Hrun.
  set (w0 := set_db _ w) in Hrun. destruct (send_all_run tasks 0 w0 Hs) as (w1 & Hrun1 & Hdb & Hsent).
  change (broker_faults w0) with (broker_faults w) in *. fold k in Hrun1, Hsent.
  change (sent w0) with (sent w) in Hsent. rewrite Hrun1, Z.add_0_l in Hrun. rewrite <- Hsent. clear Hrun1 Hsent.
  assert (forall i, dead_letter_tasks (db w1) !! i =
    filter (fun '(_, d) => targeted (default [] ids) name d = false) (dead_letter_tasks (db w)) !! i) as Hf
    by (intros i; by rewrite Hdb).
  destruct (decide (k = length tasks)); injection Hrun as <- <-;
    (split_and!; [|done|done]); intros i d; by rewrite Hf, map_lookup_filter_Some.
Qed.
End retrigger.

(** ** Editing *)

Lemma count_rows_length P t :
  count_rows P t = Z.of_nat (length (filter (fun d => P d = true) (values (dead_letter_tasks t)))).
Proof. done. Qed.

Section edit.
Context {R : Type} {RD : Redis R} {EX : Ext}.
Implicit Types w : World R.

(** What the DAO's update does to the rows it is aimed at. *)
Definition edited (w : World R) (payload : DLQUpdatePayload) (task_id : option uuid) (d : DeadLetterTask) : DeadLetterTask :=
  edit_task (now w) ((fun a => jsonb_text (dumps (JList a))) <$> du_args payload)
    ((fun k => jsonb_text (dumps (JObj k))) <$> du_kwargs payload)
    (du_merge_kwargs payload && bool_decide (task_id = None)) (du_queue payload) d.

Definition edit_targets (payload : DLQUpdatePayload) (task_id : option uuid) (d : DeadLetterTask) : bool :=
  targeted (match task_id with Some i => [i] | None => default [] (dt_task_ids (du_target payload)) end)
    (dt_task_name (du_target payload)) d.

Lemma update_payload_run payload task_id w :
  DeadLetterTaskDAO.update_task_payload payload task_id w =
  (Ok (count_rows (edit_targets payload task_id) (db w)),
   set_db (set_dead_letter_tasks (fmap (fun d => if edit_targets payload task_id d
                                                 then edited w payload task_id d else d))) w).
Proof. done. Qed.

Lemma decoded_dumps e j : json_ok j -> decoded e (jsonb_text (dumps j)) = j.
Proof. intros Hj. unfold decoded, jsonb_text. by rewrite loads_dumps. Qed.

(** An edit of stored payloads answers the number of rows it is aimed at.
    Exactly those rows change: their arguments, keyword arguments and queue read
    back as the ones given, or stay when not given, and all else of them but the
    time of the update stays.  Keyword arguments given with the merge flag (its
    default) and no single identifier are not merged: the column of such a row
    becomes a JSON array, which is no mapping of keyword arguments. *)
Theorem edited_payloads_read_back payload task_id w :
  Forall json_ok (default [] (du_args payload)) -> json_ok (JObj (default [] (du_kwargs payload))) ->
  exists w', DeadLetterTaskService.update_task_payload payload task_id w =
    (Ok {| message := "Successfully updated " +:+ pretty (count_rows (edit_targets payload task_id) (db w)) +:+ " task(s).";
           affected_count := count_rows (edit_targets payload task_id) (db w) |}, w') /\
  forall i d, dead_letter_tasks (db w) !! i = Some d -> exists d',
    dead_letter_tasks (db w') !! i = Some d' /\
    (edit_targets payload task_id d = false -> d' = d) /\
    (edit_targets payload task_id d = true ->
       response_args d' = from_option JList (response_args d) (du_args payload) /\
       d_queue d' = default (d_queue d) (du_queue payload) /\
       (d_task_id d', d_task_name d', d_headers d', d_exception_type d', d_retry_count d', d_failed_at d') =
       (d_task_id d, d_task_name d, d_headers d, d_exception_type d, d_retry_count d, d_failed_at d) /\
       match du_kwargs payload with
       | None => response_kwargs d' = response_kwargs d
       | Some k =>
           if du_merge_kwargs payload && bool_decide (task_id = None)
           then (forall s, d_kwargs d = jsonb_text s ->
                   response_kwargs d' = JList [JStr s; JStr (dumps (JObj k))])
           else response_kwargs d' = JObj k
       end).
Proof.
  intros Ha Hk. eexists. split.
  { unfold DeadLetterTaskService.update_task_payload, bind. rewrite update_payload_run. reflexivity. }
  intros i d Hd. exists (if edit_targets payload task_id d then edited w payload task_id d else d).
  split; [cbn; by rewrite lookup_fmap, Hd|]. destruct (edit_targets payload task_id d); [|by split].
  split; [done|]. intros _. unfold edited. split_and!; [|done|done|].
  - destruct (du_args payload) as [a|]; [|done]. apply decoded_dumps. by apply json_ok_list.
  - destruct (du_kwargs payload) as [k|]; [|done]. unfold response_kwargs.
    cbn [edit_task d_kwargs fmap option_fmap option_map].
    destruct (_ && _); [by intros s ->|by apply decoded_dumps].
Qed.

(** After such a merge a retrigger raises and the row is gone. *)
Lemma merged_payload_not_sendable d k s :
  d_kwargs d = jsonb_text s -> sendable (DeadLetterTaskService.retriggered
    (edit_task 0 None (Some (jsonb_text (dumps (JObj k)))) true None d)) = false.
Proof.
  intros Hd. unfold sendable. apply andb_false_intro2. cbn. unfold response_kwargs. cbn. by rewrite Hd.
Qed.
End edit.

(** ** Concrete runs *)

Definition show_nothing (v : PyVal) : string := "".

Definition send_mail_failed (to : string) : TaskFailure := {|
  tf_sender := Some {| se_name := "send_mail"; se_queue := Some "mail"; se_headers := None; se_retries := 3 |};
  tf_task_id := Some "t1";
  tf_exception := Some ("OSError", "connection refused");
  tf_args := [PStr to; PInt 2];
  tf_kwargs := [(PStr "html", PBool true); (PInt 7, PNone)];
  tf_einfo_traceback := None;
  tf_traceback := Some "trace";
  tf_exception_text := "";
|}.

(** Two failed tasks, stored; the broker refuses the second of the next sends. *)
Definition two_dead : World MapRedis.t :=
  set_broker_faults [false; true]
    (snd (handle_task_failure show_nothing true None (send_mail_failed "b@example.org")
      (snd (handle_task_failure show_nothing true None (send_mail_failed "a@example.org") (world_of seed_tables))))).

Lemma serialized_values_read_back_witness :
  py_utf8 (PDict [(PInt 1, PStr "a"); (PInt 2, PSeq [PNone])]) /\
  json_ok (json_serialize_safe show_nothing (PDict [(PInt 1, PStr "a"); (PInt 2, PSeq [PNone])])) /\
  json_serialize_safe show_nothing (PDict [(PInt 1, PStr "a"); (PInt 2, PSeq [PNone])]) = JObj [("1", JStr "a"); ("2", JList [JNull])].
Proof.
  split; [done|]. split; [|reflexivity]. apply (serialized_values_read_back show_nothing); [done|]. done.
Defined.


Lemma retrigger_sends_until_broker_fails_witness :
  exists w', DeadLetterTaskService.retrigger_tasks (Some {| dt_task_ids := None; dt_task_name := Some "send_mail" |}) None
    two_dead = (Err BrokerError, w') /\ length (sent w') = 1%nat /\ dead_letter_tasks (db w') !! "u4-1" = None.
Proof.
  destruct (DeadLetterTaskService.retrigger_tasks (Some {| dt_task_ids := None; dt_task_name := Some "send_mail" |}) None
    two_dead) as [o w'] eqn:E. exists w'.
  edestruct (retrigger_sends_until_broker_fails None (Some "send_mail") two_dead o w') as (Hrows & Hsent & ->).
  - reflexivity.
  - vm_compute. discriminate.
  - apply forallb_Forall. vm_compute. reflexivity.
  - exact E.
  - split_and!.
    + rewrite decide_False by (vm_compute; discriminate). reflexivity.
    + rewrite Hsent. vm_compute. reflexivity.
    + apply eq_None_not_Some. intros [d Hd]. apply Hrows in Hd as [Hd Ht]. revert Ht.
      assert (d_task_name <$> dead_letter_tasks (db two_dead) !! "u4-1" = Some "send_mail") as Hn
        by (vm_compute; reflexivity).
      rewrite Hd in Hn. injection Hn as Hn.
      unfold targeted. simpl. by rewrite Hn.
Defined.

Lemma edited_payloads_read_back_witness : exists w' d',
  DeadLetterTaskService.update_task_payload
    {| du_target := {| dt_task_ids := None; dt_task_name := None |}; du_args := Some [JNum 1];
       du_kwargs := Some [("html", JBool false)]; du_queue := None; du_merge_kwargs := true |} (Some "u4-0") two_dead =
    (Ok {| message := "Successfully updated 1 task(s)."; affected_count := 1 |}, w') /\
  dead_letter_tasks (db w') !! "u4-0" = Some d' /\ response_args d' = JList [JNum 1] /\
  response_kwargs d' = JObj [("html", JBool false)] /\ d_queue d' = "mail".
Proof.
  destruct (edited_payloads_read_back
    {| du_target := {| dt_task_ids := None; dt_task_name := None |}; du_args := Some [JNum 1];
       du_kwargs := Some [("html", JBool false)]; du_queue := None; du_merge_kwargs := true |} (Some "u4-0") two_dead)
    as (w' & Hrun & Hrows).
  - by repeat constructor.
  - split; [repeat constructor; set_solver|done].
  - destruct (dead_letter_tasks (db two_dead) !! "u4-0") as [d|] eqn:Ed; [|by vm_compute in Ed].
    destruct (Hrows _ _ Ed) as (d' & Hd' & _ & Hedit). exists w', d'.
    assert ((fun x => (d_queue x, d_id x)) <$> dead_letter_tasks (db two_dead) !! "u4-0" = Some ("mail", "u4-0")) as Hx
      by (vm_compute; reflexivity).
    rewrite Ed in Hx. injection Hx as Hq Hi.
    destruct Hedit as (Ha & Hqu & _ & Hk).
    { unfold edit_targets, targeted. apply mem_true. rewrite Hi. left. }
    split_and!; [|done|exact Ha|exact Hk|by rewrite Hqu, Hq].
    rewrite Hrun. f_equal.
Defined.
