(* ===== verification/PeriodicProps.v ===== *)
(** * Theorems on periodic tasks and the beat scheduler

    The schedule the beat process holds after a reload is the image of the enabled
    rows; every change the service accepts reaches it at the next tick; what is
    stored as arguments comes back as a text, so a stored schedule cannot be
    triggered by hand; and an interval is scheduled with its length in seconds as
    long as the length fits a [timedelta]. *)

From Stdlib Require Import ZArith Lia Ascii String List Bool.
From stdpp Require Import base gmap strings sorting list pretty.
From S2P Require Import Prelude Redis Schema JsonText World Invariants DeadLetter PeriodicTasks BeatScheduler SideInvariants.
From S2P Require Import Concrete Scenario PaginationProps.
Local Open Scope string_scope.
Local Open Scope list_scope.
Local Open Scope Z_scope.

(** ** The schedule of a row, on its typed columns *)

Definition period_seconds (p : option IntervalPeriod) : Z :=
  match p with
  | Some SECONDS => 1
  | Some MINUTES | None => 60
  | Some HOURS => 3600
  | Some DAYS => 86400
  end.

Definition every_or_60 (o : option Z) : Z :=
  match o with None | Some 0 => 60 | Some n => n end.

Section spec.
Context {CE : Celery}.

Definition row_schedule (p : PeriodicTask) : option Schedule :=
  match pt_schedule_type p with
  | INTERVAL =>
      let s := every_or_60 (pt_interval_every p) * period_seconds (pt_interval_period p) in
      if Z.abs (s / 86400) <=? 999999999 then Some (run_every s) else None
  | CRONTAB =>
      if crontab_fields_ok (pt_cron_minute p) (pt_cron_hour p) (pt_cron_day_of_week p)
           (pt_cron_day_of_month p) (pt_cron_month_of_year p)
      then Some (crontab (or_star (pt_cron_minute p)) (or_star (pt_cron_hour p)) (or_star (pt_cron_day_of_week p))
                  (or_star (pt_cron_day_of_month p)) (or_star (pt_cron_month_of_year p)))
      else None
  end.

Definition stored_arg (empty : PyVal) (j : Json) : PyVal :=
  if py_truthy (of_json_value j) then of_json_value j else empty.

(** What the beat process should hold for a row: nothing when it is disabled or
    has no schedule. *)
Definition row_entry (p : PeriodicTask) : option ScheduleEntry :=
  if pt_enabled p then
    s ← row_schedule p;
    Some {| en_name := pt_name p; en_task := PStr (pt_task p); en_schedule := s;
            en_args := stored_arg (PSeq []) (pt_args p); en_kwargs := stored_arg (PDict []) (pt_kwargs p) |}
  else None.

(** The schedule is the image of the table. *)
Definition schedule_matches (t : Tables) (b : Beat) : Prop :=
  forall name e, schedule b !! name = Some e <->
    exists id p, periodic_tasks t !! id = Some p /\ pt_name p = name /\ row_entry p = Some e.

Lemma get_or_text k o d fs :
  dict_get k fs = Some (from_option PStr PNone o) -> get_or k (PStr d) fs = PStr (default d (or_opt o None)).
Proof. unfold get_or. intros ->. by destruct o as [[|c s]|]. Qed.

Lemma parse_row str_of p :
  parse_schedule str_of (row_dict p) =
  from_option Ok (Err (ValueErr match pt_schedule_type p with INTERVAL => "OverflowError" | CRONTAB => "crontab" end))
    (row_schedule p).
Proof.
  unfold parse_schedule, row_schedule. replace (dict_get "schedule_type" (row_dict p))
    with (Some (PStr (type_text (pt_schedule_type p)))) by done.
  destruct (pt_schedule_type p).
  - change (String.eqb (py_str str_of (default (PStr "crontab") (Some (PStr (type_text CRONTAB))))) "interval") with false.
    cbn match. rewrite (get_or_text "cron_minute" (pt_cron_minute p)),
      (get_or_text "cron_hour" (pt_cron_hour p)), (get_or_text "cron_day_of_week" (pt_cron_day_of_week p)),
      (get_or_text "cron_day_of_month" (pt_cron_day_of_month p)),
      (get_or_text "cron_month_of_year" (pt_cron_month_of_year p)) by done.
    unfold crontab_fields_ok, or_star. by destruct (crontab_ok _ _ _ _ _).
  - change (String.eqb (py_str str_of (default (PStr "crontab") (Some (PStr (type_text INTERVAL))))) "interval") with true.
    cbn match. replace (get_or "interval_every" (PInt 60) (row_dict p)) with (PInt (every_or_60 (pt_interval_every p)))
      by (unfold get_or, row_dict; simpl; by destruct (pt_interval_every p) as [[| |]|]).
    replace (dict_get "interval_period" (row_dict p))
      with (Some (from_option PStr PNone (period_text <$> pt_interval_period p))) by done.
    cbn [py_int default]. replace (seconds_multiplier _) with (period_seconds (pt_interval_period p))
      by (by destruct (pt_interval_period p) as [[]|]).
    unfold timedelta. by destruct (_ <=? _).
Qed.

Lemma stored_arg_get k empty j fs :
  dict_get k fs = Some (match j with JNull => empty | _ => of_json_value j end) ->
  get_or k empty fs = stored_arg empty j.
Proof.
  unfold get_or, stored_arg. intros ->. destruct j; try done. cbn. by destruct (py_truthy empty).
Qed.

Lemma entry_row str_of p :
  pt_enabled p = true ->
  row_entry p = match entry_of str_of (row_dict p) (pt_name p) with Ok e => Some e | Err _ => None end.
Proof.
  intros He. unfold row_entry, entry_of. rewrite He, parse_row.
  destruct (row_schedule p) as [s|]; cbn [mbind option_bind from_option obind]; [|done].
  replace (dict_get "task" (row_dict p)) with (Some (PStr (pt_task p))) by done.
  by rewrite (stored_arg_get "args" (PSeq []) (pt_args p)), (stored_arg_get "kwargs" (PDict []) (pt_kwargs p)).
Qed.

(** The loop over the rows. *)
Definition put_entry (acc : gmap string ScheduleEntry) (p : PeriodicTask) : gmap string ScheduleEntry :=
  match row_entry p with Some e => <[pt_name p := e]> acc | None => acc end.

Lemma new_schedule_rows str_of l acc :
  Forall (fun p => pt_enabled p = true) l ->
  new_schedule str_of ((fun p => PDict (row_dict p)) <$> l) acc = Ok (fold_left put_entry l acc).
Proof.
  intros Hl. revert acc. induction Hl as [|p l He Hl IH]; intros acc; [done|].
  rewrite fmap_cons. cbn [new_schedule fold_left].
  replace (dict_get "name" (row_dict p)) with (Some (PStr (pt_name p))) by done. rewrite IH.
  unfold put_entry at 3. rewrite (entry_row str_of p He). by destruct (entry_of _ _ _).
Qed.

Lemma fold_entries l acc name e :
  NoDup (pt_name <$> l) ->
  fold_left put_entry l acc !! name = Some e <->
  (exists p, p ∈ l /\ pt_name p = name /\ row_entry p = Some e) \/
  acc !! name = Some e /\ forall p, p ∈ l -> pt_name p = name -> row_entry p = None.
Proof.
  revert acc. induction l as [|p l IH]; intros acc Hn; cbn [fold_left].
  - split; [intros H; right; split; [done|by intros p Hp%elem_of_nil]|]. intros [(p & Hp%elem_of_nil & _)|[H _]]; done.
  - rewrite fmap_cons in Hn. apply NoDup_cons in Hn as [Hnot Hn]. rewrite (IH _ Hn). split.
    + intros [(q & Hq & Hname & He)|[Hacc Hno]]; [left; exists q; split; [by right|done]|].
      unfold put_entry in Hacc. destruct (row_entry p) as [e'|] eqn:Ep.
      * apply lookup_insert_Some in Hacc as [[Hname ->]|[Hne Hacc]].
        -- left. exists p. split; [left|done].
        -- right. split; [done|]. by intros q [->|Hq]%elem_of_cons Hqn; [|apply Hno].
      * right. split; [done|]. by intros q [->|Hq]%elem_of_cons Hqn; [|apply Hno].
    + intros [(q & [->|Hq]%elem_of_cons & Hname & He)|[Hacc Hno]].
      * right. unfold put_entry. rewrite He, <- Hname, lookup_insert_eq. split; [done|].
        intros q Hq Hqn. destruct Hnot. apply list_elem_of_fmap. by exists q.
      * left. by exists q.
      * right. split; [|intros q Hq; apply Hno; by right]. unfold put_entry.
        destruct (row_entry p) as [e'|] eqn:Ep; [|done]. rewrite lookup_insert_ne; [done|].
        intros Hp. rewrite (Hno p) in Ep; [done|left|done].
Qed.
End spec.

(** ** Reloading *)

Lemma values_nodup {A} (f : A -> string) (m : gmap string A) :
  unique_on (fun x => Some (f x)) m -> NoDup (f <$> values m).
Proof.
  intros Hu. unfold values. rewrite <- list_fmap_compose. apply NoDup_fmap_2_strong; [|apply NoDup_map_to_list].
  intros [k x] [k' x'] Hk Hk' Hf. apply elem_of_map_to_list in Hk, Hk'. simpl in Hf.
  assert (k = k') as -> by (eapply (Hu _ _ x x' (f x)); congruence). congruence.
Qed.

Section reload.
Context {R : Type} {RD : Redis R} {EX : Ext} {CE : Celery} (str_of : PyVal -> string).
Implicit Types (w : World R) (b : Beat).

Definition enabled_rows (t : Tables) : list PeriodicTask :=
  filter (fun p => pt_enabled p = true) (values (periodic_tasks t)).

Definition rows_dicts (t : Tables) : list PyVal := (fun p => PDict (row_dict p)) <$> enabled_rows t.

Lemma rows_not_json t : rows_dicts t <> [] -> json_of_value (PSeq (rows_dicts t)) = None.
Proof. unfold rows_dicts. by destruct (enabled_rows t). Qed.

Lemma redis_get_cases k w :
  redis_get k w = match faults w with
                  | [] => (Ok (r_get (now w) k (redis w)), w)
                  | true :: l => (Err RedisError, set_faults l w)
                  | false :: l => (Ok (r_get (now w) k (redis w)), set_faults l w)
                  end.
Proof. unfold redis_get, redis_command, gets. by destruct (faults w) as [|[]]. Qed.

Lemma rows_for_run w :
  rows_for true None w =
  (match rows_dicts (db w) with [] => Ok [] | _ => Err (TypeErr "not JSON serializable") end, w).
Proof.
  unfold rows_for, bind, fetch_tasks_from_db, gets. cbn match.
  pose proof (rows_not_json (db w)) as Hj. unfold rows_dicts, enabled_rows in *.
  destruct (_ <$> _) as [|r l]; [done|]. by rewrite Hj.
Qed.

Lemma fetch_run w : fetch_tasks_from_db true w = (Ok (rows_dicts (db w)), w).
Proof. done. Qed.

(** Only the fault schedule moves. *)
Definition same_but_faults w w' : Prop := w' = w \/ exists l, w' = set_faults l w.

(** The version a run of the guarded part leaves. *)
Definition loaded_version b w : option string :=
  match faults w with
  | true :: _ | false :: true :: _ => _last_version b
  | _ => match enabled_rows (db w) with
         | [] => rval_text <$> r_get (now w) SCHEDULE_VERSION (redis w)
         | _ => _last_version b
         end
  end.

(** Without a cached schedule the rows come from the database, whatever fails in
    Redis; the version is recorded only when there is no row. *)
Lemma reload_run b w :
  r_get (now w) SCHEDULE_DATA (redis w) = None ->
  exists w', same_but_faults w w' /\ (faults w = [] -> w' = w) /\
    reload_schedule str_of true b w =
      (Ok (match new_schedule str_of (rows_dicts (db w)) ∅ with
           | Ok entries => ({| _last_version := loaded_version b w; schedule := entries |}, Ok tt)
           | Err e => ({| _last_version := loaded_version b w; schedule := schedule b |}, Err e)
           end), w').
Proof.
  intros Hc. unfold reload_schedule, load_tasks, loaded_version.
  assert (match enabled_rows (db w) with [] => rval_text <$> r_get (now w) SCHEDULE_VERSION (redis w) | _ => _last_version b end
        = match rows_dicts (db w) with [] => rval_text <$> r_get (now w) SCHEDULE_VERSION (redis w) | _ => _last_version b end)
    as Hr by (unfold rows_dicts; by destruct (enabled_rows (db w))).
  unfold bind, try_catch. rewrite redis_get_cases. destruct (faults w) as [|[] l] eqn:Hf; rewrite ?Hc.
  - exists w. split_and!; [by left|done|]. rewrite rows_for_run, Hr.
    destruct (rows_dicts (db w)) as [|r rs] eqn:Er; [by rewrite redis_get_cases, Hf|by rewrite fetch_run, Er].
  - exists (set_faults l w). split_and!; [right; by exists l|done|]. by rewrite fetch_run.
  - rewrite rows_for_run. change (db (set_faults l w)) with (db w).
    destruct (rows_dicts (db w)) as [|r rs] eqn:Er.
    + rewrite redis_get_cases. change (faults (set_faults l w)) with l.
      destruct l as [|[] l].
      * exists (set_faults [] w). split_and!; [right; by eexists|done|]. by rewrite Hr.
      * exists (set_faults l w). split_and!; [right; by eexists|done|].
        rewrite fetch_run. change (db _) with (db w). by rewrite Er.
      * exists (set_faults l w). split_and!; [right; by eexists|done|]. by rewrite Hr.
    + rewrite fetch_run. change (db _) with (db w). rewrite Er. exists (set_faults l w).
      split_and!; [right; by exists l|done|]. rewrite Hr. by destruct l as [|[]].
Qed.

Lemma rows_schedule t :
  periodic_wf (periodic_tasks t) ->
  exists entries, new_schedule str_of (rows_dicts t) ∅ = Ok entries /\
    forall v, schedule_matches t {| _last_version := v; schedule := entries |}.
Proof.
  intros [Hk Hn]. unfold rows_dicts. rewrite new_schedule_rows.
  2:{ apply Forall_forall. intros p Hp. by apply list_elem_of_filter in Hp as [? _]. }
  eexists. split; [done|]. intros v name e. cbn [schedule].
  rewrite fold_entries by (by apply nodup_fmap_filter, values_nodup). split.
  - intros [(p & [_ [k Hp]%elem_of_values]%list_elem_of_filter & Hname & He)|[[]%lookup_empty_Some _]]. eauto.
  - intros (id & p & Hp & Hname & He). left. exists p. split; [|done]. apply list_elem_of_filter.
    split; [|apply elem_of_values; eauto]. unfold row_entry in He. by destruct (pt_enabled p).
Qed.

(** When the database answers and no schedule is cached, a reload leaves the
    beat process with exactly the image of the table: one entry for each enabled
    row whose schedule is valid, under its name, whatever Redis fails at. *)
Theorem reload_matches_table b w :
  r_get (now w) SCHEDULE_DATA (redis w) = None -> periodic_wf (periodic_tasks (db w)) ->
  exists b' w', reload_schedule str_of true b w = (Ok (b', Ok tt), w') /\ db w' = db w /\
    schedule_matches (db w) b'.
Proof.
  intros Hc Hwf. destruct (reload_run b w Hc) as (w' & Hsame & _ & ->).
  destruct (rows_schedule (db w) Hwf) as (entries & -> & Hm). eexists _, w'. split; [done|].
  split; [by destruct Hsame as [->|[l ->]]|apply Hm].
Qed.

(** While the table holds an enabled row, a reload neither fills the cache nor
    records the version, since the rows hold values that [json.dumps] refuses: the
    cached schedule of the code is never there. *)
Theorem reload_never_records_version b w :
  r_get (now w) SCHEDULE_DATA (redis w) = None -> periodic_wf (periodic_tasks (db w)) ->
  enabled_rows (db w) <> [] ->
  exists b' w', reload_schedule str_of true b w = (Ok (b', Ok tt), w') /\
    _last_version b' = _last_version b /\ redis w' = redis w /\ now w' = now w.
Proof.
  intros Hc Hwf Hne. destruct (reload_run b w Hc) as (w' & Hsame & _ & ->).
  destruct (rows_schedule (db w) Hwf) as (entries & -> & _). eexists _, w'. split; [done|].
  split; [|by destruct Hsame as [->|[l ->]]]. unfold loaded_version. cbn.
  destruct (enabled_rows (db w)); [done|]. by repeat case_match.
Qed.
End reload.

(** ** Changes of the table *)

Section changes.
Context {R : Type} {RD : Redis R} {RL : RedisLaws R} {EX : Ext} {CE : Celery} (str_of : PyVal -> string).
Implicit Types (w : World R) (b : Beat).

Inductive ScheduleChange :=
| Create (task_in : PeriodicTaskCreate)
| Update (task_id : uuid) (task_in : PeriodicTaskUpdate)
| Delete (task_id : uuid).

(** The service's three operations. *)
Definition change_schedule (x : ScheduleChange) : PyM (R := R) unit :=
  match x with
  | Create c => PeriodicTaskService.create_task c ;;! ret tt
  | Update id u => PeriodicTaskService.update_task id u ;;! ret tt
  | Delete id => PeriodicTaskService.delete_task id ;;! ret tt
  end.

Lemma read_pool_ok {A} (f : Tables -> outcome Exn (A * Tables)) w a w' :
  db_write_on_read_pool f w = (Ok a, w') -> exists t, f (db w) = Ok (a, t) /\ w' = set_db (fun _ => t) w.
Proof.
  unfold db_write_on_read_pool, db_write. destruct (replica w); [done|].
  destruct (f (db w)) as [[a' t]|]; [|done]. intros [= <- <-]. eauto.
Qed.

(** Every accepted change is a statement on the table, then the notification. *)
Lemma change_run x w w1 :
  change_schedule x w = (Ok tt, w1) ->
  exists w0, faults w0 = faults w /\ redis w0 = redis w /\ now w0 = now w /\
    (periodic_wf (periodic_tasks (db w)) -> periodic_wf (periodic_tasks (db w0))) /\
    PeriodicTaskService._notify_schedule_changed w0 = (Ok tt, w1).
Proof.
  destruct x as [c|id u|id]; cbn [change_schedule]; intros H.
  - unfold PeriodicTaskService.create_task, PeriodicTaskService._validate_task_exists, PeriodicTaskDAO.create_task,
      PeriodicTaskDAO.get_task_by_name, db_read, draw in H.
    run_inv. destruct x5. apply read_pool_ok in H3 as (t & Ht & ->). eexists. split_and!; [..|exact H2]; try done.
    by eapply wf_insert_periodic.
  - unfold PeriodicTaskService.update_task, PeriodicTaskDAO.update_task in H.
    run_inv. assert (x5 = w) as ->
      by (destruct (ptu_task u); [unfold PeriodicTaskService._validate_task_exists in H|]; by run_inv).
    destruct x2 as [p|]; [|done]. apply read_pool_ok in H2 as (t & Ht & ->). run_inv.
    destruct x1. eexists. split_and!; [..|exact H0]; try done. by eapply wf_update_periodic.
  - unfold PeriodicTaskService.delete_task, PeriodicTaskDAO.delete_task in H.
    run_inv. destruct x3. apply read_pool_ok in H as (t & Ht & ->).
    eexists. split_and!; [..|exact H1]; try done. by eapply wf_delete_periodic.
Qed.

Lemma notify_db w o w' : PeriodicTaskService._notify_schedule_changed w = (o, w') -> db w' = db w.
Proof.
  assert (db (snd (PeriodicTaskService._notify_schedule_changed w)) = db w) as H; [|by intros Hn; rewrite Hn in H].
  unfold PeriodicTaskService._notify_schedule_changed, redis_del_incr, redis_command.
  destruct (faults w) as [|[] l]; [|done|]; repeat case_match; done.
Qed.

Lemma notify_run w n :
  faults w = [] -> 0 <= n -> n + 1 < 2 ^ 63 ->
  r_get (now w) SCHEDULE_VERSION (redis w) = (if n =? 0 then None else Some (RText (pretty n))) ->
  exists w', PeriodicTaskService._notify_schedule_changed w = (Ok tt, w') /\ db w' = db w /\ faults w' = [] /\
    now w' = now w /\
    r_get (now w') SCHEDULE_DATA (redis w') = None /\
    r_get (now w') SCHEDULE_VERSION (redis w') = Some (RText (pretty (n + 1))).
Proof.
  intros Hf Hn Hlt Hv. unfold PeriodicTaskService._notify_schedule_changed, redis_del_incr, redis_command. rewrite Hf.
  assert (r_get (now w) SCHEDULE_VERSION (redis (set_redis (r_del [SCHEDULE_DATA]) w)) =
          r_get (now w) SCHEDULE_VERSION (redis w)) as -> by (cbn; by rewrite get_del).
  rewrite Hv. set (w' := set_redis (r_del [SCHEDULE_DATA]) w).
  assert (forall v, let w2 := set_redis (r_set (now w) SCHEDULE_VERSION v None) w' in
    db w2 = db w /\ faults w2 = [] /\ now w2 = now w /\ r_get (now w2) SCHEDULE_DATA (redis w2) = None /\
    r_get (now w2) SCHEDULE_VERSION (redis w2) = Some v) as Hset.
  { intros v. cbn. split_and!; try done.
    - rewrite get_set_ne by done. by rewrite get_del.
    - by rewrite get_set_eq by lia. }
  destruct (n =? 0) eqn:E.
  - apply Z.eqb_eq in E as ->. eexists. split; [reflexivity|]. apply Hset.
  - pose proof (signed_pretty n EmptyString I) as Hs. rewrite string_app_nil in Hs. rewrite Hs.
    replace (n + 1 <? 2 ^ 63) with true by (symmetry; by apply Z.ltb_lt).
    eexists. split; [reflexivity|]. apply Hset.
Qed.

(** C15: While Redis and the database work, a change of the schedules that the service
    accepts (a creation, an update or a deletion) is in the beat process after its
    next tick, whichever version up to the current one that process had recorded:
    its schedule becomes the image of the table as the change left it, an entry for
    each row that is enabled and whose schedule [parse_schedule] can build.  An
    interval of more than 999,999,999 days is accepted and has no entry. *)
Theorem accepted_change_reaches_beat x b n w w1 :
  change_schedule x w = (Ok tt, w1) ->
  periodic_wf (periodic_tasks (db w)) -> faults w = [] -> 0 <= n -> n + 1 < 2 ^ 63 ->
  r_get (now w) SCHEDULE_VERSION (redis w) = (if n =? 0 then None else Some (RText (pretty n))) ->
  (forall v, _last_version b = Some v -> exists m, m <= n /\ v = pretty m) ->
  exists b' w2, tick str_of true b w1 = (Ok b', w2) /\ db w2 = db w1 /\ schedule_matches (db w1) b'.
Proof.
  intros Hrun Hwf Hf Hn Hlt Hv Hb.
  destruct (change_run x w w1 Hrun) as (w0 & Hf0 & Hr0 & Hn0 & Hwf0 & Hnot).
  destruct (notify_run w0 n) as (w' & Hnot' & Hdb & Hf1 & Hnow & Hdata & Hver); [congruence|done|done|congruence|].
  rewrite Hnot in Hnot'. injection Hnot' as <-.
  assert (periodic_wf (periodic_tasks (db w1))) as Hwf1 by (rewrite Hdb; auto).
  destruct (reload_run str_of b w1 Hdata) as (w2 & _ & Hw2 & Hrel). rewrite (Hw2 Hf1) in *.
  destruct (rows_schedule str_of (db w1) Hwf1) as (entries & Hent & Hm). rewrite Hent in Hrel.
  unfold tick, try_catch, bind. rewrite redis_get_cases, Hf1, Hver.
  rewrite bool_decide_eq_false_2.
  - rewrite Hrel. eexists _, _. split; [done|]. split; [done|apply Hm].
  - cbn. intros Heq. destruct (Hb _ (eq_sym Heq)) as (m & Hm' & Hp%(inj pretty)). lia.
Qed.
End changes.

(** ** Arguments *)

Lemma dumps_list_nonempty l : dumps (JList l) <> "".
Proof. done. Qed.
Lemma dumps_dict_nonempty fs : dumps (JObj fs) <> "".
Proof. done. Qed.

Section arguments.
Context {R : Type} {RD : Redis R} {EX : Ext} {CE : Celery}.
Implicit Types w : World R.

(** The arguments of a schedule that the service created are kept as the text
    of their JSON.  The entry of the beat process holds that text in place of the
    list, and a manual trigger of the schedule raises a [TypeError] and sends
    nothing, whatever the arguments were. *)
Theorem created_task_args_are_texts c w p w' :
  PeriodicTaskDAO.create_task c w = (Ok p, w') ->
  (forall e, row_entry p = Some e ->
     en_args e = PStr (dumps (JList (ptc_args c))) /\ en_kwargs e = PStr (dumps (JObj (ptc_kwargs c)))) /\
  forall v : World R, pt_task p ∈ celery_tasks -> exists v',
    PeriodicTaskService.trigger_task_manually (pt_task p) (pt_args p) (pt_kwargs p) v =
      (Err (TypeErr "task arguments"), v') /\ sent v' = sent v.
Proof.
  unfold PeriodicTaskDAO.create_task, draw. intros H. run_inv.
  apply read_pool_ok in H0 as (t & Ht & ->). unfold insert_periodic_row in Ht.
  destruct (task_name_taken _ _ _); [done|]. injection Ht as <- <-. split.
  - intros e. unfold row_entry. cbn [pt_enabled]. destruct (ptc_enabled c); [|done].
    destruct (row_schedule _); [|done]. cbn [mbind option_bind]. intros [= <-].
    unfold stored_arg. cbn [en_args en_kwargs pt_args pt_kwargs jsonb_text of_json_value].
    pose proof (dumps_list_nonempty (ptc_args c)) as H1. pose proof (dumps_dict_nonempty (ptc_kwargs c)) as H2.
    destruct (dumps (JList _)), (dumps (JObj _)); done.
  - intros v Hin. cbn [pt_task pt_args pt_kwargs] in *.
    unfold PeriodicTaskService.trigger_task_manually, PeriodicTaskService._validate_task_exists, raise_if.
    rewrite (proj2 (mem_true _ _) Hin). cbn [negb]. unfold bind, ret, new_uuid4, bind, draw.
    unfold send_task, sendable. cbn [ct_args jsonb_text].
    pose proof (dumps_list_nonempty (ptc_args c)) as H1. destruct (dumps (JList _)); [done|]. cbn.
    by eexists.
Qed.
End arguments.

(** ** Intervals *)

Section intervals.
Context {CE : Celery}.

(** An interval the request model accepts, within the INTEGER of its column, is
    scheduled with its length in seconds when it is given in seconds, minutes or
    hours, or in at most 999,999,999 days.  A longer one overflows [timedelta]: it
    is stored, and the beat process holds no entry for it. *)
Theorem interval_bounds c id t0 t p t' :
  create_valid c = true -> ptc_schedule_type c = INTERVAL ->
  from_option (fun n => n <? 2 ^ 31) true (ptc_interval_every c) = true ->
  insert_periodic_row id t0 c t = Ok (p, t') ->
  exists n u, ptc_interval_every c = Some n /\ ptc_interval_period c = Some u /\ 0 < n /\
    row_schedule p =
      if bool_decide (u = DAYS /\ 999999999 < n) then None
      else Some (run_every (n * period_seconds (Some u))).
Proof.
  unfold create_valid. intros [Hpos Hv]%andb_prop Ht Hmax Hins. rewrite Ht in Hv.
  apply andb_prop in Hv as [[n Hn]%bool_decide_eq_true [u Hu]%bool_decide_eq_true].
  exists n, u. split; [done|]. split; [done|]. rewrite Hn in Hpos, Hmax. cbn in Hpos, Hmax.
  apply Z.ltb_lt in Hpos, Hmax. split; [done|].
  unfold insert_periodic_row in Hins. destruct (task_name_taken _ _ _); [done|]. injection Hins as <- <-.
  unfold row_schedule. cbn [pt_schedule_type pt_interval_every pt_interval_period]. rewrite Ht, Hn, Hu.
  assert (every_or_60 (Some n) = n) as -> by (by destruct n).
  assert (0 <= n * period_seconds (Some u) / 86400) by (apply Z.div_pos; [destruct u; cbn; lia|lia]).
  rewrite Z.abs_eq by done. case_bool_decide as Hd.
  - destruct Hd as [-> Hd]. cbn [period_seconds]. rewrite Z.div_mul by done.
    by replace (n <=? 999999999) with false by (symmetry; apply Z.leb_gt; lia).
  - replace (_ <=? 999999999) with true; [done|]. symmetry. apply Z.leb_le.
    destruct u; cbn [period_seconds];
      [| | |rewrite Z.div_mul by done; destruct (Z.le_gt_cases n 999999999); [lia|tauto]];
      (apply Z.lt_succ_r, Z.div_lt_upper_bound; lia).
Qed.
End intervals.

(** ** Concrete runs *)

#[export] Instance concrete_celery : Celery := {
  celery_tasks := ["send_mail"; "celery.ping"];
  crontab_ok := fun mi _ _ _ _ => match mi with PStr "61" => false | _ => true end;
}.

Definition every_two (u : IntervalPeriod) (n : Z) : PeriodicTaskCreate :=
  {| ptc_name := "digest"; ptc_task := "send_mail"; ptc_schedule_type := INTERVAL; ptc_cron_minute := Some "*";
     ptc_cron_hour := Some "*"; ptc_cron_day_of_week := Some "*"; ptc_cron_day_of_month := Some "*";
     ptc_cron_month_of_year := Some "*"; ptc_interval_every := Some n; ptc_interval_period := Some u;
     ptc_args := [JNum 1]; ptc_kwargs := []; ptc_enabled := true |}.

Definition fresh_beat : Beat := {| _last_version := None; schedule := ∅ |}.
Definition no_text (v : PyVal) : string := "".

Definition no_schedules : World MapRedis.t := world_of seed_tables.
Definition with_digest : World MapRedis.t := snd (change_schedule (Create (every_two HOURS 2)) no_schedules).

Lemma empty_periodic_wf : periodic_wf ∅.
Proof. split; by intros ? ? ?. Qed.

Lemma with_digest_wf : periodic_wf (periodic_tasks (db with_digest)).
Proof.
  destruct (change_run (Create (every_two HOURS 2)) no_schedules with_digest) as (w0 & _ & _ & _ & Hwf & Hn).
  - vm_compute. reflexivity.
  - rewrite (notify_db _ _ _ Hn). apply Hwf, empty_periodic_wf.
Qed.

Lemma reload_matches_table_witness : exists b' w' e,
  reload_schedule no_text true fresh_beat with_digest = (Ok (b', Ok tt), w') /\
  schedule b' !! "digest" = Some e /\ en_schedule e = run_every 7200.
Proof.
  destruct (reload_matches_table no_text fresh_beat with_digest) as (b' & w' & Hrun & _ & Hm).
  - vm_compute. reflexivity.
  - apply with_digest_wf.
  - assert (row_entry <$> periodic_tasks (db with_digest) !! "u4-0" = Some (Some
      {| en_name := "digest"; en_task := PStr "send_mail"; en_schedule := run_every 7200;
         en_args := PStr "[1]"; en_kwargs := PStr "{}" |})) as Hp by (vm_compute; reflexivity).
    destruct (periodic_tasks (db with_digest) !! "u4-0") as [p|] eqn:Ep; [|done]. injection Hp as Hp.
    exists b', w', {| en_name := "digest"; en_task := PStr "send_mail"; en_schedule := run_every 7200;
         en_args := PStr "[1]"; en_kwargs := PStr "{}" |}. split; [done|]. split; [|reflexivity]. apply Hm. exists "u4-0", p.
    split; [done|]. split; [|exact Hp]. assert (pt_name <$> periodic_tasks (db with_digest) !! "u4-0" = Some "digest") as Hn
      by (vm_compute; reflexivity). rewrite Ep in Hn. by injection Hn.
Defined.

Lemma reload_never_records_version_witness : exists b' w',
  reload_schedule no_text true fresh_beat with_digest = (Ok (b', Ok tt), w') /\
  _last_version b' = None /\ r_get (now w') SCHEDULE_DATA (redis w') = None /\
  r_get (now w') SCHEDULE_VERSION (redis w') = Some (RText "1").
Proof.
  destruct (reload_never_records_version no_text fresh_beat with_digest) as (b' & w' & Hrun & Hv & Hr & Ht).
  - vm_compute. reflexivity.
  - apply with_digest_wf.
  - vm_compute. discriminate.
  - exists b', w'. rewrite Hr, Ht. split; [done|]. split; [done|]. split; vm_compute; reflexivity.
Defined.

Lemma accepted_change_reaches_beat_witness : exists b' w2,
  tick no_text true fresh_beat with_digest = (Ok b', w2) /\ schedule_matches (db with_digest) b'.
Proof.
  destruct (accepted_change_reaches_beat no_text (Create (every_two HOURS 2)) fresh_beat 0 no_schedules with_digest)
    as (b' & w2 & H & _ & Hm).
  - vm_compute. reflexivity.
  - apply empty_periodic_wf.
  - reflexivity.
  - lia.
  - lia.
  - vm_compute. reflexivity.
  - done.
  - exists b', w2. exact (conj H Hm).
Defined.

Lemma created_task_args_are_texts_witness : exists p w' v',
  PeriodicTaskDAO.create_task (every_two HOURS 2) no_schedules = (Ok p, w') /\
  PeriodicTaskService.trigger_task_manually (pt_task p) (pt_args p) (pt_kwargs p) no_schedules = (Err (TypeErr "task arguments"), v').
Proof.
  destruct (PeriodicTaskDAO.create_task (every_two HOURS 2) no_schedules) as [[p|] w'] eqn:E; [|by vm_compute in E].
  assert (pt_task p ∈ celery_tasks) as Hin.
  { assert (match PeriodicTaskDAO.create_task (every_two HOURS 2) no_schedules with (Ok p, _) => pt_task p | _ => "" end = "send_mail")
      as Ht by (vm_compute; reflexivity). rewrite E in Ht. rewrite Ht. left. }
  destruct (proj2 (created_task_args_are_texts (every_two HOURS 2) no_schedules p w' E) no_schedules Hin) as (v' & Hv & _).
  by exists p, w', v'.
Defined.

Lemma interval_bounds_witness : exists p t',
  insert_periodic_row "i" 5 (every_two DAYS 1000000000) seed_tables = Ok (p, t') /\ row_schedule p = None.
Proof.
  destruct (insert_periodic_row "i" 5 (every_two DAYS 1000000000) seed_tables) as [[p t']|] eqn:E; [|by vm_compute in E].
  destruct (interval_bounds (every_two DAYS 1000000000) "i" 5 seed_tables p t') as (n & u & Hn & Hu & _ & Hs); [done..|].
  injection Hn as <-. injection Hu as <-. exists p, t'. split; [done|exact Hs].
Defined.
