(* ===== verification/ApiKeyProps.v ===== *)
(** * Theorems on API keys

    With the Redis client that is injected no key is accepted, and a change of a key
    commits before the call fails; a key whose cached copy is gone and whose row is
    inactive or gone is rejected. *)

From Stdlib Require Import ZArith Lia Ascii String List Bool.
From stdpp Require Import base gmap strings sorting list pretty.
From S2P Require Import Prelude Redis Schema World Tokens Users Cache Roles Totp AppConfig Auth Pagination.
From S2P Require Import Invariants AuthLemmas ApiKeys SideInvariants Concrete Scenario.
Local Open Scope string_scope.
Local Open Scope list_scope.
Local Open Scope Z_scope.

Lemma by_hash_Some t h d :
  ApiKeyDAO.by_hash h t = Some d -> exists id k, api_keys t !! id = Some k /\ k_hashed_key k = h /\ d = key_data k.
Proof.
  unfold ApiKeyDAO.by_hash. intros (k & Hk & ->)%fmap_Some_1.
  assert (k ∈ filter (fun k => k_hashed_key k = h) (values (api_keys t))) as [Hh [id Hid]%elem_of_values]%list_elem_of_filter.
  { destruct (filter _ _); [done|]. injection Hk as ->. left. }
  eauto.
Qed.

Lemma by_hash_row t id k :
  api_keys_wf (api_keys t) -> api_keys t !! id = Some k -> ApiKeyDAO.by_hash (k_hashed_key k) t = Some (key_data k).
Proof.
  intros [Hk Hu] Hid. unfold ApiKeyDAO.by_hash. rewrite (head_filter_unique _ _ k); [done| |done|].
  - apply elem_of_values. eauto.
  - intros y [j Hj]%elem_of_values Hh. assert (j = id) as -> by (eapply (Hu _ _ y k (k_hashed_key k)); congruence).
    congruence.
Qed.

Lemma by_hash_none t h :
  (forall id k, api_keys t !! id = Some k -> k_hashed_key k <> h) -> ApiKeyDAO.by_hash h t = None.
Proof.
  intros Hn. unfold ApiKeyDAO.by_hash. rewrite head_filter_none; [done|].
  intros y [id Hy]%elem_of_values. by eapply Hn.
Qed.

Section api_keys.
Context {R : Type} {RD : Redis R} {RL : RedisLaws R} {EX : Ext}.
Implicit Types w : World R.

(** The cached copy of a key, if any, is the row the database has. *)
Definition key_cache_ok (h : string) w : Prop :=
  forall v, r_get (now w) (API_KEY_CACHE h) (redis w) = Some v ->
    exists j d, v = RJson j /\ ApiKeyDAO.by_hash h (read_view w) = Some d /\ to_json (Some d) = Some j.

(** The world after a lookup: time and tables are untouched, and of Redis only the
    entry of the cache. *)
Definition after_lookup h w w' : Prop :=
  db w' = db w /\ replica w' = replica w /\ now w' = now w /\ ctx_actor w' = ctx_actor w /\
  sent w' = sent w /\ (faults w = [] -> faults w' = []) /\
  (forall n k, k <> API_KEY_CACHE h -> r_get n k (redis w') = r_get n k (redis w)) /\ key_cache_ok h w'.

Definition faults_moved w w0 : Prop := w0 = w \/ exists l, w0 = set_faults l w /\ faults w <> [].

Lemma after_faults h w w0 : faults_moved w w0 -> key_cache_ok h w -> after_lookup h w w0.
Proof. intros [->|(l & -> & Hne)] Hok; (split_and!; try done). Qed.

Lemma after_store h j d w w0 :
  faults_moved w w0 -> ApiKeyDAO.by_hash h (read_view w) = Some d -> to_json (Some d) = Some j ->
  after_lookup h w (set_redis (r_set (now w) (API_KEY_CACHE h) (RJson j) (Some API_KEY_CACHE_TTL_SECONDS)) w0).
Proof.
  intros Hw Hd Hj.
  assert (db w0 = db w /\ replica w0 = replica w /\ now w0 = now w /\ ctx_actor w0 = ctx_actor w /\
    sent w0 = sent w /\ redis w0 = redis w /\ (faults w = [] -> faults w0 = [])) as (E1 & E2 & E3 & E4 & E5 & E6 & E7)
    by (destruct Hw as [->|(l & -> & Hne)]; by split_and!).
  split_and!; cbn; try done.
  - intros n k Hk. rewrite E6. by rewrite get_set_ne.
  - intros v. cbn. rewrite E3, E6, get_set_eq by lia. cbn.
    replace (now w <? _) with true by (symmetry; apply Z.ltb_lt; unfold API_KEY_CACHE_TTL_SECONDS; lia).
    intros [= <-]. exists j, d. split; [done|]. split; [|done]. unfold read_view. cbn. by rewrite E1, E2.
Qed.

Lemma save_key_run h d w :
  ApiKeyDAO.by_hash h (read_view w) = Some d -> key_cache_ok h w ->
  exists w', _save_to_cache (API_KEY_CACHE h) None (Some d) (Some API_KEY_CACHE_TTL_SECONDS) w = (Ok tt, w') /\
    after_lookup h w w'.
Proof.
  intros Hd Hok. unfold _save_to_cache, cache_store, try_catch. destruct (to_json (Some d)) as [j|] eqn:Ej; [|done].
  unfold redis_set, redis_command. change (API_KEY_CACHE_TTL_SECONDS =? 0) with false. cbn match.
  change (API_KEY_CACHE_TTL_SECONDS <=? 0) with false. cbn match.
  destruct (faults w) as [|[] l] eqn:Hf; eexists; (split; [reflexivity|]).
  - apply (after_store h j d w w); [by left|done|done].
  - apply after_faults; [right; exists l; by rewrite Hf|done].
  - apply (after_store h j d w (set_faults l w)); [right; exists l; by rewrite Hf|done|done].
Qed.

Lemma after_trans h w w1 w2 : after_lookup h w w1 -> after_lookup h w1 w2 -> after_lookup h w w2.
Proof.
  intros (A1 & A2 & A3 & A4 & A5 & A6 & A7 & A8) (B1 & B2 & B3 & B4 & B5 & B6 & B7 & B8).
  split_and!; try congruence; [auto| |done]. intros n k Hk. by rewrite B7, A7.
Qed.

Lemma get_cache_run h w :
  exists w0, faults_moved w w0 /\
    (_get_from_cache (A := option ApiKeyData) (API_KEY_CACHE h) None w = (Ok None, w0) \/
     _get_from_cache (A := option ApiKeyData) (API_KEY_CACHE h) None w =
       (Ok match r_get (now w) (API_KEY_CACHE h) (redis w) with Some (RJson j) => of_json j | _ => None end, w0)).
Proof.
  unfold _get_from_cache, cache_lookup, redis_get, redis_command, try_catch, bind, gets.
  destruct (faults w) as [|[] l] eqn:Hf.
  - exists w. split; [by left|by right].
  - exists (set_faults l w). split; [right; exists l; by rewrite Hf|by left].
  - exists (set_faults l w). split; [right; exists l; by rewrite Hf|by right].
Qed.

(** A lookup answers the row of the hash, with or without its hash. *)
Lemma lookup_run h w :
  key_cache_ok h w ->
  exists o w', ApiKeyDAO.get_api_key_by_hash h w = (Ok o, w') /\
    without_hash <$> o = without_hash <$> ApiKeyDAO.by_hash h (read_view w) /\ after_lookup h w w'.
Proof.
  intros Hok. unfold ApiKeyDAO.get_api_key_by_hash, cached.
  assert (forall w0, faults_moved w w0 -> exists o w',
    (let! result := db_read (ApiKeyDAO.by_hash h) in
     _save_to_cache (API_KEY_CACHE h) None result (Some API_KEY_CACHE_TTL_SECONDS) ;;! ret result) w0 = (Ok o, w') /\
    without_hash <$> o = without_hash <$> ApiKeyDAO.by_hash h (read_view w) /\ after_lookup h w w') as Hmiss.
  { intros w0 Hw0. pose proof (after_faults h w w0 Hw0 Hok) as Ha. unfold bind at 1, db_read, gets.
    assert (read_view w0 = read_view w) as Hv by (destruct Ha as (E1 & E2 & _); unfold read_view; by rewrite E1, E2).
    rewrite Hv. destruct (ApiKeyDAO.by_hash h (read_view w)) as [d|] eqn:Ed.
    - destruct (save_key_run h d w0) as (w' & Hs & Hw'); [by rewrite Hv|apply Ha|].
      rewrite (bind_ok _ _ _ _ _ Hs). eexists _, w'. split; [reflexivity|]. split; [done|by eapply after_trans].
    - exists None, w0. by split. }
  destruct (get_cache_run h w) as (w0 & Hm & [Hg|Hg]); rewrite (bind_ok _ _ _ _ _ Hg); [by apply Hmiss|].
  destruct (r_get (now w) (API_KEY_CACHE h) (redis w)) as [v|] eqn:Ev; [|by apply Hmiss].
  destruct (Hok v Ev) as (j & d & -> & Hd & Hj). rewrite Hd, (cached_api_key _ _ Hj).
  exists (Some (without_hash d)), w0. split; [reflexivity|]. split; [done|]. by apply after_faults.
Qed.

(** What the request is answered to, of what the look-up of the hash found. *)
Definition rejection (t0 : Z) (found : outcome Exn (option ApiKeyData)) : Exn :=
  match found with
  | Err e => e
  | Ok (Some d) =>
      if kd_is_active d && match kd_expires_at d with Some e => t0 <=? e | None => true end
      then AttributeErr "set"
      else HTTPException 401 "Invalid, expired, or inactive API key"
  | Ok None => HTTPException 401 "Invalid, expired, or inactive API key"
  end.

(** C9: With the Redis client that [get_redis] injects no API key opens any route.  A
    request without a key is answered 401, and so is one whose key's look-up (by the
    hash of its text, in the cache and then in the table) finds nothing, an inactive
    key or an expired one; with any other key, the valid ones, the request ends in an
    [AttributeError], whatever scopes the key grants.  Nothing but the look-up is
    done. *)
Theorem no_api_key_is_accepted scopes raw_key w :
  let '(o, w1) := get_api_key scopes raw_key w in
  match raw_key with
  | None | Some EmptyString => o = Err (HTTPException 401 "Missing API Key header (X-API-Key)") /\ w1 = w
  | Some raw =>
      let '(found, w2) := ApiKeyDAO.get_api_key_by_hash (sha256 raw) w in
      o = Err (rejection (now w2) found) /\ w1 = w2
  end.
Proof.
  unfold get_api_key. destruct raw_key as [[|c s]|]; [done| |done]. cbn [or_opt truthy String.eqb negb].
  unfold ApiKeyService.verify_api_key, hash_api_key. cbn [truthy String.eqb negb]. unfold bind at 1.
  set (raw := String c s). unfold bind at 1. destruct (ApiKeyDAO.get_api_key_by_hash (sha256 raw) w) as [[[d|]|e] w2]; [|done..].
  unfold rejection. destruct (kd_is_active d); [|done]. cbn [negb andb]. unfold bind, gets.
  destruct (kd_expires_at d) as [e|]; [|done]. cbn [from_option]. rewrite Z.leb_antisym. by destruct (e <? now w2).
Qed.

(** ** Changes of a key *)

Inductive KeyChange :=
| Update (update_in : ApiKeyUpdate)
| Rotate
| Delete.

(** The service's operations that change or end a key. *)
Definition change_key (id : uuid) (x : KeyChange) : PyM (R := R) unit :=
  match x with
  | Update u => ApiKeyService.update_api_key id u ;;! ret tt
  | Rotate => ApiKeyService.rotate_api_key id ;;! ret tt
  | Delete => ApiKeyService.delete_api_key id
  end.

(** The text of the key a rotation draws. *)
Definition rotated_text w : string := "ak_live_" +:+ token_urlsafe32 (drawn w).

Lemma evict_raises h w : h <> "" -> ApiKeyService._evict_cache (R := R) (Some h) w = (Err (AttributeErr "delete"), w).
Proof. unfold ApiKeyService._evict_cache. by destruct h. Qed.

Lemma db_write_inv {A} (f : Tables -> outcome Exn (A * Tables)) w a w' :
  db_write f w = (Ok a, w') -> exists t, f (db w) = Ok (a, t) /\ w' = set_db (fun _ => t) w.
Proof. unfold db_write. destruct (f (db w)) as [[a' t]|]; [|done]. intros [= <- <-]. eauto. Qed.

Lemma own_hash_free t id k :
  api_keys_wf (api_keys t) -> api_keys t !! id = Some k -> hash_taken t id (k_hashed_key k) = false.
Proof.
  intros [Hkey Hu] Hk. apply not_true_iff_false. unfold hash_taken. rewrite existsb_exists.
  intros (y & [j Hj]%list_elem_of_In%elem_of_values & [Hh%String.eqb_eq Hne]%andb_prop).
  assert (j = id) as -> by (eapply (Hu _ _ y k (k_hashed_key k)); congruence). rewrite (Hkey _ _ Hj), String.eqb_refl in Hne. done.
Qed.

Lemma delete_one (m : gmap uuid ApiKey) id :
  (forall i k, m !! i = Some k -> k_id k = i) -> filter (fun '(_, k) => k_id k ∉ [id]) m = delete id m.
Proof.
  intros Hkey. apply map_eq. intros i. apply option_eq. intros y. rewrite map_lookup_filter_Some, lookup_delete_Some. split.
  - intros [Hi Hn]. split; [|done]. intros <-. apply Hn. rewrite (Hkey _ _ Hi). left.
  - intros [Hne Hi]. split; [done|]. rewrite (Hkey _ _ Hi). by intros ->%list_elem_of_singleton.
Qed.

(** A key with no cached copy and no usable row is rejected, now and later. *)
Lemma gone_key_rejected h raw ip w' t0 :
  h = sha256 raw -> replica w' = None -> now w' <= t0 ->
  r_get (now w') (API_KEY_CACHE h) (redis w') = None ->
  (forall i k', api_keys (db w') !! i = Some k' -> k_hashed_key k' = h -> k_is_active k' = false) ->
  exists w2, ApiKeyService.verify_api_key raw ip (set_now t0 w') = (Ok None, w2).
Proof.
  intros Hraw Hr' Hn Hnone Hrows.
  unfold ApiKeyService.verify_api_key. destruct (truthy raw) eqn:Et; [|by eexists]. cbn [negb].
  assert (r_get t0 (API_KEY_CACHE (sha256 raw)) (redis w') = None) as Hnone'.
  { rewrite <- Hraw. destruct (get_mono (now w') t0 (API_KEY_CACHE h) (redis w')) as [?|E]; [lia|done|].
    by rewrite E. }
  assert (key_cache_ok (sha256 raw) (set_now t0 w')) as Hok by (intros v Hv; cbn in Hv; congruence).
  destruct (lookup_run (sha256 raw) (set_now t0 w') Hok) as (o & w1 & Hl & Ho & _).
  unfold hash_api_key. rewrite (bind_ok _ _ _ _ _ Hl).
  destruct (ApiKeyDAO.by_hash (sha256 raw) (read_view (set_now t0 w'))) as [d|] eqn:Ed.
  - apply by_hash_Some in Ed as (i & k' & Hi & Hh' & ->). destruct o as [d'|]; [|done]. apply (inj Some) in Ho.
    assert (kd_is_active d' = false) as Ha.
    { change (kd_is_active d') with (kd_is_active (without_hash d')). rewrite Ho. cbn.
      apply (Hrows i); [|congruence]. revert Hi. unfold read_view. cbn. by rewrite Hr'. }
    rewrite Ha. cbn [negb]. by eexists.
  - destruct o; [done|]. by eexists.
Qed.

(** C10: With the Redis client that [get_redis] injects, a key that exists is updated,
    rotated or deleted in the table as it was asked for, and then the call raises:
    the caller is told of a failure, the text of a rotated key is never handed out,
    and a cached copy of the key stays as it was. *)
Theorem key_change_commits_then_raises id k x w :
  replica w = None -> api_keys_wf (api_keys (db w)) -> api_keys (db w) !! id = Some k -> k_hashed_key k <> "" ->
  hash_taken (db w) id (sha256 (rotated_text w)) = false ->
  let '(o, w') := change_key id x w in
  o = Err (AttributeErr "delete") /\ redis w' = redis w /\
  api_keys (db w') = match x with
    | Update u => <[id := updated_key (now w) u k]> (api_keys (db w))
    | Rotate => <[id := rotated_key (now w) (String.substring 0 16 (rotated_text w)) (sha256 (rotated_text w)) k]> (api_keys (db w))
    | Delete => delete id (api_keys (db w))
    end.
Proof.
  intros Hr Hwf Hk Hh Hfree.
  assert (ApiKeyService.get_api_key id w = (Ok (key_data k), w)) as Hget.
  { unfold ApiKeyService.get_api_key, ApiKeyDAO.get_api_key_by_id, db_read, bind, gets, read_view. rewrite Hr. cbn. by rewrite Hk. }
  destruct x as [u| |]; cbn [change_key].
  - unfold bind at 1, ApiKeyService.update_api_key. rewrite (bind_ok _ _ _ _ _ Hget).
    unfold ApiKeyDAO.update_api_key, bind, gets, db_write, update_key_row. rewrite Hk. cbn [k_hashed_key updated_key].
    rewrite (own_hash_free _ _ _ Hwf Hk). change (kd_hashed_key (key_data k)) with (Some (k_hashed_key k)).
    by rewrite evict_raises.
  - unfold bind at 1, ApiKeyService.rotate_api_key. rewrite (bind_ok _ _ _ _ _ Hget).
    unfold generate_api_key, ApiKeyDAO.rotate_api_key, bind, draw, gets, ret, db_write, update_key_row.
    cbn [db set_drawn now]. rewrite Hk. cbn [k_hashed_key rotated_key]. fold (rotated_text w). rewrite Hfree.
    change (kd_hashed_key (key_data k)) with (Some (k_hashed_key k)).
    by rewrite evict_raises.
  - unfold ApiKeyService.delete_api_key. rewrite (bind_ok _ _ _ _ _ Hget).
    unfold ApiKeyDAO.delete_api_key, bind, db_write, delete_key_rows, raise_if.
    assert (k ∈ filter (fun k => k_id k ∈ [id]) (values (api_keys (db w)))) as Hin.
    { apply list_elem_of_filter. split; [|apply elem_of_values; eauto]. destruct Hwf as [Hkey _]. rewrite (Hkey _ _ Hk). left. }
    destruct (filter _ _) as [|y l] eqn:E; [by apply elem_of_nil in Hin|]. cbn.
    change (Z.of_nat (S (length l)) =? 0) with false. cbn. rewrite evict_raises by done.
    split; [done|]. split; [done|]. cbn. apply delete_one. destruct Hwf as [Hkey _]. intros i y' Hi. by apply Hkey.
Qed.
End api_keys.

(** ** Concrete runs *)

Definition reporting : ApiKeyCreate :=
  {| ac_name := "reporting"; ac_scopes := ["logs:read"]; ac_rate_limit := None; ac_expires_at := Some 5000 |}.

(** One key, created on the seed tables; its text is the first one drawn. *)
Definition one_key : World MapRedis.t := snd (ApiKeyService.create_api_key reporting None (world_of seed_tables)).
Definition its_text : string := "ak_live_key0".
Definition its_id : uuid := "u7-1".
Definition its_row : ApiKey :=
  {| k_id := its_id; k_created_by := None; k_name := "reporting"; k_prefix := its_text;
     k_hashed_key := "sha$" +:+ its_text; k_scopes := ["logs:read"]; k_rate_limit := None;
     k_expires_at := Some 5000; k_last_used_at := None; k_is_active := true; k_created_at := 1000;
     k_updated_at := 1000 |}.

Lemma one_key_row : api_keys (db one_key) = {[its_id := its_row]}.
Proof. vm_compute. reflexivity. Qed.

Lemma one_key_wf : api_keys_wf (api_keys (db one_key)).
Proof.
  rewrite one_key_row. split.
  - intros i k [<- <-]%lookup_singleton_Some. reflexivity.
  - intros i j k k' b [<- <-]%lookup_singleton_Some [<- <-]%lookup_singleton_Some. done.
Qed.

(** The key after its first use: the row is cached, and the use failed. *)
Definition used_once : World MapRedis.t := snd (ApiKeyService.verify_api_key its_text None one_key).

Definition switch_off : ApiKeyUpdate :=
  {| au_name := None; au_scopes := None; au_rate_limit := None; au_expires_at := None; au_is_active := Some false |}.

Lemma key_change_commits_then_raises_witness : exists w',
  change_key its_id (Update switch_off) used_once = (Err (AttributeErr "delete"), w') /\
  redis w' = redis used_once /\ k_is_active <$> api_keys (db w') !! its_id = Some false.
Proof.
  assert (api_keys (db used_once) = {[its_id := its_row]}) as Hrows by (vm_compute; reflexivity).
  pose proof (key_change_commits_then_raises its_id its_row (Update switch_off) used_once) as H.
  destruct (change_key its_id (Update switch_off) used_once) as [o w'] eqn:E. destruct H as (-> & Hr & Hk).
  - vm_compute. reflexivity.
  - rewrite Hrows, <- one_key_row. apply one_key_wf.
  - rewrite Hrows. apply lookup_singleton_eq.
  - discriminate.
  - vm_compute. reflexivity.
  - exists w'. split; [reflexivity|]. split; [exact Hr|]. rewrite Hk, lookup_insert_eq. reflexivity.
Defined.
