(* ===== verification/WebhookProps.v ===== *)
(** * Theorems on webhooks

    A signature verifies exactly within its tolerance, and only the holder of the
    secret can make one; no accepted target resolves to an internal address; with
    headers as a mapping every subscribed endpoint gets one logged attempt, and
    with headers as the service stores them none does. *)

From Stdlib Require Import ZArith Lia Ascii String List Bool.
From stdpp Require Import base gmap strings sorting list pretty.
From S2P Require Import Prelude Redis Schema JsonText World Users Invariants DeadLetter EventBus WebhookUtils Webhooks SideInvariants.
From S2P Require Import Routes System Service Concrete Scenario.
Local Open Scope string_scope.
Local Open Scope list_scope.
Local Open Scope Z_scope.

(** ** Text *)

Lemma int_digits_all s acc u :
  all_digits s = true -> (u = true -> s <> "") -> int_digits s acc u = Some (fst (digits s acc)).
Proof.
  revert acc u. induction s as [|c s IH]; intros acc u; simpl.
  - intros _ Hu. destruct u; [by destruct Hu|done].
  - intros [Hc Hs]%andb_prop _. rewrite Hc, IH by done. by rewrite Z.mul_comm.
Qed.

Lemma digit_clean s : all_digits s = true -> all_chars is_digit s = true.
Proof. induction s as [|c s IH]; [done|]. simpl. intros [-> Hs]%andb_prop. by rewrite IH. Qed.

Lemma digit_props c : is_digit c = true ->
  negb (is_space c) = true /\ negb (Ascii.eqb c ",") = true /\ c <> "-"%char /\ c <> "+"%char.
Proof. destruct c as [[] [] [] [] [] [] [] []]; by vm_compute. Qed.

Lemma hex_props c : hex_char c = true ->
  negb (is_space c) = true /\ negb (Ascii.eqb c ",") = true /\ (byte_of c <? 128) = true.
Proof. destruct c as [[] [] [] [] [] [] [] []]; by vm_compute. Qed.

Lemma pretty_nonneg n : 0 <= n -> exists m : N, pretty n = pretty m /\ Z.of_N m = n.
Proof. intros Hn. destruct n as [|p|p]; [by exists 0%N|by exists (N.pos p)|lia]. Qed.

Lemma int_of_pretty n : 0 <= n -> int_of_text (pretty n) = Some n.
Proof.
  intros Hn. destruct (pretty_nonneg n Hn) as (m & -> & Hm). unfold int_of_text.
  rewrite strip_clean by (eapply all_chars_impl, digit_clean, pretty_digits; intros c Hc; by apply digit_props).
  pose proof (pretty_digits m) as Hd. unfold pretty, pretty_N in *. case_decide as H0; [by subst|].
  destruct (pretty_go_digits m "" ltac:(lia)) as (c & d & Hg & Hc & _ & Hds & Hv). rewrite Hg in *.
  rewrite string_app_nil in *. destruct (digit_props c Hc) as (_ & _ & Hm1 & Hp1).
  assert (int_digits (String c d) 0 true = Some n) as Hi.
  { rewrite int_digits_all by done. cbn [digits]. rewrite Hc.
    change (0 * 10 + digit_val c) with (digit_val c). by rewrite Hv, Hm. }
  destruct (Ascii.eqb_spec c "-") as [->|_]; [done|]. destruct (Ascii.eqb_spec c "+") as [->|_]; [done|].
  revert Hi. clear -Hm1 Hp1. destruct c as [[] [] [] [] [] [] [] []]; done.
Qed.

Section signatures.
Context {WX : WebhookExt} {WL : WebhookLaws}.

Lemma header_elements_generated secret n payload :
  0 <= n ->
  header_elements (signature_header secret (pretty n) payload) =
  [("t", pretty n); ("v1", generate_webhook_signature secret (pretty n) payload)].
Proof.
  intros Hn. destruct (pretty_nonneg n Hn) as (m & Hp & _). rewrite Hp.
  pose proof (digit_clean _ (pretty_digits m)) as Hd. set (ts := pretty m) in *.
  unfold signature_header, generate_webhook_signature. set (sig := hmac_sha256 _ _).
  pose proof (hmac_hex secret (ts +:+ "." +:+ payload)) as Hh. fold sig in Hh.
  unfold header_elements, split_on.
  replace ("t=" +:+ ts +:+ ",v1=" +:+ sig) with (("t=" +:+ ts) +:+ String "," ("v1=" +:+ sig))
    by (by rewrite <- string_app_assoc).
  rewrite split_on_clean.
  2:{ change ("t=" +:+ ts) with (String "t" (String "=" ts)). simpl.
      eapply all_chars_impl; [|exact Hd]. intros c Hc. by apply digit_props. }
  rewrite split_on_last.
  2:{ change ("v1=" +:+ sig) with (String "v" (String "1" (String "=" sig))). simpl.
      eapply all_chars_impl; [|exact Hh]. intros c Hc. by apply hex_props. }
  cbn [fold_left]. change (partition "=" ("" +:+ ("t=" +:+ ts))) with ("t", true, ts).
  change (partition "=" ("" +:+ ("v1=" +:+ sig))) with ("v1", true, sig). cbn match.
  rewrite (strip_clean ts) by (eapply all_chars_impl; [|exact Hd]; intros c Hc; by apply digit_props).
  rewrite (strip_clean sig) by (eapply all_chars_impl; [|exact Hh]; intros c Hc; by apply hex_props). done.
Qed.

(** C26: the header that a delivery signs at the second [n] verifies, for the same
    secret and body, exactly as long as the clock is within the tolerance of [n]
    on either side. *)
Theorem signature_verifies_within_tolerance secret payload n tolerance t0 :
  secret <> "" -> 0 <= n ->
  verify_webhook_signature secret (signature_header secret (pretty n) payload) payload tolerance t0 =
  Ok (Z.abs (t0 - n) <=? tolerance).
Proof.
  intros Hs Hn. unfold verify_webhook_signature. rewrite (header_elements_generated secret n payload Hn).
  replace (negb (truthy (signature_header secret (pretty n) payload))) with false by done.
  assert (truthy secret = true) as -> by (by destruct secret). cbn [negb orb get_text String.eqb Ascii.eqb Bool.eqb].
  assert (truthy (pretty n) = true) as Ht.
  { destruct (pretty n) eqn:E; [|done]. pose proof (int_of_pretty n Hn) as Hi. by rewrite E in Hi. }
  pose proof (hmac_nonempty secret (pretty n +:+ "." +:+ payload)) as Hne.
  pose proof (hmac_hex secret (pretty n +:+ "." +:+ payload)) as Hh.
  unfold generate_webhook_signature. set (sig := hmac_sha256 _ _) in *.
  unfold or_opt. rewrite Ht. assert (truthy sig = true) as -> by (by destruct sig).
  rewrite (int_of_pretty n Hn). fold sig.
  rewrite (all_chars_impl hex_char) by (done || (intros c Hc; by apply hex_props)). rewrite String.eqb_refl.
  destruct (Z.ltb_spec tolerance (Z.abs (t0 - n))) as [Hlt|Hle].
  - f_equal. symmetry. apply Z.leb_gt. lia.
  - f_equal. symmetry. apply Z.leb_le. lia.
Qed.

(** C27: a header that verifies carries a time within the tolerance and the digest
    of that time and the body under the secret: without the secret's digest no
    header verifies, and a captured one stops verifying with its time. *)
Theorem verified_signature_is_authentic secret header payload tolerance t0 :
  verify_webhook_signature secret header payload tolerance t0 = Ok true ->
  secret <> "" /\ exists ts n,
    get_text "t" (header_elements header) = Some ts /\ int_of_text ts = Some n /\
    Z.abs (t0 - n) <= tolerance /\
    get_text "v1" (header_elements header) = Some (hmac_sha256 secret (ts +:+ "." +:+ payload)).
Proof.
  unfold verify_webhook_signature. destruct (negb (truthy header)) eqn:E; [done|].
  destruct secret as [|c s]; [done|]. cbn [orb negb truthy String.eqb]. intros H. split; [done|].
  destruct (get_text "t" _) as [ts|]; [|done]. destruct (get_text "v1" _) as [sig|]; [|by destruct (or_opt (Some ts) None)].
  cbn [or_opt] in H. destruct (truthy ts); [|done]. destruct (truthy sig); [|done].
  destruct (int_of_text ts) as [n|] eqn:En; [|done]. destruct (Z.ltb_spec tolerance (Z.abs (t0 - n))); [done|].
  destruct (all_chars _ sig); [|done]. injection H as Hs%String.eqb_eq. exists ts, n. by rewrite <- Hs.
Qed.
End signatures.

(** ** Targets *)

Lemma in_net_range net bits n :
  0 <= bits <= 32 -> net mod 2 ^ (32 - bits) = 0 ->
  in_net net bits n = true <-> net <= n < net + 2 ^ (32 - bits).
Proof.
  intros Hb Hn. unfold in_net. rewrite Z.eqb_eq, !Z.shiftr_div_pow2 by lia.
  pose proof (Z.pow_pos_nonneg 2 (32 - bits) ltac:(lia) ltac:(lia)) as Hp. set (k := 2 ^ (32 - bits)) in *.
  pose proof (Z.div_mod net k ltac:(lia)). pose proof (Z.div_mod n k ltac:(lia)).
  pose proof (Z.mod_pos_bound n k Hp). split; [nia|]. intros Hr. nia.
Qed.

(** The ranges a request must not reach: this host, private use, loopback,
    link-local, protocol assignments, benchmarking, and everything above. *)
Definition internal (a : Z) : Prop :=
  a < ip 1 0 0 0 \/ ip 10 0 0 0 <= a < ip 11 0 0 0 \/ ip 127 0 0 0 <= a < ip 128 0 0 0 \/
  ip 169 254 0 0 <= a < ip 169 255 0 0 \/ ip 172 16 0 0 <= a < ip 172 32 0 0 \/
  ip 192 168 0 0 <= a < ip 192 169 0 0 \/ ip 198 18 0 0 <= a < ip 198 20 0 0 \/ ip 240 0 0 0 <= a.

Lemma internal_forbidden a :
  0 <= a < 2 ^ 32 -> internal a -> is_private a = true.
Proof.
  intros Ha Hi. unfold is_private. apply andb_true_intro. split.
  - apply existsb_exists. unfold internal, ip in *. cbn in Ha.
    destruct Hi as [Hi|[Hi|[Hi|[Hi|[Hi|[Hi|[Hi|Hi]]]]]]];
      [exists (ip 0 0 0 0, 8)|exists (ip 10 0 0 0, 8)|exists (ip 127 0 0 0, 8)|exists (ip 169 254 0 0, 16)
      |exists (ip 172 16 0 0, 12)|exists (ip 192 168 0 0, 16)|exists (ip 198 18 0 0, 15)|exists (ip 240 0 0 0, 4)];
      (split; [simpl; tauto|]); (apply in_net_range; [lia|done|unfold ip; cbn in *; lia]).
  - apply negb_true_iff, orb_false_iff. unfold internal, ip in *. split; apply Z.eqb_neq; lia.
Qed.

Section urls.
Context {WX : WebhookExt}.

(** C28: outside the development and test environments a URL that [validate_webhook_url]
    accepts has the scheme http or https and a host name for which [gethostbyname] gave,
    when it was asked, an IPv4 address outside every internal range.  Other addresses of
    the host and what it resolves to at a delivery are not checked, and the portal stores
    endpoints without this validation. *)
Theorem accepted_target_is_public url :
  (forall h a, gethostbyname h = Some a -> 0 <= a < 2 ^ 32) ->
  ENV <> "dev" -> ENV <> "test" -> validate_webhook_url url = Ok tt ->
  exists scheme netloc h a, urlparse url = Ok (scheme, netloc) /\ scheme ∈ ["http"; "https"] /\
    hostname netloc = Some h /\ gethostbyname h = Some a /\ ~ internal a.
Proof.
  intros Hrange Hdev Htest H. unfold validate_webhook_url in H. apply obind_ok_inv in H as ([scheme netloc] & Hu & H).
  destruct (String.eqb scheme "http" || String.eqb scheme "https") eqn:Es; [|done]. cbn [negb] in H.
  apply String.eqb_neq in Hdev, Htest. rewrite Hdev, Htest in H. cbn [orb] in H.
  destruct (hostname netloc) as [h|] eqn:Eh; [|done]. destruct (gethostbyname h) as [a|] eqn:Ea; [|done].
  destruct (is_private a) eqn:Ep; [done|]. exists scheme, netloc, h, a. split_and!; try done.
  - apply orb_true_iff in Es as [->%String.eqb_eq| ->%String.eqb_eq]; [left|right; left].
  - intros Hi. apply internal_forbidden in Hi; [congruence|by eapply Hrange].
Qed.
End urls.

(** ** Delivery *)

Lemma deliver_all_skip {R} {RD : Redis R} {EX : Ext} (f : WebhookEndpoint -> PyM unit) l (w : World R) :
  Forall (fun e => exists x, forall v, f e v = (Err x, v)) l -> deliver_all f l w = (Ok tt, w).
Proof.
  induction 1 as [|e l [x Hx] Hl IH]; [done|]. cbn [deliver_all]. unfold bind, try_catch. by rewrite Hx.
Qed.

Section delivery.
Context {R : Type} {RD : Redis R} {EX : Ext} {WX : WebhookExt} {HC : HttpClient}.
Implicit Types w : World R.

Lemma text_headers_raise e name id ts body :
  stored_text (we_headers e) ->
  delivery_headers e name id ts body = Err (ValueErr "dictionary update sequence element").
Proof.
  intros [d Hd]. unfold delivery_headers. rewrite Hd. unfold jsonb_text.
  assert (exists s, dumps (text_dict d) = String "{" s) as [s ->] by (by eexists).
  cbn [falsy update_headers char_items list_ascii_of_string map mapM pair_of_json]. done.
Qed.

(** Endpoints whose headers are a text: nothing is posted or logged. *)
Lemma text_endpoints_receive_nothing name payload id w :
  (forall i e, webhook_endpoints (read_view w) !! i = Some e -> stored_text (we_headers e)) ->
  send_webhook_event name payload id w = (Ok tt, w).
Proof.
  intros Hall. unfold send_webhook_event, WebhookDAO.list_active_endpoints_for_event, db_read, bind, gets.
  assert (Forall (fun e => stored_text (we_headers e)) (WebhookDAO.subscribed name (read_view w))) as Hf.
  { apply Forall_forall. intros e He. unfold WebhookDAO.subscribed in He. rewrite merge_sort_Permutation in He.
    apply list_elem_of_filter in He as [_ [i Hi]%elem_of_values]. by eapply Hall. }
  destruct (WebhookDAO.subscribed name (read_view w)) as [|e l]; [done|].
  apply deliver_all_skip. eapply Forall_impl; [exact Hf|]. intros x Hx. eexists. intros v.
  unfold _deliver_to_endpoint, bind, lift. by rewrite (text_headers_raise x name id _ _ Hx).
Qed.

(** The log of an attempt at an endpoint. *)
Definition logs_attempt (name : string) (payload : list (string * Json)) (id : string) (t0 : Z)
  (e : WebhookEndpoint) (l : WebhookLog) : Prop :=
  exists hs, delivery_headers e name id (pretty t0) (dumps_compact (JObj payload)) = Ok hs /\
    let r := http_post (we_url e) (dumps_compact (JObj payload)) hs in
    wl_direction l = OUTBOUND /\ wl_endpoint_id l = Some (we_id e) /\ wl_url l = we_url e /\
    wl_event_name l = name /\ wl_created_at l = t0 /\
    (wl_status l = SUCCESS <-> exists resp, r = inl resp /\ is_success resp = true) /\
    wl_status_code l = match r with inl resp => Some (status_code resp) | inr _ => None end /\
    wl_request_headers l = jsonb_text (dumps (text_dict hs)) /\
    from_option (fun b => String.length b <= 2048)%nat True (wl_response_body l).

Lemma substring_length n s : (String.length (String.substring 0 n s) <= n)%nat.
Proof. revert n. induction s as [|c s IH]; intros [|n]; simpl; try lia. specialize (IH n). lia. Qed.

Lemma deliver_run name payload id e w hs :
  (String.length name <= 100)%nat ->
  delivery_headers e name id (pretty (now w)) (dumps_compact (JObj payload)) = Ok hs ->
  is_Some (webhook_endpoints (db w) !! we_id e) ->
  exists l w', _deliver_to_endpoint name id payload (pretty (now w)) (dumps_compact (JObj payload)) e w = (Ok tt, w') /\
    webhook_logs (db w') = webhook_logs (db w) ++ [l] /\ webhook_endpoints (db w') = webhook_endpoints (db w) /\
    now w' = now w /\ logs_attempt name payload id (now w) e l.
Proof.
  intros Hn Hhs He. unfold _deliver_to_endpoint, bind, lift. rewrite Hhs.
  set (log := delivery_log _ _ _ _ _). assert (WebhookLogCreate_valid log = true) as ->.
  { unfold WebhookLogCreate_valid, between. cbn. by apply Nat.leb_le in Hn as ->. }
  cbn [negb raise_if]. unfold ret at 1, WebhookLogDAO.create_log, bind, draw, gets, db_write, insert_log. cbn [lc_endpoint_id log delivery_log from_option].
  rewrite bool_decide_eq_true_2 by done. cbn [negb]. eexists _, _. split; [reflexivity|].
  split; [done|]. split; [done|]. split; [done|]. exists hs. split; [done|].
  set (r := http_post _ _ _) in *. cbn. split_and!; try done.
  - fold r. destruct r as [resp|err]; [|split; [done|by intros (resp & [=] & _)]].
    destruct (is_success resp) eqn:Es; split; try done; [by exists resp|]. intros (resp' & [= <-] & H). congruence.
  - fold r. destruct r as [resp|err]; [|done]. destruct (or_opt _ _) as [b|]; [|done]. apply substring_length.
Qed.

(** When the headers of the subscribed endpoints are mappings of texts, or
    empty, the delivery task makes one attempt at each active endpoint of the
    event, the oldest first, and logs each: SUCCESS exactly for a 2xx answer, the
    code of the answer, the signed headers that were sent, and at most 2048
    characters of the body. *)
Theorem each_subscriber_attempted_once name payload id w :
  replica w = None -> (String.length name <= 100)%nat ->
  keyed we_id (webhook_endpoints (db w)) ->
  (forall e, e ∈ WebhookDAO.subscribed name (db w) ->
     is_ok (delivery_headers e name id (pretty (now w)) (dumps_compact (JObj payload))) = true) ->
  exists w' rows, send_webhook_event name payload id w = (Ok tt, w') /\
    webhook_logs (db w') = webhook_logs (db w) ++ rows /\
    Forall2 (logs_attempt name payload id (now w)) (WebhookDAO.subscribed name (db w)) rows.
Proof.
  intros Hr Hn Hk Hok. unfold send_webhook_event, WebhookDAO.list_active_endpoints_for_event, db_read.
  assert (read_view w = db w) as Hv by (unfold read_view; by rewrite Hr).
  unfold bind at 1, gets. rewrite Hv. set (es := WebhookDAO.subscribed name (db w)) in *.
  assert (Forall (fun e => is_Some (webhook_endpoints (db w) !! we_id e)) es) as Hin.
  { apply Forall_forall. intros e He. unfold es, WebhookDAO.subscribed in He. rewrite merge_sort_Permutation in He.
    apply list_elem_of_filter in He as [_ [i Hi]%elem_of_values]. rewrite (Hk _ _ Hi). eauto. }
  assert (forall v, now v = now w -> webhook_endpoints (db v) = webhook_endpoints (db w) ->
    exists w' rows, deliver_all (_deliver_to_endpoint name id payload (pretty (now w)) (dumps_compact (JObj payload))) es v
        = (Ok tt, w') /\
      webhook_logs (db w') = webhook_logs (db v) ++ rows /\ Forall2 (logs_attempt name payload id (now w)) es rows) as Hall.
  { revert Hok Hin. clearbody es. induction es as [|e es IH]; intros Hok Hin v Hnow Hes.
    - exists v, []. by rewrite app_nil_r.
    - inversion Hin as [|? ? He Hin']; subst. specialize (Hok e) as Hhs.
      destruct (delivery_headers e _ _ _ _) as [hs|x] eqn:Eh; [|by discriminate Hhs; left]. rewrite <- Hnow in Eh.
      destruct (deliver_run name payload id e v hs Hn Eh) as (l & v1 & Hrun & Hl & He1 & Hnow1 & Hatt); [by rewrite Hes|].
      destruct (IH (fun x Hx => Hok x (list_elem_of_further _ _ _ Hx)) Hin' v1) as (w' & rows & Hrun' & Hrows & Hf2); [congruence|congruence|].
      exists w', (l :: rows). cbn [deliver_all]. rewrite Hnow in Hrun, Hatt. unfold bind, try_catch. rewrite Hrun.
      split; [exact Hrun'|]. split; [by rewrite Hrows, Hl, <- app_assoc|]. by constructor. }
  destruct (Hall w eq_refl eq_refl) as (w' & rows & Hrun & Hrows & Hf2). exists w', rows.
  split; [|by split]. clear - Hrun. clearbody es. by destruct es.
Qed.
End delivery.

(** Of the names an endpoint can subscribe to, the application publishes one. *)
Lemma deliverable_events n : n ∈ WebhookEvents -> n ∈ EventNames -> n = "user.created".
Proof.
  unfold WebhookEvents, EventNames. rewrite !elem_of_cons, !elem_of_nil.
  intros [->|[->|[->|[]]]]; [done| |]; intros H; exfalso; naive_solver.
Qed.

(** ** From any state the service reaches *)

Section reachable.
Context {R : Type} {RD : Redis R} {EX : Ext} {EL : ExtLaws} {ST : Settings} {GO : Google}.

(** In whatever state the service reaches, with whatever endpoints were
    registered, no webhook is delivered: the delivery task of any event posts nothing
    and logs nothing, for any number of subscribers and any receiver.  Every write
    leaves the headers of an endpoint as a text, the update of the header dict
    raises before the request, and [gather] drops the exception. *)
Theorem no_webhook_is_delivered {WX : WebhookExt} {HC : HttpClient} (w0 w : World R) name payload id :
  side_wf (db w0) -> replica w0 = None -> steps w0 w ->
  send_webhook_event name payload id w = (Ok tt, w).
Proof.
  intros S Hr Hs.
  assert (holds side_kept None (now w0) w0) as H0 by (split; [done|]; split; [lia|done]).
  destruct (steps_keep side_kept _ _ _ _ Hs H0) as (Hr' & _ & Sw).
  apply text_endpoints_receive_nothing. unfold read_view. rewrite Hr'. exact (side_headers _ Sw).
Qed.
End reachable.

(** ** Inbound *)

Section inbound.
Context {R : Type} {RD : Redis R} {EX : Ext} (str_of : PyVal -> string).
Implicit Types w : World R.

Definition body_json (request : Inbound) : Json :=
  default (JObj [("raw", JStr (ib_replaced request))])
    (if utf8_valid (ib_body request) then loads (ib_body request) else None).

Definition inbound_event (fs : list (string * Json)) : string :=
  match truthy_field fs "event", truthy_field fs "type" with
  | Some j, _ | None, Some j => py_text str_of j
  | None, None => "generic.event"
  end.

Definition inbound_fits (source : string) (request : Inbound) (fs : list (string * Json)) : Prop :=
  (String.length source <= 100)%nat /\ (String.length (inbound_event fs) <= 100)%nat /\
  from_option (fun i => String.length i <= 45)%nat True (ib_client request).

Lemma generic_adapter source : get_adapter (R := R) str_of source = GenericWebhookAdapter str_of.
Proof. unfold get_adapter. by destruct (String.eqb _ _). Qed.

Lemma process_object source request fs w : exists w',
  _process_inbound_adapter str_of source request (JObj fs) w =
    (Ok (inbound_event fs, SUCCESS, 200, PDict [(PStr "status", PStr "received"); (PStr "source", PStr "generic")], None), w') /\
  db w' = db w.
Proof.
  unfold _process_inbound_adapter. rewrite generic_adapter.
  unfold GenericWebhookAdapter, try_catch, bind, inbound_event.
  cbn [verify_signature normalize get_success_response negb].
  destruct (truthy_field fs "id"), (truthy_field fs "event_id"); (eexists; split; [reflexivity|done]).
Qed.

(** An inbound webhook whose body is a JSON object, or no JSON at all, is
    acknowledged for any source without any check of its origin, and leaves one
    log entry: INBOUND, SUCCESS, with its source and the name of its event.  A
    body of any other JSON value raises an [AttributeError] and leaves none. *)
Theorem inbound_webhook_outcome source request w :
  match body_json request with
  | JObj fs =>
      inbound_fits source request fs ->
      exists w' l, handle_inbound_webhook str_of source request w =
        (Ok (PDict [(PStr "status", PStr "received"); (PStr "source", PStr "generic")]), w') /\
        webhook_logs (db w') = webhook_logs (db w) ++ [l] /\
        wl_direction l = INBOUND /\ wl_status l = SUCCESS /\ wl_source l = source /\
        wl_event_name l = inbound_event fs /\ wl_payload l = jsonb_text (dumps (JObj fs))
  | _ => handle_inbound_webhook str_of source request w = (Err (AttributeErr "get"), w)
  end.
Proof.
  assert (handle_inbound_webhook str_of source request w =
    (let! (event_name, status, code, response_data, error_message) :=
       _process_inbound_adapter str_of source request (body_json request) in
     let log := {| lc_direction := INBOUND; lc_endpoint_id := None; lc_source := source; lc_event_name := event_name;
                lc_url := ib_path request; lc_status := status; lc_status_code := Some code; lc_payload := body_json request;
                lc_request_headers := Some (text_dict (ib_headers request));
                lc_response_headers := Some (text_dict [("content-type", "application/json")]);
                lc_response_body := Some (py_str str_of response_data);
                lc_error_message := error_message; lc_ip_address := ib_client request |} in
     raise_if (negb (WebhookLogCreate_valid log)) ValidationErr ;;!
     WebhookLogDAO.create_log log ;;!
     raise_if (bool_decide (status = FAILED)) (HTTPException code (default "" error_message)) ;;!
     ret response_data) w) as Hrun.
  { unfold handle_inbound_webhook, body_json, default. by destruct (if utf8_valid _ then _ else _). }
  destruct (body_json request) as [| | | | | |fs]; try (rewrite Hrun; unfold _process_inbound_adapter; by rewrite generic_adapter).
  intros (H1 & H2 & H3). destruct (process_object source request fs w) as (w1 & Hp & Hdb).
  rewrite (bind_ok _ _ _ _ _ Hp) in Hrun. cbn match in Hrun. cbv zeta in Hrun. set (log := Build_WebhookLogCreate _ _ _ _ _ _ _ _ _ _ _ _ _) in Hrun.
  assert (WebhookLogCreate_valid log = true) as Hvalid.
  { unfold WebhookLogCreate_valid, between. cbn. apply Nat.leb_le in H1 as ->, H2 as ->.
    destruct (ib_client request) as [i|]; [|done]. cbn in *. by apply Nat.leb_le in H3 as ->. }
  rewrite Hvalid in Hrun. rewrite Hrun. eexists _, _. split; [reflexivity|]. cbn. by rewrite Hdb.
Qed.
End inbound.

(** ** Concrete runs *)

#[export] Instance concrete_webhooks : WebhookExt := {
  hmac_sha256 := fun k m => "abc123";
  gethostbyname := fun h => if String.eqb h "hooks.example.org" then Some (ip 93 184 216 34)
                            else if String.eqb h "localhost" then Some (ip 127 0 0 1) else None;
  bracketed_ok := fun h => false;
  ENV := "prod";
  token_urlsafe24 := fun n => "secret-of-" +:+ pretty n;
}.

#[export] Instance concrete_webhook_laws : WebhookLaws.
Proof. by split. Qed.

(** A receiver that accepts one target. *)
#[export] Instance concrete_client : HttpClient := {
  http_post := fun url body headers =>
    if String.eqb url "https://hooks.example.org/in"
    then inl {| status_code := 204; response_headers := []; response_text := "" |}
    else inr "timed out";
}.

Definition endpoint (id url : string) (headers : Json) (t0 : Z) : WebhookEndpoint :=
  {| we_id := id; we_created_by := None; we_url := url; we_secret := "0123456789abcdef"; we_description := None;
     we_event_types := ["user.created"]; we_headers := headers; we_is_active := true; we_created_at := t0;
     we_updated_at := t0 |}.

Definition two_endpoints (headers : Json) : World MapRedis.t :=
  world_of (set_webhook_endpoints (fun _ =>
    <["e1" := endpoint "e1" "https://hooks.example.org/in" headers 7]>
      {["e2" := endpoint "e2" "https://other.example.org/" headers 5]}) seed_tables).

Lemma two_endpoints_rows h i e : webhook_endpoints (db (two_endpoints h)) !! i = Some e ->
  we_headers e = h /\ we_id e = i.
Proof.
  cbn. intros [[<- <-]|[_ [<- <-]%lookup_singleton_Some]]%lookup_insert_Some; done.
Qed.

Lemma signature_verifies_within_tolerance_witness :
  verify_webhook_signature "0123456789abcdef" (signature_header "0123456789abcdef" (pretty 1700) "{}") "{}" 300 2000 = Ok true.
Proof. rewrite signature_verifies_within_tolerance; [reflexivity|discriminate|lia]. Defined.

Lemma verified_signature_is_authentic_witness : exists ts n,
  int_of_text ts = Some n /\ Z.abs (2000 - n) <= 300.
Proof.
  destruct (verified_signature_is_authentic "0123456789abcdef" "t=1900, v1=abc123" "{}" 300 2000)
    as (_ & ts & n & _ & Hi & Hn & _); [vm_compute; reflexivity|]. by exists ts, n.
Defined.

Lemma accepted_target_is_public_witness : exists a,
  gethostbyname "hooks.example.org" = Some a /\ ~ internal a /\ is_ok (validate_webhook_url "http://LOCALHOST:80/x") = false.
Proof.
  destruct (accepted_target_is_public "https://user@Hooks.example.org:8443/in?x=1") as (s & n & h & a & Hu & _ & Hh & Ha & Hi).
  - intros h a. cbn. destruct (String.eqb h _); [intros [= <-]; vm_compute; split; [discriminate|reflexivity]|].
    destruct (String.eqb h _); [intros [= <-]; vm_compute; split; [discriminate|reflexivity]|done].
  - discriminate.
  - discriminate.
  - vm_compute. reflexivity.
  - exists a. vm_compute in Hu. injection Hu as <- <-. vm_compute in Hh. injection Hh as <-.
    split; [exact Ha|]. split; [exact Hi|]. vm_compute. reflexivity.
Defined.

Lemma two_endpoints_side : side_wf (db (two_endpoints (jsonb_text "{}"))).
Proof.
  split; [split| | | | | | |]; cbn; try (by intros ?); try by constructor.
  - intros i e Hi. by apply two_endpoints_rows in Hi as [_ ->].
  - by intros i e u [[<- <-]|[_ [<- <-]%lookup_singleton_Some]]%lookup_insert_Some.
  - intros i e Hi. apply two_endpoints_rows in Hi as [-> _]. exists []. vm_compute. reflexivity.
Qed.

Lemma no_webhook_is_delivered_witness :
  send_webhook_event "user.created" [("id", JStr "u1")] "ev1" (two_endpoints (jsonb_text "{}")) =
  (Ok tt, two_endpoints (jsonb_text "{}")).
Proof.
  exact (no_webhook_is_delivered (two_endpoints (jsonb_text "{}")) (two_endpoints (jsonb_text "{}"))
    "user.created" [("id", JStr "u1")] "ev1" two_endpoints_side eq_refl (rtc_refl _ _)).
Defined.

(** A body that is no JSON, from an unknown vendor. *)
Definition raw_request : Inbound :=
  {| ib_path := "/api/v0/webhooks/stripe"; ib_headers := []; ib_body := "ping"; ib_replaced := "ping";
     ib_client := Some "10.0.0.1" |}.

Lemma inbound_webhook_outcome_witness : exists w' l,
  handle_inbound_webhook (fun _ => "text") "stripe" raw_request (two_endpoints (jsonb_text "{}")) =
    (Ok (PDict [(PStr "status", PStr "received"); (PStr "source", PStr "generic")]), w') /\
  webhook_logs (db w') = [l] /\ wl_event_name l = "generic.event".
Proof.
  pose proof (inbound_webhook_outcome (fun _ => "text") "stripe" raw_request (two_endpoints (jsonb_text "{}"))) as H.
  assert (body_json raw_request = JObj [("raw", JStr "ping")]) as Hb by (vm_compute; reflexivity).
  rewrite Hb in H. destruct H as (w' & l & Hrun & Hl & _ & _ & _ & He & _).
  - repeat split; cbn; lia.
  - exists w', l. split; [exact Hrun|]. split; [exact Hl|]. rewrite He. reflexivity.
Defined.

Lemma each_subscriber_attempted_once_witness : exists w' rows,
  send_webhook_event "user.created" [("id", JStr "u1")] "ev1" (two_endpoints (JObj [("X-Key", JStr "k")])) = (Ok tt, w') /\
  webhook_logs (db w') = rows /\ length rows = 2%nat.
Proof.
  destruct (each_subscriber_attempted_once "user.created" [("id", JStr "u1")] "ev1" (two_endpoints (JObj [("X-Key", JStr "k")])))
    as (w' & rows & Hrun & Hrows & Hf).
  - reflexivity.
  - apply Nat.leb_le. reflexivity.
  - intros i e Hi. by apply two_endpoints_rows in Hi as [_ ->].
  - intros e He. unfold WebhookDAO.subscribed in He. rewrite merge_sort_Permutation in He.
    apply list_elem_of_filter in He as [_ [i [Hh _]%two_endpoints_rows]%elem_of_values].
    unfold delivery_headers. rewrite Hh. reflexivity.
  - exists w', rows. split; [exact Hrun|]. split; [exact Hrows|]. rewrite <- (Forall2_length _ _ _ Hf). vm_compute. reflexivity.
Defined.
