(* ===== verification/NotificationProps.v ===== *)
(** * Theorems on notifications

    The registry of devices refines a map from tokens to an owner and a flag;
    pushes go to what that map says, and a worker takes out what Firebase calls
    dead.  A channel that fails does not keep a message from the others.  A client
    that reads a stream by the rules of server-sent events sees each message
    published to it once, in order. *)

From Stdlib Require Import ZArith Lia Ascii String List Bool.
From stdpp Require Import base gmap strings sorting list pretty.
From S2P Require Import Prelude Redis Schema JsonText World Tokens Users Roles Auth Invariants EventBus Notifications SideInvariants.
From S2P Require Import Cache AppConfig Totp Routes System Service AuthLemmas Concrete Scenario.
Local Open Scope string_scope.
Local Open Scope list_scope.
Local Open Scope Z_scope.

(** ** The registry of devices *)

(** What the table means: for each token its owner and whether it is active. *)
Abbreviation Registry := (gmap string (uuid * bool)).

Definition registry (m : gmap uuid UserDevice) : Registry :=
  list_to_map ((fun d => (ud_fcm_token d, (ud_user_id d, ud_is_active d))) <$> values m).

Definition reg_register (uid : uuid) (tok : string) (r : Registry) : Registry := <[tok := (uid, true)]> r.
Definition reg_unregister (uid : uuid) (tok : string) (r : Registry) : Registry :=
  alter (fun '(o, a) => (o, a && negb (String.eqb o uid))) tok r.
Definition reg_prune (toks : list string) (r : Registry) : Registry :=
  map_imap (fun tok '(o, a) => Some (o, a && negb (mem tok toks))) r.
Definition reg_forget (uids : list uuid) (r : Registry) : Registry :=
  filter (fun '(_, (o, _)) => o ∉ uids) r.

Lemma NoDup_values {A} (f : A -> string) (m : gmap string A) :
  unique_on (fun x => Some (f x)) m -> NoDup (f <$> values m).
Proof.
  intros Hu. unfold values. rewrite <- list_fmap_compose. apply NoDup_fmap_2_strong; [|apply NoDup_map_to_list].
  intros [k x] [k' x'] Hx%elem_of_map_to_list Hx'%elem_of_map_to_list Hf. cbn in Hf.
  assert (k = k') as <- by (eapply (Hu k k' x x' (f x)); congruence). congruence.
Qed.

Lemma registry_spec m tok o a :
  unique_on (fun d => Some (ud_fcm_token d)) m ->
  registry m !! tok = Some (o, a) <->
  exists i d, m !! i = Some d /\ ud_fcm_token d = tok /\ ud_user_id d = o /\ ud_is_active d = a.
Proof.
  intros Hu. unfold registry. rewrite <- elem_of_list_to_map.
  2:{ rewrite <- list_fmap_compose. by apply (NoDup_values ud_fcm_token). }
  rewrite list_elem_of_fmap. split.
  - intros (d & [= -> -> ->] & [i Hi]%elem_of_values). by exists i, d.
  - intros (i & d & Hi & <- & <- & <-). exists d. split; [done|]. apply elem_of_values. by exists i.
Qed.

(** A table whose rows keep token and key: the registry is updated pointwise. *)
Lemma registry_fmap m (f : UserDevice -> UserDevice) (g : string -> uuid * bool -> uuid * bool) :
  unique_on (fun d => Some (ud_fcm_token d)) m ->
  (forall d, ud_fcm_token (f d) = ud_fcm_token d) ->
  (forall d, (ud_user_id (f d), ud_is_active (f d)) = g (ud_fcm_token d) (ud_user_id d, ud_is_active d)) ->
  registry (f <$> m) = map_imap (fun tok x => Some (g tok x)) (registry m).
Proof.
  intros Hu Ht Hg. apply map_eq. intros tok. apply option_eq. intros [o a].
  rewrite registry_spec by (by apply unique_fmap; [intros d; by rewrite Ht|]).
  rewrite map_lookup_imap, bind_Some. split.
  - intros (i & d & (x & <- & Hx)%lookup_fmap_Some & <- & <- & <-). rewrite Ht.
    exists (ud_user_id x, ud_is_active x). rewrite (registry_spec m) by done. split; [by exists i, x|].
    by rewrite Hg.
  - intros ([o' a'] & (i & x & Hx & <- & <- & <-)%registry_spec & [= E]); [|done].
    exists i, (f x). rewrite lookup_fmap, Hx. split; [done|]. split; [apply Ht|].
    rewrite <- Hg in E. by injection E as -> ->.
Qed.

Lemma upsert_registry id t0 u tok p name t r t' :
  devices_wf (users t) (user_devices t) -> upsert_device id t0 u tok p name t = Ok (r, t') ->
  user_devices t !! id = None \/ device_of_token tok t <> None ->
  registry (user_devices t') = reg_register u tok (registry (user_devices t)).
Proof.
  intros [D1 D2 D3 D4] H Hid. pose proof H as Hs. unfold upsert_device in H.
  destruct (platform_ok p) eqn:Ep; [|done]. cbn [negb] in H. destruct (bool_decide _); [done|].
  injection H as <- <-. cbn [user_devices set_user_devices].
  set (d := match device_of_token tok t with Some o => _ | None => _ end) in *.
  assert (ud_fcm_token d = tok /\ ud_user_id d = u /\ ud_is_active d = true) as (Ht & Hu & Ha).
  { subst d. destruct (device_of_token tok t) as [o|] eqn:Eo; [|done].
    by apply device_of_token_Some in Eo as (j & _ & Ht). }
  assert (forall i x, user_devices t !! i = Some x -> ud_fcm_token x = tok <-> i = ud_id d) as Hkey.
  { intros i x Hx. subst d. destruct (device_of_token tok t) as [o|] eqn:Eo; cbn.
    - apply device_of_token_Some in Eo as (j & Hj & Hot). rewrite (D1 _ _ Hj). split.
      + intros Hxt. apply (D2 i j x o tok); congruence.
      + intros ->. congruence.
    - split; [intros Hxt; by destruct (device_of_token_None _ _ _ _ Eo Hx)|].
      intros ->. destruct Hid as [Hid|Hid]; [congruence|done]. }
  apply map_eq. intros tk. apply option_eq. intros [o a]. unfold reg_register.
  rewrite registry_spec.
  2:{ apply unique_insert; [done|]. intros i x b Hne Hx [= <-] [= Hb]. apply Hne, (Hkey _ _ Hx). congruence. }
  rewrite lookup_insert_Some. rewrite (registry_spec (user_devices t)) by done. split.
  - intros (i & x & [[<- <-]|[Hne Hx]]%lookup_insert_Some & <- & <- & <-); [left; by rewrite Ht, Hu, Ha|].
    right. split; [|by exists i, x]. intros E. apply Hne. symmetry. apply (Hkey _ _ Hx). congruence.
  - intros [[<- [= <- <-]]|(Hne & i & x & Hx & <- & <- & <-)].
    + exists (ud_id d), d. by rewrite lookup_insert_eq.
    + exists i, x. split; [|done]. rewrite lookup_insert_ne; [done|]. intros E. apply Hne. symmetry.
      by apply (Hkey _ _ Hx).
Qed.

Lemma deactivate_registry P t0 t u t' (g : string -> uuid -> bool) :
  devices_wf (users t) (user_devices t) -> deactivate_devices P t0 t = Ok (u, t') ->
  (forall d, P d = g (ud_fcm_token d) (ud_user_id d)) ->
  registry (user_devices t') = map_imap (fun tok '(o, a) => Some (o, a && negb (g tok o))) (registry (user_devices t)).
Proof.
  intros [D1 D2 D3 D4] [= _ <-] HP. cbn [user_devices set_user_devices].
  rewrite (registry_fmap _ _ (fun tok '(o, a) => (o, a && negb (g tok o)))); [|done| |].
  - apply map_imap_ext. intros i. by destruct (_ !! i) as [[o a]|].
  - intros d. by destruct (P d).
  - intros d. rewrite <- HP. destruct (P d); cbn; by rewrite ?andb_false_r, ?andb_true_r.
Qed.

Lemma alter_imap (f : uuid * bool -> uuid * bool) tok (r : Registry) :
  alter f tok r = map_imap (fun k x => Some (if String.eqb k tok then f x else x)) r.
Proof.
  apply map_eq. intros k. rewrite map_lookup_imap. destruct (String.eqb_spec k tok) as [->|Hne].
  - rewrite lookup_alter_eq. by destruct (r !! tok).
  - rewrite lookup_alter_ne by done. by destruct (r !! k).
Qed.

Lemma delete_users_registry ids t a t' :
  devices_wf (users t) (user_devices t) -> delete_users_rows ids t = Ok (a, t') ->
  registry (user_devices t') = reg_forget ids (registry (user_devices t)).
Proof.
  intros [D1 D2 D3 D4] [= _ <-]. cbn. apply map_eq. intros tok. apply option_eq. intros [o b].
  unfold reg_forget. rewrite map_lookup_filter_Some, !registry_spec.
  - split.
    + intros (i & d & [Hd Hn]%map_lookup_filter_Some & <- & <- & <-). split; [by exists i, d|done].
    + intros ((i & d & Hd & <- & <- & <-) & Hn). exists i, d. by rewrite map_lookup_filter_Some.
  - done.
  - eapply unique_shrinks; [apply shrinks_filter|done].
Qed.

(** The tokens a push to a user is for: those the registry gives him as active. *)
Lemma active_devices_spec us (t : Tables) uid tok :
  devices_wf us (user_devices t) ->
  tok ∈ ud_fcm_token <$> active_devices uid t <-> registry (user_devices t) !! tok = Some (uid, true).
Proof.
  intros [D1 D2 D3 D4]. rewrite registry_spec by done. unfold active_devices.
  rewrite list_elem_of_fmap. setoid_rewrite merge_sort_Permutation. setoid_rewrite list_elem_of_filter. split.
  - intros (d & -> & [Hu Ha] & [i Hi]%elem_of_values). by exists i, d.
  - intros (i & d & Hd & <- & Hu & Ha). exists d. split; [done|]. split; [done|]. apply elem_of_values. by exists i.
Qed.

Lemma active_devices_nodup us (t : Tables) uid :
  devices_wf us (user_devices t) -> NoDup (ud_fcm_token <$> active_devices uid t).
Proof.
  intros [D1 D2 D3 D4]. unfold active_devices. rewrite merge_sort_Permutation.
  eapply sublist_NoDup; [|apply fmap_sublist, sublist_filter]. by apply NoDup_values.
Qed.

Section devices.
Context {R : Type} {RD : Redis R} {EX : Ext} {EL : ExtLaws}.
Implicit Types w : World R.

Definition reg (w : World R) : Registry := registry (user_devices (db w)).

(** C17: The device registry refines a map from tokens to an owner and an active
    flag: registering hands a token to the caller and activates it, whoever had
    it before; unregistering turns it off only for its owner; pruning turns off
    the named tokens; deleting users forgets theirs; nothing else changes. *)
Theorem device_registry_refines w (uid : uuid) (tok p : string) (name : option string) (toks : list string) (uids : list uuid) :
  devices_wf (users (db w)) (user_devices (db w)) -> user_devices (db w) !! uuid7 (drawn w) = None ->
  (forall r w', DeviceDAO.register_device uid tok p name w = (Ok r, w') ->
     reg w' = reg_register uid tok (reg w) /\ dv_user_id r = uid /\ dv_fcm_token r = tok /\ dv_is_active r = true) /\
  (forall u w', DeviceDAO.unregister_device uid tok w = (Ok u, w') -> reg w' = reg_unregister uid tok (reg w)) /\
  (forall u w', DeviceDAO.deactivate_tokens toks w = (Ok u, w') -> reg w' = reg_prune toks (reg w)) /\
  (forall l w', delete_users uids w = (Ok l, w') -> reg w' = reg_forget uids (reg w)) /\
  (forall l, fst (DeviceDAO.get_active_devices_by_user uid w) = Ok l ->
     replica w = None -> forall t, t ∈ dv_fcm_token <$> l <-> reg w !! t = Some (uid, true)).
Proof.
  intros Hwf Hid. unfold reg. split; [|split; [|split; [|split]]].
  - intros r w' H. unfold DeviceDAO.register_device, bind, draw, gets, db_write in H. simpl in H.
    destruct (upsert_device _ _ _ _ _ _ _) as [[r' t']|e] eqn:E; [|done]. injection H as <- <-. cbn.
    split; [eapply upsert_registry; [done|done|by left]|].
    unfold upsert_device in E. destruct (negb _); [done|]. destruct (bool_decide _); [done|].
    injection E as <- _. destruct (device_of_token tok (db w)) as [o|] eqn:Eo; [|done].
    by apply device_of_token_Some in Eo as (j & _ & Ht).
  - intros u w' H. unfold DeviceDAO.unregister_device, bind, gets, db_write in H. simpl in H. injection H as _ <-.
    cbn [db set_db]. unfold reg_unregister. rewrite alter_imap.
    rewrite (deactivate_registry _ _ _ tt _ (fun t o => String.eqb o uid && String.eqb t tok) Hwf eq_refl) by done.
    apply map_imap_ext. intros t. destruct (_ !! t) as [[o a]|]; [|done]. cbn.
    by destruct (String.eqb o uid), (String.eqb t tok); rewrite ?andb_true_r.
  - intros u w' H. unfold DeviceDAO.deactivate_tokens in H. destruct toks as [|t0 toks].
    { injection H as _ <-. unfold reg_prune. apply map_eq. intros t. rewrite map_lookup_imap.
      destruct (registry _ !! t) as [[o a]|]; [|done]. cbn. by rewrite andb_true_r. }
    unfold bind, gets, db_write in H. simpl in H. injection H as _ <-. cbn [db set_db].
    exact (deactivate_registry _ _ _ tt _ (fun t _ => mem t (t0 :: toks)) Hwf eq_refl (fun _ => eq_refl)).
  - intros l w' H. unfold delete_users in H. destruct uids as [|u us].
    { injection H as _ <-. unfold reg_forget. symmetry. apply map_filter_id. intros t [o a] _. apply not_elem_of_nil. }
    run_inv. unfold db_write_on_read_pool, db_write in H. destruct (replica w); [done|].
    destruct (delete_users_rows _ _) as [[a t']|e] eqn:E in H; [|done]. injection H as _ <-.
    by eapply delete_users_registry.
  - intros l H Hr t. injection H as <-. unfold read_view. rewrite Hr. cbn.
    rewrite <- list_fmap_compose. by apply (active_devices_spec (users (db w))).
Qed.
End devices.

(** ** Server-sent events *)

(** The client: the processing of an event stream (HTML standard, 9.2.6), for
    streams whose lines end with LF.  A blank line dispatches the event when it
    has data; a line that starts with a colon is a comment; one space after the
    colon of a field is dropped. *)
Fixpoint cut_colon (s : string) : string * string :=
  match s with
  | EmptyString => (EmptyString, EmptyString)
  | String c s' => if Ascii.eqb c ":" then (EmptyString, match s' with String " " v => v | _ => s' end)
                   else let '(f, v) := cut_colon s' in (String c f, v)
  end.

(** One line, with event type [ty] and data buffer [buf]; [k] goes on. *)
Definition client_line (line ty buf : string) (k : string -> string -> list (string * string)) : list (string * string) :=
  if String.eqb line "" then
    match buf with
    | EmptyString => k "" ""
    | _ => (if String.eqb ty "" then "message" else ty, String.substring 0 (String.length buf - 1) buf) :: k "" ""
    end
  else if startswith line ":" then k ty buf
  else
    let '(field, value) := cut_colon line in
    if String.eqb field "event" then k value buf
    else if String.eqb field "data" then k ty (buf +:+ value +:+ LF1)
    else k ty buf.

(** The last line is not complete. *)
Fixpoint client_lines (lines : list string) (ty buf : string) : list (string * string) :=
  match lines with
  | [] | [_] => []
  | line :: rest => client_line line ty buf (client_lines rest)
  end.

Definition client_reads (stream : string) : list (string * string) :=
  client_lines (split_on LF stream) "" "".

Definition concat_frames (frames : list string) : string := String.concat "" frames.

Lemma concat_frames_cons f frames : concat_frames (f :: frames) = f +:+ concat_frames frames.
Proof. destruct frames; [by rewrite string_app_nil|done]. Qed.

Lemma one_line_lf s : one_line s -> all_chars (fun c => negb (Ascii.eqb c LF)) s = true.
Proof. apply all_chars_impl. by intros c [Hc _]%andb_prop. Qed.

Lemma split_on_cons_aux sep s cur : exists x l, split_on_aux sep s cur = x :: l.
Proof.
  revert cur. induction s as [|c s IH]; intros cur; simpl; [eauto|]. case_match; eauto.
Qed.

(** A line before the rest of the stream. *)
Lemma client_lines_cons line rest ty buf :
  all_chars (fun c => negb (Ascii.eqb c LF)) line = true ->
  client_lines (split_on LF (line +:+ String LF rest)) ty buf =
  client_line line ty buf (client_lines (split_on LF rest)).
Proof.
  intros Hl. unfold split_on. rewrite split_on_clean by done.
  by destruct (split_on_cons_aux LF rest "") as (x & l & ->).
Qed.

Lemma client_lines_blank rest ty buf :
  client_lines (split_on LF (String LF rest)) ty buf = client_line "" ty buf (client_lines (split_on LF rest)).
Proof. by apply (client_lines_cons ""). Qed.

Lemma buffer_out d : String.substring 0 (String.length (d +:+ LF1) - 1) (d +:+ LF1) = d.
Proof.
  rewrite string_length_app. change (String.length LF1) with 1%nat. rewrite Nat.add_sub.
  induction d as [|c d IH]; [done|]. change (String c (String.substring 0 (String.length d) (d +:+ LF1)) = String c d).
  by rewrite IH.
Qed.

Lemma event_frame_lines d rest :
  event_frame d +:+ rest =
  "event: notification" +:+ String LF (("data: " +:+ d) +:+ String LF ("" +:+ String LF rest)).
Proof. unfold event_frame, LF1. by rewrite <- !string_app_assoc. Qed.

Lemma client_event d rest :
  one_line d -> client_reads (event_frame d +:+ rest) = ("notification", d) :: client_reads rest.
Proof.
  intros Hd%one_line_lf. unfold client_reads. rewrite event_frame_lines.
  rewrite client_lines_cons by reflexivity. change (client_line "event: notification" "" "") with
    (fun k : string -> string -> list (string * string) => k "notification" ""). cbv beta.
  rewrite client_lines_cons by exact Hd. change (client_line ("data: " +:+ d) "notification" "") with
    (fun k : string -> string -> list (string * string) => k "notification" (d +:+ LF1)). cbv beta.
  rewrite (client_lines_blank rest). unfold client_line. cbn [String.eqb].
  pose proof (buffer_out d) as Hb. destruct (d +:+ LF1) as [|c s] eqn:E; [by destruct d|].
  by rewrite Hb.
Qed.

Lemma client_ping rest : client_reads (ping_frame +:+ rest) = client_reads rest.
Proof.
  unfold client_reads. change (ping_frame +:+ rest) with (": ping" +:+ String LF ("" +:+ String LF rest)).
  rewrite client_lines_cons by reflexivity. change (client_line ": ping" "" "") with
    (fun k : string -> string -> list (string * string) => k "" ""). cbv beta.
  by rewrite (client_lines_blank rest).
Qed.

(** The messages of a log for some channels. *)
Definition messages_for (chs : list string) (log : list (string * string)) : list string :=
  snd <$> filter (fun m => fst m ∈ chs) log.

Lemma next_message_spec chs log pos d n :
  next_message chs pos log = Some (d, n) ->
  (pos < n)%nat /\ (n <= pos + length log)%nat /\ messages_for chs (take (n - pos) log) = [d] /\
  exists c, (c, d) ∈ log /\ c ∈ chs.
Proof.
  revert pos. induction log as [|[c x] log IH]; intros pos; simpl; [done|]. destruct (mem c chs) eqn:Ec.
  - intros [= <- <-]. apply mem_true in Ec. split; [lia|]. split; [lia|].
    replace (S pos - pos)%nat with 1%nat by lia. unfold messages_for. cbn.
    rewrite decide_True by done. split; [done|]. exists c. split; [left|done].
  - intros (H1 & H2 & H3 & c' & Hin & Hc)%IH. apply mem_false in Ec. split; [lia|]. split; [lia|].
    split; [|exists c'; split; [by right|done]].
    replace (n - pos)%nat with (S (n - S pos)) by lia. unfold messages_for in *. cbn.
    by rewrite decide_False by done.
Qed.

Lemma next_message_none chs log pos : next_message chs pos log = None -> messages_for chs log = [].
Proof.
  revert pos. induction log as [|[c x] log IH]; intros pos; simpl; [done|]. destruct (mem c chs) eqn:Ec; [done|].
  intros H%IH. apply mem_false in Ec. unfold messages_for in *. cbn. by rewrite decide_False.
Qed.

Lemma messages_for_app chs l l' : messages_for chs (l ++ l') = messages_for chs l ++ messages_for chs l'.
Proof. unfold messages_for. by rewrite filter_app, fmap_app. Qed.

Lemma messages_from chs l more p n k :
  (p <= n)%nat -> (n <= length l)%nat ->
  messages_for chs (take (n - p + k) (drop p (l ++ more))) =
  messages_for chs (take (n - p) (drop p l)) ++ messages_for chs (take k (drop n (l ++ more))).
Proof.
  intros Hp Hn. rewrite <- messages_for_app. f_equal.
  rewrite <- (take_drop (n - p) (take _ (drop p (l ++ more)))), take_take, Nat.min_l by lia. f_equal.
  - rewrite drop_app_le by lia. rewrite take_app_le; [done|]. rewrite length_drop. lia.
  - rewrite skipn_firstn_comm, drop_drop. f_equal; [lia|]. f_equal. lia.
Qed.

Section stream_lemmas.
Context {R : Type} {RD : Redis R} {EX : Ext}.
Implicit Types (w : World R) (s : Subscription).

(** The other requests only add to the log of messages. *)
Definition only_publishes (t : Turn R) : Prop :=
  match t with Meanwhile f => forall w, published w `prefix_of` published (f w) | _ => True end.

(** What a client has read when the stream has come to position [n]. *)
Definition client_has (chs : list string) (from n : nat) (log : list (string * string)) (frames : list string) : Prop :=
  (n <= length log - from)%nat /\
  client_reads (concat_frames frames) = (fun d => ("notification", d)) <$> messages_for chs (take n (drop from log)).

Lemma redis_command_gets_inv {A} (f : World R -> A) w o w' :
  (forall l, f (set_faults l w) = f w) -> redis_command (gets f : PyM (R := R) A) w = (o, w') ->
  published w' = published w /\ (o = Err RedisError \/ o = Ok (f w)).
Proof.
  intros Hf. unfold redis_command. destruct (faults w) as [|[] l]; intros [= <- <-]; cbn; rewrite ?Hf; auto.
Qed.

Lemma close_stream_published e w : published (snd (close_stream e w)) = published w.
Proof. unfold close_stream, redis_command. by destruct (faults w) as [|[] l]. Qed.

Lemma stream_loop_reads turns s w frames e w' :
  stream_loop s turns w = (frames, (e, w')) -> Forall only_publishes turns ->
  (sub_next s <= length (published w))%nat ->
  (forall c d, (c, d) ∈ published w' -> c ∈ sub_channels s -> one_line d) ->
  published w `prefix_of` published w' /\
  exists n, client_has (sub_channels s) (sub_next s) n (published w') frames /\
    forall s', e = Open s' -> s' = {| sub_channels := sub_channels s; sub_next := sub_next s + n |}.
Proof.
  revert s w frames. induction turns as [|t turns IH]; intros s w frames H Ht Hs Hl.
  - injection H as <- <- <-. split; [done|]. exists 0%nat. split; [split; [lia|done]|].
    intros s' [= <-]. destruct s. by rewrite Nat.add_0_r.
  - apply Forall_cons in Ht as [Ht1 Ht]. destruct t as [f|ready| |]; cbn [stream_loop] in H.
    + destruct (IH _ _ _ H Ht) as [Hp (n & Hn & He)]; [|done|].
      { specialize (Ht1 w). apply prefix_length in Ht1. lia. }
      split; [exact (transitivity (Ht1 w) Hp)|]. by exists n.
    + destruct (redis_command _ w) as [[log|x] w1] eqn:E.
      2:{ apply redis_command_gets_inv in E as [Ep _]; [|done]. pose proof (close_stream_published (Broken x) w1) as Hc.
          injection H as <- H. rewrite H in Hc. cbn in Hc. split; [by rewrite Hc, Ep|]. exists 0%nat.
          split; [split; [lia|done]|]. intros s' ->. unfold close_stream in H. by repeat case_match. }
      apply redis_command_gets_inv in E as [Ep [?|[= ->]]]; [done| |done].
      destruct (if ready then _ else None) as [[d n]|] eqn:En.
      * destruct ready; [|done]. destruct (stream_loop _ turns w1) as [frames' [e' w2]] eqn:E2.
        injection H as <- -> ->. apply next_message_spec in En as (N1 & N2 & N3 & c & Hc & Hin).
        rewrite length_drop in N2. apply IH in E2 as [Hp (k & [Hk Hr] & He)]; [|done|cbn; rewrite Ep; lia|done].
        rewrite Ep in Hp. split; [done|]. exists (n - sub_next s + k)%nat. cbn [sub_channels sub_next] in *.
        pose proof (prefix_length _ _ Hp) as Hlen. split; [split; [lia|]|].
        -- rewrite concat_frames_cons, client_event, Hr.
           2:{ eapply Hl; [|done]. eapply elem_of_prefix; [|done]. by eapply elem_of_suffix, suffix_drop. }
           destruct Hp as [more ->]. rewrite messages_from, N3 by lia. done.
        -- intros s' ->. rewrite (He s' eq_refl). f_equal. lia.
      * destruct (stream_loop s turns w1) as [frames' [e' w2]] eqn:E2. injection H as <- -> ->.
        apply IH in E2 as [Hp (k & [Hk Hr] & He)]; [|done|by rewrite Ep|done]. rewrite Ep in Hp.
        split; [done|]. exists k. split; [split; [done|]|done]. by rewrite concat_frames_cons, client_ping.
    + pose proof (close_stream_published Closed w) as Hc. injection H as <- H. rewrite H in Hc. cbn in Hc.
      split; [by rewrite Hc|]. exists 0%nat. split; [split; [lia|done]|]. intros s' ->.
      unfold close_stream in H. by repeat case_match.
    + pose proof (close_stream_published Closed w) as Hc. injection H as <- H. rewrite H in Hc. cbn in Hc.
      split; [by rewrite Hc|]. exists 0%nat. split; [split; [lia|done]|]. intros s' ->.
      unfold close_stream in H. by repeat case_match.
Qed.

(** A connection that works hands over what is there, one message a turn. *)
Lemma stream_drains k s w :
  faults w = [] -> (length (messages_for (sub_channels s) (drop (sub_next s) (published w))) <= k)%nat ->
  exists frames n, stream_loop s (replicate k (Poll true)) w =
      (frames, (Open {| sub_channels := sub_channels s; sub_next := n |}, w)) /\
    (sub_next s <= n)%nat /\ messages_for (sub_channels s) (drop n (published w)) = [].
Proof.
  intros Hf. revert s. induction k as [|k IH]; intros s Hk.
  - exists [], (sub_next s). split; [by destruct s|]. split; [done|]. by apply length_zero_iff_nil, Nat.le_0_r.
  - cbn [replicate stream_loop]. unfold redis_command. rewrite Hf. cbn [gets].
    destruct (next_message _ _ _) as [[d n]|] eqn:En.
    + pose proof (next_message_spec _ _ _ _ _ En) as (N1 & N2 & N3 & _). rewrite length_drop in N2.
      destruct (IH {| sub_channels := sub_channels s; sub_next := n |}) as (frames & m & -> & Hn & Hm).
      { cbn [sub_channels sub_next]. rewrite <- (take_drop (n - sub_next s) (drop _ (published w))) in Hk.
        rewrite messages_for_app, N3, drop_drop in Hk. cbn in Hk.
        replace (sub_next s + (n - sub_next s))%nat with n in Hk by lia. lia. }
      cbn [sub_channels sub_next] in *. exists (event_frame d :: frames), m. split; [done|]. split; [lia|done].
    + destruct (IH s) as (frames & m & -> & Hn & Hm); [by rewrite (next_message_none _ _ _ En); cbn; lia|].
      by exists (ping_frame :: frames), m.
Qed.

Lemma stream_loop_app ts ts' s w frames s' w' :
  stream_loop s ts w = (frames, (Open s', w')) ->
  stream_loop s (ts ++ ts') w = (frames ++ fst (stream_loop s' ts' w'), snd (stream_loop s' ts' w')).
Proof.
  revert s w frames. induction ts as [|t ts IH]; intros s w frames H.
  - injection H as <- <- <-. cbn [app]. by destruct (stream_loop s ts' w).
  - destruct t as [f|ready| |]; cbn [stream_loop app] in *.
    + by apply IH.
    + destruct (redis_command _ w) as [[log|x] w1].
      2:{ unfold close_stream in H. by repeat case_match. }
      destruct (if ready then _ else None) as [[d n]|].
      all: destruct (stream_loop _ ts w1) as [frames' [e' w2]] eqn:E2; injection H as <- -> ->;
        by rewrite (IH _ _ _ E2).
    + unfold close_stream in H. by repeat case_match.
    + unfold close_stream in H. by repeat case_match.
Qed.
End stream_lemmas.

Section stream.
Context {R : Type} {RD : Redis R} {EX : Ext} {NX : NotifyExt} {NL : NotifyLaws}.
Implicit Types (w : World R).

(** C18: What a browser reads from the stream by the rules of server-sent events,
    however the generator's turns, the keep-alive comments and other requests
    interleave and however the stream ends, is a prefix of the notifications
    published to the user or to everybody since it subscribed, each once and in
    order; and a connection that works delivers all of them in as many turns as
    there are messages. *)
Theorem stream_delivers_notifications uid turns w frames e w' :
  stream_sse uid turns w = (frames, (e, w')) -> Forall only_publishes turns ->
  (forall c d, (c, d) ∈ published w' -> c ∈ stream_channels uid -> exists n, json_ok (notification_json n) /\ d = model_dump_json n) ->
  let log := drop (length (published w)) (published w') in
  let reads f := client_reads (concat_frames f) in
  (exists n, reads frames = (fun d => ("notification", d)) <$> messages_for (stream_channels uid) (take n log)) /\
  forall s, e = Open s -> faults w' = [] -> forall k, (length (messages_for (stream_channels uid) log) <= k)%nat ->
    exists frames' s', stream_sse uid (turns ++ replicate k (Poll true)) w = (frames', (Open s', w')) /\
      reads frames' = (fun d => ("notification", d)) <$> messages_for (stream_channels uid) log.
Proof.
  intros H Ht Hm log reads.
  assert (forall c d, (c, d) ∈ published w' -> c ∈ stream_channels uid -> one_line d) as Hl.
  { intros c d Hin Hc. destruct (Hm c d Hin Hc) as (n & Hn & ->). by apply dump_one_line. }
  unfold stream_sse in H |- *. destruct (redis_command _ w) as [[n|x] w1] eqn:E.
  2:{ injection H as <- <- <-. split; [exists 0%nat; done|done]. }
  apply redis_command_gets_inv in E as [Ep [?|[= ->]]]; [done| |done].
  destruct (stream_loop_reads _ _ _ _ _ _ H Ht) as [Hp (n & [Hn Hr] & He)]; [cbn; by rewrite Ep|done|].
  cbn [sub_channels sub_next] in *. split; [by exists n|].
  intros s -> Hf k Hk. specialize (He s eq_refl). subst s.
  rewrite Ep in Hp. pose proof (prefix_length _ _ Hp) as Hlen.
  destruct (stream_drains k {| sub_channels := stream_channels uid; sub_next := length (published w) + n |} w' Hf)
    as (more & m & Hd & Hnm & Hrest); cbn [sub_channels sub_next] in *.
  { etrans; [|exact Hk]. rewrite <- (take_drop n log), messages_for_app, length_app. unfold log. rewrite drop_drop. lia. }
  pose proof (stream_loop_app _ (replicate k (Poll true)) _ _ _ _ _ H) as Ha. rewrite Hd in Ha. cbn [fst snd] in Ha.
  exists (frames ++ more), {| sub_channels := stream_channels uid; sub_next := m |}. split; [exact Ha|].
  apply stream_loop_reads in Ha as [_ (n' & [Hn' Hr'] & He')]; cbn [sub_channels sub_next] in *;
    [|by apply Forall_app; split; [|apply Forall_replicate]|by rewrite Ep|done].
  unfold reads. rewrite Hr'. specialize (He' _ eq_refl). injection He' as ->.
  rewrite <- (take_drop n' log), messages_for_app. unfold log at 2. rewrite drop_drop, Hrest. by rewrite app_nil_r.
Qed.
End stream.

(** ** Channels *)

(** What gets through of a list of attempts, when the failures to come are [bf]. *)
Fixpoint delivered {A} (bf : list bool) (l : list A) : list A :=
  match l with
  | [] => []
  | x :: l' => match bf with
               | true :: bf' => delivered bf' l'
               | false :: bf' => x :: delivered bf' l'
               | [] => x :: delivered [] l'
               end
  end.

Lemma delivered_app {A} bf (l l' : list A) : delivered bf (l ++ l') = delivered bf l ++ delivered (drop (length l) bf) l'.
Proof. revert bf. induction l as [|x l IH]; intros [|[] bf]; cbn; rewrite ?IH, ?drop_nil; done. Qed.

Lemma delivered_all {A} (l : list A) : delivered [] l = l.
Proof. induction l as [|x l IH]; cbn; by rewrite ?IH. Qed.

Section channels.
Context {R : Type} {RD : Redis R} {EX : Ext} {NX : NotifyExt}.
Implicit Types w : World R.

Definition call (name : string) (kwargs : list (string * Json)) : CeleryTask :=
  {| ct_name := name; ct_args := JList []; ct_kwargs := JObj kwargs; ct_queue := None |}.

(** What each channel has to send for a notification to a user. *)
Definition mail_tasks (t0 : Z) (n : NotificationSchema) : list CeleryTask :=
  if falsy (meta "email" JNull n) then []
  else match render_template (nt_template_path n) (email_context t0 n) with
       | Ok html => [call "send_email_worker_task" (email_task_kwargs n html)]
       | Err _ => []
       end.

Definition push_tasks (t : Tables) (uid : uuid) (n : NotificationSchema) : list CeleryTask :=
  match ud_fcm_token <$> active_devices uid t with
  | [] => []
  | toks => [call "send_fcm_push_worker_task" (push_kwargs toks n)]
  end.

Definition channel_tasks (w : World R) (uid : uuid) (n : NotificationSchema) (name : string) : list CeleryTask :=
  if String.eqb name EMAIL then mail_tasks (now w) n
  else if String.eqb name FCM then push_tasks (read_view w) uid n else [].

Definition channel_messages (uid : uuid) (n : NotificationSchema) (name : string) : list (string * string) :=
  if String.eqb name SSE then [(NOTIFICATION_USER_CHANNEL uid, model_dump_json n)] else [].

(** The run of a computation that only sends and publishes. *)
Record sends (w w' : World R) (tasks : list CeleryTask) (msgs : list (string * string)) : Prop := {
  sends_sent : sent w' = sent w ++ delivered (broker_faults w) tasks;
  sends_published : published w' = published w ++ delivered (faults w) msgs;
  sends_broker : broker_faults w' = drop (length tasks) (broker_faults w);
  sends_faults : faults w' = drop (length msgs) (faults w);
  sends_db : db w' = db w /\ replica w' = replica w /\ now w' = now w /\ drawn w' = drawn w /\
    redis w' = redis w /\ stream w' = stream w;
}.

Lemma sends_nothing w : sends w w [] [].
Proof. split; cbn; rewrite ?app_nil_r, ?drop_0; done. Qed.

Lemma sends_trans w w1 w2 ts ts' ms ms' :
  sends w w1 ts ms -> sends w1 w2 ts' ms' -> sends w w2 (ts ++ ts') (ms ++ ms').
Proof.
  intros [A1 A2 A3 A4 A5] [B1 B2 B3 B4 B5]. split.
  - by rewrite B1, A1, A3, delivered_app, app_assoc.
  - by rewrite B2, A2, A4, delivered_app, app_assoc.
  - by rewrite B3, A3, length_app, drop_drop.
  - by rewrite B4, A4, length_app, drop_drop.
  - destruct A5 as (? & ? & ? & ? & ? & ?), B5 as (? & ? & ? & ? & ? & ?). repeat split; congruence.
Qed.

Lemma delay_sends name kwargs w : sends w (snd (delay name kwargs w)) [call name kwargs] [].
Proof.
  unfold delay, send_task. cbn [sendable ct_args ct_kwargs andb].
  destruct (broker_faults w) as [|[] l] eqn:E; split; cbn; rewrite ?E; cbn; rewrite ?app_nil_r, ?drop_0; done.
Qed.

Lemma publish_sends c m w : sends w (snd (redis_publish c m w)) [] [(c, m)].
Proof.
  unfold redis_publish, redis_command, modify.
  destruct (faults w) as [|[] l] eqn:E; split; cbn; rewrite ?E; cbn; rewrite ?app_nil_r, ?drop_0; done.
Qed.

Lemma channel_named_eq name :
  NotificationService.channel_named (R := R) NotificationService.channels name =
  if String.eqb name "sse" then Some sse_channel
  else if String.eqb name "email" then Some email_channel
  else if String.eqb name "fcm" then Some fcm_channel else None.
Proof. by rewrite (String.eqb_sym name "sse"), (String.eqb_sym name "email"), (String.eqb_sym name "fcm"). Qed.

Lemma channel_sends uid n name c w :
  NotificationService.channel_named NotificationService.channels name = Some c ->
  sends w (snd (channel_send c uid n w)) (channel_tasks w uid n name) (channel_messages uid n name).
Proof.
  rewrite channel_named_eq. unfold channel_tasks, channel_messages, SSE, EMAIL, FCM.
  destruct (String.eqb_spec name "sse") as [->|_]; [intros [= <-]; apply publish_sends|].
  destruct (String.eqb_spec name "email") as [->|_].
  { intros [= <-]. cbn [channel_send email_channel]. unfold mail_tasks.
    destruct (falsy _); [apply sends_nothing|]. unfold _render_template, bind, gets, lift.
    destruct (render_template _ _); [apply delay_sends|apply sends_nothing]. }
  destruct (String.eqb_spec name "fcm") as [->|_]; [|done].
  intros [= <-]. cbn [channel_send fcm_channel]. unfold push_tasks, DeviceDAO.get_active_devices_by_user, db_read, bind, gets.
  destruct (active_devices uid (read_view w)) as [|d ds]; [apply sends_nothing|].
  rewrite fmap_cons. cbn [fmap list_fmap map]. rewrite <- list_fmap_compose. apply delay_sends.
Qed.

Lemma unknown_channel uid n name w :
  NotificationService.channel_named (R := R) NotificationService.channels name = None ->
  channel_tasks w uid n name = [] /\ channel_messages uid n name = [].
Proof.
  rewrite channel_named_eq. unfold channel_tasks, channel_messages, SSE, EMAIL, FCM.
  by destruct (String.eqb name "sse"), (String.eqb name "email"), (String.eqb name "fcm").
Qed.

Lemma channel_tasks_view w w' uid n name :
  replica w' = replica w -> db w' = db w -> now w' = now w ->
  channel_tasks w' uid n name = channel_tasks w uid n name.
Proof. intros Hr Hd Hn. unfold channel_tasks, read_view. by rewrite Hr, Hd, Hn. Qed.

Lemma notify_sends uid n names w : exists w',
  NotificationService.notify uid n (Some names) w = (Ok tt, w') /\
  sends w w' (names ≫= channel_tasks w uid n) (names ≫= channel_messages uid n).
Proof.
  unfold NotificationService.notify. cbn [NotificationService.target_channels].
  revert w. induction names as [|name names IH]; intros w.
  { exists w. split; [done|]. apply sends_nothing. }
  cbn [omap list_omap]. destruct (NotificationService.channel_named _ name) as [c|] eqn:Ec.
  - cbn [NotificationService.each_channel]. pose proof (channel_sends uid n name c w Ec) as Hs.
    unfold bind, try_catch. destruct (channel_send c uid n w) as [o w1]. cbn [snd] in Hs.
    destruct (IH w1) as (w' & Hw & Hs'). exists w'. split; [by destruct o|].
    cbn [mbind list_bind]. pose proof (sends_db _ _ _ _ Hs) as (H1 & H2 & H3 & _).
    eapply sends_trans; [exact Hs|]. replace (names ≫= channel_tasks w uid n) with (names ≫= channel_tasks w1 uid n); [done|].
    apply list_bind_ext; [|done]. intros x. by apply channel_tasks_view.
  - destruct (IH w) as (w' & Hw & Hs'). exists w'. split; [exact Hw|]. cbn [mbind list_bind].
    by destruct (unknown_channel uid n name w Ec) as [-> ->].
Qed.

(** A notification always returns, and each of its channels gets its due
    whatever the others do: the message to the user's stream unless Redis refuses
    it, an e-mail task when there is an address and the template renders, a push
    task for the active devices when there are any, each unless the broker
    refuses it, in the order of the channels and with nothing else sent. *)
Theorem channels_are_isolated uid n names w : exists w',
  NotificationService.notify uid n (Some names) w = (Ok tt, w') /\
  sent w' = sent w ++ delivered (broker_faults w) (names ≫= channel_tasks w uid n) /\
  published w' = published w ++ delivered (faults w) (names ≫= channel_messages uid n) /\
  db w' = db w.
Proof.
  destruct (notify_sends uid n names w) as (w' & Hw & Hs). exists w'. split; [done|].
  split; [apply Hs|]. split; [apply Hs|]. apply (sends_db _ _ _ _ Hs).
Qed.
End channels.

(** ** Push workers *)

Lemma dead_tokens_zip toks pre rs :
  length rs = length toks ->
  dead_tokens (pre ++ toks) (length pre) rs = Ok (fst <$> filter (fun p => dead_response (snd p) = true) (zip toks rs)).
Proof.
  revert pre rs. induction toks as [|t toks IH]; intros pre [|r rs]; [done|done|done|]. intros [= Hl]. cbn [dead_tokens zip zip_with].
  specialize (IH (pre ++ [t]) rs Hl). rewrite <- app_assoc, length_app, Nat.add_1_r in IH. cbn in IH.
  rewrite filter_cons. cbn [snd]. destruct (dead_response r) eqn:Er.
  - rewrite decide_True by done. rewrite lookup_app_r, Nat.sub_diag by lia. cbn. by rewrite IH.
  - by rewrite decide_False by done.
Qed.

Section workers.
Context {R : Type} {RD : Redis R} {EX : Ext} {PC : PushClient}.
Implicit Types w : World R.

(** The tokens Firebase answered for with a code that the worker takes for dead. *)
Definition reported_dead (toks : list string) (rs : list SendResponse) : list string :=
  fst <$> filter (fun p => dead_response (snd p) = true) (zip toks rs).

Lemma prune_nothing (r : Registry) : reg_prune [] r = r.
Proof.
  apply map_eq. intros t. unfold reg_prune. rewrite map_lookup_imap.
  destruct (r !! t) as [[o a]|]; [|done]. cbn. by rewrite andb_true_r.
Qed.

Lemma deactivate_tokens_reg toks w :
  devices_wf (users (db w)) (user_devices (db w)) -> exists w',
  DeviceDAO.deactivate_tokens toks w = (Ok tt, w') /\ reg w' = reg_prune toks (reg w) /\ sent w' = sent w.
Proof.
  intros Hwf. unfold DeviceDAO.deactivate_tokens. destruct toks as [|t toks].
  - exists w. by rewrite prune_nothing.
  - eexists. split; [reflexivity|]. split; [|done].
    exact (deactivate_registry _ _ _ tt _ (fun x _ => mem x (t :: toks)) Hwf eq_refl (fun _ => eq_refl)).
Qed.

Lemma push_prunes so toks title body data w rs :
  firebase_app = true -> toks <> [] -> devices_wf (users (db w)) (user_devices (db w)) ->
  send_each_for_multicast toks (default "New Notification" (or_opt title None)) body (str_data so data) = Ok rs ->
  length rs = length toks -> exists w',
  send_fcm_push_worker_task so toks title body data w = (Ok tt, w') /\
  reg w' = reg_prune (reported_dead toks rs) (reg w).
Proof.
  intros Ha Hne Hwf Hs Hl. unfold send_fcm_push_worker_task. destruct toks as [|t toks]; [done|]. rewrite Ha. cbn [negb].
  unfold bind, lift. rewrite Hs. pose proof (dead_tokens_zip (t :: toks) [] rs Hl) as Hd. cbn [app length] in Hd.
  rewrite Hd. unfold reported_dead, _deactivate_tokens.
  destruct (deactivate_tokens_reg (fst <$> filter (fun p => dead_response (snd p) = true) (zip (t :: toks) rs)) w Hwf)
    as (w' & Hw & Hr & _).
  destruct (fst <$> filter _ _) as [|x l]; [|by exists w'].
  exists w. split; [done|]. by rewrite prune_nothing.
Qed.

(** When Firebase answers a push, the worker turns off exactly the devices of
    the tokens answered for with NOT_FOUND, UNREGISTERED or INVALID_ARGUMENT, and
    leaves every other device as it is; when Firebase cannot be reached or refuses
    the message, the task fails and no device changes. *)
Theorem push_prunes_exactly_dead_tokens so toks title body data w :
  firebase_app = true -> toks <> [] -> devices_wf (users (db w)) (user_devices (db w)) ->
  match send_each_for_multicast toks (default "New Notification" (or_opt title None)) body (str_data so data) with
  | Ok rs => length rs = length toks -> exists w',
      send_fcm_push_worker_task so toks title body data w = (Ok tt, w') /\
      forall t, reg w' !! t = (fun '(o, a) => (o, a && negb (mem t (reported_dead toks rs)))) <$> reg w !! t
  | Err e => send_fcm_push_worker_task so toks title body data w = (Err e, w)
  end.
Proof.
  intros Ha Hne Hwf. destruct (send_each_for_multicast _ _ _ _) as [rs|e] eqn:Es.
  - intros Hl. destruct (push_prunes so toks title body data w rs Ha Hne Hwf Es Hl) as (w' & Hw & Hr).
    exists w'. split; [done|]. intros t. rewrite Hr. unfold reg_prune. rewrite map_lookup_imap.
    by destruct (reg w !! t) as [[o a]|].
  - unfold send_fcm_push_worker_task. destruct toks; [done|]. rewrite Ha. cbn [negb]. unfold bind, lift. by rewrite Es.
Qed.

(** A message that Firebase refuses as invalid for every token turns every
    device of the push off, live or not. *)
Theorem invalid_message_turns_devices_off so toks title body data w w' rs :
  firebase_app = true -> toks <> [] -> devices_wf (users (db w)) (user_devices (db w)) ->
  send_each_for_multicast toks (default "New Notification" (or_opt title None)) body (str_data so data) = Ok rs ->
  rs = replicate (length toks) {| sr_success := false; sr_code := Some "INVALID_ARGUMENT" |} ->
  send_fcm_push_worker_task so toks title body data w = (Ok tt, w') ->
  reg w' = reg_prune toks (reg w).
Proof.
  intros Ha Hne Hwf Es -> Hw.
  destruct (push_prunes so toks title body data w _ Ha Hne Hwf Es) as (w1 & Hw1 & Hr); [apply length_replicate|].
  rewrite Hw in Hw1. injection Hw1 as <-. rewrite Hr. f_equal. unfold reported_dead. clear.
  induction toks as [|t toks IH]; [done|]. cbn [length replicate zip zip_with].
  rewrite filter_cons, decide_True by done. rewrite fmap_cons. by f_equal.
Qed.

(** A broadcast to more active devices than a multicast message may name is one
    task, and that task fails: no device gets it. *)
Theorem large_broadcast_reaches_nobody {NX : NotifyExt} so n w :
  (forall toks title body data, (500 < length toks)%nat ->
     send_each_for_multicast toks title body data = Err (ValueErr "tokens must not contain more than 500 tokens")) ->
  firebase_app = true -> (500 < length (active_tokens (read_view w)))%nat -> broker_faults w = [] ->
  let toks := active_tokens (read_view w) in
  channel_broadcast fcm_channel n w = (Ok tt, add_sent (call "send_fcm_push_worker_task" (push_kwargs toks n)) w) /\
  forall w', send_fcm_push_worker_task so toks (nt_subject n) (nt_message n) (Some (nt_metadata n)) w' =
    (Err (ValueErr "tokens must not contain more than 500 tokens"), w').
Proof.
  intros Hlim Ha Hlen Hb toks. split.
  - cbn [channel_broadcast fcm_channel]. unfold DeviceDAO.get_all_active_tokens, db_read, bind, gets. fold toks in Hlen |- *.
    destruct toks as [|t l] eqn:E; [cbn in Hlen; lia|]. unfold delay, send_task. cbn [sendable ct_args ct_kwargs andb].
    by rewrite Hb.
  - intros w'. unfold send_fcm_push_worker_task. fold toks in Hlen. destruct toks as [|t l] eqn:E; [cbn in Hlen; lia|].
    rewrite Ha. cbn [negb]. unfold bind, lift. by rewrite Hlim.
Qed.
End workers.

(** ** From an event to its notifications *)

Section alerts.
Context {R : Type} {RD : Redis R} {RL : RedisLaws R} {EX : Ext} {ST : Settings} {NX : NotifyExt}.
Implicit Types w : World R.

Definition alert_subscribers : Subscribers := autodiscover notification_listeners ∅.

(** The alert on a changed password of a user. *)
Definition password_alert (u : User) : NotificationSchema :=
  {| nt_type := N_WARNING;
     nt_message := "Your password was successfully updated. If you did not make this change, please contact support immediately.";
     nt_subject := Some "Security Alert: Password Changed";
     nt_metadata := [("email", JStr (email u)); ("username", JStr (username u))];
     nt_template_path := "email/notification.html"; nt_action_url := Some FRONTEND_URL |}.

Lemma falsy_text s : s <> "" -> falsy (JStr s) = false.
Proof. by destruct s. Qed.

(** An event about a user, as the services publish it. *)
Lemma dispatch_run e u ty subject message path url names w :
  payload e = user_payload u -> parse_uuid (u_id (ud_user u)) = Some (u_id (ud_user u)) ->
  u_id (ud_user u) <> "" -> email (ud_user u) <> "" -> username (ud_user u) <> "" -> names <> [] ->
  dispatch_user_notification e ty subject message path url (Some names) w =
  NotificationService.notify (u_id (ud_user u))
    (NotificationService.notification message ty (Some subject)
       (Some [("email", JStr (email (ud_user u))); ("username", JStr (username (ud_user u)))]) (Some url) path)
    (Some names) w.
Proof.
  intros Hp Hu H1 H2 H3 Hn. unfold dispatch_user_notification, payload_get. rewrite Hp.
  cbn [user_payload fields_get String.eqb Ascii.eqb Bool.eqb default from_option id].
  rewrite !falsy_text by done. cbn [orb]. rewrite Hu. by destruct names.
Qed.

(** The user's row after [update_password], and the event. *)
Lemma update_password_event w u p w1 :
  keyed u_id (users (db w)) -> replica w = None -> faults w = [] -> users (db w) !! u_id u = Some u ->
  update_password (u_id u) p w = (Ok tt, w1) ->
  exists e d, stream w1 = stream w ++ [e] /\ event_name e = "user.password.changed" /\ payload e = user_payload d /\
    u_id (ud_user d) = u_id u /\ email (ud_user d) = email u /\ username (ud_user d) = username u /\
    faults w1 = [] /\ broker_faults w1 = broker_faults w /\ replica w1 = None.
Proof.
  intros Hk Hr Hf Hu. unfold update_password.
  rewrite (bind_ok _ _ _ _ _ (eq_refl : get_password_hash p w = _)).
  set (hp := bcrypt_hash _ p). set (w0 := set_drawn _ w).
  rewrite (bind_ok _ _ _ _ _ (eq_refl : update_password_row (u_id u) hp w0 = _)).
  match goal with |- bind _ _ ?x = _ -> _ => set (w2 := x) end.
  assert (users (read_view w2) = alter (with_password hp) (u_id u) (users (db w))) as Hus.
  { unfold read_view. cbn. by rewrite Hr. }
  assert (keyed u_id (users (read_view w2))) as Hk2.
  { rewrite Hus. intros k x [(<- & y & Hy & ->)|[_ Hx]]%lookup_alter_Some; [by apply (Hk _ y)|by apply Hk]. }
  rewrite (bind_ok _ _ _ _ _ (get_by_id_run (u_id u) w2 Hk2)).
  rewrite Hus, lookup_alter_eq, Hu. unfold publish, new_uuid4, draw, bind, gets, redis_command, ret.
  cbn. rewrite Hf. cbn. intros [= <-].
  eexists _, {| ud_user := with_password hp u; ud_roles := [] |}. by repeat (split; [reflexivity|]).
Qed.

(** After a password change, the listener that takes the published event
    tells the user on every channel he has, at his address: a message on his
    stream, an e-mail task if the template renders, a push task for his active
    devices. *)
Theorem password_change_is_announced w u p w1 :
  keyed u_id (users (db w)) -> replica w = None -> faults w = [] -> broker_faults w = [] ->
  users (db w) !! u_id u = Some u -> parse_uuid (u_id u) = Some (u_id u) ->
  u_id u <> "" -> email u <> "" -> username u <> "" ->
  update_password (u_id u) p w = (Ok tt, w1) ->
  exists e, stream w1 = stream w ++ [e] /\
    (r_get (now w1) (event_lock e) (redis w1) = None -> exists w2,
      _process_remote_event run_listener alert_subscribers e w1 = (Ok tt, w2) /\
      sent w2 = sent w1 ++ mail_tasks (now w1) (password_alert u) ++ push_tasks (db w1) (u_id u) (password_alert u) /\
      published w2 = published w1 ++ [(NOTIFICATION_USER_CHANNEL (u_id u), model_dump_json (password_alert u))]).
Proof.
  intros Hk Hr Hf Hb Hu Hp H1 H2 H3 H.
  destruct (update_password_event w u p w1 Hk Hr Hf Hu H) as (e & d & Hs & Hn & Hpay & Hi & He & Hun & Hf1 & Hb1 & Hr1).
  rewrite Hb in Hb1. exists e. split; [done|]. intros Hlock. unfold _process_remote_event. rewrite Hn.
  change (alert_subscribers !! "user.password.changed") with (Some [1%nat]). cbn [default from_option id].
  unfold redis_set_nx, redis_command, try_catch, bind at 1. rewrite Hf1, Hlock.
  set (w0 := set_redis _ w1). cbn [run_handlers run_listener]. unfold try_catch, bind at 1, on_password_changed.
  rewrite (dispatch_run e d) by (rewrite ?Hi, ?He, ?Hun; done). rewrite Hi, He, Hun.
  change (NotificationService.notification _ N_WARNING _ _ _ _) with (password_alert u).
  destruct (notify_sends (u_id u) (password_alert u) [EMAIL; SSE; FCM] w0) as (w2 & -> & Hsend). exists w2.
  assert (faults w0 = [] /\ broker_faults w0 = [] /\ read_view w0 = db w1) as (Hf0 & Hb0 & Hv0).
  { unfold w0, read_view. cbn. by rewrite Hf1, Hb1, Hr1. }
  split; [done|]. destruct Hsend as [S1 S2 _ _ _]. rewrite Hb0, delivered_all in S1. rewrite Hf0, delivered_all in S2.
  rewrite S1, S2. cbn [mbind list_bind]. unfold channel_tasks, channel_messages. rewrite Hv0. cbn. by rewrite app_nil_r.
Qed.
End alerts.

(** ** Opening a stream *)

Section opening.
Context {R : Type} {RD : Redis R} {EX : Ext} {ST : Settings}.
Implicit Types w : World R.

(** The stream's route takes an access token that has not expired and is not
    blacklisted, of a user who is active: the version in it is not compared, so a
    token the user has voided, which no other route takes, still opens it. *)
Theorem stream_opens_for_voided_token tok w c n i e j u :
  faults w = [] -> jwt_decode (now w) tok SECRET_KEY = Some c ->
  c_sub c = Some n -> c_id c = Some i -> c_exp c = Some e -> c_jti c = Some j -> c_type c = Some "access" ->
  r_get (now w) (blacklist_key ACCESS j) (redis w) = None -> keyed u_id (users (read_view w)) ->
  users (read_view w) !! i = Some u -> is_active u = true -> i <> "" ->
  default 1 (c_token_version c) <> token_version u ->
  sse_notifications tok w = (Ok (u_id u), w) /\ fst (get_current_user [] tok w) = Err credentials_exception.
Proof.
  intros Hf Hd H1 H2 H3 H4 H5 Hb Hk Hu Ha Hi Hv.
  pose proof (verify_token_run tok ACCESS w c n i e j Hf Hd H1 H2 H3 H4 H5) as Hver. rewrite Hb in Hver. split.
  - unfold sse_notifications. rewrite (bind_ok _ _ _ _ _ Hver). cbn [token_data_of t_id or_opt].
    assert (truthy i = true) as -> by (by destruct i).
    rewrite (bind_ok _ _ _ _ _ (get_by_id_run i w Hk)), Hu. cbn. by rewrite Ha.
  - rewrite (get_current_user_run [] tok w _ i Hver eq_refl Hk). cbn [forallb]. rewrite Hu. cbn [token_data_of t_token_version].
    by destruct (Z.eqb_spec (token_version u) (default 1 (c_token_version c))).
Qed.
End opening.

(** ** Witnesses *)

#[export] Instance concrete_notify : NotifyExt := {|
  parse_uuid := fun s => if String.prefix "u7-" s then Some s else None;
  model_dump_json := fun n => dumps_compact (notification_json n);
  render_template := fun path _ =>
    if String.prefix "email/" path then Ok ("<html>" +:+ path) else Err (OtherErr "TemplateNotFound");
  year_of := fun _ => 2025;
  PROJECT_NAME := "FastAPI Template";
  FRONTEND_URL := "https://example.org";
|}.

#[export] Instance concrete_notify_laws : NotifyLaws.
Proof.
  split; intros n Hn; cbn [model_dump_json concrete_notify].
  - eapply all_chars_impl; [|by apply dumps_printable; [..|exact Hn]].
    intros c Hc. unfold printable in Hc. apply andb_true_intro.
    split; apply negb_true_iff, Ascii.eqb_neq; intros ->; discriminate Hc.
  - by apply loads_dumps_compact.
Qed.

Definition phone : string := "token-of-the-phone".

(** Alice has registered her phone. *)
Definition phone_site : World MapRedis.t := snd (DeviceDAO.register_device alice_id phone "ios" (Some "Phone") site).

Lemma phone_site_holds (Q : Tables -> nat -> Prop) `{!TableInv Q, !SideInv Q} :
  Q seed_tables 0%nat -> holds Q None 1000 phone_site.
Proof. intros HQ. exact (keep_device_upsert Q None 1000 alice_id phone "ios" (Some "Phone") site (setup_keeps Q HQ)). Qed.

Lemma phone_site_devices : devices_wf (users (db phone_site)) (user_devices (db phone_site)).
Proof. apply side_devices, (phone_site_holds side_kept), seed_side_wf. Qed.

Lemma phone_site_keyed : keyed u_id (users (db phone_site)).
Proof. apply users_keyed, wf_users, (phone_site_holds wf_fresh), seed_wf. Qed.

(** Bob registers the same phone: it is his now. *)
Lemma device_registry_refines_witness : exists r w',
  DeviceDAO.register_device bob_id phone "ios" None phone_site = (Ok r, w') /\ reg w' !! phone = Some (bob_id, true) /\
  reg phone_site !! phone = Some (alice_id, true).
Proof.
  destruct (DeviceDAO.register_device bob_id phone "ios" None phone_site) as [[r|e] w'] eqn:H.
  2:{ assert (is_ok (fst (DeviceDAO.register_device bob_id phone "ios" None phone_site)) = true) as Hok by (vm_compute; reflexivity).
      by rewrite H in Hok. }
  exists r, w'. split; [reflexivity|].
  destruct (device_registry_refines phone_site bob_id phone "ios" None [] []) as (Hreg & _).
  - exact phone_site_devices.
  - vm_compute. reflexivity.
  - destruct (Hreg r w' H) as [-> _]. split; [apply lookup_insert_eq|]. vm_compute. reflexivity.
Defined.

Definition hello : NotificationSchema :=
  {| nt_type := N_INFO; nt_message := "Hello"; nt_subject := None; nt_metadata := [];
     nt_template_path := "email/notification.html"; nt_action_url := None |}.

Lemma hello_ok : json_ok (notification_json hello).
Proof. apply json_ok_obj. split; [repeat constructor; set_solver|]. repeat constructor. Qed.

Definition tells (n : NotificationSchema) (w : World MapRedis.t) : World MapRedis.t :=
  snd (NotificationService.notify alice_id n (Some [SSE]) w).

Lemma tells_publishes n w : published w `prefix_of` published (tells n w).
Proof.
  unfold tells. destruct (notify_sends alice_id n [SSE] w) as (w' & -> & Hs). cbn [snd]. rewrite (sends_published _ _ _ _ Hs).
  by apply prefix_app_r.
Qed.

(** A keep-alive, a notification, and its frame. *)
Definition a_visit : list (Turn MapRedis.t) := [Poll false; Meanwhile (tells hello); Poll true].

Lemma stream_delivers_notifications_witness : exists frames s w',
  stream_sse alice_id a_visit site = (frames, (Open s, w')) /\
  client_reads (concat_frames frames) = [("notification", model_dump_json hello)].
Proof.
  destruct (stream_sse alice_id a_visit site) as [frames [e w']] eqn:H. exists frames.
  assert (exists s, e = Open s) as [s ->].
  { assert (match fst (snd (stream_sse alice_id a_visit site)) with Open _ => True | _ => False end) as He by (vm_compute; exact I).
    rewrite H in He. destruct e as [s| |x]; [exact (ex_intro _ s eq_refl)|destruct He|destruct He]. }
  exists s, w'. split; [reflexivity|].
  assert (w' = snd (snd (stream_sse alice_id a_visit site))) as Ew by (rewrite H; reflexivity).
  assert (published w' = [(NOTIFICATION_USER_CHANNEL alice_id, model_dump_json hello)]) as Hp
    by (rewrite Ew; vm_compute; reflexivity).
  assert (frames = fst (stream_sse alice_id a_visit site)) as Ef by (rewrite H; reflexivity).
  destruct (stream_delivers_notifications alice_id a_visit site _ _ _ H) as [[n Hn] _].
  - repeat constructor. exact (tells_publishes hello).
  - rewrite Hp. intros c d [= -> ->]%list_elem_of_singleton _. exists hello. split; [exact hello_ok|reflexivity].
  - rewrite Ef. vm_compute. reflexivity.
Defined.

#[local] Instance forgetful_push : PushClient := {|
  firebase_app := true;
  send_each_for_multicast := fun toks _ _ _ =>
    Ok (map (fun t => if String.eqb t phone then {| sr_success := false; sr_code := Some "NOT_FOUND" |}
                      else {| sr_success := true; sr_code := None |}) toks);
|}.

Lemma push_prunes_exactly_dead_tokens_witness : exists w',
  send_fcm_push_worker_task (PC := forgetful_push) (fun _ => "") [phone] None "Hello" None phone_site = (Ok tt, w') /\
  reg w' !! phone = Some (alice_id, false).
Proof.
  destruct (push_prunes_exactly_dead_tokens (PC := forgetful_push) (fun _ => "") [phone] None "Hello" None phone_site
    eq_refl ltac:(discriminate) phone_site_devices eq_refl) as (w' & Hw & Hr).
  exists w'. split; [exact Hw|]. rewrite Hr. vm_compute. reflexivity.
Defined.

Definition alice : User := Eval vm_compute in
  default {| u_id := ""; username := ""; email := ""; hashed_password := None; full_name := None;
    is_active := false; profile_picture_url := None; u_created_at := 0; token_version := 0 |}
    (users (db phone_site) !! alice_id).

(** Her password is changed. *)
Definition announced : World MapRedis.t := snd (update_password (u_id alice) "new" phone_site).

Lemma announced_run : update_password (u_id alice) "new" phone_site = (Ok tt, announced).
Proof.
  unfold announced. assert (fst (update_password (u_id alice) "new" phone_site) = Ok tt) as H by (vm_compute; reflexivity).
  destruct (update_password (u_id alice) "new" phone_site) as [o w]. cbn [fst snd] in *. by rewrite H.
Qed.

Lemma announced_redis : redis announced = ∅.
Proof. vm_compute. reflexivity. Qed.

Lemma password_change_is_announced_witness : exists e w2,
  _process_remote_event run_listener alert_subscribers e announced = (Ok tt, w2) /\
  (ct_name <$> sent w2) = ["send_email_worker_task"; "send_fcm_push_worker_task"].
Proof.
  destruct (password_change_is_announced phone_site alice "new" announced phone_site_keyed
    ltac:(vm_compute; reflexivity) ltac:(vm_compute; reflexivity) ltac:(vm_compute; reflexivity)
    ltac:(vm_compute; reflexivity) ltac:(vm_compute; reflexivity) ltac:(discriminate) ltac:(discriminate)
    ltac:(discriminate) announced_run) as (e & Hs & Hrun).
  destruct Hrun as (w2 & Hw2 & Hsent & _).
  - rewrite announced_redis. cbn [r_get MapRedis.redis]. unfold MapRedis.get, MapRedis.find. rewrite lookup_empty. reflexivity.
  - exists e, w2. split; [exact Hw2|]. rewrite Hsent. vm_compute. reflexivity.
Defined.
