(* ===== verification/HttpProps.v ===== *)
(** * Theorems on the HTTP shell

    Regions are canonical, context variables come back as they were, translations
    do not depend on their cache, the message of a unique violation names what
    PostgreSQL reported, and the health status says how many pools work. *)

From Stdlib Require Import ZArith Lia Ascii String List Bool.
From stdpp Require Import base gmap strings list pretty.
From S2P Require Import Prelude Redis Schema JsonText World Tokens Http.
From S2P Require Database.
Local Open Scope string_scope.
Local Open Scope list_scope.
Local Open Scope Z_scope.

(** ** Regions *)

Lemma region_char_plain c : region_char c = true -> is_space c = false /\ lower_ascii c = c.
Proof. destruct c as [[] [] [] [] [] [] [] []]; vm_compute; intuition discriminate. Qed.

Lemma lower_region s : all_chars region_char s = true -> lower s = s.
Proof.
  induction s as [|c s IH]; [done|]. cbn [all_chars lower]. intros [[_ ->]%region_char_plain Hs]%andb_prop. by rewrite IH.
Qed.

Lemma strip_region s : all_chars region_char s = true -> strip s = s.
Proof.
  intros Hs. apply strip_clean. eapply all_chars_impl; [|exact Hs]. intros c [-> _]%region_char_plain. done.
Qed.

Lemma normalize_whitelisted v : whitelisted v = true ->
  _normalize_map DEFAULT_REGION_MAP v = Some (default v (map_get DEFAULT_REGION_MAP v)).
Proof.
  intros H. pose proof H as [Ht Hc]%andb_prop. unfold _normalize_map. rewrite Ht. cbn [negb].
  by rewrite strip_region, lower_region, H.
Qed.

Lemma default_map_canonical v r : whitelisted v = true -> default v (map_get DEFAULT_REGION_MAP v) = r ->
  whitelisted r = true /\ map_get DEFAULT_REGION_MAP r = None.
Proof.
  intros Hv. cbn [map_get DEFAULT_REGION_MAP].
  repeat (match goal with |- context [String.eqb ?a v] => destruct (String.eqb_spec a v) as [<-|?] end; [intros <-; done|]).
  cbn [default from_option id]. intros <-. split; [done|].
  repeat match goal with |- context [String.eqb ?a v] => destruct (String.eqb_spec a v) as [?|_]; [done|] end. done.
Qed.

(** The region a request is given is a non-empty lower-case text of letters,
    digits, dashes and underscores; it is canonical: no alias of the default
    mapping, and normalising it again gives it back; and it depends on the header
    only up to case and surrounding space. *)
Theorem region_is_canonical raw r : _normalize_map DEFAULT_REGION_MAP raw = Some r ->
  whitelisted r = true /\ map_get DEFAULT_REGION_MAP r = None /\ _normalize_map DEFAULT_REGION_MAP r = Some r /\
  forall raw', raw' <> "" -> lower (strip raw') = lower (strip raw) -> _normalize_map DEFAULT_REGION_MAP raw' = Some r.
Proof.
  intros H. pose proof H as H0. unfold _normalize_map in H0. destruct (negb (truthy raw)); [done|].
  destruct (whitelisted (lower (strip raw))) eqn:Ew; [|done]. apply (inj Some) in H0.
  destruct (default_map_canonical _ _ Ew H0) as [Hw Hm]. split; [done|]. split; [done|]. split.
  - rewrite normalize_whitelisted, Hm by done. done.
  - intros raw' Hne He. unfold _normalize_map. destruct raw'; [done|]. cbn [truthy String.eqb negb].
    by rewrite He, Ew, H0.
Qed.

Lemma region_is_canonical_witness :
  _normalize_map DEFAULT_REGION_MAP " India" = Some "ap-south" /\ whitelisted "ap-south" = true.
Proof.
  split; [reflexivity|]. apply (region_is_canonical " India" "ap-south"). reflexivity.
Defined.

(** ** Context variables *)

(** Where the application runs: the context its middlewares set up. *)
Definition request_ctx (rq : HttpRequest) (d : gmap string string) (c : Ctx) : Ctx :=
  set_client (app_build_of (header "X-App-Build" (h_headers rq))) (header "X-App-Version" (h_headers rq))
    (header "X-Platform" (h_headers rq)) (header "X-Device-Id" (h_headers rq)) (h_client rq)
    (set_region (region_of DEFAULT_REGION_MAP d)
      (set_locale (locale_of_header "en" (header "Accept-Language" (h_headers rq))) c)).

(** *** Headers *)

Lemma lower_idem s : lower (lower s) = lower s.
Proof.
  induction s as [|c s IH]; [done|]. cbn [lower]. rewrite IH. f_equal.
  by destruct c as [[] [] [] [] [] [] [] []]; vm_compute.
Qed.

Lemma header_cons name h hs : header name (h :: hs) = if decide (same_name name h) then Some (snd h) else header name hs.
Proof.
  destruct h as [k v]. cbn [header fst snd]. unfold same_name. cbn [fst].
  destruct (String.eqb_spec (lower k) (lower name)), (decide (lower k = lower name)); done.
Qed.

Lemma header_filter name other hs : lower name <> lower other ->
  header name (filter (fun x => ~ same_name other x) hs) = header name hs.
Proof.
  intros Hne. induction hs as [|h hs IH]; [done|]. rewrite filter_cons, (header_cons name h hs).
  destruct (decide (~ same_name other h)) as [H|H]; [by rewrite header_cons, IH|].
  rewrite IH. destruct (decide (same_name name h)) as [Hn|]; [|done]. exfalso. apply H. intros Ho.
  unfold same_name in *. congruence.
Qed.

(** A header that was set has its value; the headers of other names keep theirs. *)
Lemma header_set name value other hs :
  header other (set_header_in name value hs) = if decide (lower name = lower other) then Some value else header other hs.
Proof.
  assert (forall hs, header other ((lower name, value) :: hs) = if decide (lower name = lower other) then Some value else header other hs)
    as Hhd.
  { intros hs'. rewrite header_cons. unfold same_name. cbn [fst snd].
    pose proof (lower_idem name). repeat case_decide; congruence. }
  induction hs as [|h hs IH]; cbn [set_header_in]; [apply Hhd|].
  destruct (decide (same_name name h)) as [Hn|Hn].
  - rewrite Hhd. case_decide as Ho; [done|]. rewrite header_filter by congruence. rewrite header_cons.
    case_decide as Hx; [|done]. unfold same_name in *. congruence.
  - rewrite !header_cons, IH. repeat case_decide; try done. unfold same_name in *. congruence.
Qed.

(** The answer with the header of the processed build, where the number is not zero. *)
Definition processed (b : option Z) (r r' : HttpResponse) : Prop :=
  h_status r' = h_status r /\ h_detail r' = h_detail r /\
  forall name, header name (h_response_headers r') =
    match b with
    | Some n => if bool_decide (lower name = "x-server-processed-build") && negb (n =? 0) then Some (pretty n)
                else header name (h_response_headers r)
    | None => header name (h_response_headers r)
    end.

Lemma add_build_processed b r : processed b r (add_build b r).
Proof.
  unfold processed, add_build. destruct b as [n|]; [|done]. destruct (n =? 0); cbn [negb].
  - split; [done|]. split; [done|]. intros name. by rewrite andb_false_r.
  - split; [done|]. split; [done|]. intros name. cbn [set_header h_response_headers]. rewrite header_set, andb_true_r.
    change (lower "X-Server-Processed-Build") with "x-server-processed-build".
    case_decide as H; case_bool_decide; congruence.
Qed.

(** *** The stack *)

(** What the request log makes of the outcome of the handler. *)
Lemma log_requests_run new_id span app rq c l :
  let '(o, (c1, l1)) := app rq (c, l ++ [request_line c (request_id_of new_id rq) rq]) in
  match o with
  | Err e => log_requests new_id span app rq (c, l) = (Err e, (c1, l1))
  | Ok a =>
      match phrase (h_status a) with
      | None => exists e, log_requests new_id span app rq (c, l) = (Err e, (c1, l1))
      | Some text => exists a', log_requests new_id span app rq (c, l) =
            (Ok a', (c1, l1 ++ [completion_line (h_status a) text])) /\
          h_status a' = h_status a /\ h_detail a' = h_detail a /\
          header "X-Request-ID" (h_response_headers a') = Some (request_id_of new_id rq)
      end
  end.
Proof.
  unfold log_requests, bind, get_ctx, gets, write_log, modify, ret, raise. cbn [fst snd].
  destruct (app rq _) as [[a|e] [c1 l1]]; [|done].
  assert (header "X-Request-ID" (h_response_headers (set_header "X-Request-ID" (request_id_of new_id rq) a)) =
          Some (request_id_of new_id rq)) as Hid by (cbn [set_header h_response_headers]; by rewrite header_set, decide_True).
  destruct span as [t|]; cbn [h_status set_header]; (destruct (phrase (h_status a)); [|by eexists]);
    (eexists; split; [reflexivity|]; split; [done|]; split; [done|]); [|exact Hid].
  cbn [h_response_headers set_header] in *. by rewrite header_set, decide_False.
Qed.

(** What a list of layers makes of a request. *)
Fixpoint layers (ls : list Layer) (rq : HttpRequest) : Passing :=
  match ls with
  | [] => Passed_on rq (fun r => r)
  | l :: ls' =>
      match l rq with
      | Answered r => Answered r
      | Passed_on rq' edit =>
          match layers ls' rq' with
          | Answered r => Answered (edit r)
          | Passed_on rq2 edit2 => Passed_on rq2 (fun r => edit (edit2 r))
          end
      end
  end.

Lemma foldr_through ls app rq s :
  foldr through app ls rq s =
  match layers ls rq with
  | Answered r => (Ok r, s)
  | Passed_on rq' edit => let '(o, s') := app rq' s in (match o with Ok r => Ok (edit r) | Err e => Err e end, s')
  end.
Proof.
  revert rq. induction ls as [|l ls IH]; intros rq; cbn [foldr layers].
  - by destruct (app rq s) as [[r|e] s'].
  - unfold through at 1. destruct (l rq) as [r|rq' edit]; [done|]. unfold bind, ret. rewrite IH.
    destruct (layers ls rq') as [r|rq2 edit2]; [done|]. by destruct (app rq2 s) as [[r|e] s'].
Qed.

(** The stack around what the request log makes of it. *)
Lemma middlewares_run libs new_id span env html app rq0 c l :
  middlewares libs new_id span env html app rq0 (c, l) =
  match layers (outer_layers libs env) rq0 with
  | Answered r => (Ok r, (c, l))
  | Passed_on rq edit =>
      match _headers_dict (h_headers rq) ∅ with
      | Err e => (Err e, (set_locale (locale_of_header "en" (header "Accept-Language" (h_headers rq))) c, l))
      | Ok d =>
          let '(o, (c1, l1)) := foldr through (log_requests new_id span (profiling_middleware env html app))
                                  [compression libs; cors libs] rq (request_ctx rq d c, l) in
          (match o with
           | Ok a => Ok (edit (add_build (app_build_of (header "X-App-Build" (h_headers rq))) a))
           | Err e => Err e
           end,
           (set_region (CLIENT_REGION c)
              (set_client (APP_BUILD c) (APP_VERSION c) (PLATFORM c) (DEVICE_ID c) (CLIENT_IP c) c1), l1))
      end
  end.
Proof.
  unfold middlewares. rewrite foldr_through. destruct (layers _ rq0) as [r|rq edit]; [done|].
  cbn [foldr]. unfold i18n_middleware, region_middleware, client_info_middleware.
  generalize (through (compression libs) (through (cors libs) (log_requests new_id span (profiling_middleware env html app)))) as inner.
  intros inner. unfold bind, lift, on_ctx, modify, finally, get_ctx, gets, ret. cbn [fst snd].
  destruct (_headers_dict _ _) as [d|e]; [|done]. unfold request_ctx.
  destruct (inner rq _) as [[a|e] [c1 l1]]; done.
Qed.

(** *** What the context and the log are to hold, by the headers *)

(** The last value under a name, and whether every header is UTF-8. *)
Definition last_header (name : string) (hs : list (string * string)) : option string :=
  snd <$> last (filter (fun h => lower h.1 = name) hs).
Definition all_utf8 (hs : list (string * string)) : bool := forallb (fun h => utf8_valid h.1 && utf8_valid h.2) hs.

Lemma headers_dict_spec hs d :
  match _headers_dict hs d with
  | Ok d' => all_utf8 hs = true /\ forall k, d' !! k = match last_header k hs with Some v => Some v | None => d !! k end
  | Err _ => all_utf8 hs = false
  end.
Proof.
  revert d. induction hs as [|[k v] hs IH]; intros d; [done|]. cbn [_headers_dict all_utf8 forallb fst snd]. unfold decode_utf8.
  destruct (utf8_valid k); cbn [obind andb]; [|done]. destruct (utf8_valid v); cbn [obind andb]; [|done].
  specialize (IH (<[lower k := v]> d)). unfold all_utf8 in IH. destruct (_headers_dict hs _) as [d'|e]; [|done].
  destruct IH as [H1 H2]. split; [done|]. intros x. rewrite H2. unfold last_header. rewrite filter_cons. cbn [fst].
  case_decide as Hx.
  - subst x. destruct (filter _ hs) as [|h l] eqn:E; cbn; [by rewrite lookup_insert_eq|].
    destruct (last (h :: l)) eqn:El; [done|]. by apply last_None in El.
  - destruct (last (filter _ hs)); cbn; [done|]. by rewrite lookup_insert_ne.
Qed.

(** The canonical region of a value. *)
Definition canonical_region (v : string) : option string :=
  if truthy v && all_chars (fun c => let n := nat_of_ascii c in
       ((97 <=? n) && (n <=? 122) || (48 <=? n) && (n <=? 57))%nat || Ascii.eqb c "-" || Ascii.eqb c "_") v
  then Some (if mem v ["in"; "india"] then "ap-south" else if mem v ["us"] then "us-east"
             else if mem v ["gb"; "uk"; "eu"] then "eu-west" else v)
  else None.

(** It is read of the first of three headers that is not blank. *)
Definition expected_region (hs : list (string * string)) : option string :=
  head (filter (fun v => truthy (strip v) = true)
    (omap (fun name => last_header name hs) ["x-geo-region"; "x-cloud-region"; "x-country"])) ≫=
  fun raw => canonical_region (lower (strip raw)).

Lemma region_table v :
  default v (map_get DEFAULT_REGION_MAP v) =
  if mem v ["in"; "india"] then "ap-south" else if mem v ["us"] then "us-east"
  else if mem v ["gb"; "uk"; "eu"] then "eu-west" else v.
Proof.
  cbn [map_get DEFAULT_REGION_MAP].
  repeat match goal with |- context [String.eqb ?a v] => destruct (String.eqb_spec a v) as [<-|?]; [done|] end.
  rewrite !(proj2 (mem_false v _)); [done|..]; set_solver.
Qed.

Lemma strip_blank v : truthy v = false -> truthy (strip v) = false.
Proof. by destruct v. Qed.

Lemma region_of_expected hs d :
  (forall k, d !! k = last_header k hs) -> region_of DEFAULT_REGION_MAP d = expected_region hs.
Proof.
  intros Hd. unfold region_of, expected_region.
  assert (forall names, choose_raw names d =
    head (filter (fun v => truthy (strip v) = true) (omap (fun name => last_header name hs) names))) as ->.
  { induction names as [|n names IH]; [done|]. cbn [choose_raw omap list_omap]. rewrite Hd.
    destruct (last_header n hs) as [v|]; [|exact IH]. rewrite filter_cons.
    destruct (truthy v) eqn:Ev; [|by rewrite decide_False, IH by (rewrite (strip_blank v Ev); done)].
    destruct (truthy (strip v)) eqn:Es; cbn [andb]; [by rewrite decide_True|by rewrite decide_False]. }
  destruct (head _) as [raw|] eqn:E; [|done]. cbn [mbind option_bind].
  apply head_Some_elem_of, list_elem_of_filter in E as [Hs _].
  unfold _normalize_map, canonical_region. destruct (truthy raw) eqn:Er; cbn [negb].
  2:{ by rewrite (strip_blank raw Er) in Hs. }
  change (truthy (lower (strip raw)) && _) with (whitelisted (lower (strip raw))).
  destruct (whitelisted _); [|done]. by rewrite region_table.
Qed.

(** The text before the first [sep]. *)
Fixpoint before (sep : ascii) (s : string) : string :=
  match s with
  | EmptyString => EmptyString
  | String c s' => if Ascii.eqb c sep then EmptyString else String c (before sep s')
  end.

Definition expected_locale (hs : list (string * string)) : string :=
  match header "Accept-Language" hs with
  | None | Some EmptyString => "en"
  | Some a => strip (before ";" (before "," a))
  end.

Definition expected_build (hs : list (string * string)) : option Z :=
  match header "X-App-Build" hs with None => None | Some a => int_of_text a end.

Definition expected_id (new_id : string) (hs : list (string * string)) : string :=
  match header "X-Request-ID" hs with None | Some EmptyString => new_id | Some a => a end.

(** What stands in the log for a header. *)
Definition shown (o : option string) : string := match o with None | Some EmptyString => "N/A" | Some s => s end.
Definition shown_build (o : option Z) : string := match o with None | Some 0 => "N/A" | Some n => pretty n end.

Lemma first_part_before sep s : first_part sep s = before sep s.
Proof.
  unfold first_part, split_on. assert (forall cur, default "" (head (split_on_aux sep s cur)) = cur +:+ before sep s) as H.
  { induction s as [|c s IH]; intros cur; cbn; [by rewrite string_app_nil|].
    destruct (Ascii.eqb c sep); cbn; [by rewrite string_app_nil|]. rewrite IH. by rewrite <- string_app_assoc. }
  by rewrite H.
Qed.

Definition expected_ctx (rq : HttpRequest) : Ctx :=
  {| APP_BUILD := expected_build (h_headers rq); APP_VERSION := header "X-App-Version" (h_headers rq);
     PLATFORM := header "X-Platform" (h_headers rq); DEVICE_ID := header "X-Device-Id" (h_headers rq);
     CLIENT_REGION := expected_region (h_headers rq); CLIENT_IP := h_client rq;
     locale_ctx := expected_locale (h_headers rq) |}.

Lemma request_ctx_expected rq d c :
  (forall k, d !! k = last_header k (h_headers rq)) -> request_ctx rq d c = expected_ctx rq.
Proof.
  intros Hd. unfold request_ctx, expected_ctx, set_client, set_region, set_locale. cbn [CLIENT_REGION locale_ctx].
  rewrite (region_of_expected _ _ Hd). f_equal.
  - unfold app_build_of, expected_build. destruct (header "X-App-Build" _) as [[|a s]|]; done.
  - unfold locale_of_header, expected_locale. destruct (header "Accept-Language" _) as [[|a s]|]; [done| |done].
    cbn [or_opt truthy String.eqb negb]. by rewrite !first_part_before.
Qed.

Lemma request_line_shown rq rq2 id :
  request_line (expected_ctx rq) id rq2 =
  L_request (h_method rq2) (h_url rq2) (query_dict (h_query rq2)) id (shown (header "X-App-Version" (h_headers rq)))
    (shown_build (expected_build (h_headers rq))) (shown (header "X-Platform" (h_headers rq)))
    (shown (header "X-Device-Id" (h_headers rq))).
Proof.
  assert (forall o, or_na o = shown o) as Ho by (by intros [[|a s]|]).
  unfold request_line. rewrite !Ho. cbn [APP_BUILD expected_ctx]. unfold build_text, shown_build.
  by destruct (expected_build _) as [[]|].
Qed.

(** [dict(request.query_params)]: every name once, with the last of its values. *)
Lemma param_set_spec p d : NoDup d.*1 ->
  NoDup (param_set p d).*1 /\
  forall x, x ∈ param_set p d <-> x = p \/ x.1 <> p.1 /\ x ∈ d.
Proof.
  induction d as [|y d IH]; cbn [param_set].
  - intros _. split; [apply NoDup_singleton|]. intros x. set_solver.
  - rewrite fmap_cons. intros [Hy Hd]%NoDup_cons. destruct (String.eqb_spec y.1 p.1) as [Ep|Ep].
    + rewrite fmap_cons, <- Ep. split; [by apply NoDup_cons|]. intros x. rewrite !elem_of_cons. split.
      * intros [->|Hx]; [by left|right]. split; [|by right]. intros Hx1. apply Hy. rewrite <- Hx1. by apply list_elem_of_fmap_2.
      * intros [->|[Hx1 [->|Hx]]]; [by left|done|by right].
    + destruct (IH Hd) as [H1 H2]. rewrite fmap_cons. split.
      * apply NoDup_cons. split; [|done]. intros (x & Hx1 & Hx)%list_elem_of_fmap. apply H2 in Hx as [->|[_ Hx]]; [done|].
        apply Hy. rewrite Hx1. by apply list_elem_of_fmap_2.
      * intros x. rewrite !elem_of_cons, H2. split; [|naive_solver]. intros [->|[->|[? ?]]]; eauto.
Qed.

Lemma query_dict_spec q :
  NoDup (query_dict q).*1 /\
  forall k v, (k, v) ∈ query_dict q <-> snd <$> last (filter (fun p => p.1 = k) q) = Some v.
Proof.
  unfold query_dict. induction q as [|[k0 v0] q [H1 H2]] using rev_ind.
  - split; [constructor|]. intros k v. cbn. split; [by intros ?%elem_of_nil|done].
  - rewrite fold_left_app. cbn [fold_left]. destruct (param_set_spec (k0, v0) _ H1) as [H3 H4]. split; [done|].
    intros k v. rewrite H4, H2, filter_app, filter_cons. cbn [fst]. case_decide as Hk; cbn [filter list_filter].
    + subst k0. rewrite last_snoc. cbn. split; [intros [[=]|[? _]]; congruence|]. intros [= ->]. by left.
    + rewrite app_nil_r. split; [intros [[=]|[_ ?]]; [congruence|done]|]. intros H. right. split; [|done]. by apply not_eq_sym.
Qed.

(** C38: What the middlewares of the repository do with a request, whatever those of the
    libraries around them do, the application does, and however it ends.

    A request that a library layer outside them answers itself (the redirection to
    HTTPS) gets that answer and changes nothing.  Any other, as the outer layers pass it
    on, comes back with the context variables of client and region as they were.  With a
    header that is not UTF-8 it fails without a line in the log.  Otherwise it is handled
    in a context with the values its headers give: the region of the first of three
    headers that is not blank, in its canonical form; version, platform, device and the
    number of the build; the peer's address; the language.  A layer between, CORS for a
    preflight, may answer it, without a line in the log and without an identifier.  What
    that layer passes on is written to the log with these values before the application
    runs; an exception goes through without another line; an answer is written to the log
    once, by its status, and carries the identifier the request came with, or a fresh one.
    The outer layers get it with the number of the build, if it is there and not zero. *)
Theorem middlewares_set_and_restore_context libs new_id span env html app rq0 c l :
  let '(r, (c', l')) := middlewares libs new_id span env html app rq0 (c, l) in
  (CLIENT_REGION c', CLIENT_IP c', APP_BUILD c', APP_VERSION c', PLATFORM c', DEVICE_ID c') =
  (CLIENT_REGION c, CLIENT_IP c, APP_BUILD c, APP_VERSION c, PLATFORM c, DEVICE_ID c) /\
  match layers (outer_layers libs env) rq0 with
  | Answered a => r = Ok a /\ c' = c /\ l' = l
  | Passed_on rq outer =>
      let hs := h_headers rq in
      if all_utf8 hs then
        match layers [compression libs; cors libs] rq with
        | Answered a => l' = l /\ exists a', r = Ok (outer a') /\ processed (expected_build hs) a a'
        | Passed_on rq2 between =>
            let id := expected_id new_id (h_headers rq2) in
            exists params, NoDup params.*1 /\
            (forall k v, (k, v) ∈ params <-> snd <$> last (filter (fun p => p.1 = k) (h_query rq2)) = Some v) /\
            let '(o, (_, l1)) := profiling_middleware env html app rq2 (expected_ctx rq,
              l ++ [L_request (h_method rq2) (h_url rq2) params id (shown (header "X-App-Version" hs))
                (shown_build (expected_build hs)) (shown (header "X-Platform" hs)) (shown (header "X-Device-Id" hs))]) in
            match o with
            | Err e => r = Err e /\ l' = l1
            | Ok a =>
                match phrase (h_status a) with
                | None => is_err r = true /\ l' = l1
                | Some text =>
                    l' = l1 ++ [if h_status a <? 400 then L_completed (h_status a) text else L_failed (h_status a) text] /\
                    exists a' sent, r = Ok (outer sent) /\ processed (expected_build hs) (between a') sent /\
                      h_status a' = h_status a /\ h_detail a' = h_detail a /\
                      header "X-Request-ID" (h_response_headers a') = Some id
                end
            end
        end
      else is_err r = true /\ l' = l
  end.
Proof.
  rewrite middlewares_run. destruct (layers (outer_layers libs env) rq0) as [a|rq outer]; [done|]. cbv zeta.
  pose proof (headers_dict_spec (h_headers rq) ∅) as Hd. destruct (_headers_dict _ _) as [d|e]; [|by rewrite Hd].
  destruct Hd as [-> Hd]. assert (request_ctx rq d c = expected_ctx rq) as ->.
  { apply request_ctx_expected. intros k. rewrite Hd. by destruct (last_header k _). }
  assert (app_build_of (header "X-App-Build" (h_headers rq)) = expected_build (h_headers rq)) as ->.
  { unfold app_build_of, expected_build. by destruct (header "X-App-Build" _) as [[|? ?]|]. }
  rewrite foldr_through. destruct (layers [compression libs; cors libs] rq) as [a|rq2 between].
  { split; [done|]. split; [done|]. eexists. split; [reflexivity|apply add_build_processed]. }
  assert (request_id_of new_id rq2 = expected_id new_id (h_headers rq2)) as Hid.
  { unfold request_id_of, expected_id. by destruct (header "X-Request-ID" _) as [[|? ?]|]. }
  pose proof (log_requests_run new_id span (profiling_middleware env html app) rq2 (expected_ctx rq) l) as Hrun.
  rewrite request_line_shown, Hid in Hrun. destruct (query_dict_spec (h_query rq2)) as [H1 H2].
  destruct (profiling_middleware env html app rq2 _) as [[a|e] [c1 l1]] eqn:E;
    [|rewrite Hrun; split; [done|]; eexists; split; [exact H1|]; split; [exact H2|]; by rewrite E].
  destruct (phrase (h_status a)) eqn:Ep.
  - destruct Hrun as (a' & -> & Hs & Hdt & Hh). split; [done|]. eexists. split; [exact H1|]. split; [exact H2|].
    rewrite E, Ep. split; [done|]. eexists a', _. split; [reflexivity|]. split; [apply add_build_processed|done].
  - destruct Hrun as [e ->]. split; [done|]. eexists. split; [exact H1|]. split; [exact H2|]. by rewrite E, Ep.
Qed.

Lemma headers_dict_bad hs k v d : (k, v) ∈ hs -> utf8_valid v = false -> exists e, _headers_dict hs d = Err e.
Proof.
  revert d. induction hs as [|[k' v'] hs IH]; intros d Hin Hv; [by apply elem_of_nil in Hin|]. cbn [_headers_dict].
  unfold decode_utf8. destruct (utf8_valid k'); cbn [obind]; [|eauto].
  apply elem_of_cons in Hin as [[= <- <-]|Hin]; [rewrite Hv; cbn; eauto|].
  destruct (utf8_valid v'); cbn [obind]; eauto.
Qed.

(** One header whose value is not UTF-8 (a Latin-1 User-Agent, say) makes every
    route fail, before any exception handler. *)
Theorem latin1_header_fails_every_request libs new_id span env html app rq0 rq edit c l k v :
  layers (outer_layers libs env) rq0 = Passed_on rq edit -> (k, v) ∈ h_headers rq -> utf8_valid v = false ->
  exists e, fst (middlewares libs new_id span env html app rq0 (c, l)) = Err e.
Proof.
  intros Hl Hin Hv. destruct (headers_dict_bad _ _ _ ∅ Hin Hv) as [e He]. exists e. by rewrite middlewares_run, Hl, He.
Qed.

(** ** Rate limits *)

(** The limit of a request with a bearer token is kept under the digest of the
    token, which nothing has checked: a client with a new token in each request, from
    one address, starts as many limits as it sends requests. *)
Theorem bearer_token_chooses_the_limit {EX : Ext} rq rq' tok tok' :
  header "Authorization" (h_headers rq) = Some ("Bearer " +:+ tok) ->
  header "Authorization" (h_headers rq') = Some ("Bearer " +:+ tok') ->
  get_real_user_key rq = get_real_user_key rq' <-> sha256 tok = sha256 tok'.
Proof.
  assert (forall t, startswith ("Bearer " +:+ t) "Bearer " = true) as Hp by (intros t; unfold startswith; apply str_prefix_app).
  assert (forall t, String.substring 7 (String.length ("Bearer " +:+ t) - 7) ("Bearer " +:+ t) = t) as Hs
    by (intros t; apply (substring_after "Bearer ")).
  intros H H'. unfold get_real_user_key. rewrite H, H', !Hp, !Hs. split; [|by intros ->].
  intros E. by apply (String.app_inj "token:") in E.
Qed.

(** ** Translations *)

Section translations.
Context {LO : Locales}.
Abbreviation Cache := (gmap string Json).

(** The translations of a locale, read from the files. *)
Definition translations_of (locale : string) : Json :=
  match file_of_locale locale with
  | Some p => default (JObj []) (load_json p)
  | None => JObj []
  end.

Definition effective (locale : string) : Json :=
  if falsy (translations_of locale) && negb (String.eqb locale "en") then translations_of "en" else translations_of locale.

(** What the cache holds was read from the file of its locale. *)
Definition cache_ok (cache : Cache) : Prop :=
  forall l d, cache !! l = Some d -> exists p, file_of_locale l = Some p /\ load_json p = Some d.

Lemma load_translations_run l cache : cache_ok cache ->
  exists cache', load_translations l cache = (Ok (translations_of l), cache') /\ cache_ok cache' /\
    dom cache ⊆ dom cache' /\ (is_Some (file_of_locale l ≫= load_json) -> l ∈ dom cache').
Proof.
  intros Hc. unfold load_translations, translations_of, bind, Prelude.get, modify, ret.
  destruct (cache !! l) as [d|] eqn:El.
  { exists cache. destruct (Hc _ _ El) as (p & -> & ->). split; [done|]. split; [done|]. split; [done|].
    intros _. by apply elem_of_dom. }
  destruct (file_of_locale l) as [p|] eqn:Ef.
  2:{ exists cache. repeat split; try done. by intros [? ?]. }
  destruct (load_json p) as [d|] eqn:Ep; cbn.
  - exists (<[l := d]> cache). split; [done|]. split; [|split; [rewrite dom_insert; set_solver|rewrite dom_insert; set_solver]].
    intros l' d' [[<- <-]|[_ Hl]]%lookup_insert_Some; [by exists p|by apply Hc].
  - exists cache. repeat split; try done. rewrite Ep. by intros [? ?].
Qed.

(** Translating gives what the locale's file says for the key, or that of the
    default locale when the file is missing or empty, or the key itself when
    neither has it; the cache, in any state earlier requests left it in, does not
    show. *)
Theorem translations_do_not_depend_on_cache str_of l message kwargs cache : cache_ok cache ->
  exists cache', trans str_of l message kwargs cache =
    (formatted (translated str_of (effective l) message) kwargs, cache') /\ cache_ok cache'.
Proof.
  intros Hc. unfold trans, effective. destruct (load_translations_run l cache Hc) as (c1 & H1 & Hc1 & _).
  rewrite (bind_ok _ _ _ _ _ H1). destruct (falsy _ && _).
  - destruct (load_translations_run "en" c1 Hc1) as (c2 & H2 & Hc2 & _). rewrite (bind_ok _ _ _ _ _ H2). by exists c2.
  - by exists c1.
Qed.

(** [n] requests, each with its own region of a language that is there, leave
    [n] copies of its translations: nothing takes entries out of the cache. *)
Theorem cache_grows_with_headers ls cache : cache_ok cache -> NoDup ls ->
  (forall l, l ∈ ls -> is_Some (file_of_locale l ≫= load_json)) ->
  exists cache', map_m load_translations ls cache = (Ok (translations_of <$> ls), cache') /\ (length ls <= size cache')%nat.
Proof.
  intros Hc Hn Hl. assert (exists cache', map_m load_translations ls cache = (Ok (translations_of <$> ls), cache') /\
    cache_ok cache' /\ dom cache ⊆ dom cache' /\ forall l, l ∈ ls -> l ∈ dom cache') as (c' & Hm & _ & _ & Hd).
  { clear Hn. revert cache Hc. induction ls as [|l ls IH]; intros cache Hc.
    - exists cache. repeat split; try done. by intros l Hin%elem_of_nil.
    - destruct (load_translations_run l cache Hc) as (c1 & H1 & Hc1 & Hd1 & Hin1).
      destruct (IH ltac:(intros x Hx; apply Hl; by right) c1 Hc1) as (c2 & H2 & Hc2 & Hd2 & Hin2).
      exists c2. cbn [map_m]. rewrite (bind_ok _ _ _ _ _ H1), (bind_ok _ _ _ _ _ H2). split; [done|]. split; [done|].
      split; [set_solver|]. intros x [->|Hx]%elem_of_cons; [apply Hd2, Hin1, Hl; left|by apply Hin2]. }
  exists c'. split; [done|]. rewrite <- size_dom.
  transitivity (size (list_to_set ls : gset string)); [by rewrite size_list_to_set|]. apply subseteq_size.
  intros x Hx%elem_of_list_to_set. by apply Hd.
Qed.

(** A locale that starts with a slash names a file anywhere. *)
Theorem locale_header_escapes_directory h :
  let l := locale_of_header "en" h in startswith l "/" = true -> locale_file l = l +:+ ".json".
Proof.
  intros l. clearbody l. intros Hl. assert (startswith (l +:+ ".json") "/" = true) as Hj.
  { destruct l as [|c l]; [done|]. unfold startswith in *. rewrite app_cons. cbn [String.prefix] in *.
    destruct (ascii_dec "/" c); [by destruct (l +:+ ".json")|done]. }
  unfold locale_file, path_join. by rewrite Hj.
Qed.
End translations.

(** ** Unique violations *)

(** The detail PostgreSQL reports. *)
Definition pg_detail (cols vals : list string) : string :=
  "Key (" +:+ join ", " cols +:+ ")=(" +:+ join ", " vals +:+ ") already exists.".

(** A column name or value that the handler reads back: no comma, parenthesis or
    line break, no space around it. *)
Definition plain_char (c : ascii) : bool :=
  negb (Ascii.eqb c ",") && negb (Ascii.eqb c ")") && negb (Ascii.eqb c LF).
Definition plain (s : string) : Prop := all_chars plain_char s = true /\ strip s = s /\ s <> "".

(** Up to a mark that starts with a closing parenthesis. *)
Lemma until_run m s t :
  all_chars (fun c => negb (Ascii.eqb c ")") && negb (Ascii.eqb c LF)) s = true ->
  until (String ")" m) (s +:+ String ")" m +:+ t) = Some (s, t).
Proof.
  induction s as [|c s IH].
  - intros _. change ("" +:+ String ")" m +:+ t) with (String ")" m +:+ t).
    unfold until. destruct (String ")" m +:+ t) as [|x y] eqn:E; [done|]. rewrite <- E, str_prefix_app, substring_after. done.
  - cbn [all_chars]. intros [[Hc Hl]%andb_prop Hs]%andb_prop. apply negb_true_iff in Hc, Hl.
    change (String c s +:+ String ")" m +:+ t) with (String c (s +:+ String ")" m +:+ t)). cbn [until String.prefix].
    destruct (ascii_dec ")" c) as [<-|_]; [done|]. rewrite Hl, IH by done. done.
Qed.

Lemma plain_no_comma s : plain s -> all_chars (fun c => negb (Ascii.eqb c ",")) s = true.
Proof. intros [Hs _]. eapply all_chars_impl; [|exact Hs]. by intros c [[Hc _]%andb_prop _]%andb_prop. Qed.

Lemma plain_one_line s : plain s -> all_chars (fun c => negb (Ascii.eqb c ")") && negb (Ascii.eqb c LF)) s = true.
Proof. intros [Hs _]. eapply all_chars_impl; [|exact Hs]. intros c [[_ ->]%andb_prop ->]%andb_prop. done. Qed.

Lemma strip_space s : strip s = s -> s <> "" -> strip (String " " s) = s.
Proof.
  intros Hs Hne. unfold strip in *. cbn [rstrip]. destruct (rstrip s) as [|c t] eqn:E; [by rewrite <- Hs in Hne|exact Hs].
Qed.

Lemma split_join x l cur :
  plain x -> Forall plain l -> split_on_aux "," (join ", " (x :: l)) cur = (cur +:+ x) :: map (fun s => String " " s) l.
Proof.
  intros Hx Hl. revert x cur Hx. induction Hl as [|y l Hy Hl IH]; intros x cur Hx.
  - cbn [join String.concat]. apply split_on_last. by apply plain_no_comma.
  - change (join ", " (x :: y :: l)) with (x +:+ String "," (String " " (join ", " (y :: l)))).
    rewrite split_on_clean by (by apply plain_no_comma). f_equal.
    change (split_on_aux "," (String " " (join ", " (y :: l))) "") with (split_on_aux "," (join ", " (y :: l)) " ").
    rewrite (IH y " ") by done. done.
Qed.

Lemma stripped_join l : l <> [] -> Forall plain l -> stripped_parts (join ", " l) = l.
Proof.
  destruct l as [|x l]; [done|]. intros _ [Hx Hl]%Forall_cons. unfold stripped_parts, split_on.
  rewrite split_join by done. cbn [map]. destruct Hx as (_ & Hx & _). change ("" +:+ x) with x. rewrite Hx. f_equal.
  rewrite map_map. induction Hl as [|y l (_ & Hy & Hne) Hl IH]; [done|]. cbn [map]. by rewrite strip_space, IH.
Qed.

Lemma search_key_hit t r :
  ('(fields, rest) ← until ")=(" t; '(values, _) ← until ")" rest; Some (fields, values)) = Some r ->
  search_key ("Key (" +:+ t) = Some r.
Proof.
  intros H. pose proof (str_prefix_app "Key (" t) as Hp. pose proof (substring_after "Key (" t) as Hs.
  change (String.length "Key (") with 5%nat in Hs. remember ("Key (" +:+ t) as s eqn:E. destruct s as [|c s]; [done|].
  cbn [search_key]. by rewrite Hp, Hs, H.
Qed.

(** For columns and values without commas, closing parentheses and line
    breaks, the answer to a unique violation names each column of the key with its
    value, as PostgreSQL reported them. *)
Theorem unique_violation_names_the_key cols vals :
  cols <> [] -> length cols = length vals -> Forall plain cols -> Forall plain vals ->
  handle_exception (E_unique (Some (pg_detail cols vals))) =
  (400, "A record with " +:+ join ", " (map (fun '(f, v) => f +:+ "='" +:+ v +:+ "'") (zip cols vals)) +:+ " already exists.").
Proof.
  intros Hne Hlen Hc Hv. cbn [handle_exception]. f_equal. unfold unique_violation_detail.
  assert (forall l, Forall plain l -> all_chars (fun c => negb (Ascii.eqb c ")") && negb (Ascii.eqb c LF)) (join ", " l) = true) as Hj.
  { intros l Hl. apply join_all; [done|]. eapply Forall_impl; [exact Hl|]. apply plain_one_line. }
  assert (search_key (pg_detail cols vals) = Some (join ", " cols, join ", " vals)) as Hs.
  { set (rest := join ", " cols +:+ String ")" "=(" +:+ join ", " vals +:+ String ")" "" +:+ " already exists.").
    change (pg_detail cols vals) with ("Key (" +:+ rest).
    apply search_key_hit. unfold rest. rewrite until_run by (by apply Hj). cbn [mbind option_bind].
    by rewrite until_run by (by apply Hj). }
  assert (or_opt (Some (pg_detail cols vals)) None = Some (pg_detail cols vals)) as -> by done.
  cbn [mbind option_bind]. rewrite Hs, !stripped_join; [done| |done|done|done].
  destruct vals; [by destruct cols|done].
Qed.

Lemma unique_violation_names_the_key_witness :
  handle_exception (E_unique (Some (pg_detail ["provider"; "email"] ["google"; "a@example.org"]))) =
  (400, "A record with provider='google', email='a@example.org' already exists.").
Proof.
  apply (unique_violation_names_the_key ["provider"; "email"] ["google"; "a@example.org"]);
    [discriminate|reflexivity| |]; repeat constructor; discriminate.
Defined.

(** A value with a comma is cut at it. *)
Example comma_cuts_the_value :
  unique_violation_detail (Some (pg_detail ["name"] ["Smith, John"])) = "A record with name='Smith' already exists.".
Proof. reflexivity. Qed.

(** ** Health *)

Section health.
Import Database.

Lemma list_sum_cons x l : list_sum (x :: l) = (x + list_sum l)%nat.
Proof. done. Qed.

Lemma health_le (hs : list (string * RegionHealth)) : Forall (fun '(_, h) => healthy_pools h <= total_pools h)%nat hs ->
  (list_sum (map (fun '(_, h) => healthy_pools h) hs) <= list_sum (map (fun '(_, h) => total_pools h) hs))%nat.
Proof. induction 1 as [|[r h] hs Hh Hf IH]; [done|]. cbn [map]. rewrite ?list_sum_cons. lia. Qed.

Lemma health_sums (probe : PoolId -> outcome DbError QArith_base.Q) c hs :
  health_check probe c = Ok hs ->
  (list_sum (map (fun '(_, h) => healthy_pools h) hs) <= list_sum (map (fun '(_, h) => total_pools h) hs))%nat /\
  Forall (fun '(_, h) => healthy_pools h <= total_pools h)%nat hs.
Proof.
  intros H. assert (Forall (fun '(_, h) => healthy_pools h <= total_pools h)%nat hs) as Hf.
  { unfold health_check in H. apply obind_ok_inv in H as (primary & Hp & [= <-]). apply Forall_app. split.
    - destruct (write_pool c) as [wp|]; [|injection Hp as <-; constructor].
      destruct (probe wp) as [l|e]; [injection Hp as <-; repeat constructor|].
      destruct (_ || _ || _); [injection Hp as <-; repeat constructor|done].
    - apply Forall_fmap. apply Forall_true. intros [r ms]. cbn. apply length_filter. }
  split; [by apply health_le|done].
Qed.

Lemma list_sum_zero l : list_sum l = 0%nat <-> Forall (fun n => n = 0%nat) l.
Proof.
  induction l as [|x l IH]; [by split|]. rewrite ?list_sum_cons, Forall_cons, <- IH. lia.
Qed.

(** The status of the health route: "down" exactly when there are pools and none
    works, "up" exactly when every pool works, "degraded" otherwise. *)
Theorem health_status_counts_pools (probe : PoolId -> outcome DbError QArith_base.Q) c hs redis_up :
  health_check probe c = Ok hs ->
  let s := hr_db_status (health_check_response hs redis_up) in
  let all_work := Forall (fun '(_, h) => healthy_pools h = total_pools h) hs in
  let none_works := Forall (fun '(_, h) => healthy_pools h = 0%nat) hs in
  let none_there := Forall (fun '(_, h) => total_pools h = 0%nat) hs in
  (s = "up" <-> all_work) /\ (s = "down" <-> none_works /\ ~ none_there) /\
  (s = "degraded" <-> ~ all_work /\ ~ none_works).
Proof.
  intros H s all_work none_works none_there. apply health_sums in H as [Hle Hf].
  set (h := list_sum (map (fun '(_, h) => healthy_pools h) hs)) in *.
  set (t := list_sum (map (fun '(_, h) => total_pools h) hs)) in *.
  assert (none_works <-> h = 0%nat) as E1.
  { unfold none_works, h. rewrite list_sum_zero, Forall_fmap. apply Forall_proper; [|done]. by intros [r x]. }
  assert (none_there <-> t = 0%nat) as E2.
  { unfold none_there, t. rewrite list_sum_zero, Forall_fmap. apply Forall_proper; [|done]. by intros [r x]. }
  assert (all_work <-> h = t) as E3.
  { unfold all_work, h, t in *. clear -Hf. induction Hf as [|[r x] l Hx Hf IH]; [by split|]. cbn [map].
    rewrite ?list_sum_cons, Forall_cons, IH. pose proof (health_le l Hf). lia. }
  assert (s = if (h =? 0)%nat && (0 <? t)%nat then "down" else if (h <? t)%nat then "degraded" else "up") as -> by done.
  rewrite E1, E2, E3. destruct (Nat.eqb_spec h 0), (Nat.ltb_spec 0 t); cbn [andb]; destruct (Nat.ltb_spec h t);
    split_and!; split; intros; try done; try lia.
Qed.
End health.
