(* ===== verification/AdminProps.v ===== *)
(** * Theorems on the admin portal

    Who a session belongs to, what the actions on API keys and roles do, and
    where the portal differs from the service it stands beside. *)

From Stdlib Require Import ZArith Lia Ascii String List Bool.
From stdpp Require Import base gmap strings sorting list pretty.
From S2P Require Import Prelude Redis Schema JsonText World Concrete Tokens Users Cache AppConfig Roles Totp Auth Notifications.
From S2P Require Import Admin AdminViews AdminQueries Invariants SideInvariants System Service Scenario AuthLemmas.
From S2P Require ApiKeys PeriodicTasks BeatScheduler ApiKeyProps IdentityProps NotificationProps AuthProps.
Local Open Scope string_scope.
Local Open Scope list_scope.
Local Open Scope Z_scope.

(** ** Runs with a session *)

Section runs.
Context {R : Type} {RD : Redis R} {EX : Ext} {ST : Settings}.
Implicit Types (w : World R) (s : Session).

Lemma srv_run {A} (m : PyM A) w s : srv m (w, s) = (fst (m w), (snd (m w), s)).
Proof. unfold srv. by destruct (m w). Qed.

Lemma srv_inv {A} (m : PyM A) w s o ws :
  srv m (w, s) = (o, ws) -> exists w', m w = (o, w') /\ ws = (w', s).
Proof. rewrite srv_run. intros [= <- <-]. exists (snd (m w)). by destruct (m w). Qed.

Lemma pk_of_run {NX : NotifyExt} pk u (ws : World R * Session) : parse_uuid pk = Some u -> pk_of pk ws = (Ok u, ws).
Proof. intros H. unfold pk_of, lift, uuid_of. by rewrite H. Qed.

(** ** Whose session it is *)

Lemma sess_srv {A} a (m : PyM A) : preserves (fun ws : World R * Session => admin_user (snd ws) = a) (srv m).
Proof. intros [w s] H. by rewrite srv_run. Qed.
Lemma sess_gets {A} a (f : World R * Session -> A) : preserves (fun ws => admin_user (snd ws) = a) (gets f : AdM R A).
Proof. by intros ws. Qed.
Lemma sess_lift {A} a (o : outcome Exn A) : preserves (fun ws => admin_user (snd ws) = a) (lift o : AdM R A).
Proof. by intros ws. Qed.
Lemma sess_flash a m c : preserves (fun ws => admin_user (snd ws) = a) (flash m c : AdM R unit).
Proof. by intros [w s]. Qed.
End runs.

Create HintDb sess.
#[export] Hint Resolve preserves_ret preserves_raise preserves_raise_if sess_srv sess_gets sess_lift sess_flash : sess.

(** Takes a view apart down to its calls. *)
Ltac sess1 :=
  first
    [ solve [eauto 2 with sess]
    | lazymatch goal with
      | |- preserves _ (bind _ _) => apply preserves_bind
      | |- preserves _ (try_catch _ _) => apply preserves_try
      | |- preserves _ (when _ _) => apply preserves_when
      | |- preserves _ (match ?x with _ => _ end) => destruct x
      | |- preserves _ session => apply sess_gets
      | |- preserves _ (pk_of _) => apply sess_lift
      | |- preserves _ (required _ _) => unfold required
      | |- preserves _ (checked _) => unfold checked
      | |- preserves _ (audit_request _) => unfold audit_request
      | |- preserves _ get_current_admin_user_id => unfold get_current_admin_user_id
      end ].
Ltac sess := repeat (intros; sess1).

Section sessions.
Context {R : Type} {RD : Redis R} {EX : Ext} {ST : Settings}.
Implicit Types (w : World R) (s : Session).

Lemma sess_set_enabled {NX : NotifyExt} a b pks n :
  preserves (fun ws : World R * Session => admin_user (snd ws) = a) (PeriodicTaskAdminView.set_enabled b pks n).
Proof. revert n. induction pks as [|pk pks IH]; intros n; simpl; sess. Qed.
Lemma sess_map_m {A B} a (f : A -> AdM R B) l :
  (forall x, preserves (fun ws => admin_user (snd ws) = a) (f x)) ->
  preserves (fun ws => admin_user (snd ws) = a) (map_m f l).
Proof. intros Hf. induction l as [|x l IH]; simpl; sess. Qed.

Hint Resolve sess_set_enabled : sess.
Hint Unfold RoleAdminView.permission_ids_of ApiKeyAdminView.find_by_pk ApiKeyAdminView.evict
  DeadLetterTaskAdminView.find_by_pk WebhookEndpointAdminView.find_by_pk : views.

(** No view changes whose session it is. *)
Lemma sess_view {A} (m : AdM R A) a : view_operation m -> preserves (fun ws => admin_user (snd ws) = a) m.
Proof.
  destruct 1; autounfold with views; sess. apply sess_map_m. autounfold with views. sess.
Qed.

(** The user a login finds, and the role that lets it in. *)
Definition super_admin (t : Tables) (u : User) : Prop :=
  exists rid r, (u_id u, rid) ∈ user_roles t /\ roles t !! rid = Some r /\ r_name r = "Super Admin".

Lemma roles_of_super t u :
  existsb (fun r => String.eqb (r_name (rd_role r)) "Super Admin") (roles_of t (u_id u)) = true -> super_admin t u.
Proof.
  intros (rd & Hin & Hn)%existsb_exists. apply String.eqb_eq in Hn. apply list_elem_of_In in Hin.
  unfold roles_of in Hin. apply list_elem_of_omap in Hin as ([v rid] & Hin & Hr).
  destruct (String.eqb v (u_id u)) eqn:E; [|done]. apply String.eqb_eq in E as ->.
  destruct (roles t !! rid) as [r|] eqn:Er; [|done]. injection Hr as <-. exists rid, r.
  split; [by apply elem_of_elements|done].
Qed.

Definition admin_data (u : User) : AdminData :=
  {| ad_id := u_id u; ad_email := email u; ad_username := username u; ad_full_name := full_name u |}.

(** The user that has a name as its e-mail address, or else as its user name. *)
Definition named (t : Tables) (name : string) : option User :=
  match find_user (fun u => String.eqb (email u) name) t with
  | Some u => Some u
  | None => find_user (fun u => String.eqb (username u) name) t
  end.

Lemma named_user t name u : named t name = Some u ->
  exists id, users t !! id = Some u /\ (email u = name \/ username u = name).
Proof.
  unfold named. destruct (find_user _ t) as [v|] eqn:E.
  - intros [= ->]. apply IdentityProps.find_user_elem in E as (id & Hid & Hn%String.eqb_eq). eauto.
  - intros (id & Hid & Hn%String.eqb_eq)%IdentityProps.find_user_elem. eauto.
Qed.

Lemma find_named {B} name w s (k : option UserData -> AdM R B) :
  (let! user := srv (get_by_email name) in
   let! user := match user with Some u => ret (Some u) | None => srv (get_by_username name) end in k user) (w, s) =
  k (user_data (read_view w) <$> named (read_view w) name) (w, s).
Proof.
  unfold named, bind, srv, get_by_email, get_by_username, _get_user_with_roles, db_read, gets.
  by destruct (find_user (fun u => String.eqb (email u) name) (read_view w)).
Qed.

(** A login either raises and leaves everything, or opens the session of the user
    it is for. *)
Lemma admin_login_cases name pw w s :
  (exists e, admin_login name pw (w, s) = (Err e, (w, s))) \/
  exists id u, users (read_view w) !! id = Some u /\ (email u = name \/ username u = name) /\
    verify_password pw (hashed_password u) = true /\ is_active u = true /\ super_admin (read_view w) u /\
    admin_login name pw (w, s) = (Ok tt, (w, {| admin_user := Some (admin_data u); flashes := flashes s |})).
Proof.
  unfold admin_login. rewrite find_named. destruct (named (read_view w) name) as [u|] eqn:E; [|by left; eexists].
  apply named_user in E as (id & Hid & Hname). cbn [fmap option_fmap option_map user_data ud_user ud_roles].
  unfold bind, raise_if, ret, raise.
  destruct (bool_decide (or_opt (hashed_password u) None = None)); [by left; eexists|].
  destruct (verify_password pw (hashed_password u)) eqn:Ev; cbn [negb]; [|by left; eexists].
  destruct (is_active u) eqn:Ea; cbn [negb]; [|by left; eexists].
  destruct (existsb _ (roles_of _ _)) eqn:Er; cbn [negb]; [|by left; eexists].
  apply roles_of_super in Er. right. exists id, u. by split_and!.
Qed.

(** The portal's login looks at no two-factor data: the password of an active super
    admin who has two-factor enabled opens a session. *)
Lemma portal_asks_no_second_factor name pw w s u f :
  named (read_view w) name = Some u ->
  user_two_factor (read_view w) !! u_id u = Some f -> is_enabled f = true ->
  or_opt (hashed_password u) None <> None -> verify_password pw (hashed_password u) = true ->
  is_active u = true ->
  existsb (fun r => String.eqb (r_name (rd_role r)) "Super Admin") (ud_roles (user_data (read_view w) u)) = true ->
  admin_login name pw (w, s) = (Ok tt, (w, {| admin_user := Some (admin_data u); flashes := flashes s |})).
Proof.
  intros Hn _ _ Hp Hv Ha Hs. unfold admin_login. rewrite find_named, Hn.
  cbn [fmap option_fmap option_map]. unfold bind, raise_if. cbn [user_data ud_user ud_roles] in *.
  by rewrite bool_decide_eq_false_2, Hv, Ha, Hs by done.
Qed.

Lemma admin_request_none {A} (m : AdM R A) w s : admin_user s = None -> admin_request m (w, s) = (Ok None, (w, s)).
Proof. intros H. unfold admin_request, authenticate, bind, session, gets, ret. cbn [snd]. by rewrite H. Qed.

(** C11: A session of the portal belongs to an admin only by a login.  Whatever the
    portal is asked, and however it ends, the session keeps its admin, or loses it
    to a logout, or gets the user of a login: an active user with the password
    given, whose roles include Super Admin at that time.  Without an admin no view
    runs: the request changes nothing. *)
Theorem only_super_admins_sign_in {A} (m : AdM R A) w s o w' s' :
  admin_operation m -> m (w, s) = (o, (w', s')) ->
  (admin_user s' = admin_user s \/ admin_user s' = None \/
   exists name pw id u, users (read_view w) !! id = Some u /\ (email u = name \/ username u = name) /\
     verify_password pw (hashed_password u) = true /\ is_active u = true /\ super_admin (read_view w) u /\
     admin_user s' = Some (admin_data u)) /\
  (admin_user s = None -> forall B (view : AdM R B), admin_request view (w, s) = (Ok None, (w, s))).
Proof.
  intros Hm H. split; [|intros; by apply admin_request_none].
  destruct Hm as [name pw| |B m Hm].
  - destruct (admin_login_cases name pw w s) as [[e He]|(id & u & H1 & H2 & H3 & H4 & H5 & He)]; rewrite He in H.
    + injection H as _ _ <-. by left.
    + injection H as _ _ <-. right; right. exists name, pw, id, u. by split_and!.
  - injection H as _ _ <-. right. by left.
  - left. assert (preserves (fun ws => admin_user (snd ws) = admin_user s) (admin_request m)) as Hp.
    { unfold admin_request, authenticate. sess; by apply sess_view. }
    specialize (Hp (w, s) eq_refl). by rewrite H in Hp.
Qed.

(** The session is all that is looked at: it outlives a demotion, a deactivation
    and the deletion of its user. *)
Lemma session_ignores_the_user {A} (m : AdM R A) w t s a :
  admin_user s = Some a -> ad_id a <> "" ->
  forall o ws, m (set_actor (Some (ad_id a)) (set_db (fun _ => t) w), s) = (Ok o, ws) ->
  admin_request m (set_db (fun _ => t) w, s) = (Ok (Some o), ws).
Proof.
  intros Ha Hid o ws H. unfold admin_request, authenticate, session, bind, gets. cbn [snd]. rewrite Ha.
  assert (truthy (ad_id a) = true) as -> by (by destruct (ad_id a)). cbn. by rewrite H.
Qed.
End sessions.

(** ** API keys *)

Section keys.
Import ApiKeys ApiKeyProps.
Context {R : Type} {RD : Redis R} {RL : RedisLaws R} {EX : Ext} {NX : NotifyExt}.
Implicit Types (w : World R) (s : Session).

(** The actions of the portal that end the life of a key. *)
Inductive PortalRevocation := P_deactivate | P_edit (data : ApiKeyForm) | P_rotate | P_delete.

Definition portal_revoke (pk : string) (x : PortalRevocation) : AdM R unit :=
  match x with
  | P_deactivate => ApiKeyAdminView.deactivate_action pk ;;! ret tt
  | P_edit data => ApiKeyAdminView.edit pk data ;;! ret tt
  | P_rotate => ApiKeyAdminView.rotate_action pk ;;! ret tt
  | P_delete => ApiKeyAdminView.delete [pk] ;;! ret tt
  end.

Definition portal_revokes (x : PortalRevocation) (h : string) w : Prop :=
  match x with
  | P_edit data => kf_is_active data = Some false
  | P_rotate => sha256 ("ak_live_" +:+ token_urlsafe32 (drawn w)) <> h
  | _ => True
  end.

(** No usable row has the hash of a key that is changed so. *)
Lemma rows_after m id k f :
  api_keys_wf m -> m !! id = Some k -> (k_hashed_key (f k) = k_hashed_key k -> k_is_active (f k) = false) ->
  forall i k', <[id := f k]> m !! i = Some k' -> k_hashed_key k' = k_hashed_key k -> k_is_active k' = false.
Proof.
  intros [Hkey Hu] Hk Hf i k' [[<- <-]|[Hne Hi]]%lookup_insert_Some Heq; [by apply Hf|].
  destruct Hne. by eapply (Hu _ _ k k' (k_hashed_key k)); rewrite ?Heq.
Qed.

Lemma evict_run k w s :
  k_hashed_key k <> "" -> faults w = [] ->
  ApiKeyAdminView.evict (Some (key_data k)) (w, s) = (Ok tt, (set_redis (r_del [API_KEY_CACHE (k_hashed_key k)]) w, s)).
Proof.
  intros Hh Hf. unfold ApiKeyAdminView.evict. cbn [mbind option_bind key_data kd_hashed_key].
  assert (or_opt (Some (k_hashed_key k)) None = Some (k_hashed_key k)) as -> by (by destruct (k_hashed_key k)).
  rewrite srv_run. unfold redis_del, redis_command. by rewrite Hf.
Qed.

(** What is left of a key: no cached copy, no usable row. *)
Definition gone (h : string) (n : Z) w : Prop :=
  replica w = None /\ now w = n /\ r_get (now w) (API_KEY_CACHE h) (redis w) = None /\
  forall i k', api_keys (db w) !! i = Some k' -> k_hashed_key k' = h -> k_is_active k' = false.

Lemma key_change id k f w s o ws :
  replica w = None -> faults w = [] -> api_keys_wf (api_keys (db w)) -> api_keys (db w) !! id = Some k ->
  k_hashed_key k <> "" ->
  (k_hashed_key (f (now w) k) = k_hashed_key k -> k_is_active (f (now w) k) = false) ->
  srv (let! t0 := gets now in db_write (update_key_row id (f t0))) (w, s) = (Ok o, ws) ->
  exists w', ApiKeyAdminView.evict (Some (key_data k)) ws = (Ok tt, (w', s)) /\ gone (k_hashed_key k) (now w) w'.
Proof.
  intros Hr Hf Hwf Hk Hh Hfk (w1 & H & ->)%srv_inv. apply bind_ok_inv in H as (t0 & v & [= <- <-] & (t & Ht & ->)%db_write_inv).
  unfold update_key_row in Ht. rewrite Hk in Ht. destruct (hash_taken _ _ _); [done|]. injection Ht as _ <-.
  rewrite evict_run by done. eexists. split; [reflexivity|]. split_and!; cbn; [done|done| |].
  - rewrite get_del. by rewrite (proj2 (mem_true _ _)) by left.
  - by apply rows_after.
Qed.

Lemma existing_run pk id k w s :
  parse_uuid pk = Some id -> replica w = None -> api_keys (db w) !! id = Some k ->
  pk_of pk (w, s) = (Ok id, (w, s)) /\
  srv (ApiKeyDAO.get_api_key_by_id id) (w, s) = (Ok (Some (key_data k)), (w, s)).
Proof.
  intros Hp Hr Hk. split; [by apply pk_of_run|]. rewrite srv_run. unfold ApiKeyDAO.get_api_key_by_id, db_read, gets, read_view.
  rewrite Hr. cbn [fst snd default]. by rewrite Hk.
Qed.

(** Deleting rows drops the cached copies of all of them. *)
Lemma delete_keys_gone id k w o w' :
  replica w = None -> faults w = [] -> api_keys_wf (api_keys (db w)) -> api_keys (db w) !! id = Some k ->
  k_hashed_key k <> "" -> ApiKeyDAO.delete_api_keys [id] w = (Ok o, w') -> gone (k_hashed_key k) (now w) w'.
Proof.
  intros Hr Hf [Hkey Hu] Hk Hh H. unfold ApiKeyDAO.delete_api_keys, db_read, db_write_on_read_pool in H.
  assert (read_view w = db w) as Hv by (unfold read_view; by rewrite Hr).
  apply bind_ok_inv in H as (hs & v & [= <- <-] & H). apply bind_ok_inv in H as (n & v & Hd & H).
  cbv beta in Hd. rewrite Hr in Hd. apply db_write_inv in Hd as (t & [= <- <-] & ->). rewrite Hv in H.
  assert (k ∈ filter (fun k => k_id k ∈ [id]) (values (api_keys (db w)))) as Hin.
  { apply list_elem_of_filter. split; [rewrite (Hkey _ _ Hk); left|apply elem_of_values; eauto]. }
  assert ((0 <? Z.of_nat (length (filter (fun k => k_id k ∈ [id]) (values (api_keys (db w)))))) = true) as Hpos.
  { apply Z.ltb_lt. destruct (filter _ _); [by apply elem_of_nil in Hin|cbn; lia]. }
  rewrite Hpos in H. clear Hpos.
  assert (k_hashed_key k ∈ filter (fun h => truthy h = true)
    (k_hashed_key <$> filter (fun k => k_id k ∈ [id]) (values (api_keys (db w))))) as Hmem.
  { apply list_elem_of_filter. split; [by destruct (k_hashed_key k)|by apply list_elem_of_fmap_2]. }
  destruct (filter (fun h => truthy h = true) _) as [|h hs]; [by apply elem_of_nil in Hmem|].
  unfold bind, try_catch, redis_del, redis_command in H. cbn in H. rewrite Hf in H. injection H as _ <-.
  split_and!; cbn; [done|done| |].
  - rewrite get_del. rewrite (proj2 (mem_true _ _)); [done|]. apply (list_elem_of_fmap_2 API_KEY_CACHE _ _ Hmem).
  - intros i k' [Hi Hn]%map_lookup_filter_Some Heq.
    destruct (decide (i = id)) as [->|Hne].
    + rewrite Hk in Hi. injection Hi as <-. destruct Hn. rewrite (Hkey _ _ Hk). left.
    + destruct Hne. by eapply (Hu _ _ k' k (k_hashed_key k)); rewrite ?Heq.
Qed.

Lemma portal_revoke_inv pk id k x w s ws :
  parse_uuid pk = Some id -> replica w = None -> faults w = [] -> api_keys_wf (api_keys (db w)) ->
  api_keys (db w) !! id = Some k -> k_hashed_key k <> "" -> portal_revokes x (k_hashed_key k) w ->
  portal_revoke pk x (w, s) = (Ok tt, ws) -> gone (k_hashed_key k) (now w) (fst ws).
Proof.
  intros Hp Hr Hf Hwf Hk Hh Hx H. destruct (existing_run pk id k w s Hp Hr Hk) as [E1 E2].
  destruct x as [|data| |]; cbn [portal_revoke] in H; apply bind_ok_inv in H as (r & ws1 & H & [= <-]).
  - unfold ApiKeyAdminView.deactivate_action, ApiKeyAdminView.set_active in H.
    rewrite (bind_ok _ _ _ _ _ E1), (bind_ok _ _ _ _ _ E2) in H. apply bind_ok_inv in H as (o & ws2 & Hu & H).
    destruct (key_change id k (fun t0 => updated_key t0 (ApiKeyAdminView.active_update false)) w s o ws2) as (w' & He & Hg); [done..|].
    rewrite (bind_ok _ _ _ _ _ He) in H. run_inv. by injection H as _ <-.
  - unfold ApiKeyAdminView.edit in H. rewrite (bind_ok _ _ _ _ _ E1), (bind_ok _ _ _ _ _ E2) in H.
    apply bind_ok_inv in H as (? & ws2 & [_ ->]%raise_if_ok_inv & H). apply bind_ok_inv in H as (o & ws2 & Hu & H).
    match type of Hu with srv (ApiKeyDAO.update_api_key _ ?u) _ = _ =>
      destruct (key_change id k (fun t0 => updated_key t0 u) w s o ws2) as (w' & He & Hg); try done end.
    { intros _. cbn in *. by rewrite Hx. }
    rewrite (bind_ok _ _ _ _ _ He) in H. unfold ApiKeyAdminView.find_by_pk in H. run_inv.
    rewrite (pk_of_run _ _ (w', s) Hp) in H. injection H as <- <-.
    apply srv_inv in H0 as (w2 & Hw2 & ->). injection Hw2 as _ <-. exact Hg.
  - unfold ApiKeyAdminView.rotate_action in H. rewrite (bind_ok _ _ _ _ _ E1), (bind_ok _ _ _ _ _ E2) in H.
    apply bind_ok_inv in H as (o & ws2 & Hd & H). rewrite srv_run in Hd. injection Hd as <- <-. cbn match in H.
    apply bind_ok_inv in H as (o & ws3 & Hu & H). 
    match type of Hu with srv (ApiKeyDAO.rotate_api_key _ ?p ?h) _ = _ =>
      destruct (key_change id k (fun t0 => rotated_key t0 p h) (set_drawn (S (drawn w)) w) s o ws3) as (w' & He & Hg); try done end.
    rewrite (bind_ok _ _ _ _ _ He) in H. run_inv. by injection H as _ <-.
  - unfold ApiKeyAdminView.delete in H. cbn [uuids_of] in H. unfold uuid_of in H. rewrite Hp in H. cbn [obind] in H.
    unfold bind at 1, lift in H. apply srv_inv in H as (w' & H & ->). by eapply delete_keys_gone.
Qed.

(** C12: An action of the portal that ends a key's life (deactivate, an edit whose form
    makes the key inactive, rotate, delete), served alone with Redis and the database
    working and no replica: once it has returned, the key is rejected when the next
    request presents it, however much later, since the portal drops the cached copy
    through a client that has the command. *)
Theorem portal_revocation_is_immediate pk id k x raw ip w s ws t0 :
  parse_uuid pk = Some id -> replica w = None -> faults w = [] -> api_keys_wf (api_keys (db w)) ->
  api_keys (db w) !! id = Some k -> k_hashed_key k = sha256 raw -> k_hashed_key k <> "" ->
  portal_revokes x (k_hashed_key k) w -> portal_revoke pk x (w, s) = (Ok tt, ws) -> now w <= t0 ->
  exists w2, ApiKeyService.verify_api_key raw ip (set_now t0 (fst ws)) = (Ok None, w2).
Proof.
  intros Hp Hr Hf Hwf Hk Hraw Hh Hx H Ht.
  destruct (portal_revoke_inv pk id k x w s ws Hp Hr Hf Hwf Hk Hh Hx H) as (Hr' & Hn & Hnone & Hrows).
  apply (gone_key_rejected (k_hashed_key k)); [done|done|lia|done|done].
Qed.
End keys.

(** ** Roles *)

Section roles.
Context {R : Type} {RD : Redis R} {EX : Ext} {NX : NotifyExt}.
Implicit Types (w : World R) (s : Session).

(** The permissions the form of a role knows: the first page of twenty. *)
Definition known_permissions (t : Tables) : list Permission :=
  take 20 (merge_sort (desc_by p_id) (filter (fun p => before_cursor None (p_id p) = true) (values (permissions t)))).

Definition held (t : Tables) (rid pid : uuid) : Prop := (rid, pid) ∈ role_permissions t.

Lemma replaced_permissions id pids t t1 t2 a b :
  delete_role_permissions id t = Ok (a, t1) ->
  match pids with [] => Ok (tt, t1) | _ => insert_role_permissions id pids t1 end = Ok (b, t2) ->
  (forall pid, held t2 id pid <-> pid ∈ pids) /\ (forall rid pid, rid <> id -> held t2 rid pid <-> held t rid pid).
Proof.
  intros [= <- <-] H.
  assert (role_permissions t2 = filter (fun '(r, _) => r <> id) (role_permissions t) ∪ list_to_set ((fun p => (id, p)) <$> pids)) as E.
  { destruct pids as [|p pids]; [injection H as _ <-; cbn; set_solver|].
    unfold insert_role_permissions in H. repeat (case_match; try done). by injection H as _ <-. }
  unfold held. rewrite E. split; intros *.
  - rewrite elem_of_union, elem_of_filter, elem_of_list_to_set, list_elem_of_fmap. split; [|by eauto].
    by intros [[? _]|(x & [= ->] & Hx)].
  - intros Hne. rewrite elem_of_union, elem_of_filter, elem_of_list_to_set, list_elem_of_fmap. split; [|by eauto].
    by intros [[_ ?]|(x & [= -> _] & _)].
Qed.

(** An update with permissions leaves the role exactly those. *)
Lemma update_role_permissions id d pids w o w' :
  ru_permission_ids d = Some pids -> dao_update_role id d w = (Ok o, w') ->
  (forall pid, held (db w') id pid <-> pid ∈ pids) /\
  (forall rid pid, rid <> id -> held (db w') rid pid <-> held (db w) rid pid).
Proof.
  intros Hd H. apply AuthProps.invalidating_ok_inv in H as (w4 & H & -> & _).
  apply bind_ok_inv in H as (t0 & v & [= <- <-] & H). apply bind_ok_inv in H as ([] & w5 & Hrow & H).
  assert (role_permissions (db w5) = role_permissions (db w)) as E5.
  { unfold when in Hrow. destruct (_ || _); [|by injection Hrow as <-].
    apply ApiKeyProps.db_write_inv in Hrow as (t & Ht & ->). unfold update_role_row in Ht.
    repeat (case_match; try done); by injection Ht as <-. }
  apply bind_ok_inv in H as ([] & w6 & Hset & H). rewrite Hd in Hset.
  apply bind_ok_inv in Hset as ([] & w7 & (t7 & Hdel & ->)%ApiKeyProps.db_write_inv & Hins).
  apply bind_ok_inv in H as ([] & w8 & (t8 & [= <-] & ->)%ApiKeyProps.db_write_inv & H).
  unfold _get_role_by_id, db_read, gets in H. injection H as _ <-.
  destruct (replaced_permissions id pids (db w5) t7 (db w6) tt tt Hdel) as [H1 H2].
  { destruct pids as [|i ids]; [by injection Hins as <-|]. by apply ApiKeyProps.db_write_inv in Hins as (t & Ht & ->). }
  split; [exact H1|]. intros rid pid Hne. change (held (db w6) rid pid <-> held (db w) rid pid).
  rewrite (H2 rid pid Hne). unfold held. by rewrite E5.
Qed.

(** C20: Saving the form of a role replaces its permissions.  Afterwards the role has
    exactly the permissions that are named in the form and are among the twenty that
    the portal loads, those with the greatest identifiers; any other permission is
    taken away, also when the form names it, as it does when a role is saved without
    a change; other roles keep theirs. *)
Theorem role_form_replaces_permissions pk id data names w s o w' s' :
  parse_uuid pk = Some id -> replica w = None -> rf_permissions data = Some names ->
  RoleAdminView.edit pk data (w, s) = (Ok o, (w', s')) ->
  (forall pid, held (db w') id pid <-> exists n, n ∈ names /\ RoleAdminView.perm_map (known_permissions (db w)) n = Some pid) /\
  (forall rid pid, rid <> id -> held (db w') rid pid <-> held (db w) rid pid) /\
  (forall pid, pid ∉ (p_id <$> known_permissions (db w)) -> ~ held (db w') id pid).
Proof.
  intros Hp Hr Hn H. unfold RoleAdminView.edit in H. rewrite (bind_ok _ _ _ _ _ (pk_of_run _ _ (w, s) Hp)), Hn in H.
  apply bind_ok_inv in H as (x & ws & Hx & H). apply bind_ok_inv in Hx as (ids & ws1 & Hids & [= <- <-]).
  unfold RoleAdminView.permission_ids_of in Hids. apply bind_ok_inv in Hids as (ps & ws2 & Hps & [= <- <-]).
  rewrite srv_run in Hps. injection Hps as <- <-. unfold read_view in H. rewrite Hr in H. cbn [default snd] in H.
  change (take (Z.to_nat 20) _) with (known_permissions (db w)) in H.
  apply bind_ok_inv in H as (role & ws3 & Hd & H). apply srv_inv in Hd as (w3 & Hd & ->).
  assert (w' = w3) as -> by (destruct role; by injection H). clear H.
  eapply update_role_permissions in Hd as [H1 H2]; [|reflexivity].
  assert (forall pid, held (db w3) id pid <->
    exists n, n ∈ names /\ RoleAdminView.perm_map (known_permissions (db w)) n = Some pid) as Hids.
  { intros pid. rewrite H1. apply list_elem_of_omap. }
  split_and!.
  - intros pid. apply Hids.
  - exact H2.
  - intros pid Hpid Hheld. apply Hids in Hheld as (n & _ & Hm). destruct Hpid.
    unfold RoleAdminView.perm_map in Hm. apply fmap_Some_1 in Hm as (p & Hl & ->). apply list_elem_of_fmap_2.
    apply last_Some_elem_of in Hl. by apply list_elem_of_filter in Hl as [_ Hl].
Qed.
End roles.

(** ** Users and versions *)

Section users.
Context {R : Type} {RD : Redis R} {EX : Ext} {ST : Settings} {NX : NotifyExt}.
Implicit Types (w : World R) (s : Session).

Lemma nothing_updated u :
  {| u_id := u_id u; username := default (username u) None; email := default (email u) None;
     hashed_password := hashed_password u;
     full_name := match None : option string with Some n => Some n | None => full_name u end; is_active := is_active u;
     profile_picture_url := profile_picture_url u; u_created_at := u_created_at u; token_version := token_version u |} = u.
Proof. by destruct u. Qed.

(** The action that is to activate or deactivate a user reports success and leaves
    the tables as they are. *)
Lemma toggle_active_changes_nothing pk id u w s text ws :
  parse_uuid pk = Some id -> replica w = None -> users (db w) !! id = Some u -> keyed u_id (users (db w)) ->
  UserAdminView.toggle_active_action pk (w, s) = (Ok text, ws) -> db (fst ws) = db w.
Proof.
  intros Hp Hr Hu Hk H. unfold UserAdminView.toggle_active_action in H.
  rewrite (bind_ok _ _ _ _ _ (pk_of_run _ _ (w, s) Hp)) in H. apply bind_ok_inv in H as (o & ws1 & Hg & H).
  apply srv_inv in Hg as (w1 & Hg & ->). injection Hg as Ho <-. destruct o as [d|]; [|done].
  apply bind_ok_inv in H as (o & ws2 & Hup & [= _ <-]). apply srv_inv in Hup as (w2 & Hup & ->). cbn [fst].
  apply bind_ok_inv in Hup as ([] & w3 & (t & Ht & ->)%ApiKeyProps.db_write_inv & Hup). injection Hup as _ <-.
  unfold update_user_row, UserAdminView.active_update in Ht. cbn [uu_full_name uu_username uu_email] in Ht.
  rewrite Hu, nothing_updated in Ht. apply obind_ok_inv in Ht as (x & _ & [= <-]). cbn.
  unfold set_user, set_users. rewrite (Hk _ _ Hu), insert_id by done. by destruct (db w).
Qed.

(** A form that says whether the user is active, as the form of the portal always
    does, never saves: the statement for the flags names a column that no table has.
    The other fields were committed before. *)
Lemma user_form_always_fails pk data (ws : World R * Session) :
  is_Some (uf_is_active data) -> is_err (fst (UserAdminView.edit pk data ws)) = true.
Proof.
  intros Ha. destruct (UserAdminView.edit pk data ws) as [[o|e] ws'] eqn:H; [exfalso|done]. unfold UserAdminView.edit in H.
  apply bind_ok_inv in H as (id & ws1 & _ & H). apply bind_ok_inv in H as ([] & ws2 & _ & H).
  apply bind_ok_inv in H as ([u|] & ws3 & _ & H); [|done]. rewrite bool_decide_eq_true_2 in H by done. cbn [orb] in H.
  apply bind_ok_inv in H as ([] & ws4 & H & _). unfold UserAdminView.set_flags in H.
  destruct ws3 as [w3 s3]. by apply srv_inv in H as (w' & H & _).
Qed.

(** The version that is edited is that of the platform in the form, whatever row the
    form was opened for. *)
Lemma version_edit_ignores_its_key pk pk' data p :
  or_opt (vf_platform data) None = Some p -> AppVersionAdminView.edit (R := R) pk data = AppVersionAdminView.edit pk' data.
Proof. intros H. unfold AppVersionAdminView.edit. by rewrite H. Qed.
End users.

(** ** Periodic tasks *)

Create HintDb portal.

Section periodic.
Import PeriodicTasks BeatScheduler.
Context {R : Type} {RD : Redis R} {RL : RedisLaws R} {EX : Ext} {NX : NotifyExt} {CE : Celery}.
Implicit Types (w : World R) (s : Session).

(** The operations of the portal on the schedules. *)
Inductive PortalChange :=
| PC_create (data : PeriodicForm) | PC_edit (pk : string) (data : PeriodicForm) | PC_delete (pks : list string)
| PC_toggle (pk : string) | PC_enable (pks : list string) | PC_disable (pks : list string).

Definition portal_change (x : PortalChange) : AdM R unit :=
  match x with
  | PC_create d => PeriodicTaskAdminView.create d ;;! ret tt
  | PC_edit pk d => PeriodicTaskAdminView.edit pk d ;;! ret tt
  | PC_delete pks => PeriodicTaskAdminView.delete pks ;;! ret tt
  | PC_toggle pk => PeriodicTaskAdminView.toggle_enabled_action pk ;;! ret tt
  | PC_enable pks => PeriodicTaskAdminView.enable_selected_action pks ;;! ret tt
  | PC_disable pks => PeriodicTaskAdminView.disable_selected_action pks ;;! ret tt
  end.

Hint Unfold PeriodicTaskAdminView.create PeriodicTaskAdminView.edit PeriodicTaskAdminView.delete
  PeriodicTaskAdminView.toggle_enabled_action PeriodicTaskAdminView.enable_selected_action
  PeriodicTaskAdminView.disable_selected_action pk_of : portal.

(** No command goes to Redis. *)
Definition quiet (w0 : World R) (w : World R) : Prop :=
  redis w = redis w0 /\ now w = now w0 /\ faults w = faults w0.

Lemma quiet_srv {A} w0 (m : PyM A) :
  preserves (quiet w0) m -> preserves (fun ws : World R * Session => quiet w0 (fst ws)) (srv m).
Proof. intros Hm [w s] H. rewrite srv_run. by apply Hm. Qed.

Lemma quiet_write {A} w0 (f : Tables -> outcome Exn (A * Tables)) : preserves (quiet w0) (db_write f).
Proof. intros w H. unfold db_write. by destruct (f (db w)) as [[a t]|]. Qed.
Lemma quiet_pool {A} w0 (f : Tables -> outcome Exn (A * Tables)) : preserves (quiet w0) (db_write_on_read_pool f).
Proof. intros w H. unfold db_write_on_read_pool. destruct (replica w); [done|]. by apply quiet_write. Qed.
Lemma quiet_read {A} w0 (f : Tables -> A) : preserves (quiet w0) (db_read f : PyM A).
Proof. by intros w. Qed.
Lemma quiet_gets {A} w0 (f : World R -> A) : preserves (quiet w0) (gets f : PyM A).
Proof. by intros w. Qed.
Lemma quiet_draw w0 : preserves (quiet w0) draw.
Proof. by intros w. Qed.

Lemma quiet_portal w0 x : preserves (fun ws : World R * Session => quiet w0 (fst ws)) (portal_change x).
Proof.
  set (P := fun ws : World R * Session => quiet w0 (fst ws)).
  assert (forall A (f : World R * Session -> A), preserves P (gets f : AdM R A)) as Hg by (by intros A f ws).
  assert (forall A (o : outcome Exn A), preserves P (lift o : AdM R A)) as Hl by (by intros A o ws).
  assert (forall A (o : option A), preserves P (checked o : AdM R A)) as Hc by (by intros A [a|] ws).
  assert (forall A k (o : option A), preserves P (required k o : AdM R A)) as Hq by (by intros A k [a|] ws).
  assert (forall id, preserves P (srv (PeriodicTaskDAO.get_task_by_id id))) as Hget
    by (intros id; apply quiet_srv, quiet_read).
  assert (forall id u, preserves P (srv (PeriodicTaskDAO.update_task id u))) as Hup
    by (intros id u; apply quiet_srv, preserves_bind; [apply quiet_gets|intros; apply quiet_pool]).
  assert (forall b pks n, preserves P (PeriodicTaskAdminView.set_enabled b pks n)) as Hset.
  { intros b pks. induction pks as [|pk pks IH]; intros n; simpl; [apply preserves_ret|].
    apply preserves_bind; [apply Hl|intros id]. by apply preserves_bind. }
  assert (forall ids, preserves P (srv (PeriodicTaskDAO.delete_tasks ids))) as Hdel.
  { intros [|id ids]; apply quiet_srv; [apply preserves_ret|apply quiet_pool]. }
  assert (forall c, preserves P (srv (PeriodicTaskDAO.create_task c))) as Hcr.
  { intros c. apply quiet_srv, preserves_bind; [apply quiet_draw|intros n].
    apply preserves_bind; [apply quiet_gets|intros; apply quiet_pool]. }
  destruct x; cbn [portal_change]; autounfold with portal;
    repeat first [apply preserves_ret | apply preserves_raise | apply Hg | apply Hl | apply Hc | apply Hq | apply Hget
      | apply Hup | apply Hset | apply Hdel | apply Hcr | apply preserves_bind; [|intros ?] | case_match].
Qed.

(** A change of a schedule in the portal sends nothing to the beat process.  While
    no change was made through the API, so that there is no version in Redis, a tick
    keeps the schedule as it was, however the tables changed. *)
Theorem portal_changes_never_reach_beat (str_of : PyVal -> string) x w s o w' s' b :
  faults w = [] -> r_get (now w) SCHEDULE_VERSION (redis w) = None -> _last_version b = None ->
  portal_change x (w, s) = (o, (w', s')) ->
  exists w2, tick str_of true b w' = (Ok b, w2).
Proof.
  intros Hf Hv Hb H. pose proof (quiet_portal w x (w, s) (conj eq_refl (conj eq_refl eq_refl))) as Hq.
  rewrite H in Hq. destruct Hq as (Er & En & Ef). cbn [snd fst] in *. exists w'. unfold tick, try_catch.
  assert (redis_get SCHEDULE_VERSION w' = (Ok None, w')) as Hg
    by (unfold redis_get, redis_command, gets; by rewrite Ef, Hf, Er, En, Hv).
  rewrite (bind_ok _ _ _ _ _ Hg). cbn [fmap option_fmap option_map]. by rewrite Hb.
Qed.
End periodic.

(** ** Concrete runs *)

#[local] Existing Instance NotificationProps.concrete_notify.

(** The site with Alice a Super Admin. *)
Definition portal_site : World MapRedis.t :=
  snd ((dao_create_role {| rc_name := "Super Admin"; rc_description := None; rc_permission_ids := [] |} ;;!
        db_write (insert_user_roles alice_id ["u7-11"])) site).

Definition nobody : Session := empty_session.
Definition as_alice : Session :=
  {| admin_user := Some {| ad_id := alice_id; ad_email := "alice@example.org"; ad_username := "alice";
                           ad_full_name := None |}; flashes := [] |}.

(** Alice signs in with her e-mail address. *)
Lemma only_super_admins_sign_in_witness : exists o w' s',
  admin_login "alice@example.org" "pw-alice" (portal_site, nobody) = (o, (w', s')) /\ s' = as_alice /\
  exists id u, users (read_view portal_site) !! id = Some u /\ is_active u = true /\ super_admin (read_view portal_site) u /\
    admin_user s' = Some (admin_data u).
Proof.
  destruct (admin_login "alice@example.org" "pw-alice" (portal_site, nobody)) as [o [w' s']] eqn:H.
  assert (s' = as_alice) as Hs.
  { assert (snd (snd (admin_login "alice@example.org" "pw-alice" (portal_site, nobody))) = as_alice) as E
      by (vm_compute; reflexivity). by rewrite H in E. }
  exists o, w', s'. split; [reflexivity|]. split; [exact Hs|].
  destruct (only_super_admins_sign_in (admin_login "alice@example.org" "pw-alice") portal_site nobody o w' s' (A_login _ _) H)
    as ([E|[E|(name & pw & id & u & Hu & _ & _ & Ha & Hr & E)]] & _).
  - rewrite Hs in E. discriminate E.
  - rewrite Hs in E. discriminate E.
  - exists id, u. split; [exact Hu|]. split; [exact Ha|]. split; [exact Hr|exact E].
Defined.

(** Alice deactivates the key from the portal, with the object injected today. *)
Lemma portal_revocation_is_immediate_witness : exists ws w2,
  portal_revoke ApiKeyProps.its_id P_deactivate (ApiKeyProps.used_once, as_alice) = (Ok tt, ws) /\
  ApiKeys.ApiKeyService.verify_api_key ApiKeyProps.its_text None
    (set_now 1100 (fst ws)) = (Ok None, w2).
Proof.
  destruct (portal_revoke ApiKeyProps.its_id P_deactivate (ApiKeyProps.used_once, as_alice)) as [[[]|e] ws] eqn:H.
  2:{ assert (is_ok (fst (portal_revoke ApiKeyProps.its_id P_deactivate (ApiKeyProps.used_once, as_alice))) = true)
        as Hok by (vm_compute; reflexivity). by rewrite H in Hok. }
  exists ws.
  assert (Schema.api_keys (db ApiKeyProps.used_once) = {[ApiKeyProps.its_id := ApiKeyProps.its_row]}) as Hrows
    by (vm_compute; reflexivity).
  destruct (portal_revocation_is_immediate ApiKeyProps.its_id ApiKeyProps.its_id
    ApiKeyProps.its_row P_deactivate ApiKeyProps.its_text None ApiKeyProps.used_once as_alice ws 1100) as (w2 & Hw2).
  - vm_compute. reflexivity.
  - vm_compute. reflexivity.
  - vm_compute. reflexivity.
  - rewrite Hrows, <- ApiKeyProps.one_key_row. apply ApiKeyProps.one_key_wf.
  - rewrite Hrows. apply lookup_singleton_eq.
  - reflexivity.
  - discriminate.
  - exact I.
  - exact H.
  - vm_compute. discriminate.
  - exists w2. split; [reflexivity|exact Hw2].
Defined.

(** Twenty permissions whose identifiers are greater than those of the site. *)
Definition later_permissions : list Permission :=
  (fun n => permission ("q" +:+ pretty (Z.of_nat n)) ("extra:" +:+ pretty (Z.of_nat n))) <$> seq 10 20.

Definition with_permissions (l : list Permission) (t : Tables) : Tables :=
  {| users := users t; user_identities := user_identities t; user_sessions := user_sessions t;
     permissions := list_to_map ((fun p => (p_id p, p)) <$> l) ∪ permissions t; roles := roles t;
     role_permissions := role_permissions t; user_roles := user_roles t; user_two_factor := user_two_factor t;
     system_configurations := system_configurations t; app_versions := app_versions t;
     Schema.api_keys := Schema.api_keys t; webhook_endpoints := webhook_endpoints t; webhook_logs := webhook_logs t;
     dead_letter_tasks := dead_letter_tasks t; periodic_tasks := periodic_tasks t; user_devices := user_devices t |}.

Definition grown_site : World MapRedis.t := set_db (with_permissions later_permissions) site.

(** The form of Editor, saved as it was shown. *)
Definition unchanged : RoleForm :=
  {| rf_name := Some "Editor"; rf_description := None; rf_permissions := Some ["users:update"] |}.

(** Editor could update users, and after its form is saved it cannot. *)
Lemma role_form_replaces_permissions_witness : exists o w' s',
  RoleAdminView.edit editor_id unchanged (grown_site, as_alice) = (Ok o, (w', s')) /\
  held (db grown_site) editor_id "p1" /\ ~ held (db w') editor_id "p1".
Proof.
  destruct (RoleAdminView.edit editor_id unchanged (grown_site, as_alice)) as [[o|e] [w' s']] eqn:H.
  2:{ assert (is_ok (fst (RoleAdminView.edit editor_id unchanged (grown_site, as_alice))) = true) as Hok
        by (vm_compute; reflexivity). by rewrite H in Hok. }
  exists o, w', s'. split; [reflexivity|]. split.
  - unfold held. vm_compute. reflexivity.
  - destruct (role_form_replaces_permissions editor_id editor_id unchanged ["users:update"] grown_site as_alice o w' s')
      as (_ & _ & Hgone); [vm_compute; reflexivity|vm_compute; reflexivity|reflexivity|exact H|].
    apply Hgone. assert (mem "p1" (p_id <$> known_permissions (db grown_site)) = false) as Hm by (vm_compute; reflexivity).
    intros Hin. apply mem_true in Hin. rewrite Hin in Hm. discriminate Hm.
Defined.
