(* ===== verification/AdminQueryProps.v ===== *)
(** * Theorems on the log queries of the admin portal

    The count of a filtered log asks for the rows the list pages through; which
    filters reach a query and which do not. *)

From Stdlib Require Import ZArith Lia Ascii String List Bool.
From stdpp Require Import base gmap strings sorting list pretty.
From S2P Require Import Prelude Redis Schema JsonText World Tokens Users Notifications Admin AdminQueries AuthLemmas.
From S2P Require Webhooks NotificationProps.
Local Open Scope string_scope.
Local Open Scope list_scope.
Local Open Scope Z_scope.

(** ** Texts *)

(** A text that ends in no white space. *)
Definition ends_tight (s : string) : Prop := rstrip s = s /\ s <> "".

Lemma rstrip_app a b : rstrip b <> "" -> rstrip (a +:+ b) = a +:+ rstrip b.
Proof.
  intros Hb. induction a as [|c a IH]; [done|]. change (String c a +:+ b) with (String c (a +:+ b)).
  cbn [rstrip]. rewrite IH. change (String c a +:+ rstrip b) with (String c (a +:+ rstrip b)).
  destruct a; [|done]. by destruct (rstrip b).
Qed.

Lemma rstrip_space s : rstrip (s +:+ " ") = rstrip s.
Proof. induction s as [|c s IH]; [done|]. change (String c s +:+ " ") with (String c (s +:+ " ")). cbn [rstrip]. by rewrite IH. Qed.

Lemma tight_app a b : ends_tight b -> ends_tight (a +:+ b).
Proof. intros [Hb Hne]. split; [rewrite rstrip_app; congruence|]. by destruct a. Qed.

Lemma digits_all s : all_digits s = true -> all_chars is_digit s = true.
Proof. induction s as [|c s IH]; [done|]. simpl. intros [Hc Hs]%andb_prop. by rewrite Hc, IH. Qed.

Lemma tight_digits s : all_digits s = true -> s <> "" -> ends_tight s.
Proof.
  intros Hs Hne. split; [|done]. apply rstrip_clean. eapply all_chars_impl; [|by apply digits_all].
  intros c Hc. unfold is_digit, is_space in *. apply andb_prop in Hc as [Hc%Nat.leb_le _].
  apply negb_true_iff, orb_false_intro; apply andb_false_intro2, Nat.leb_gt; lia.
Qed.

Lemma ph_digits i : all_digits (pretty (Z.of_nat i)) = true /\ pretty (Z.of_nat i) <> "".
Proof.
  destruct i as [|i]; [done|]. change (pretty (Z.of_nat (S i))) with (pretty (N.of_nat (S i))).
  split; [apply pretty_digits|]. unfold pretty, pretty_N. case_decide; [done|].
  destruct (pretty_go_digits (N.of_nat (S i)) "" ltac:(lia)) as (c & d & -> & _). done.
Qed.

Lemma ph_tight i : ends_tight (ph i).
Proof. apply tight_app. destruct (ph_digits i). by apply tight_digits. Qed.

Lemma join_tight sep l : l <> [] -> Forall ends_tight l -> ends_tight (join sep l).
Proof.
  intros Hne Hl. induction Hl as [|x l Hx Hl IH]; [done|]. destruct l as [|y l]; [done|].
  change (join sep (x :: y :: l)) with (x +:+ (sep +:+ join sep (y :: l))). by apply tight_app, tight_app, IH.
Qed.

(** No letter of the mark ORDER BY that ends a condition. *)
Definition no_mark (s : string) : bool := all_chars (fun c => negb (Ascii.eqb c "B")) s.

Lemma ph_no_mark i : no_mark (ph i) = true.
Proof.
  unfold no_mark, ph. rewrite all_chars_app. cbn. eapply all_chars_impl; [|apply digits_all, ph_digits].
  intros c Hc. apply negb_true_iff, Ascii.eqb_neq. by intros ->.
Qed.

Lemma no_early_mark c a b : no_mark (String c a) = true -> String.prefix "ORDER BY" (String c (a +:+ ("ORDER BY" +:+ b))) = false.
Proof.
  intros H. destruct (String.prefix _ _) eqn:E; [exfalso|done].
  rewrite (app_cons "O" "RDER BY") in E.
  do 6 (let x := fresh "x" in destruct a as [|x a];
    [rewrite ?app_cons in E; cbn in E; repeat (case_match; try done)|rewrite ?app_cons in E]).
  destruct a as [|y a]; rewrite ?app_cons in E; cbn in E; repeat (case_match; subst; try done).
Qed.

Lemma split_order_by a b : no_mark a = true -> exists r, split_once "ORDER BY" (a +:+ ("ORDER BY" +:+ b)) = Some (a, r).
Proof.
  induction a as [|c a IH]; intros Ha; [change ("" +:+ ?t) with t; rewrite ?app_cons; eexists; cbn; by rewrite str_prefix_nil|].
  pose proof (no_early_mark c a b Ha) as Hp. cbn [no_mark all_chars] in Ha. apply andb_prop in Ha as [_ Ha].
  destruct (IH Ha) as [r Hr].
  change (String c a +:+ ("ORDER BY" +:+ b)) with (String c (a +:+ ("ORDER BY" +:+ b))).
  exists r. cbn [split_once]. by rewrite Hp, Hr.
Qed.

(** ** Conditions *)

Section cond_ind.
Context (P : Cond -> Prop).
Hypotheses (Htrue : P C_true) (Heq : forall c i, P (C_eq c i)) (Huuid : forall c i, P (C_uuid c i))
  (Hfrom : forall c i, P (C_from c i)) (Hto : forall c i, P (C_to c i)) (Hilike : forall c i, P (C_ilike c i))
  (Hall : forall l, Forall P l -> P (C_all l)) (Hany : forall l, Forall P l -> P (C_any l)).

Fixpoint Cond_ind' (c : Cond) : P c :=
  let fix each (l : list Cond) : Forall P l :=
    match l with [] => Forall_nil_2 P | c :: l' => Forall_cons_2 P c l' (Cond_ind' c) (each l') end in
  match c with
  | C_true => Htrue
  | C_eq c i => Heq c i
  | C_uuid c i => Huuid c i
  | C_from c i => Hfrom c i
  | C_to c i => Hto c i
  | C_ilike c i => Hilike c i
  | C_all l => Hall l (each l)
  | C_any l => Hany l (each l)
  end.
End cond_ind.

(** The placeholders of a condition are among the first [n], its columns have no
    letter of the mark, and a conjunction is not empty. *)
Fixpoint sound (n : nat) (c : Cond) : bool :=
  let at_most i := (1 <=? i)%nat && (i <=? n)%nat in
  match c with
  | C_true => true
  | C_eq c i | C_uuid c i | C_from c i | C_to c i | C_ilike c i => no_mark c && at_most i
  | C_all l => negb (bool_decide (l = [])) && forallb (sound n) l
  | C_any l => forallb (sound n) l
  end.

Lemma sound_list n l (P : Cond -> Prop) :
  Forall (fun c => sound n c = true -> P c) l -> forallb (sound n) l = true -> Forall P l.
Proof. intros H Hl%forallb_Forall. induction H as [|c l Hc _ IH]; [done|]. apply Forall_cons in Hl as [? Hl]. auto. Qed.

Lemma sound_mono n m c : (n <= m)%nat -> sound n c = true -> sound m c = true.
Proof.
  intros Hnm. induction c as [|c i|c i|c i|c i|c i|l IH|l IH] using Cond_ind'; cbn [sound]; try done.
  1-5: intros [-> [H1 H2%Nat.leb_le]%andb_prop]%andb_prop; rewrite H1; cbn; apply Nat.leb_le; lia.
  - intros [-> Hl]%andb_prop. cbn. apply forallb_forall. intros x Hx%list_elem_of_In.
    by apply (proj1 (Forall_forall _ _) (sound_list _ _ _ IH Hl)).
  - intros Hl. apply forallb_forall. intros x Hx%list_elem_of_In. by apply (proj1 (Forall_forall _ _) (sound_list _ _ _ IH Hl)).
Qed.

Lemma no_mark_app a b : no_mark (a +:+ b) = no_mark a && no_mark b.
Proof. apply all_chars_app. Qed.

Lemma join_no_mark sep l : no_mark sep = true -> Forall (fun s => no_mark s = true) l -> no_mark (join sep l) = true.
Proof. apply join_all. Qed.

Lemma render_no_mark n c : sound n c = true -> no_mark (render c) = true.
Proof.
  induction c as [|c i|c i|c i|c i|c i|l IH|l IH] using Cond_ind'; cbn [sound render]; [done|..].
  1-5: intros [Hc _]%andb_prop; rewrite !no_mark_app, Hc, ph_no_mark; reflexivity.
  - intros [_ Hl]%andb_prop. apply join_no_mark; [done|]. apply Forall_map. by eapply sound_list.
  - intros Hl. rewrite !no_mark_app, join_no_mark; [done|done|]. apply Forall_map. by eapply sound_list.
Qed.

Lemma render_tight n c : sound n c = true -> ends_tight (render c).
Proof.
  induction c as [|c i|c i|c i|c i|c i|l IH|l IH] using Cond_ind'; cbn [sound render]; [by split|..].
  1-5: intros _; repeat first [apply ph_tight|by split|apply tight_app].
  - intros [Hne%negb_true_iff Hl]%andb_prop. apply bool_decide_eq_false in Hne. apply join_tight; [by destruct l|].
    apply Forall_map. by eapply sound_list.
  - intros _. repeat first [by split|apply tight_app].
Qed.

(** Parameters that no placeholder names do not matter. *)
Lemma holds_extra row params extra c :
  sound (length params) c = true -> cond_holds row (params ++ extra) c = cond_holds row params c.
Proof.
  assert (forall i, (1 <=? i)%nat && (i <=? length params)%nat = true -> param (params ++ extra) i = param params i) as Hp.
  { intros i [H1%Nat.leb_le H2%Nat.leb_le]%andb_prop. unfold param. apply lookup_app_l. lia. }
  induction c as [|c i|c i|c i|c i|c i|l IH|l IH] using Cond_ind'; cbn [sound cond_holds]; [done|..].
  1-5: intros [_ Hi]%andb_prop; by rewrite Hp.
  - intros [_ Hl]%andb_prop. eapply sound_list in IH; [|exact Hl]. induction IH as [|c l Hc _ IHl]; [done|].
    cbn in Hl. apply andb_prop in Hl as [_ Hl]. cbn [forallb]. by rewrite Hc, IHl.
  - intros Hl. eapply sound_list in IH; [|exact Hl]. induction IH as [|c l Hc _ IHl]; [done|].
    cbn in Hl. apply andb_prop in Hl as [_ Hl]. cbn [existsb]. by rewrite Hc, IHl.
Qed.

(** ** The text of a query *)

(** Whether a text can go on so that it begins with the mark. *)
Fixpoint may_begin (mark s : string) : bool :=
  match mark, s with
  | String a mark', String b s' => Ascii.eqb a b && may_begin mark' s'
  | _, _ => true
  end.

(** Whether the mark can begin inside a text that the mark follows. *)
Fixpoint begins_early (mark s : string) : bool :=
  match s with EmptyString => false | String c s' => may_begin mark (s +:+ mark) || begins_early mark s' end.

Lemma may_begin_prefix mark s rest : may_begin mark s = false -> String.prefix mark (s +:+ rest) = false.
Proof.
  revert s. induction mark as [|a mark IH]; intros [|b s]; cbn [may_begin]; try done. rewrite app_cons. cbn [String.prefix].
  destruct (ascii_dec a b) as [->|Hne]; [|done]. rewrite Ascii.eqb_refl. apply IH.
Qed.

Lemma split_first mark pre rest :
  mark <> "" -> begins_early mark pre = false -> split_once mark (pre +:+ (mark +:+ rest)) = Some (pre, rest).
Proof.
  intros Hm. induction pre as [|c pre IH]; intros He.
  - change ("" +:+ (mark +:+ rest)) with (mark +:+ rest). pose proof (str_prefix_app mark rest) as Hp.
    pose proof (substring_after mark rest) as Hs. destruct (mark +:+ rest) eqn:E; cbn [split_once]; rewrite Hp; by rewrite Hs.
  - cbn [begins_early] in He. apply orb_false_elim in He as [H1 H2]. apply (may_begin_prefix _ _ rest) in H1.
    rewrite <- string_app_assoc in H1. rewrite app_cons in H1 |- *. cbn [split_once]. by rewrite H1, IH.
Qed.

(** What follows WHERE and precedes ORDER BY, less its white space. *)
Lemma where_of_text pre blanks clause rest :
  begins_early "WHERE" pre = false -> lstrip (blanks +:+ clause) = clause -> ends_tight clause ->
  no_mark blanks = true -> no_mark clause = true ->
  where_of (pre +:+ ("WHERE" +:+ ((blanks +:+ (clause +:+ " ")) +:+ ("ORDER BY" +:+ rest)))) = Ok clause.
Proof.
  intros Hpre Hl Ht Hb Hc. unfold where_of. rewrite split_first by done.
  destruct (split_order_by (blanks +:+ (clause +:+ " ")) rest) as [r Hr]; [by rewrite !no_mark_app, Hb, Hc|].
  rewrite Hr. f_equal. unfold strip. rewrite string_app_assoc, rstrip_space.
  by rewrite (proj1 (tight_app blanks clause Ht)).
Qed.

Lemma where_clause_sound n l : l <> [] -> forallb (sound n) l = true ->
  ends_tight (where_clause l) /\ no_mark (where_clause l) = true.
Proof.
  intros Hne Hl%forallb_Forall. split.
  - apply join_tight; [by destruct l|]. apply Forall_map. eapply Forall_impl; [exact Hl|]. apply render_tight.
  - apply join_no_mark; [done|]. apply Forall_map. eapply Forall_impl; [exact Hl|]. apply render_no_mark.
Qed.

Lemma query_shape front pre blanks clause order tail :
  front +:+ " " = pre +:+ ("WHERE" +:+ blanks) ->
  front +:+ (" " +:+ (clause +:+ (" " +:+ (("ORDER BY" +:+ order) +:+ tail)))) =
  pre +:+ ("WHERE" +:+ ((blanks +:+ (clause +:+ " ")) +:+ ("ORDER BY" +:+ (order +:+ tail)))).
Proof. intros Hf. rewrite (string_app_assoc front " "), Hf. by rewrite !string_app_assoc. Qed.

(** A clause that begins with no white space. *)
Lemma where_clause_head s c r l : render c = String s r -> exists r', where_clause (c :: l) = String s r'.
Proof. intros H. unfold where_clause. cbn [map join String.concat]. rewrite H. destruct (map render l); eexists; [reflexivity|by rewrite app_cons]. Qed.

Section logs.
Context {NX : NotifyExt} {DX : DateExt}.

(** Conditions with placeholders among the parameters, the first of them as given. *)
Definition well_built (first : Cond) (s : list Cond * list Param) : Prop :=
  exists l, fst s = first :: l /\ forallb (sound (length (snd s))) (fst s) = true.

Lemma sound_all_mono n m l : (n <= m)%nat -> forallb (sound n) l = true -> forallb (sound m) l = true.
Proof. intros Hnm. induction l as [|c l IH]; [done|]. cbn. intros [Hc Hl]%andb_prop. by rewrite (sound_mono n), IH. Qed.

Lemma built_more first cs ps c ps' :
  well_built first (cs, ps) -> sound (length (ps ++ ps')) c = true -> well_built first (cs ++ [c], ps ++ ps').
Proof.
  intros (l & Hl & Hs) Hc. exists (l ++ [c]). split; [cbn in *; by rewrite Hl|]. cbn in *.
  rewrite forallb_app. cbn. rewrite Hc, (sound_all_mono (length ps)); [done|rewrite length_app; lia|done].
Qed.

(** The placeholder of the next parameter. *)
Lemma sound_next (ps : list Param) p : (1 <=? S (length ps))%nat && (S (length ps) <=? length (ps ++ [p]))%nat = true.
Proof. rewrite length_app. apply andb_true_intro. split; apply Nat.leb_le; cbn; lia. Qed.

Lemma rule_conditions_built rules first cs ps :
  well_built first (cs, ps) -> well_built first (WebhookLogAdminView.rule_conditions rules cs ps).
Proof.
  revert cs ps. induction rules as [|r rules IH]; intros cs ps Hb; cbn [WebhookLogAdminView.rule_conditions]; [done|].
  destruct (mem (fr_field r) _ && _) eqn:E; [|auto]. apply IH, built_more; [done|].
  apply andb_prop in E as [Hf _]. cbn [sound]. rewrite sound_next, andb_true_r. apply mem_true in Hf.
  repeat (apply elem_of_cons in Hf as [->|Hf]; [done|]). by apply elem_of_nil in Hf.
Qed.

Lemma webhook_conditions_built now filters q s :
  WebhookLogAdminView.filter_conditions now filters q = Ok s -> well_built C_true s.
Proof.
  unfold WebhookLogAdminView.filter_conditions.
  pose proof (rule_conditions_built (rules_of filters) C_true [C_true] []) as Hb.
  destruct (WebhookLogAdminView.rule_conditions _ _ _) as [cs ps]. specialize (Hb (ex_intro _ [] (conj eq_refl eq_refl))).
  intros ([a b] & _ & H)%obind_ok_inv.
  assert (well_built C_true (cs ++ [C_all [C_from "created_at" (length (ps ++ [P_time a; P_time b]) - 1);
    C_to "created_at" (length (ps ++ [P_time a; P_time b]))]], ps ++ [P_time a; P_time b])) as Hb2.
  { apply built_more; [done|]. rewrite length_app. cbn [length sound forallb].
    change (no_mark "created_at") with true. cbn [andb negb]. rewrite andb_true_r.
    repeat (apply andb_true_intro; split); try apply Nat.leb_le; try lia. done. }
  injection H as <-. destruct (searching q) as [text|]; [|exact Hb2].
  apply built_more; [exact Hb2|]. cbn [sound WebhookLogAdminView.search_columns map forallb]. by rewrite !sound_next.
Qed.

Lemma with_param_built {A} (v : option A) p c first s :
  (forall i, sound i (c i) = (1 <=? i)%nat) -> well_built first s ->
  well_built first (AuditLogAdminView.with_param v p c s).
Proof.
  intros Hc Hb. destruct v as [a|]; [|done]. destruct s as [cs ps]. apply built_more; [done|].
  rewrite length_app. cbn [length]. rewrite Nat.add_1_r. apply Hc.
Qed.

Lemma audit_conditions_built now filters q s :
  AuditLogAdminView.filter_conditions now filters q = Ok s -> well_built (C_from "a.created_at" 1) s.
Proof.
  unfold AuditLogAdminView.filter_conditions. intros (f & _ & [= <-])%obind_ok_inv.
  match goal with |- well_built _ (AuditLogAdminView._build_search_clause q ?s0) =>
    assert (well_built (C_from "a.created_at" 1) s0) as Hb; [|destruct s0 as [cs ps]] end.
  { repeat (apply with_param_built;
      [intros i; cbn [sound forallb]; rewrite ?(Nat.leb_refl i), ?andb_true_r; by destruct i|]).
    by eexists. }
  unfold AuditLogAdminView._build_search_clause. destruct (searching q) as [text|]; [|done].
  destruct (parse_uuid text) as [u|]; apply built_more; try done; cbn [sound map forallb AuditLogAdminView.search_columns app];
    rewrite length_app; cbn [length]; repeat (apply andb_true_intro; split); try done; apply Nat.leb_le; lia.
Qed.

(** C34: The count of a filtered log cuts its condition out of the text of the list's
    query, between WHERE and ORDER BY, and drops the last two parameters.  For both
    logs, every filter, every search text and every page, the text cut out is the
    condition the list filters by, the parameters dropped are the limit and the
    offset, and with the parameters kept the condition selects the same rows: count
    and list cannot disagree, whatever a user types. *)
Theorem log_count_matches_list now filters limit skip q text params :
  (WebhookLogAdminView._build_filter_query now filters limit skip q = Ok (text, params) ->
   exists conditions filter_params,
     WebhookLogAdminView.filter_conditions now filters q = Ok (conditions, filter_params) /\
     params = filter_params ++ [P_int limit; P_int skip] /\ where_of text = Ok (where_clause conditions) /\
     forall l, forallb (cond_holds (log_column l) params) conditions =
               forallb (cond_holds (log_column l) filter_params) conditions) /\
  (AuditLogAdminView._build_filter_query now filters limit skip q = Ok (text, params) ->
   exists conditions filter_params,
     AuditLogAdminView.filter_conditions now filters q = Ok (conditions, filter_params) /\
     params = filter_params ++ [P_int limit; P_int skip] /\ where_of text = Ok (where_clause conditions) /\
     forall t a, forallb (cond_holds (audit_column t a) params) conditions =
                 forallb (cond_holds (audit_column t a) filter_params) conditions).
Proof.
  assert (forall row cs ps extra, forallb (sound (length ps)) cs = true ->
    forallb (cond_holds row (ps ++ extra)) cs = forallb (cond_holds row ps) cs) as Hrows.
  { intros row cs ps extra. induction cs as [|c cs IH]; [done|]. cbn. intros [Hc Hcs]%andb_prop.
    by rewrite holds_extra, IH. }
  split.
  - intros ([cs ps] & E & [= <- <-])%obind_ok_inv. exists cs, ps.
    destruct (webhook_conditions_built _ _ _ _ E) as (l & Hl & Hs). cbn [fst snd] in *. split_and!; [done|done| |auto].
    destruct (where_clause_sound (length ps) cs) as [Ht Hn]; [by rewrite Hl|done|].
    destruct (where_clause_head "1" C_true "=1" l eq_refl) as [r Hr]. rewrite <- Hl in Hr.
    erewrite (query_shape "SELECT * FROM webhook_logs WHERE" "SELECT * FROM webhook_logs " " " _ " created_at DESC LIMIT")
      by done.
    apply where_of_text; try done. by rewrite Hr.
  - intros ([cs ps] & E & [= <- <-])%obind_ok_inv. exists cs, ps.
    destruct (audit_conditions_built _ _ _ _ E) as (l & Hl & Hs). cbn [fst snd] in *. split_and!; [done|done| |auto].
    destruct (where_clause_sound (length ps) cs) as [Ht Hn]; [by rewrite Hl|done|].
    destruct (where_clause_head "a" (C_from "a.created_at" 1) ".created_at >= $1" l eq_refl) as [r Hr]. rewrite <- Hl in Hr.
    erewrite (query_shape AuditLogAdminView.SELECT_AUDIT
      (String.substring 0 (String.length AuditLogAdminView.SELECT_AUDIT - 6) AuditLogAdminView.SELECT_AUDIT) "  " _
      " a.created_at DESC LIMIT") by (vm_compute; reflexivity).
    apply where_of_text; try done. by rewrite Hr.
Qed.
End logs.

(** ** Which filters reach a query *)

Definition with_filter (name : string) (r : FilterRule) : FilterRule :=
  {| fr_field := fr_field r; fr_filter := name; fr_value := fr_value r; fr_value2 := fr_value2 r |}.

(** The comparison a rule asks for is not looked at: "contains", "not equal" and
    the others all match the text exactly. *)
Lemma comparison_is_ignored name rules cs ps :
  WebhookLogAdminView.rule_conditions (map (with_filter name) rules) cs ps =
  WebhookLogAdminView.rule_conditions rules cs ps.
Proof. revert cs ps. induction rules as [|r rules IH]; intros cs ps; [done|]. cbn. by destruct (_ && _). Qed.

(** The rules of a nested group do not reach a query. *)
Lemma nested_group_is_ignored l fs : rules_of (Some (F_group l :: fs)) = rules_of (Some fs).
Proof. done. Qed.

(** ** Concrete runs *)

(** Dates are numbers of days here. *)
Definition days : DateExt := {| fromisoformat := fun _ => Some 86400; str_time := fun t => pretty t |}.

#[local] Existing Instance NotificationProps.concrete_notify.

(** A search for a text that holds the words of the query. *)
Lemma log_count_matches_list_witness : exists text params,
  WebhookLogAdminView._build_filter_query (DX := days) 1000 (Some [F_rule {| fr_field := "status"; fr_filter := "eq";
    fr_value := V_text "FAILED"; fr_value2 := V_none |}]) 25 0 (Some "WHERE ORDER BY") = Ok (text, params) /\
  where_of text = Ok ("1=1 AND status = $1 AND created_at >= $2 AND created_at <= $3 AND " +:+
    "(event_name ILIKE $4 OR source ILIKE $4 OR url ILIKE $4 OR error_message ILIKE $4)") /\
  params !! 3%nat = Some (P_text "%WHERE ORDER BY%").
Proof.
  destruct (WebhookLogAdminView._build_filter_query (DX := days) 1000 _ 25 0 _) as [[text params]|e] eqn:H; [|discriminate H].
  exists text, params. split; [reflexivity|].
  destruct (proj1 (log_count_matches_list (DX := days) _ _ _ _ _ _ _) H) as (cs & ps & Hf & -> & Hw & _).
  assert (WebhookLogAdminView.filter_conditions (DX := days) 1000 (Some [F_rule {| fr_field := "status"; fr_filter := "eq";
    fr_value := V_text "FAILED"; fr_value2 := V_none |}]) (Some "WHERE ORDER BY") = Ok (cs, ps)) as E by exact Hf.
  vm_compute in E. injection E as <- <-. split; [rewrite Hw; vm_compute; reflexivity|vm_compute; reflexivity].
Defined.
