(* ===== verification/WebSocketProps.v ===== *)
(** * Theorems on WebSocket connections

    A worker listens to the channel of a user exactly while the user is connected,
    and a message for the user reaches every connection; but connections that open
    while the first one waits for the broadcast channel lose the user's channel. *)

From Stdlib Require Import ZArith Lia Ascii String List Bool.
From stdpp Require Import base gmap strings list.
From S2P Require Import Prelude Redis Schema World Notifications WebSockets AuthLemmas.
From S2P Require NotificationProps.
Local Open Scope string_scope.
Local Open Scope list_scope.

Section dict.
Implicit Types (u v : uuid) (l : list (uuid * list Socket)).

Lemma connections_set u v cs l :
  connections u (set_connections v cs l) = if String.eqb v u then Some cs else connections u l.
Proof.
  unfold connections. induction l as [|[x ds] l IH]; cbn; [by destruct (String.eqb v u)|].
  destruct (String.eqb x v) eqn:Ex; cbn.
  - apply String.eqb_eq in Ex as ->. by destruct (String.eqb v u).
  - destruct (String.eqb x u) eqn:Eu; [|done]. apply String.eqb_eq in Eu as ->.
    by rewrite String.eqb_sym, Ex.
Qed.

Lemma connections_del u v l :
  connections u (del_connections v l) = if String.eqb v u then None else connections u l.
Proof.
  unfold connections, del_connections. induction l as [|[x ds] l IH]; [by destruct (String.eqb v u)|].
  rewrite filter_cons. case_decide as Hx; cbn in *.
  - destruct (String.eqb x u) eqn:Eu; [|exact IH]. apply String.eqb_eq in Eu as ->.
    destruct (String.eqb_spec v u) as [->|]; done.
  - rewrite IH. assert (x = v) as -> by (destruct (decide (x = v)); naive_solver). by destruct (String.eqb v u).
Qed.

Lemma remove_first_app s (before after : list Socket) :
  s ∉ before -> remove_first s (before ++ s :: after) = before ++ after.
Proof.
  induction before as [|x before IH]; cbn; intros Hs; [by rewrite Nat.eqb_refl|].
  destruct (s =? x)%nat eqn:E; [apply Nat.eqb_eq in E as ->; destruct Hs; left|].
  rewrite IH; [done|]. intros Hin. destruct Hs. by right.
Qed.
End dict.

Section manager.
Context {NX : NotifyExt}.
Implicit Types (w : Worker) (u v : uuid) (s : Socket).

Definition conn w u : option (list Socket) := connections u (active_connections (manager w)).
Definition subscribed w (c : string) : Prop := c ∈ default [] (pubsub (manager w)).

(** No connection and no listener yet, or a listener that hears the broadcast
    channel and the channels of the connected users, and no others'. *)
Record synced w : Prop := {
  synced_faults : command_faults w = [];
  synced_nonempty : forall u cs, conn w u = Some cs -> cs <> [];
  synced_channels : forall u, subscribed w (user_channel u) <-> is_Some (conn w u);
  synced_listener : listening (manager w) = true /\ subscribed w BROADCAST \/
                    (forall u, conn w u = None) /\ listening (manager w) = false /\ pubsub (manager w) = None;
}.

Lemma user_channel_inj u v : user_channel u = user_channel v -> u = v.
Proof. intros H. by apply (String.app_inj "notifications:user:") in H. Qed.

Lemma user_not_broadcast u : user_channel u <> BROADCAST.
Proof. done. Qed.

Lemma command_run f w : command_faults w = [] -> command f w = (Ok tt, f w).
Proof. intros H. unfold command. by rewrite H. Qed.

(** ** Connecting *)

(** What a connection to a user leaves. *)
Lemma subscribe_first_run u w chs cs :
  command_faults w = [] -> pubsub (manager w) = Some chs -> conn w u = Some cs ->
  exists chs', subscribe_first u w = (Ok tt, set_pubsub (Some chs') w) /\
    forall c, c ∈ chs' <-> c ∈ chs \/ c = user_channel u /\ length cs = 1%nat.
Proof.
  intros Hf Hp Hc. unfold subscribe_first, bind at 1, gets. unfold conn in Hc. rewrite Hc.
  destruct (length cs =? 1)%nat eqn:E.
  - apply Nat.eqb_eq in E. unfold with_pubsub, bind, gets. rewrite Hp. unfold subscribe.
    rewrite command_run by done. rewrite Hp. cbn [fmap option_fmap option_map]. destruct (mem _ chs) eqn:Em.
    + exists chs. split; [done|]. intros c. split; [by left|]. intros [?|[-> _]]; [done|]. by apply mem_true.
    + eexists. split; [reflexivity|]. intros c. rewrite elem_of_app, list_elem_of_singleton. naive_solver.
  - apply Nat.eqb_neq in E. exists chs. split; [|naive_solver].
    unfold ret. f_equal. unfold set_pubsub, set_manager. destruct w as [[] ? ? ?]; cbn in *. by subst.
Qed.

Lemma connect_run s u w : synced w -> exists w', connect s u w = (Ok tt, w') /\ synced w' /\
  conn w' u = Some (default [] (conn w u) ++ [s]) /\ (forall v, v <> u -> conn w' v = conn w v) /\
  listening (manager w') = true /\ texts w' = texts w /\ gone_sockets w' = gone_sockets w.
Proof.
  intros [Hf Hne Hch Hl]. unfold connect, connect_begin.
  set (cs := default [] (conn w u) ++ [s]). unfold bind at 1 2, modify.
  set (w1 := set_active _ w).
  assert (forall v, conn w1 v = if String.eqb u v then Some cs else conn w v) as Hc1 by (intros v; apply connections_set).
  assert (conn w1 u = Some cs) as Hu by (by rewrite Hc1, String.eqb_refl).
  assert (length cs = 1%nat <-> conn w u = None) as Hlen.
  { unfold cs. destruct (conn w u) as [ds|] eqn:E; cbn; [|done]. pose proof (Hne _ _ E). destruct ds; [done|].
    rewrite length_app. cbn. split; [lia|done]. }
  assert (forall chs chs' b, pubsub (manager w) = Some chs \/ pubsub (manager w) = None /\ chs = [BROADCAST] ->
    BROADCAST ∈ chs -> (forall c, c ∈ chs' <-> c ∈ chs \/ c = user_channel u /\ length cs = 1%nat) ->
    synced (set_pubsub (Some chs') (set_listening b (set_pubsub (Some chs) w1))) \/ b = false) as Hs.
  { intros chs chs' [] Hp Hb Hx; [left|by right]. split.
    - done.
    - intros v ds. change (conn _ v) with (conn w1 v). rewrite Hc1. destruct (String.eqb u v); [|apply Hne].
      intros [= <-]. unfold cs. by destruct (default [] (conn w u)).
    - intros v. change (user_channel v ∈ chs' <-> is_Some (conn w1 v)). rewrite Hx, Hc1.
      assert (user_channel v ∈ chs <-> is_Some (conn w v)) as Hv.
      { rewrite <- Hch. unfold subscribed. destruct Hp as [->|[-> ->]]; [done|]. cbn. rewrite list_elem_of_singleton.
        split; [done|]. intros H. by apply elem_of_nil in H. }
      destruct (String.eqb_spec u v) as [<-|Hnv].
      + rewrite Hv. destruct (conn w u) eqn:E; [naive_solver|]. split; [eauto|]. intros _. right. by rewrite Hlen.
      + rewrite Hv. split; [|by left]. intros [?|[E _]]; [done|]. by apply user_channel_inj in E.
    - left. split; [done|]. change (BROADCAST ∈ chs'). rewrite Hx. by left. }
  destruct Hl as [[Hl Hb]|(Hnone & Hl & Hp)].
  - unfold subscribed in Hb. destruct (pubsub (manager w)) as [chs|] eqn:Hp; [|by apply elem_of_nil in Hb].
    destruct (subscribe_first_run u w1 chs cs Hf Hp Hu) as (chs' & Hrun & Hx).
    unfold bind at 1. unfold gets at 1. change (listening (manager w1)) with (listening (manager w)). rewrite Hl.
    rewrite (bind_ok _ _ _ _ _ Hrun). eexists. split; [reflexivity|].
    destruct (Hs chs chs' true) as [Hw|]; [by left|done|done| |done].
    assert (set_pubsub (Some chs') (set_listening true (set_pubsub (Some chs) w1)) = set_pubsub (Some chs') w1) as E
      by (unfold set_pubsub, set_listening, set_manager; cbn; by rewrite Hl).
    rewrite E in Hw. split_and!; [done|done| |done|done|done]. intros v Hv. change (conn w1 v = conn w v). rewrite Hc1.
    by destruct (String.eqb_spec u v).
  - unfold bind at 1. unfold gets at 1. change (listening (manager w1)) with (listening (manager w)). rewrite Hl.
    change (pubsub (manager w1)) with (pubsub (manager w)).
    unfold bind at 1, modify. cbn [manager set_pubsub set_manager pubsub].
    change (pubsub (manager w1)) with (pubsub (manager w)). rewrite Hp. cbn [default].
    unfold subscribe, bind at 1. rewrite command_run by done. unfold ret at 1.
    unfold connect_resume, bind, modify. cbn -[subscribe_first].
    match goal with |- context [subscribe_first u ?x] => set (w2 := x) end.
    destruct (subscribe_first_run u w2 [BROADCAST] cs) as (chs' & Hrun & Hx); [done|done|done|]. rewrite Hrun.
    eexists. split; [reflexivity|].
    destruct (Hs [BROADCAST] chs' true) as [Hw|]; [by right|left|done| |done].
    split_and!; [exact Hw|done| |done|done|done]. intros v Hv. change (conn w1 v = conn w v). rewrite Hc1.
    by destruct (String.eqb_spec u v).
Qed.

(** ** Leaving and messages *)

(** [w'] has [cs] for the user, and the channel of the user exactly if there is any;
    everything else of the connections is that of [w]. *)
Record left_with u (cs : list Socket) w w' : Prop := {
  lw_user : conn w' u = (match cs with [] => None | _ => Some cs end);
  lw_others : forall v, v <> u -> conn w' v = conn w v;
  lw_listening : listening (manager w') = listening (manager w);
  lw_faults : command_faults w' = [];
  lw_gone : gone_sockets w' = gone_sockets w;
  lw_pubsub : is_Some (pubsub (manager w'));
  lw_channels : forall c, subscribed w' c <-> subscribed w c /\ (c = user_channel u -> cs <> []);
}.

Lemma left_with_trans u cs cs' w w1 w2 : cs <> [] -> left_with u cs w w1 -> left_with u cs' w1 w2 -> left_with u cs' w w2.
Proof.
  intros Hne [A1 A2 A3 A4 A5 A6 A7] [B1 B2 B3 B4 B5 B6 B7]. split; try done; try congruence.
  - intros v Hv. by rewrite B2, A2.
  - intros c. rewrite B7, A7. naive_solver.
Qed.

Lemma left_with_texts u cs w w' l : left_with u cs w w' -> left_with u cs w {| manager := manager w'; texts := l;
  gone_sockets := gone_sockets w'; command_faults := command_faults w' |}.
Proof. intros [A1 A2 A3 A4 A5 A6 A7]. by split. Qed.

Lemma left_with_same u cs w : command_faults w = [] -> is_Some (pubsub (manager w)) -> cs <> [] -> conn w u = Some cs ->
  left_with u cs w w.
Proof. intros Hf Hp Hne Hc. split; try done; [by destruct cs|naive_solver]. Qed.

Lemma disconnect_run s u w before after :
  command_faults w = [] -> is_Some (pubsub (manager w)) -> conn w u = Some (before ++ s :: after) -> s ∉ before ->
  exists w', disconnect s u w = (Ok tt, w') /\ left_with u (before ++ after) w w' /\ texts w' = texts w.
Proof.
  intros Hf [chs Hp] Hc Hs. unfold disconnect, bind at 1, gets. unfold conn in Hc. rewrite Hc, remove_first_app by done.
  destruct (before ++ after) as [|x cs] eqn:E.
  - unfold bind at 1, modify. unfold with_pubsub, bind, gets. cbn [manager set_active set_manager pubsub]. rewrite Hp.
    unfold unsubscribe. rewrite command_run by done. eexists. split; [reflexivity|]. split; [|done]. split; try done.
    + change (connections u (del_connections u (active_connections (manager w))) = None).
      by rewrite connections_del, String.eqb_refl.
    + intros v Hv. change (connections v (del_connections u (active_connections (manager w))) = conn w v).
      rewrite connections_del. by destruct (String.eqb_spec u v).
    + unfold set_pubsub. cbn. by rewrite Hp.
    + intros c. unfold subscribed. cbn. rewrite Hp. cbn. rewrite list_elem_of_filter. naive_solver.
  - eexists. split; [reflexivity|]. split; [|done]. split; try done.
    + change (connections u (set_connections u (x :: cs) (active_connections (manager w))) = Some (x :: cs)).
      by rewrite connections_set, String.eqb_refl.
    + intros v Hv. change (connections v (set_connections u (x :: cs) (active_connections (manager w))) = conn w v).
      rewrite connections_set. by destruct (String.eqb_spec u v).
    + intros c. change (subscribed w c <-> subscribed w c /\ (c = user_channel u -> x :: cs <> [])). naive_solver.
Qed.

Definition live w (cs : list Socket) : list Socket := filter (fun s => s ∉ gone_sockets w) cs.

Lemma send_each_run u text cs w before :
  command_faults w = [] -> is_Some (pubsub (manager w)) -> conn w u = Some (before ++ cs) -> before ++ cs <> [] ->
  Forall (fun s => s ∉ gone_sockets w) before ->
  exists w', send_each u text cs w = (Ok tt, w') /\ left_with u (before ++ live w cs) w w' /\
    texts w' = texts w ++ ((fun s => (s, text)) <$> live w cs).
Proof.
  revert w before. induction cs as [|s cs IH]; intros w before Hf Hp Hc Hne Hbefore.
  - exists w. split; [done|]. cbn. rewrite !app_nil_r in *. split; [by apply left_with_same|done].
  - cbn [send_each]. unfold live. rewrite filter_cons. fold (live w cs). case_decide as Hs.
    + assert (send_text s text w = (Ok tt, add_text s text w)) as Hsend
        by (unfold send_text, bind, gets; by rewrite bool_decide_eq_false_2).
      unfold bind at 1, try_catch. rewrite Hsend.
      destruct (IH (add_text s text w) (before ++ [s])) as (w' & Hrun & Hleft & Htexts); try done.
      { by rewrite <- app_assoc. }
      { by rewrite <- app_assoc. }
      { apply Forall_app. by split; [|apply Forall_singleton]. }
      rewrite <- app_assoc in Hleft. exists w'. split; [exact Hrun|]. split.
      * destruct Hleft as [A1 A2 A3 A4 A5 A6 A7]. by split.
      * rewrite Htexts. cbn. by rewrite <- app_assoc.
    + assert (s ∈ gone_sockets w) as Hg by (destruct (decide (s ∈ gone_sockets w)); [done|naive_solver]).
      assert (send_text s text w = (Err (OtherErr "WebSocketDisconnect"), w)) as Hsend
        by (unfold send_text, bind, gets; by rewrite bool_decide_eq_true_2).
      destruct (disconnect_run s u w before cs) as (w1 & Hd & Hl1 & Ht1); try done.
      { intros Hin. by apply (proj1 (Forall_forall _ _) Hbefore) in Hin. }
      unfold bind at 1, try_catch. rewrite Hsend, Hd. pose proof Hl1 as [A1 A2 A3 A4 A5 A6 A7].
      assert (live w1 cs = live w cs) as Hlive by (unfold live; by rewrite A5).
      destruct (decide (before ++ cs = [])) as [E|E].
      * apply app_eq_nil in E as [-> ->]. exists w1. split; [done|]. split; [exact Hl1|].
        by rewrite Ht1, app_nil_r.
      * destruct (IH w1 before) as (w' & Hrun & Hleft & Htexts); try done.
        { rewrite A1. by destruct (before ++ cs). }
        { by rewrite A5. }
        exists w'. split; [exact Hrun|]. rewrite Hlive in *. split; [|by rewrite Htexts, Ht1].
        by eapply left_with_trans.
Qed.

(** ** All operations *)

Inductive Op := Op_connect s u | Op_disconnect s u | Op_message (channel data : string) | Op_gone s.

Definition run (op : Op) : WsM unit :=
  match op with
  | Op_connect s u => connect s u
  | Op_disconnect s u => disconnect s u
  | Op_message channel data => _redis_listener channel data
  | Op_gone s => modify (fun w => {| manager := manager w; texts := texts w; gone_sockets := s :: gone_sockets w;
                                     command_faults := command_faults w |})
  end.

Definition new_worker : Worker :=
  {| manager := new_manager; texts := []; gone_sockets := []; command_faults := [] |}.

(** The states after operations that run one after the other. *)
Inductive reachable : Worker -> Prop :=
| R_new : reachable new_worker
| R_op op w o w' : reachable w -> run op w = (o, w') -> reachable w'.

Lemma synced_left u cs w w' : synced w -> is_Some (conn w u) -> left_with u cs w w' -> synced w'.
Proof.
  intros [Hf Hne Hch Hl] Hu [A1 A2 A3 A4 A5 A6 A7]. split; [done|..].
  - intros v ds. destruct (decide (v = u)) as [->|Hv]; [|rewrite A2 by done; apply Hne]. rewrite A1. destruct cs; naive_solver.
  - intros v. rewrite A7, Hch. destruct (decide (v = u)) as [->|Hv].
    + rewrite A1. destruct cs; [|naive_solver]. split; [|by intros [? ?]]. intros [_ H]. by destruct (H eq_refl).
    + rewrite A2 by done. split; [naive_solver|]. intros ?. split; [done|]. by intros E%user_channel_inj.
  - left. destruct Hl as [[Hl Hb]|[Hnone _]]; [|rewrite Hnone in Hu; by destruct Hu].
    rewrite A3, A7. split; [done|]. split; [done|]. intros E. by destruct (user_not_broadcast u).
Qed.

Lemma synced_pubsub u w : synced w -> is_Some (conn w u) -> is_Some (pubsub (manager w)).
Proof.
  intros Hs Hu. apply (synced_channels _ Hs) in Hu. unfold subscribed in Hu.
  destruct (pubsub (manager w)); [eauto|]. by apply elem_of_nil in Hu.
Qed.

Lemma first_occurrence s (cs : list Socket) :
  (exists before after, cs = before ++ s :: after /\ s ∉ before) \/ remove_first s cs = cs.
Proof.
  induction cs as [|x cs [(b & a & -> & Hb)|IH]]; [by right|..]; cbn; destruct (s =? x)%nat eqn:E.
  - left. apply Nat.eqb_eq in E as ->. exists [], (b ++ x :: a). split; [done|]. intros H. by apply elem_of_nil in H.
  - left. apply Nat.eqb_neq in E. exists (x :: b), a. split; [done|]. intros [?|?]%elem_of_cons; done.
  - left. apply Nat.eqb_eq in E as ->. exists [], cs. split; [done|]. intros H. by apply elem_of_nil in H.
  - right. by rewrite IH.
Qed.

Lemma disconnect_synced s u w : synced w -> exists w', disconnect s u w = (Ok tt, w') /\ synced w'.
Proof.
  intros Hs. destruct (conn w u) as [cs|] eqn:Hc.
  2:{ exists w. split; [|done]. unfold disconnect, bind, gets. unfold conn in Hc. by rewrite Hc. }
  pose proof (synced_pubsub u w Hs) as Hp. rewrite Hc in Hp. specialize (Hp (ex_intro _ _ eq_refl)).
  pose proof (synced_nonempty _ Hs _ _ Hc) as Hne. pose proof (synced_faults _ Hs) as Hf.
  destruct (first_occurrence s cs) as [(b & a & -> & Hb)|E].
  - destruct (disconnect_run s u w b a Hf Hp Hc Hb) as (w' & Hrun & Hl & _). exists w'. split; [done|].
    by eapply synced_left.
  - unfold disconnect, bind at 1, gets. pose proof Hc as Hc0. unfold conn in Hc0. rewrite Hc0, E. destruct cs as [|x cs]; [done|].
    eexists. split; [reflexivity|]. eapply (synced_left u (x :: cs) w); [done|rewrite Hc; by eexists|].
    split; try done.
    + change (connections u (set_connections u (x :: cs) (active_connections (manager w))) = Some (x :: cs)).
      by rewrite connections_set, String.eqb_refl.
    + intros v Hv. change (connections v (set_connections u (x :: cs) (active_connections (manager w))) = conn w v).
      rewrite connections_set. by destruct (String.eqb_spec u v).
    + intros c. change (subscribed w c <-> subscribed w c /\ (c = user_channel u -> x :: cs <> [])). naive_solver.
Qed.

(** A message for a user, in a state where the worker hears the right channels. *)
Lemma local_send_run text u w : synced w ->
  exists w', _local_send text u w = (Ok tt, w') /\ synced w' /\ gone_sockets w' = gone_sockets w /\
    texts w' = texts w ++ ((fun s => (s, text)) <$> live w (default [] (conn w u))) /\
    conn w' u = (match live w (default [] (conn w u)) with [] => None | l => Some l end) /\
    forall v, v <> u -> conn w' v = conn w v.
Proof.
  intros Hs. unfold _local_send, bind, gets. destruct (conn w u) as [cs|] eqn:Hc; pose proof Hc as Hc';
    unfold conn in Hc'; rewrite Hc'.
  - destruct (send_each_run u text cs w []) as (w' & Hrun & Hl & Ht); [apply Hs| |done|by eapply synced_nonempty|done|].
    { apply (synced_pubsub u); [done|by rewrite Hc]. }
    exists w'. pose proof Hl as [A1 A2 A3 A4 A5 A6 A7]. split; [done|]. split; [by eapply synced_left; rewrite ?Hc|].
    split_and!; try done. cbn [app] in A1. rewrite A1. change (default [] (Some cs)) with cs. by destruct (live w cs).
  - exists w. split_and!; try done. cbn. by rewrite app_nil_r.
Qed.

Lemma each_user_synced text us w : synced w -> exists w', each_user text us w = (Ok tt, w') /\ synced w'.
Proof.
  revert w. induction us as [|u us IH]; intros w Hs; [by exists w|].
  destruct (local_send_run text u w Hs) as (w1 & H1 & Hs1 & _). destruct (IH w1 Hs1) as (w2 & H2 & Hs2).
  exists w2. split; [|done]. cbn [each_user]. by rewrite (bind_ok _ _ _ _ _ H1).
Qed.

Lemma dispatch_synced channel data w : synced w -> exists w', dispatch channel data w = (Ok tt, w') /\ synced w'.
Proof.
  intros Hs. unfold dispatch. destruct (String.eqb channel BROADCAST).
  - by apply each_user_synced.
  - destruct (startswith _ _); [|by exists w]. destruct (parse_uuid _) as [u|]; [|by exists w].
    destruct (local_send_run data u w Hs) as (w' & H & Hs' & _). by exists w'.
Qed.

Lemma reachable_synced w : reachable w -> synced w.
Proof.
  induction 1 as [|op w o w' _ Hs H].
  - split; try done; [|by right]. intros u. split; [|by intros [? ?]]. unfold subscribed. cbn. by intros H%elem_of_nil.
  - destruct op as [s u|s u|channel data|s]; cbn [run] in H.
    + destruct (connect_run s u w Hs) as (w1 & H1 & Hs1 & _). rewrite H1 in H. by injection H as _ <-.
    + destruct (disconnect_synced s u w Hs) as (w1 & H1 & Hs1). rewrite H1 in H. by injection H as _ <-.
    + unfold _redis_listener, bind at 1, gets in H. destruct (_ && _); [|by injection H as _ <-].
      destruct (dispatch_synced channel data w Hs) as (w1 & H1 & Hs1).
      unfold try_catch in H. rewrite H1 in H. by injection H as _ <-.
    + injection H as _ <-. destruct Hs as [A B C D]. by split.
Qed.

Definition no_colon (u : uuid) : bool := all_chars (fun c => negb (Ascii.eqb c ":")) u.

Lemma last_part_user u : no_colon u = true -> last_part (user_channel u) = u.
Proof.
  intros Hu. unfold last_part, user_channel, split_on.
  change ("notifications:user:" +:+ u) with ("notifications" +:+ String ":" ("user" +:+ String ":" u)).
  rewrite !split_on_clean by done. rewrite split_on_last by done. done.
Qed.

(** C19: Whatever connections were opened and closed, whatever messages came and
    whichever sockets went away, one operation after the other and with commands
    that reach Redis: a message published for a user arrives exactly once, in the
    order of their opening, at the sockets of the user whose other end is there; the
    other sockets of the user are dropped, other users' connections stay; and the
    worker listens to the channel of a user exactly while the user is connected.
    Connections that open at the same time can leave the worker without the channel
    ([overlapping_connections_hear_nothing]). *)
Theorem user_message_reaches_sockets w u text :
  reachable w -> parse_uuid u = Some u -> no_colon u = true ->
  exists w', _redis_listener (user_channel u) text w = (Ok tt, w') /\
    texts w' = texts w ++ ((fun s => (s, text)) <$> live w (default [] (conn w u))) /\
    conn w' u = (match live w (default [] (conn w u)) with [] => None | l => Some l end) /\
    (forall v, v <> u -> conn w' v = conn w v) /\
    (forall v, subscribed w' (user_channel v) <-> is_Some (conn w' v)).
Proof.
  intros Hr Hp Hu. apply reachable_synced in Hr. unfold _redis_listener, bind at 1, gets.
  destruct (conn w u) as [cs|] eqn:Hc.
  - assert (listening (manager w) = true) as ->.
    { destruct (synced_listener _ Hr) as [[Hl _]|[Hnone _]]; [done|]. by rewrite Hnone in Hc. }
    rewrite bool_decide_eq_true_2 by (apply (synced_channels _ Hr); by rewrite Hc).
    destruct (local_send_run text u w Hr) as (w' & Hrun & Hs & _ & Ht & H1 & H2). rewrite Hc in *.
    assert (dispatch (user_channel u) text w = (Ok tt, w')) as Hd.
    { unfold dispatch. rewrite last_part_user, Hp by done.
      rewrite (proj2 (String.eqb_neq _ _) (user_not_broadcast u)). unfold startswith, user_channel. by rewrite str_prefix_app. }
    exists w'. unfold try_catch. cbn [andb]. rewrite Hd. split_and!; try done. apply Hs.
  - rewrite bool_decide_eq_false_2, andb_false_r.
    2:{ intros H. apply (synced_channels _ Hr) in H as [? H]. by rewrite Hc in H. }
    exists w. split_and!; try done; [cbn; by rewrite app_nil_r|apply Hr].
Qed.

(** ** Two first connections *)

(** The second connection opens while the first one waits for the broadcast channel.
    Both then find two connections, and neither subscribes to the user's channel:
    the user is connected twice and hears nothing. *)
Lemma overlapping_connections_hear_nothing u s1 s2 :
  exists w1 w2 w3 w4, connect_begin s1 u new_worker = (Ok true, w1) /\ connect_begin s2 u w1 = (Ok true, w2) /\
    connect_resume u w2 = (Ok tt, w3) /\ connect_resume u w3 = (Ok tt, w4) /\
    conn w4 u = Some [s1; s2] /\ ~ subscribed w4 (user_channel u) /\
    forall text, _redis_listener (user_channel u) text w4 = (Ok tt, w4).
Proof.
  assert (String.eqb u u = true) as E by apply String.eqb_refl.
  do 4 eexists. split; [reflexivity|]. split; [cbn; rewrite E; reflexivity|].
  split; [unfold connect_resume, subscribe_first, bind, modify, gets, connections; cbn; rewrite E; reflexivity|].
  split; [unfold connect_resume, subscribe_first, bind, modify, gets, connections; cbn; rewrite E; reflexivity|].
  assert (user_channel u ∉ [BROADCAST]) as Hn by (by intros H%list_elem_of_singleton).
  split; [unfold conn, connections; cbn; by rewrite E|]. split; [exact Hn|].
  intros text. unfold _redis_listener, bind at 1, gets. cbn [manager listening pubsub default].
  by rewrite bool_decide_eq_false_2.
Qed.
End manager.

(** Two tabs of Alice, one of which went away without a word. *)
Lemma user_message_reaches_sockets_witness : let NX := NotificationProps.concrete_notify in
  exists w w', run (NX := NX) (Op_connect 1 "u7-1") new_worker = (Ok tt, w) /\
    _redis_listener (NX := NX) (user_channel "u7-1") "hello" w = (Ok tt, w') /\ texts w' = [(1%nat, "hello")].
Proof.
  intros NX. destruct (run (NX := NX) (Op_connect 1 "u7-1") new_worker) as [o w] eqn:Hw.
  assert (o = Ok tt) as -> by (vm_compute in Hw; by injection Hw as <- _).
  assert (reachable (NX := NX) w) as Hr by (eapply R_op; [apply R_new|exact Hw]).
  destruct (user_message_reaches_sockets (NX := NX) w "u7-1" "hello" Hr eq_refl eq_refl) as (w' & Hrun & Ht & _).
  exists w, w'. split; [done|]. split; [exact Hrun|]. rewrite Ht. vm_compute in Hw. injection Hw as <-. reflexivity.
Defined.
