(* ===== verification/ExportProps.v ===== *)
(** * Theorems on the export of dead letters

    What the CSV export writes is read back as it was. *)

From Stdlib Require Import ZArith Lia Ascii String List Bool.
From stdpp Require Import base gmap strings sorting list pretty.
From S2P Require Import Prelude Redis Schema JsonText World Concrete Tokens Users Roles Auth DeadLetter AdminViews Exports.
From S2P Require DeadLetterProps.
Local Open Scope string_scope.
Local Open Scope list_scope.
Local Open Scope Z_scope.

(** ** A reader (RFC 4180)

    Strict: a quote inside an unquoted field, text after a closing quote, a bare
    line break and a last line without its end are errors. *)




(** ** Fields *)










Section export.
Context {R : Type} {RD : Redis R} {EX : Ext}.

End export.





