(* ===== verification/StorageProps.v ===== *)
(** * Theorems on object storage

    What an upload URL allows, and who may read and delete files. *)

From Stdlib Require Import ZArith Lia Ascii String List Bool.
From stdpp Require Import base gmap strings list.
From S2P Require Import Prelude Redis Schema JsonText World Concrete Tokens Users Roles Auth Storage Scenario AuthLemmas.
Local Open Scope string_scope.
Local Open Scope list_scope.
Local Open Scope Z_scope.

Section storage.
Context {R : Type} {RD : Redis R} {EX : Ext} {ST : Settings} {SX : S3Ext}.
Implicit Types (w : World R) (l : list S3Call).

Lemma local_run {A} (m : PyM A) w l : local m (w, l) = (fst (m w), (snd (m w), l)).
Proof. unfold local. by destruct (m w). Qed.

(** The request for a URL: a key of its own, and a policy that pins the type. *)
Definition upload_request (n : nat) (filename t : string) : PostRequest :=
  {| pr_bucket := AWS_BUCKET_NAME; pr_key := uuid4 n +:+ "/" +:+ filename;
     pr_fields := [("Content-Type", t); ("x-amz-tagging", "status=temporary")];
     pr_conditions := upload_conditions t; pr_expires := 300 |}.

(** The type that is asked for, or else the type of the file name. *)
Definition wanted_type (filename : string) (content_type : option string) : option string :=
  match or_opt content_type None with Some t => Some t | None => guess_type filename end.

Lemma presigned_cases filename ct w l :
  let n := drawn w in let w1 := set_drawn (S n) w in
  (exists e, generate_presigned_url filename ct 300 (w, l) = (Err e, (w1, l)) /\ s3_catches e = true) \/
  exists t, wanted_type filename ct = Some t /\ t ∈ ALLOWED_CONTENT_TYPES /\
    generate_presigned_url filename ct 300 (w, l) =
      (match s3_presigned_post (upload_request n filename t) with
       | Some (url, fs) => Ok {| upload_url := url; fields := fs; key := uuid4 n +:+ "/" +:+ filename; expires_in := 300 |}
       | None => Err ClientError
       end, (w1, l ++ [Presigned_post (upload_request n filename t)])).
Proof.
  intros n w1. unfold generate_presigned_url, wanted_type.
  assert (local new_uuid4 (w, l) = (Ok (uuid4 n), (w1, l))) as Hid by done. rewrite (bind_ok _ _ _ _ _ Hid).
  destruct (match or_opt ct None with Some t => Some t | None => guess_type filename end) as [t|]; [|left; eexists; split; reflexivity].
  destruct (mem t ALLOWED_CONTENT_TYPES) eqn:Em; cbn [negb]; [|left; eexists; split; reflexivity].
  right. exists t. split; [done|]. split; [by apply mem_true|].
  unfold bind, raise_if, ret, s3_call, modify. cbn [fst snd].
  fold (upload_request n filename t). by destruct (s3_presigned_post _) as [[url fs]|].
Qed.

(** C29: An upload URL pins what it is for.  A request makes at most one call, after its
    token was accepted: for a key that begins with an identifier drawn for it, of the
    type that was asked for or that its file name has, which is an allowed one; the
    policy that is signed demands a length from 0 to 5242880 bytes, exactly that content
    type and the tag of a temporary file, and expires after 300 seconds.  Without a valid
    token, or for another type, no call is made and the request fails. *)
Theorem upload_is_pinned tok filename ct w l o w' l' :
  generate_upload_url tok filename ct (w, l) = (o, (w', l')) ->
  (l' = l /\ is_err o = true) \/
  exists user w1 t,
    let post := {|
      pr_bucket := AWS_BUCKET_NAME; pr_key := uuid4 (drawn w1) +:+ "/" +:+ filename;
      pr_fields := [("Content-Type", t); ("x-amz-tagging", "status=temporary")];
      pr_conditions := [JList [JStr "content-length-range"; JNum 0; JNum 5242880];
                        JObj [("Content-Type", JStr t)];
                        JObj [("x-amz-tagging", JStr "status=temporary")]];
      pr_expires := 300 |} in
    get_current_user [] tok w = (Ok user, w1) /\
    (match or_opt ct None with Some t => Some t | None => guess_type filename end) = Some t /\
    t ∈ ALLOWED_CONTENT_TYPES /\ l' = l ++ [Presigned_post post] /\
    forall r, o = Ok r -> s3_presigned_post post = Some (upload_url r, fields r) /\
      key r = uuid4 (drawn w1) +:+ "/" +:+ filename /\ expires_in r = 300.
Proof.
  unfold generate_upload_url, bind at 1. rewrite local_run. destruct (get_current_user [] tok w) as [[user|e] w1] eqn:Eu; cbn [fst snd].
  2:{ intros [= <- _ <-]. by left. }
  unfold or_500, try_catch. destruct (presigned_cases filename ct w1 l) as [(e & -> & He)|(t & Ht & Hin & ->)].
  - rewrite He. intros [= <- _ <-]. by left.
  - intros H. right. exists user, w1, t. split; [done|]. split; [done|]. split; [done|].
    destruct (s3_presigned_post _) as [[url fs]|] eqn:Es; injection H as <- _ <-; (split; [done|]); [|done].
    intros r [= <-]. by split.
Qed.

(** ** Reading and deleting *)

(** Anyone who knows a key gets a URL for it: the route asks for no token. *)
Lemma file_url_needs_no_token key w l :
  get_file key (w, l) = (Ok (default "" (s3_presigned_get AWS_BUCKET_NAME key 3600)),
    (w, l ++ [Presigned_get AWS_BUCKET_NAME key 3600])).
Proof.
  unfold get_file, or_500, get_file_url, s3_call, try_catch, bind, modify, ret.
  by destruct (s3_presigned_get AWS_BUCKET_NAME key 3600).
Qed.

(** Any user deletes any file: the key is not compared with anything of the user's. *)
Lemma any_user_deletes_any_file tok key user w w1 l :
  get_current_user [] tok w = (Ok user, w1) ->
  snd (snd (delete_file tok key (w, l))) = l ++ [Delete_object AWS_BUCKET_NAME key].
Proof.
  intros H. unfold delete_file, bind at 1. rewrite local_run, H. cbn [fst snd].
  unfold or_500, s3_delete_file, s3_call, try_catch, bind, modify, ret, raise.
  destruct (s3_delete AWS_BUCKET_NAME key); [done|]. by destruct (s3_catches ClientError).
Qed.
End storage.

(** ** Concrete runs *)

#[local] Instance bucket : S3Ext := {|
  ALLOWED_CONTENT_TYPES := ["image/jpeg"; "image/png"; "image/webp"; "application/pdf"];
  AWS_BUCKET_NAME := "my-bucket"; S3_REGION_NAME := "us-east-1"; S3_ENDPOINT_URL := "http://localhost:4566";
  guess_type := fun f => if contains f ".png" then Some "image/png" else None;
  s3_presigned_post := fun r => Some ("https://s3/" +:+ pr_bucket r, [("key", pr_key r)]);
  s3_presigned_get := fun b k _ => Some ("https://s3/" +:+ b +:+ "/" +:+ k);
  s3_delete := fun _ _ => true;
|}.

(** Alice asks for a URL for a picture. *)
Lemma upload_is_pinned_witness : exists r w' req,
  generate_upload_url (access_token (fst (login_tokens "alice" site))) "me.png" None (snd (login_tokens "alice" site), []) =
    (Ok r, (w', [Presigned_post req])) /\
  pr_conditions req = upload_conditions "image/png" /\ key r = pr_key req.
Proof.
  set (tok := access_token _). set (w := snd (login_tokens "alice" site)).
  destruct (generate_upload_url tok "me.png" None (w, [])) as [[r|e] [w' l']] eqn:H.
  2:{ assert (is_ok (fst (generate_upload_url tok "me.png" None (w, []))) = true) as Hok by (vm_compute; reflexivity).
      by rewrite H in Hok. }
  destruct (upload_is_pinned tok "me.png" None w [] (Ok r) w' l' H) as [[_ Hf]|(user & w1 & t & _ & Ht & _ & Hl & Hr)];
    [discriminate Hf|].
  injection Ht as <-. destruct (Hr r eq_refl) as (_ & Hk & _). exists r, w', (upload_request (drawn w1) "me.png" "image/png").
  split; [rewrite Hl; reflexivity|]. split; [reflexivity|exact Hk].
Defined.
