(* ===== verification/JobProps.v ===== *)
(** * Theorems on scripts and jobs

    What the script of the default admin leaves, which log files a clean-up removes,
    and what a worker process closes. *)

From Stdlib Require Import ZArith Lia Ascii String List Bool.
From stdpp Require Import base gmap strings sorting list.
From S2P Require Import Prelude Redis Schema World Tokens Users Cache Roles Jobs AuthLemmas.
From S2P Require System AdminProps ApiKeyProps AuthProps.
Local Open Scope string_scope.
Local Open Scope list_scope.
Local Open Scope Z_scope.

(** ** Old logs *)

(** When every removal succeeds the files that are too old go, and no others. *)
Lemma old_logs_exactly strptime removable now names :
  (forall name, removable name = true) ->
  delete_old_logs strptime removable now (Some names) =
    (Some (filter (fun name => too_old strptime now name = false) names), None).
Proof.
  intros Hr. unfold delete_old_logs.
  assert (delete_each strptime removable now names = (filter (fun name => too_old strptime now name = false) names, None)) as ->;
    [|done].
  induction names as [|name names IH]; [done|]. cbn [delete_each]. rewrite filter_cons, Hr, IH.
  by destruct (too_old strptime now name).
Qed.

(** The active file, and every file of another name, is never removed. *)
Lemma active_log_stays strptime removable now names name :
  name = "fastapi.log" \/ startswith name log_prefix = false -> name ∈ names ->
  exists kept e, delete_old_logs strptime removable now (Some names) = (Some kept, e) /\ name ∈ kept.
Proof.
  intros Hname Hin. assert (too_old strptime now name = false) as Hn.
  { unfold too_old, log_date. destruct Hname as [->| ->]; [done|]. by destruct (String.eqb name _). }
  unfold delete_old_logs. induction names as [|x names IH]; [by apply elem_of_nil in Hin|]. cbn [delete_each].
  apply elem_of_cons in Hin as [<-|Hin].
  - rewrite Hn. destruct (delete_each _ _ _ _) as [kept e]. do 2 eexists. split; [done|left].
  - destruct (IH Hin) as (kept & e & Hrun & Hk). destruct (delete_each strptime removable now names) as [k e'].
    injection Hrun as -> ->. destruct (too_old strptime now x); [destruct (removable x)|]; (do 2 eexists; split; [done|]).
    + done.
    + by right.
    + by right.
Qed.

(** ** Worker processes *)

(** However the start of a worker process ends, the shutdown closes what was opened;
    after a start that succeeds every task finds its resources, and after one that
    fails some property raises. *)
Lemma worker_closes_what_it_opened pg redis :
  let '(o, a) := init_worker_process pg redis fresh_app in
  shutdown_worker_process a = (db_instance a, redis_instance a) /\
  (is_ok o = true -> task_loop a = (Ok tt, a) /\ task_db a = (Ok tt, a) /\ task_redis a = (Ok tt, a) /\
                     task_container a = (Ok tt, a)) /\
  (is_ok o = false -> is_err (fst (task_container a)) = true).
Proof. by destruct pg, redis. Qed.

(** ** The default admin *)

Section default_admin.
Context {R : Type} {RD : Redis R} {EX : Ext}.
Implicit Types w : World R.

(** The script never raises. *)
Lemma create_default_admin_quiet w : exists w', create_default_admin w = (Ok tt, w').
Proof.
  unfold create_default_admin, try_catch. destruct (install_default_admin w) as [[[]|e] w'];
    unfold ret; eauto.
Qed.

Lemma preserves_write {A} rp (f : Tables -> outcome Exn (A * Tables)) :
  (forall t a, f t = Ok a -> role_permissions (snd a) = role_permissions t) ->
  preserves (fun w => role_permissions (db w) = rp) (db_write f).
Proof.
  intros Hf w Hw. unfold db_write. destruct (f (db w)) as [[a t]|e] eqn:E; [|done]. cbn.
  by rewrite <- Hw, <- (Hf _ _ E).
Qed.

Lemma assign_roles_permissions rp u rs : preserves (fun w => role_permissions (db w) = rp) (assign_roles u rs).
Proof.
  unfold assign_roles. destruct rs as [|r rs]; [apply preserves_ret|]. apply preserves_bind; [|intros _].
  - apply System.preserves_gather2; apply preserves_write.
    + intros t a Ht. unfold insert_user_roles in Ht. repeat (case_match; try done). by injection Ht as <-.
    + by intros t a [= <-].
  - apply preserves_bind; [by intros w|]. intros [u'|]; [|apply preserves_ret].
    unfold publish. apply preserves_bind; [by intros w|]. intros id. apply preserves_bind; [by intros w|]. intros t w Hw.
    unfold redis_command. by destruct (faults w) as [|[] l].
Qed.

(** Run when the role is there, the script leaves Super Admin exactly the twenty
    permissions with the greatest identifiers: all others are taken from it. *)
Theorem default_admin_keeps_twenty_permissions w w' rd :
  replica w = None -> get_role_by_name default_admin_role w = (Ok (Some rd), w) ->
  install_default_admin w = (Ok tt, w') ->
  forall pid, (r_id (rd_role rd), pid) ∈ role_permissions (db w') <->
              pid ∈ (p_id <$> AdminProps.known_permissions (db w)).
Proof.
  intros Hr Hrole H. unfold install_default_admin in H.
  apply bind_ok_inv in H as (ps & v & [= <- <-] & H). unfold read_view in H. rewrite Hr in H. cbn [default] in H.
  change (take (Z.to_nat 20) _) with (AdminProps.known_permissions (db w)) in H.
  rewrite (bind_ok _ _ _ _ _ Hrole) in H. apply bind_ok_inv in H as (rid & w1 & Hup & H).
  apply bind_ok_inv in Hup as (o & w2 & Hup & [= <- <-]).
  eapply AdminProps.update_role_permissions in Hup as [Hheld _]; [|reflexivity].
  assert (preserves (fun w' => role_permissions (db w') = role_permissions (db w2))
    (let! existing_user := get_by_email default_admin_email in
     let! user_id := match existing_user with
                     | Some u => ret (u_id (ud_user u))
                     | None =>
                         let! hashed_password := get_password_hash default_admin_password in
                         let! new_user := create_user_row default_admin (Some hashed_password) in
                         ret (u_id new_user)
                     end in
     assign_roles user_id [r_id (rd_role rd)])) as Hrest.
  { apply preserves_bind; [by intros v|]. intros eu. apply preserves_bind.
    - destruct eu; [apply preserves_ret|]. apply preserves_bind; [by intros v|]. intros hp.
      apply preserves_bind; [|intros; apply preserves_ret]. unfold create_user_row.
      apply preserves_bind; [by intros v|]. intros n. apply preserves_bind; [by intros v|]. intros t.
      apply preserves_write. intros t1 [u t2] Ht. unfold insert_user in Ht.
      apply obind_ok_inv in Ht as (? & _ & [= <- <-]). done.
    - intros uid. by apply assign_roles_permissions. }
  specialize (Hrest w2 eq_refl). rewrite H in Hrest. cbn in Hrest. intros pid. rewrite Hrest. apply Hheld.
Qed.
End default_admin.
