(* ===== verification/StartupProps.v ===== *)
(** * Theorems on the life of a process

    A process serves only when everything it needs is there, and a stop that meets no
    error releases everything; what a failed start or stop leaves; the monitor of the
    event loop and the feature flags. *)

From Stdlib Require Import ZArith Lia Ascii String List Bool.
From stdpp Require Import base gmap strings list.
From S2P Require Import Prelude Redis Schema World Concrete EventBus WebSockets Startup.
From S2P Require Database Migrations MigrationsProps.
Local Open Scope string_scope.
Local Open Scope list_scope.
Local Open Scope Z_scope.

(** ** Pools *)

Section pools.
Import Database.
Context (close : PoolId -> outcome DbError unit).

(** The errors [close_pool] logs. *)
Definition close_logged (p : PoolId) : Prop :=
  match close p with Ok _ => True | Err e => is_postgres_error e || match e with Timeout => true | _ => false end = true end.

Lemma close_one_run p closed : close_logged p ->
  exists closed', close_one close p closed = (Ok tt, closed') /\ (forall q, q ∈ closed -> q ∈ closed') /\
    (close p = Ok tt -> p ∈ closed').
Proof.
  intros Hc. unfold close_one, close_logged in *. case_bool_decide; [by exists closed|].
  destruct (close p) as [[]|e]; [|rewrite Hc; by exists closed].
  exists (closed ++ [p]). split; [done|]. split; [|intros _; apply elem_of_app; right; by apply list_elem_of_singleton].
  intros q Hq. apply elem_of_app. by left.
Qed.

Lemma close_each_run ms closed : Forall (fun m => close_logged (pool m)) ms ->
  exists closed', for_each ms (fun m => close_one close (pool m)) closed = (Ok tt, closed') /\
    (forall q, q ∈ closed -> q ∈ closed') /\ (forall m, m ∈ ms -> close (pool m) = Ok tt -> pool m ∈ closed').
Proof.
  intros Hms. revert closed. induction Hms as [|m ms Hm Hms IH]; intros closed.
  - exists closed. split; [done|]. split; [done|]. by intros m Hm%elem_of_nil.
  - destruct (close_one_run (pool m) closed Hm) as (c1 & H1 & Hk1 & Hm1). destruct (IH c1) as (c2 & H2 & Hk2 & Hm2).
    exists c2. cbn [for_each]. rewrite (bind_ok _ _ _ _ _ H1). split; [done|]. split; [by auto|].
    intros x [->|Hx]%elem_of_cons Hc; [by auto|by auto].
Qed.

(** The pools of a database object. *)
Definition uses (c : DataBase) (p : PoolId) : Prop :=
  write_pool c = Some p \/ exists m, m ∈ all_metas (read_pools_by_region c) /\ pool m = p.

Lemma close_pool_run c closed : (forall p, uses c p -> close_logged p) ->
  exists c' closed', close_pool close (c, closed) = (Ok tt, (c', closed')) /\
    write_pool c' = None /\ read_pools_by_region c' = [] /\ health_task c' <> Some true /\
    forall p, uses c p -> close p = Ok tt -> p ∈ closed'.
Proof.
  intros Hall. unfold close_pool.
  set (c1 := match health_task c with Some true => set_health_task (Some false) c | _ => c end).
  assert (write_pool c1 = write_pool c /\ read_pools_by_region c1 = read_pools_by_region c /\ health_task c1 <> Some true)
    as (Hw & Hr & Ht) by (unfold c1; by destruct (health_task c) as [[]|] eqn:E; cbn; rewrite ?E).
  rewrite Hw, Hr. destruct (close_each_run (all_metas (read_pools_by_region c)) closed) as (cl & Hcl & _ & Hin).
  { apply Forall_forall. intros m Hm. apply Hall. right. by exists m. }
  assert (exists cl', match write_pool c with Some wp => close_one close wp | None => ret tt end cl = (Ok tt, cl') /\
    (forall q, q ∈ cl -> q ∈ cl') /\ (forall wp, write_pool c = Some wp -> close wp = Ok tt -> wp ∈ cl')) as (cl' & H' & Hk & Hwp).
  { destruct (write_pool c) as [wp|] eqn:E; [|by exists cl].
    destruct (close_one_run wp cl) as (cl' & H & Hk & Hp); [apply Hall; by left|].
    exists cl'. split; [done|]. split; [done|]. by intros ? [= <-]. }
  rewrite (bind_ok _ _ _ _ _ Hcl), H'. do 2 eexists. split; [reflexivity|]. cbn. split; [done|]. split; [done|].
  split; [done|]. intros p [Hp|(m & Hm & <-)] Hc; [by apply Hwp|by apply Hk, Hin].
Qed.

End pools.

Section create.
Import Database.

(** When the pools can be created: the primary connects, and the replica connects or
    fails with an error that is logged. *)
Definition creatable (connect : string -> outcome DbError PoolId) (primary replica : string) : Prop :=
  is_ok (connect primary) = true /\
  match connect replica with Ok _ => True | Err e => is_postgres_error e || is_os_error e = true end.

Lemma create_pool_run connect settings primary replica c :
  let '(o, c') := create_pool connect settings primary [("global", ManyUris [Some replica])] c in
  (is_ok o = true <-> creatable connect primary replica) /\
  (is_ok o = true -> exists wp, connect primary = Ok wp /\ write_pool c' = Some wp).
Proof.
  unfold create_pool, creatable, bind, lift, modify. destruct (connect primary) as [wp|e]; [|cbn; naive_solver].
  cbn [create_read_pools create_region_pools obind region_setdefault region_get].
  destruct (connect replica) as [rp|e]; cbn; [naive_solver|].
  destruct (_ || _); cbn; naive_solver.
Qed.
End create.

Section process.
Context {R : Type} {RD : Redis R} {EX : Ext}.
Context {Schema : Type} {ME : Migrations.MigrationEnv Schema}.
Context (env : Surroundings).
Implicit Types p : Process (R := R) (Schema := Schema).

(** Everything the start asks for. *)
Definition startable p : Prop :=
  creatable (pg_connect env) (PRIMARY_DATABASE_URL env) (REPLICA_DATABASE_URL env) /\
  (forall c, ping env c = Ok true) /\
  is_ok (fst (EventBus.start (existing_group env) (bus_redis p))) = true /\
  fst (Migrations.check_all_migrations_applied (file_system env) (script_dir env) (check_pool env) (migrations p)) = Ok true.

(** What a process that serves has, after it started from [p]. *)
Record ready p p1 : Prop := {
  ready_pool : exists wp, pg_connect env (PRIMARY_DATABASE_URL env) = Ok wp /\
    Database.write_pool (database_instance p1) = Some wp;
  ready_handlers : _subscribers (event_bus p1) =
    EventBus.autodiscover (listener_modules env) (_subscribers (event_bus p));
  ready_listener : _running (event_bus p1) = true /\ listener_task (event_bus p1) = Some true;
  ready_monitor : monitor_task p1 = Some true;
}.

Lemma client_connect_ok o : is_ok (client_connect o) = true <-> o = Ok true.
Proof. destruct o as [[]|e]; cbn; naive_solver. Qed.

Lemma connect_redis_run c p : exists o, connect_redis env c p = (o, p) /\ (is_ok o = true <-> ping env c = Ok true).
Proof.
  unfold connect_redis. eexists. split; [reflexivity|]. rewrite <- client_connect_ok. by destruct (client_connect _).
Qed.

(** A start succeeds exactly when everything is there; nothing is closed by one that
    fails. *)
Lemma lifespan_start_run p :
  let '(o, p1) := lifespan_start env p in
  (is_ok o = true <-> startable p) /\ (is_ok o = true -> ready p p1) /\
  pools_closed p1 = pools_closed p /\ clients_closed p1 = clients_closed p /\ connection_manager p1 = connection_manager p.
Proof.
  unfold lifespan_start, startable. unfold create_pools, zoom at 1, bind at 1.
  pose proof (create_pool_run (pg_connect env) (pool_settings env) (PRIMARY_DATABASE_URL env)
    (REPLICA_DATABASE_URL env) (database_instance p)) as Hc.
  destruct (Database.create_pool _ _ _ _ _) as [[[]|e] c]; destruct Hc as [Hc Hw]; [|cbn in *; naive_solver].
  set (p0 := set_database (c, pools_closed p) p).
  destruct (connect_redis_run redis_client p0) as (o1 & H1 & E1). unfold bind at 1. rewrite H1.
  destruct o1 as [[]|e]; [|cbn in *; naive_solver].
  destruct (connect_redis_run redis_socket p0) as (o2 & H2 & E2). unfold bind at 1. rewrite H2.
  destruct o2 as [[]|e]; [|cbn in *; naive_solver].
  destruct (connect_redis_run redis_event_bus p0) as (o3 & H3 & E3). unfold bind at 1. rewrite H3.
  destruct o3 as [[]|e]; [|cbn in *; naive_solver].
  assert (forall c, ping env c = Ok true) as Hp by (intros []; cbn in *; naive_solver).
  unfold bind at 1, bus_autodiscover, modify at 1. unfold bus_start, zoom, bind, modify. cbn [bus_redis set_bus set_database p0].
  destruct (EventBus.start (existing_group env) (bus_redis p)) as [[[]|e] x]; [|cbn in *; naive_solver].
  unfold check_migrations, zoom. cbn [migrations set_bus set_database set_bus_redis].
  destruct (Migrations.check_all_migrations_applied _ _ _ _) as [[[]|e] d]; cbn in *; try naive_solver.
  split; [naive_solver|]. split; [|done]. intros _. split; cbn; [|done|done|done]. by apply Hw, Hc, Hc.
Qed.

(** ** The stop *)

(** No error but those the closing of a pool logs. *)
Definition orderly p : Prop :=
  (forall q, uses (database_instance p) q -> close_logged (pg_close env) q) /\
  command_faults (connection_manager p) = [] /\ forall c, aclose env c = Ok tt.

Record released p p1 : Prop := {
  released_pools : Database.write_pool (database_instance p1) = None /\
    Database.read_pools_by_region (database_instance p1) = [] /\
    (forall q, uses (database_instance p) q -> pg_close env q = Ok tt -> q ∈ pools_closed p1);
  released_clients : clients_closed p1 = clients_closed p ++ [redis_client; redis_socket; redis_event_bus];
  released_tasks : Database.health_task (database_instance p1) <> Some true /\ _running (event_bus p1) = false /\
    listener_task (event_bus p1) <> Some true /\ listening (manager (connection_manager p1)) = false /\
    monitor_task p1 <> Some true;
}.

Lemma sockets_stop_run w : command_faults w = [] ->
  exists w', WebSockets.stop w = (Ok tt, w') /\ listening (manager w') = false.
Proof.
  intros Hf. unfold WebSockets.stop, with_pubsub, bind, gets, modify, unsubscribe, command.
  destruct (pubsub (manager w)); rewrite ?Hf; by eexists.
Qed.

Lemma lifespan_stop_run p : orderly p -> exists p1, lifespan_stop env p = (Ok tt, p1) /\ released p p1.
Proof.
  intros (Hpools & Hf & Hc). unfold lifespan_stop, bus_stop, bind at 1 2, modify, zoom at 1, bind at 1.
  destruct (sockets_stop_run (connection_manager p) Hf) as (w & Hw & Hl). cbn [connection_manager set_bus set_monitor].
  rewrite Hw. unfold close_pools, zoom, bind at 1. cbn [database_instance pools_closed set_sockets set_bus set_monitor].
  destruct (close_pool_run (pg_close env) (database_instance p) (pools_closed p) Hpools) as (c & cl & Hcl & H1 & H2 & H3 & H4).
  rewrite Hcl. unfold close_redis, bind. rewrite !Hc. eexists. split; [reflexivity|]. split; cbn.
  - done.
  - by rewrite <- !app_assoc.
  - split; [done|]. split; [done|]. split; [by destruct (listener_task (event_bus p))|]. split; [done|].
    by destruct (monitor_task p).
Qed.

(** C22: A process serves exactly when the primary database can be reached and the
    replica at least fails in a way that is expected, all three Redis clients answer,
    the consumer group can be read and no migration is pending.  It then has its write
    pool, every handler of the listener modules, a running listener and the monitor; a
    stop that meets no error but those the closing of a pool logs closes every pool and
    every client and stops every task.  A start that fails closes nothing, and neither
    does a service that ends with an exception. *)
Theorem process_lifecycle serve p :
  match lifespan_start env p with
  | (Err e, p1) => ~ startable p /\ lifespan env serve p = (Err e, p1) /\
      pools_closed p1 = pools_closed p /\ clients_closed p1 = clients_closed p
  | (Ok _, p1) => startable p /\ ready p p1 /\
      match serve p1 with
      | (Err e, p2) => lifespan env serve p = (Err e, p2)
      | (Ok _, p2) => orderly p2 -> exists p3, lifespan env serve p = (Ok tt, p3) /\ released p2 p3
      end
  end.
Proof.
  pose proof (lifespan_start_run p) as H. unfold lifespan.
  destruct (lifespan_start env p) as [[[]|e] p1] eqn:E; destruct H as (Hs & Hr & Hp & Hc & _).
  - split; [by apply Hs|]. split; [by apply Hr|]. rewrite (bind_ok _ _ _ _ _ E).
    destruct (serve p1) as [[[]|e] p2] eqn:Es; [|by rewrite (bind_err _ _ _ _ _ Es)].
    intros Ho. rewrite (bind_ok _ _ _ _ _ Es). by apply lifespan_stop_run.
  - split; [by intros Ho%Hs|]. by rewrite (bind_err _ _ _ _ _ E).
Qed.

(** The listener starts before the migrations are looked at: a start that finds some
    pending leaves it running, with every handler, on the tables as they are. *)
Theorem events_are_handled_before_migrations_are_checked p p1 :
  lifespan_start env p = (Err pending_migrations, p1) ->
  fst (Migrations.check_all_migrations_applied (file_system env) (script_dir env) (check_pool env) (migrations p)) = Ok false ->
  creatable (pg_connect env) (PRIMARY_DATABASE_URL env) (REPLICA_DATABASE_URL env) ->
  (forall c, ping env c = Ok true) ->
  is_ok (fst (EventBus.start (existing_group env) (bus_redis p))) = true ->
  listener_task (event_bus p1) = Some true /\
  _subscribers (event_bus p1) = EventBus.autodiscover (listener_modules env) (_subscribers (event_bus p)).
Proof.
  intros H Hm Hc Hp Hb. revert H. unfold lifespan_start. unfold create_pools, zoom at 1, bind at 1.
  pose proof (create_pool_run (pg_connect env) (pool_settings env) (PRIMARY_DATABASE_URL env)
    (REPLICA_DATABASE_URL env) (database_instance p)) as Hcr.
  destruct (Database.create_pool _ _ _ _ _) as [[[]|e] c]; [|cbn in Hcr; naive_solver].
  unfold connect_redis, bind at 1 2 3. rewrite !Hp. cbn [client_connect].
  unfold bind at 1, bus_autodiscover, modify at 1. unfold bus_start, zoom, bind, modify. cbn [bus_redis set_bus set_database].
  destruct (EventBus.start _ (bus_redis p)) as [[[]|e] x]; [|done].
  unfold check_migrations, zoom. cbn [migrations set_bus set_database set_bus_redis].
  destruct (Migrations.check_all_migrations_applied _ _ _ _) as [o d]. cbn in Hm. subst o. by intros [= <-].
Qed.

(** A command to Redis that fails while the sockets are stopped ends the stop: no pool
    and no client is closed. *)
Theorem failing_unsubscribe_leaks_pools p l chs :
  command_faults (connection_manager p) = true :: l -> pubsub (manager (connection_manager p)) = Some chs ->
  exists p1, lifespan_stop env p = (Err (F_py RedisError), p1) /\
    database_instance p1 = database_instance p /\ pools_closed p1 = pools_closed p /\ clients_closed p1 = clients_closed p.
Proof.
  intros Hf Hp. unfold lifespan_stop, bus_stop, zoom, bind, modify, WebSockets.stop, with_pubsub, gets, unsubscribe, command.
  cbn [connection_manager set_bus set_monitor]. unfold bind. rewrite Hp. cbn. rewrite Hf. by eexists.
Qed.
End process.

(** ** The monitor *)

(** The lag it shows is never negative, and is what the sleep took longer than it
    should; only a cancellation ends it. *)
Lemma monitor_shows_the_lag interval turns start_time end_time n g :
  Forall (fun t => match t with Woke _ _ _ | Failed_turn false => True | _ => False end) turns ->
  monitor_event_loop interval (turns ++ [Woke start_time end_time n]) g =
    ({| EVENT_LOOP_LAG_SECONDS := Z.max 0 (end_time - start_time - interval); ASYNCIO_ACTIVE_TASKS := n |}, Running).
Proof.
  intros H. revert g. induction H as [|t turns Ht _ IH]; intros g; [done|].
  destruct t as [s e k|[]|]; try done; cbn [app monitor_event_loop]; apply IH.
Qed.

(** ** Feature flags *)

(** A feature is on only when there is a key and Flagsmith says so. *)
Lemma feature_on_iff key make feature identity traits :
  is_enabled (flag_client key make) feature identity traits = true <->
  truthy key = true /\ exists flags,
    match or_opt identity None with
    | Some i => get_identity_flags (make key) i traits
    | None => get_environment_flags (make key)
    end = Ok flags /\ flags feature = Ok true.
Proof.
  unfold is_enabled, flag_client. destruct (truthy key); [|split; [done|by intros [? _]]].
  destruct (match or_opt identity None with Some _ => _ | None => _ end) as [flags|e]; cbn [obind].
  - split.
    + intros H. split; [done|]. exists flags. split; [done|]. by destruct (flags feature) as [[]|].
    + by intros (_ & f & [= <-] & ->).
  - split; [done|]. by intros (_ & f & ? & _).
Qed.

(** ** A concrete process *)

Definition surroundings : Surroundings := {|
  pg_connect := fun uri => if String.eqb uri "primary" then Ok 1%nat else Err Database.OSErr;
  pg_close := fun _ => Ok tt;
  pool_settings := {| Database.REGION_PRIORITY := []; Database.HEALTH_CHECK_INTERVAL := 30 |};
  PRIMARY_DATABASE_URL := "primary"; REPLICA_DATABASE_URL := "replica";
  ping := fun _ => Ok true; aclose := fun _ => Ok tt;
  listener_modules := [Some [("user.created", 1%nat)]; None]; existing_group := None;
  file_system := MigrationsProps.Example.fs; script_dir := ""; check_pool := MigrationsProps.working_pool;
|}.

Definition new_process (d : Migrations.MigrationDB (list string)) : Process (R := MapRedis.t) := {|
  database_instance := Database.init_db; pools_closed := []; clients_closed := [];
  event_bus := {| _subscribers := ∅; _running := false; listener_task := None |};
  bus_redis := (world_of empty_tables, {| last_delivered := 0; pending := [] |});
  migrations := d;
  connection_manager := {| manager := new_manager; texts := []; gone_sockets := []; command_faults := [] |};
  monitor_task := None;
|}.

Lemma process_lifecycle_witness :
  exists p3, lifespan surroundings (ret tt) (new_process MigrationsProps.Example.upgraded) = (Ok tt, p3) /\
    pools_closed p3 = [1%nat] /\ clients_closed p3 = [redis_client; redis_socket; redis_event_bus] /\
    ~ startable surroundings (new_process MigrationsProps.Example.empty).
Proof.
  pose proof (process_lifecycle surroundings (ret tt) (new_process MigrationsProps.Example.upgraded)) as H.
  destruct (lifespan_start surroundings (new_process MigrationsProps.Example.upgraded)) as [[[]|e] p1] eqn:E.
  2:{ vm_compute in E. discriminate E. }
  destruct H as (_ & _ & H). cbn [ret] in H.
  assert (command_faults (connection_manager p1) = []) as Hf.
  { pose proof (lifespan_start_run surroundings (new_process MigrationsProps.Example.upgraded)) as Hs.
    rewrite E in Hs. destruct Hs as (_ & _ & _ & _ & ->). reflexivity. }
  destruct H as (p3 & Hrun & Hrel); [split; [done|]; split; [exact Hf|done]|].
  exists p3. split; [exact Hrun|].
  assert (pools_closed (snd (lifespan surroundings (ret tt) (new_process MigrationsProps.Example.upgraded))) = [1%nat]) as Hc
    by (vm_compute; reflexivity).
  assert (clients_closed (snd (lifespan surroundings (ret tt) (new_process MigrationsProps.Example.upgraded))) =
    [redis_client; redis_socket; redis_event_bus]) as Hcl by (vm_compute; reflexivity).
  rewrite Hrun in Hc, Hcl. split; [exact Hc|]. split; [exact Hcl|].
  pose proof (process_lifecycle surroundings (ret tt) (new_process MigrationsProps.Example.empty)) as H2.
  destruct (lifespan_start surroundings (new_process MigrationsProps.Example.empty)) as [[[]|e] p2] eqn:E2; [|by destruct H2].
  vm_compute in E2. discriminate E2.
Defined.
