(* ===== verification/ConcurrentProps.v ===== *)
(** * Theorems on requests that run at the same time

    Run alone, the pieces are the operations of Auth.v, Cache.v and AppConfig.v.  In any
    interleaving a challenge that was answered is closed for every request that comes
    later, but requests that looked at it before all go through, with the same code;
    readers of a cache agree with the database, but one that read it before a change
    and stores after it leaves the old value there. *)

From Stdlib Require Import ZArith Lia Ascii String List Bool.
From stdpp Require Import base gmap strings list relations.
From S2P Require Import Prelude Schema Redis World Concrete Tokens Users Cache AppConfig Roles Totp Auth Routes Scenario AuthLemmas.
From S2P Require Import Coroutines Concurrent.
From S2P Require TwoFactorProps.
Local Open Scope string_scope.
Local Open Scope list_scope.
Local Open Scope Z_scope.

Section steps.
Context {R : Type} {RD : Redis R} {RL : RedisLaws R} {EX : Ext} {ST : Settings}.
Implicit Types w : World R.

(** ** Without anything in between *)

Lemma bind_ext {A B} (m m' : PyM (R := R) A) (k k' : A -> PyM (R := R) B) w :
  m w = m' w -> (forall a w', k a w' = k' a w') -> bind m k w = bind m' k' w.
Proof. intros Hm Hk. unfold bind. rewrite Hm. by destruct (m' w) as [[a|e] w']. Qed.

Lemma run_atomic_bind {A B} (m : PyM (R := R) A) (k : A -> Co (World R) Exn B) (k' : A -> PyM (R := R) B) w :
  (forall a w', run_co (k a) w' = k' a w') -> run_co (co_bind (atomic m) k) w = bind m k' w.
Proof. intros Hk. rewrite run_bind. apply bind_ext; [apply run_atomic|done]. Qed.

Lemma run_issue user rq w : run_co (issue_tokens_steps user rq) w = issue_tokens_and_session user rq w.
Proof. unfold issue_tokens_steps, issue_tokens_and_session. repeat (apply run_atomic_bind; intros ? ?). done. Qed.

Lemma run_verify_code uid f code w : run_co (verify_code_steps uid f code) w = _verify_2fa_code_or_backup uid f code w.
Proof.
  unfold verify_code_steps, _verify_2fa_code_or_backup. apply run_atomic_bind. intros secret w1.
  apply run_atomic_bind. intros [] w2.
  - apply run_atomic_bind. intros t w3. apply run_atomic_bind. intros seen w4. unfold raise_if, bind.
    destruct (match seen with Some v => rval_truthy v | None => false end); [done|apply run_atomic].
  - apply run_atomic_bind. intros [[] codes] w3; unfold raise_if, bind; cbn [negb]; [apply run_atomic|done].
Qed.

(** Cutting the operation changes nothing for a request that runs alone. *)
Theorem challenge_steps_run ct code rq w :
  run_co (challenge_steps ct code rq) w = verify_two_factor_challenge ct code rq w.
Proof.
  unfold challenge_steps, verify_two_factor_challenge. apply run_atomic_bind. intros raw w1.
  destruct (truthy_text raw) as [uid|]; [|done]. apply run_atomic_bind. intros [f|] w2; [|done].
  unfold raise_if. destruct (negb (is_enabled f)); [done|]. cbn [bind]. unfold bind at 1. unfold ret at 1.
  rewrite run_bind. apply bind_ext; [apply run_verify_code|]. intros [] w3. apply run_atomic_bind. intros [] w4.
  apply run_atomic_bind. intros [user|] w5; [apply run_issue|done].
Qed.

(** ** A closed challenge *)

(** The challenge is there at no time. *)
Definition closed (ct : string) w : Prop := forall t, r_get t (TWO_FACTOR_CHALLENGE ct) (redis w) = None.

Lemma closed_later ct w w' : later w w' -> closed ct w -> closed ct w'.
Proof. by intros (t & _ & ->). Qed.

Lemma closed_gets {A} ct (f : World R -> A) : preserves (closed ct) (gets f : PyM (R := R) A).
Proof. apply preserves_gets. Qed.

Lemma closed_get ct k : preserves (closed ct) (redis_get k).
Proof. intros w Hw. unfold redis_get, redis_command. by destruct (faults w) as [|[] l]. Qed.

Lemma closed_set ct k v e : k <> TWO_FACTOR_CHALLENGE ct -> preserves (closed ct) (redis_set k v (Some e)).
Proof.
  intros Hk w Hw. unfold redis_set, redis_command. destruct (faults w) as [|[] l]; try done; destruct (e <=? 0); try done;
    intros t; cbn; rewrite get_set_ne by done; apply Hw.
Qed.

Lemma closed_del ct ks : preserves (closed ct) (redis_del ks).
Proof.
  intros w Hw. unfold redis_del, redis_command. destruct (faults w) as [|[] l]; try done; intros t; cbn; rewrite get_del;
    destruct (mem _ _); try done; apply Hw.
Qed.

Lemma closed_write {A} ct (f : Tables -> outcome Exn (A * Tables)) : preserves (closed ct) (db_write f : PyM (R := R) A).
Proof. intros w Hw. unfold db_write. by destruct (f (db w)) as [[a t]|e]. Qed.

Lemma closed_pure {A} ct (m : PyM (R := R) A) : (forall w, redis (snd (m w)) = redis w) -> preserves (closed ct) m.
Proof. intros Hm w Hw. unfold closed. by rewrite Hm. Qed.

Lemma pres_issue ct user rq : pres (closed ct) (issue_tokens_steps user rq).
Proof.
  unfold issue_tokens_steps. apply pres_bind; [apply pres_atomic, closed_pure|intros access].
  { intros w. by unfold create_access_token, _create_token, bind, draw, gets. }
  apply pres_bind; [apply pres_atomic, closed_pure|intros refresh].
  { intros w. by unfold create_refresh_token, _create_token, bind, draw, gets. }
  apply pres_bind; [apply pres_atomic, closed_gets|intros t].
  apply pres_bind; [|done]. apply pres_atomic, closed_pure. intros w. unfold upsert_user_session, bind, draw, gets, db_write.
  by repeat case_match.
Qed.

Lemma pres_verify_code ct uid f code : pres (closed ct) (verify_code_steps uid f code).
Proof.
  unfold verify_code_steps. apply pres_bind; [apply pres_atomic, closed_pure|intros secret].
  { intros w. unfold decrypt_secret. by case_match. }
  apply pres_bind; [apply pres_atomic, closed_pure; by intros w|intros []].
  - apply pres_bind; [apply pres_atomic, closed_gets|intros t]. apply pres_bind; [apply pres_atomic, closed_get|intros seen].
    destruct (match seen with Some v => rval_truthy v | None => false end); [done|]. by apply pres_atomic, closed_set.
  - apply pres_bind; [apply pres_atomic, closed_pure; by intros w|intros [[] codes]]; [|done].
    cbn [negb]. apply pres_atomic, closed_write.
Qed.

Lemma pres_challenge ct code rq : pres (closed ct) (challenge_steps ct code rq).
Proof.
  unfold challenge_steps. apply pres_bind; [apply pres_atomic, closed_get|intros raw].
  destruct (truthy_text raw) as [uid|]; [|done]. apply pres_bind; [apply pres_atomic, closed_gets|intros [f|]]; [|done].
  destruct (negb (is_enabled f)); [done|]. apply pres_bind; [apply pres_verify_code|intros _].
  apply pres_bind; [apply pres_atomic, closed_del|intros _]. apply pres_bind; [apply pres_atomic, closed_gets|intros [user|]];
    [apply pres_issue|done].
Qed.

(** A login comes only after the deletion of the challenge. *)
Lemma late_challenge ct code rq : late (closed ct) (challenge_steps ct code rq).
Proof.
  unfold challenge_steps. apply late_bind_r. intros raw. destruct (truthy_text raw) as [uid|]; [|done].
  apply late_bind_r. intros [f|]; [|done]. destruct (negb (is_enabled f)); [done|]. apply late_bind_r. intros _.
  apply late_bind_l, late_atomic. intros w [] w' H. unfold redis_del in H.
  apply redis_command_inv in H as [[? _]|H]; [done|]. injection H as <-. intros t. cbn. rewrite get_del.
  by rewrite (proj2 (mem_true _ _)) by (by apply list_elem_of_singleton).
Qed.

Lemma doomed_challenge ct code rq : doomed (closed ct) (challenge_steps ct code rq).
Proof.
  apply doomed_atomic_bind. intros w raw w' Hw H. apply redis_get_ok_inv in H as [-> ->]. by rewrite Hw.
Qed.

(** C3: However many requests answer one challenge at the same time, in whatever order
    their pieces run and however time passes between them, with whatever codes and
    failing commands: as soon as one of them has signed in the challenge is gone for
    good, and a request that has not looked at it by then never signs in. *)
Theorem answered_challenge_is_closed ct l w s i r :
  rtc (pool_step later) (answers ct l w) s -> members s !! i = Some (Fin (Ok r)) ->
  closed ct (common s) /\
  forall s' j code rq r', rtc (pool_step later) s s' -> members s !! j = Some (challenge_steps ct code rq) ->
    members s' !! j <> Some (Fin (Ok r')).
Proof.
  intros Hs Hi. destruct (pool_ok_steps (closed ct) later (closed_later ct) (answers ct l w) s) as [Hok _]; [|exact Hs|].
  { split; [|right]; apply Forall_fmap, Forall_true; intros [code rq]; [apply pres_challenge|apply late_challenge]. }
  assert (closed ct (common s)) as Hc by (by eapply result_gives_fact). split; [exact Hc|].
  intros s' j code rq r' Hs' Hj Hr.
  destruct (doomed_stays (closed ct) later (closed_later ct) s s' j _ Hok Hc Hj (doomed_challenge ct code rq) Hs')
    as (c & Hj' & Hd). rewrite Hr in Hj'. by injection Hj' as <-.
Qed.

(** ** Cached reads *)

Lemma run_cached {A} `{!Cacheable A} key hk ex (c : Co (World R) Exn A) w :
  run_co (cached_steps key hk ex c) w = cached key hk ex (run_co c) w.
Proof.
  unfold cached_steps, cached. destruct key as [key|]; [|done]. apply run_atomic_bind. intros [a|] w1; [done|].
  rewrite run_bind. apply bind_ext; [done|]. intros a w2. by apply run_atomic_bind.
Qed.

Lemma run_invalidating {A} keys hk inv (c : Co (World R) Exn A) w :
  run_co (invalidating_steps keys hk inv c) w = invalidating keys hk inv (run_co c) w.
Proof.
  unfold invalidating_steps. rewrite run_bind. unfold invalidating at 2. apply bind_ext; [done|]. intros a w1.
  rewrite run_bind. unfold bind at 1. rewrite run_atomic. unfold invalidating, bind, ret.
  by destruct (try_catch _ _ w1) as [[[]|e] w2].
Qed.

Theorem get_config_steps_run w : run_co get_config_steps w = get_config w.
Proof.
  unfold get_config_steps, get_config. rewrite run_cached. unfold cached. apply bind_ext; [done|]. intros [a|] w1; [done|].
  apply bind_ext; [|done]. apply run_atomic_bind. intros [c|] w2; [done|apply run_atomic].
Qed.

Theorem update_config_steps_run b u w : run_co (update_config_steps b u) w = update_config b u w.
Proof.
  unfold update_config_steps, update_config. rewrite run_bind. apply bind_ext.
  - rewrite run_invalidating. unfold dao_update_config, invalidating. apply bind_ext; [apply run_atomic|done].
  - intros c w1. by apply run_atomic_bind.
Qed.

(** What readers of one key keep: the database, and a cache that agrees with it. *)
Definition agreed {A} `{!Cacheable A} (key : string) (g : Tables -> A) (a : A) w : Prop :=
  coherent None key g w /\ g (read_view w) = a.

Lemma agreed_later {A} `{!Cacheable A} key g a w w' : later w w' -> agreed key g a w -> agreed key g a w'.
Proof.
  intros (t & Ht & ->) [Hc Hg]. split; [|done]. intros j x Hj Hx. unfold coherent, entry in *. cbn in Hj |- *.
  destruct (get_mono (now w) t key (redis w) Ht) as [E|E]; rewrite E in Hj; [done|]. by eapply Hc.
Qed.

Lemma good_cached {A} `{!Cacheable A} `{!CacheLaw A} key ex (g : Tables -> A) a :
  (forall e, ex = Some e -> 0 <= e) ->
  good (agreed key g a) (fun x => x = a) (cached_steps (Some key) None ex (atomic (db_read g))).
Proof.
  intros Hex. unfold cached_steps. eapply (good_bind _ (fun r => r = None \/ r = Some a)).
  - apply good_atomic. intros w [Hc Hg]. unfold _get_from_cache, try_catch.
    set (w1 := set_faults (tail (faults w)) w).
    assert (agreed key g a w1) as Hw1 by (split; [intros j x; unfold w1; rewrite entry_faults; apply Hc|done]).
    destruct (cache_lookup_cases None key w) as [Hl|Hl]; unfold bind; rewrite Hl; fold w1; [by split; [|left]|].
    split; [done|]. cbn [fst ret]. destruct (entry None key w) as [[s|j]|] eqn:Ee; [by left| |by left].
    destruct (of_json j) as [x|] eqn:Ej; [|by left]. right. f_equal. rewrite <- Hg. by eapply Hc.
  - intros r [->| ->]; [|done]. eapply (good_bind _ (fun x => x = a)).
    + apply good_atomic. intros w [Hc Hg]. by split; [split|].
    + intros x ->. eapply (good_bind _ (fun _ => True)); [|done]. apply good_atomic. intros w [Hc Hg]. split; [|by destruct (fst _)].
      unfold _save_to_cache, try_catch. destruct (to_json a) as [j|] eqn:Ej; [|by split].
      destruct (cache_store_cases None key (RJson j) ex w Hex) as [[l Hl]|(He & Hd & Hr & Hn)];
        destruct (cache_store None key (RJson j) ex w) as [[[]|e] w2]; cbn in *; subst;
        try (by split; [intros j' x' Hj'; rewrite entry_faults in Hj'; by apply Hc|]);
        (split; [|unfold read_view in *; by rewrite Hd, Hr]); intros j' x' Hj' Hx'; cbn in Hj'; rewrite He in Hj'; injection Hj' as <-;
        rewrite (of_to_json _ _ Ej) in Hx'; injection Hx' as <-; unfold read_view in *; by rewrite Hd, Hr.
Qed.

(** However many reads of one key run at the same time, while commands fail, entries
    expire and nobody writes, each gives what the database holds, and the cache agrees. *)
Theorem concurrent_reads_agree {A} `{!Cacheable A} `{!CacheLaw A} key ex (g : Tables -> A) n w s i x :
  (forall e, ex = Some e -> 0 <= e) -> coherent None key g w ->
  rtc (pool_step later) {| members := replicate n (cached_steps (Some key) None ex (atomic (db_read g))); common := w |} s ->
  members s !! i = Some (Fin (Ok x)) -> x = g (read_view w) /\ coherent None key g (common s).
Proof.
  intros Hex Hc Hs Hi.
  eapply (good_results (agreed key g (g (read_view w))) later (agreed_later key g _) (fun x => x = g (read_view w)))
    in Hs as [Hx [Hs' _]]; [done| | |exact Hi]; [by split|]. apply Forall_replicate. by apply good_cached.
Qed.

(** ** A change between a read and its store *)

Lemma run_turns_cons {W E A} i sched (s : Pool W E A) c c' x :
  members s !! i = Some c -> resume c (common s) = (c', x) ->
  run_turns (i :: sched) s = run_turns sched {| members := <[i := c']> (members s); common := x |}.
Proof. intros Hi Hc. cbn [run_turns]. by rewrite Hi, Hc. Qed.

Lemma resume_atomic {W E A} (m : M W E A) x a y : m x = (Ok a, y) -> resume (atomic m) x = (Fin (Ok a), y).
Proof. intros H. cbn. by rewrite H. Qed.

Lemma resume_bind {W E A B} (c : Co W E A) (k : A -> Co W E B) x c' y :
  (if c is Await _ then resume c x = (c', y) else False) -> resume (co_bind c k) x = (co_bind c' k, y).
Proof. destruct c as [o|f]; [done|]. cbn. by intros ->. Qed.

(** The next turn, in which the piece with the equation [H] runs. *)
Ltac turn H :=
  erewrite run_turns_cons; [|reflexivity|cbn [common]; repeat (eapply resume_bind; cbn [atomic]); exact (resume_atomic _ _ _ _ H)];
  cbn [members insert list_insert co_bind].

(** A reader and a writer of the configuration. *)
Definition reader_and_writer (new_mfa : option bool) (by_user : option uuid) w : Pool (World R) Exn (option SystemConfig) :=
  {| members := [let* c := get_config_steps in Fin (Ok (Some c)); update_config_steps new_mfa by_user]; common := w |}.

Lemma config_miss w : faults w = [] -> r_get (now w) SYSTEM_CONFIG_CACHE (redis w) = None ->
  _get_from_cache (A := SystemConfig) SYSTEM_CONFIG_CACHE None w = (Ok None, w).
Proof. intros Hf Hg. unfold _get_from_cache, try_catch, cache_lookup, bind. by rewrite redis_get_run, Hg. Qed.

Lemma config_save (c : SystemConfig) w : faults w = [] ->
  _save_to_cache SYSTEM_CONFIG_CACHE None c (Some 86400) w =
  (Ok tt, set_redis (r_set (now w) SYSTEM_CONFIG_CACHE (RJson (model_dump c)) (Some 86400)) w).
Proof.
  intros Hf. unfold _save_to_cache, try_catch. cbn [to_json cacheable_model]. unfold cache_store.
  change (86400 =? 0) with false. cbn match. by rewrite redis_set_run.
Qed.

Lemma config_hit (c : SystemConfig) w t w1 : faults w = [] -> now w <= t < now w + 86400 ->
  w1 = set_redis (r_set (now w) SYSTEM_CONFIG_CACHE (RJson (model_dump c)) (Some 86400)) w ->
  fst (get_config (set_now t w1)) = Ok c.
Proof.
  intros Hf Ht ->. unfold get_config, cached, _get_from_cache, try_catch, cache_lookup, bind.
  rewrite redis_get_run by done. cbn [now set_now redis set_redis]. rewrite get_set_eq by lia. cbn [alive].
  replace (t <? now w + 86400) with true by (symmetry; apply Z.ltb_lt; lia). cbn [of_json cacheable_model ret].
  by rewrite model_validate_dump.
Qed.

Lemma publish_run nm p w : faults w = [] -> exists w', publish nm p w = (Ok tt, w') /\
  db w' = db w /\ redis w' = redis w /\ now w' = now w /\ faults w' = [].
Proof. intros Hf. unfold publish, bind, new_uuid4, draw, gets, redis_command, modify. cbn. rewrite Hf. eexists. split; [reflexivity|done]. Qed.

(** The reader misses and reads the row, the writer runs to its end, the reader stores
    what it read: the change succeeded and is in the database, and for a day every read
    gives the old configuration, so that an enforcement just switched on is not asked
    of anyone. *)
Theorem stale_configuration_for_a_day new_mfa by_user w c0 c t :
  replica w = None -> faults w = [] -> r_get (now w) SYSTEM_CONFIG_CACHE (redis w) = None ->
  system_configurations (db w) = Some c0 -> set_config_row (now w) new_mfa by_user (db w) = Ok (Some c, t) ->
  let s := run_turns [0; 0; 1; 1; 1; 0]%nat (reader_and_writer new_mfa by_user w) in
  members s = [Fin (Ok (Some c0)); Fin (Ok (Some c))] /\ db (common s) = t /\
  forall n, now w <= n < now w + 86400 -> fst (get_config (set_now n (common s))) = Ok c0.
Proof.
  intros Hr Hf Hg Hc0 Hc s. unfold s, reader_and_writer, get_config_steps, update_config_steps, cached_steps, invalidating_steps.
  assert (db_read system_configurations w = (Ok (Some c0), w)) as Hread
    by (unfold db_read, gets, read_view; rewrite Hr; cbn; by rewrite Hc0).
  assert (update_config_row new_mfa by_user w = (Ok (Some c), set_db (fun _ => t) w)) as Hwrite
    by (unfold update_config_row, bind, gets, db_write; by rewrite Hc).
  set (w1 := set_db (fun _ => t) w) in *.
  assert (exists w2, invalidating [Some SYSTEM_CONFIG_CACHE] None false (ret tt) w1 = (Ok tt, w2) /\
    db w2 = t /\ now w2 = now w /\ faults w2 = []) as (w2 & Hdel & Hd2 & Hn2 & Hf2).
  { unfold invalidating, bind, ret, try_catch, redis_del, redis_command, modify. cbn. rewrite Hf. eexists. split; [reflexivity|done]. }
  destruct (publish_run "system_config.updated" [("updated_by", jstr_opt by_user)] w2 Hf2) as (w3 & Hpub & Hd3 & _ & Hn3 & Hf3).
  turn (config_miss w Hf Hg).
  turn Hread.
  turn Hwrite.
  turn Hdel.
  turn Hpub.
  turn (config_save c0 w3 Hf3).
  cbn [run_turns members common]. split; [done|]. split; [by rewrite <- Hd2|]. intros n Hn.
  by apply (config_hit c0 w3); [|lia|].
Qed.
End steps.

(** ** Two answers at once *)

(** A schedule is a sequence of steps. *)
Lemma run_turns_steps {W E A} (outside : W -> W -> Prop) sched (s : Pool W E A) : rtc (pool_step outside) s (run_turns sched s).
Proof.
  revert s. induction sched as [|i sched IH]; intros s; [done|]. cbn [run_turns].
  destruct (members s !! i) as [c|] eqn:Hi; [|apply IH]. eapply rtc_l; [by apply pool_resume|]. apply IH.
Qed.

(** A coroutine without a turn stays where it is. *)
Lemma run_turns_other {W E A} sched (s : Pool W E A) j : j ∉ sched -> members (run_turns sched s) !! j = members s !! j.
Proof.
  revert s. induction sched as [|i sched IH]; intros s Hj; [done|]. apply not_elem_of_cons in Hj as [Hne Hj].
  cbn [run_turns]. destruct (members s !! i); rewrite IH by done; [|done]. cbn. by rewrite list_lookup_insert_ne.
Qed.

(** Two requests take turns until both have read the user's row and looked at the replay
    key; then each finishes. *)
Definition taking_turns : list nat := concat (repeat [0; 1] 14)%nat.

Definition signed_in (c : Co (World MapRedis.t) Exn LoginResponse) : bool :=
  match c with Fin (Ok _) => true | _ => false end.

Lemma signed_in_inv o : signed_in <$> o = Some true -> exists r, o = Some (Fin (Ok r)).
Proof. destruct o as [[[r|e]|m]|]; [by exists r|done..]. Qed.

(** The same one-time code signs in twice on one challenge, and so does the same backup
    code, which is spent once. *)
Theorem two_answers_at_once_both_sign_in :
  signed_in <$> members (run_turns taking_turns
    (answers "u411" [(TwoFactorProps.code33, browser); (TwoFactorProps.code33, browser)] TwoFactorProps.challenged)) = [true; true] /\
  signed_in <$> members (run_turns taking_turns
    (answers "u411" [("aaaa-1111", browser); ("aaaa-1111", browser)] TwoFactorProps.challenged)) = [true; true].
Proof. split; vm_compute; reflexivity. Qed.

(** Carol's challenge, answered twice; the first answer runs to its end. *)
Definition two_answers : list (string * Request) := [("aaaa-1111", browser); ("bbbb-2222", browser)].
Definition first_answered : Pool (World MapRedis.t) Exn LoginResponse :=
  run_turns (replicate 14 0%nat) (answers "u411" two_answers TwoFactorProps.challenged).

Lemma answered_challenge_is_closed_witness : exists r,
  members first_answered !! 0%nat = Some (Fin (Ok r)) /\ closed "u411" (common first_answered) /\
  forall s' r', rtc (pool_step later) first_answered s' -> members s' !! 1%nat <> Some (Fin (Ok r')).
Proof.
  assert (signed_in <$> members first_answered !! 0%nat = Some true) as H by (vm_compute; reflexivity).
  apply signed_in_inv in H as [r H]. exists r. split; [exact H|].
  destruct (answered_challenge_is_closed "u411" two_answers TwoFactorProps.challenged first_answered
    0%nat r (run_turns_steps later _ _) H) as [Hc Hn].
  split; [exact Hc|]. intros s' r' Hs'. apply (Hn s' 1%nat "bbbb-2222" browser r' Hs').
  unfold first_answered. rewrite run_turns_other; [reflexivity|]. by intros ?%elem_of_replicate_inv.
Defined.
